(** * BORME bulletin parser: a shallow embedding and its verified properties

    The development follows [borme/scripts/borme_batch_parser.py] (entry
    segmentation, name/body boundary, act and officer extraction, the
    extraction-time company-name normalizer, the batch aggregation) and the
    normalizer of [borme/scripts/borme_placsp_match.py].

    Python strings are sequences of Unicode code points: a string is a
    [list N].  Regular expressions are values of an abstract syntax, run by a
    backtracking matcher with the priorities of Python's [re] module. *)

From Stdlib Require Import String Ascii.
From Stdlib Require Import List NArith ZArith QArith Qabs Bool Arith Lia Lqa
  Permutation Sorted.
Import ListNotations.
Close Scope Q_scope.

Set Implicit Arguments.

(* ===================================================================== *)
(** ** Code points and the character tables of the interpreter *)
(* ===================================================================== *)

Definition char := N.
Definition pystr := list char.

Module Unicode.
Local Open Scope N_scope.

Definition in_range (lo hi c : N) : bool := (lo <=? c) && (c <=? hi).

(** [str.isspace] for one code point; also the class [\s] of [re].  The
    table is complete (Unicode 14, unchanged since Unicode 4). *)
Definition isspace (c : char) : bool :=
  in_range 0x09 0x0D c || in_range 0x1C 0x20 c || (c =? 0x85) || (c =? 0xA0)
  || (c =? 0x1680) || in_range 0x2000 0x200A c || (c =? 0x2028)
  || (c =? 0x2029) || (c =? 0x202F) || (c =? 0x205F) || (c =? 0x3000).

(** The zero digit of each block of ten decimal digits (category Nd,
    Unicode 14 as shipped with CPython 3.11). *)
Definition nd_zeros : list N :=
  [0x30; 0x660; 0x6f0; 0x7c0; 0x966; 0x9e6; 0xa66; 0xae6; 0xb66; 0xbe6;
   0xc66; 0xce6; 0xd66; 0xde6; 0xe50; 0xed0; 0xf20; 0x1040; 0x1090; 0x17e0;
   0x1810; 0x1946; 0x19d0; 0x1a80; 0x1a90; 0x1b50; 0x1bb0; 0x1c40; 0x1c50;
   0xa620; 0xa8d0; 0xa900; 0xa9d0; 0xa9f0; 0xaa50; 0xabf0; 0xff10; 0x104a0;
   0x10d30; 0x11066; 0x110f0; 0x11136; 0x111d0; 0x112f0; 0x11450; 0x114d0;
   0x11650; 0x116c0; 0x11730; 0x118e0; 0x11950; 0x11c50; 0x11d50; 0x11da0;
   0x16a60; 0x16ac0; 0x16b50; 0x1d7ce; 0x1d7d8; 0x1d7e2; 0x1d7ec; 0x1d7f6;
   0x1e140; 0x1e2f0; 0x1e950; 0x1fbf0].

(** The value of a decimal digit: what [int] and [float] read. *)
Definition digit_value (c : char) : option N :=
  match find (fun z => in_range z (z + 9) c) nd_zeros with
  | Some z => Some (c - z)
  | None => None
  end.

(** [str.isdecimal] for one code point; also the class [\d] of [re]. *)
Definition isdecimal (c : char) : bool :=
  match digit_value c with Some _ => true | None => false end.

(** Digits that are not decimal (superscripts, circled digits, ...):
    [str.isdigit] accepts them, [int] does not. *)
Definition other_digit_ranges : list (N * N) :=
  [(0xb2, 0xb3); (0xb9, 0xb9); (0x1369, 0x1371); (0x19da, 0x19da);
   (0x2070, 0x2070); (0x2074, 0x2079); (0x2080, 0x2089); (0x2460, 0x2468);
   (0x2474, 0x247c); (0x2488, 0x2490); (0x24ea, 0x24ea); (0x24f5, 0x24fd);
   (0x24ff, 0x24ff); (0x2776, 0x277e); (0x2780, 0x2788); (0x278a, 0x2792);
   (0x10a40, 0x10a43); (0x10e60, 0x10e68); (0x11052, 0x1105a);
   (0x1f100, 0x1f10a)].

Definition isdigit (c : char) : bool :=
  isdecimal c || existsb (fun r => in_range (fst r) (snd r) c) other_digit_ranges.

(** The lowercase letters whose uppercase is one code point (Unicode 14,
    as shipped with CPython 3.11): an entry [(first, last, step, up)] stands
    for the code points [first], [first + step], ... up to [last], the
    uppercase of [first + k] being [up + k]. *)
Definition upper_ranges : list (N * N * N * N) :=
  [(0x61, 0x7a, 1, 0x41); (0xb5, 0xb5, 1, 0x39c); (0xe0, 0xf6, 1, 0xc0);
   (0xf8, 0xfe, 1, 0xd8); (0xff, 0xff, 1, 0x178); (0x101, 0x12f, 2, 0x100);
   (0x131, 0x131, 1, 0x49); (0x133, 0x137, 2, 0x132);
   (0x13a, 0x148, 2, 0x139); (0x14b, 0x177, 2, 0x14a);
   (0x17a, 0x17e, 2, 0x179); (0x17f, 0x17f, 1, 0x53);
   (0x180, 0x180, 1, 0x243); (0x183, 0x185, 2, 0x182);
   (0x188, 0x188, 1, 0x187); (0x18c, 0x18c, 1, 0x18b);
   (0x192, 0x192, 1, 0x191); (0x195, 0x195, 1, 0x1f6);
   (0x199, 0x199, 1, 0x198); (0x19a, 0x19a, 1, 0x23d);
   (0x19e, 0x19e, 1, 0x220); (0x1a1, 0x1a5, 2, 0x1a0);
   (0x1a8, 0x1a8, 1, 0x1a7); (0x1ad, 0x1ad, 1, 0x1ac);
   (0x1b0, 0x1b0, 1, 0x1af); (0x1b4, 0x1b6, 2, 0x1b3);
   (0x1b9, 0x1b9, 1, 0x1b8); (0x1bd, 0x1bd, 1, 0x1bc);
   (0x1bf, 0x1bf, 1, 0x1f7); (0x1c5, 0x1c5, 1, 0x1c4);
   (0x1c6, 0x1c6, 1, 0x1c4); (0x1c8, 0x1c8, 1, 0x1c7);
   (0x1c9, 0x1c9, 1, 0x1c7); (0x1cb, 0x1cb, 1, 0x1ca);
   (0x1cc, 0x1cc, 1, 0x1ca); (0x1ce, 0x1dc, 2, 0x1cd);
   (0x1dd, 0x1dd, 1, 0x18e); (0x1df, 0x1ef, 2, 0x1de);
   (0x1f2, 0x1f2, 1, 0x1f1); (0x1f3, 0x1f3, 1, 0x1f1);
   (0x1f5, 0x1f5, 1, 0x1f4); (0x1f9, 0x21f, 2, 0x1f8);
   (0x223, 0x233, 2, 0x222); (0x23c, 0x23c, 1, 0x23b);
   (0x23f, 0x240, 1, 0x2c7e); (0x242, 0x242, 1, 0x241);
   (0x247, 0x24f, 2, 0x246); (0x250, 0x250, 1, 0x2c6f);
   (0x251, 0x251, 1, 0x2c6d); (0x252, 0x252, 1, 0x2c70);
   (0x253, 0x253, 1, 0x181); (0x254, 0x254, 1, 0x186);
   (0x256, 0x257, 1, 0x189); (0x259, 0x259, 1, 0x18f);
   (0x25b, 0x25b, 1, 0x190); (0x25c, 0x25c, 1, 0xa7ab);
   (0x260, 0x260, 1, 0x193); (0x261, 0x261, 1, 0xa7ac);
   (0x263, 0x263, 1, 0x194); (0x265, 0x265, 1, 0xa78d);
   (0x266, 0x266, 1, 0xa7aa); (0x268, 0x268, 1, 0x197);
   (0x269, 0x269, 1, 0x196); (0x26a, 0x26a, 1, 0xa7ae);
   (0x26b, 0x26b, 1, 0x2c62); (0x26c, 0x26c, 1, 0xa7ad);
   (0x26f, 0x26f, 1, 0x19c); (0x271, 0x271, 1, 0x2c6e);
   (0x272, 0x272, 1, 0x19d); (0x275, 0x275, 1, 0x19f);
   (0x27d, 0x27d, 1, 0x2c64); (0x280, 0x280, 1, 0x1a6);
   (0x282, 0x282, 1, 0xa7c5); (0x283, 0x283, 1, 0x1a9);
   (0x287, 0x287, 1, 0xa7b1); (0x288, 0x288, 1, 0x1ae);
   (0x289, 0x289, 1, 0x244); (0x28a, 0x28b, 1, 0x1b1);
   (0x28c, 0x28c, 1, 0x245); (0x292, 0x292, 1, 0x1b7);
   (0x29d, 0x29d, 1, 0xa7b2); (0x29e, 0x29e, 1, 0xa7b0);
   (0x345, 0x345, 1, 0x399); (0x371, 0x373, 2, 0x370);
   (0x377, 0x377, 1, 0x376); (0x37b, 0x37d, 1, 0x3fd);
   (0x3ac, 0x3ac, 1, 0x386); (0x3ad, 0x3af, 1, 0x388);
   (0x3b1, 0x3c1, 1, 0x391); (0x3c2, 0x3c2, 1, 0x3a3);
   (0x3c3, 0x3cb, 1, 0x3a3); (0x3cc, 0x3cc, 1, 0x38c);
   (0x3cd, 0x3ce, 1, 0x38e); (0x3d0, 0x3d0, 1, 0x392);
   (0x3d1, 0x3d1, 1, 0x398); (0x3d5, 0x3d5, 1, 0x3a6);
   (0x3d6, 0x3d6, 1, 0x3a0); (0x3d7, 0x3d7, 1, 0x3cf);
   (0x3d9, 0x3ef, 2, 0x3d8); (0x3f0, 0x3f0, 1, 0x39a);
   (0x3f1, 0x3f1, 1, 0x3a1); (0x3f2, 0x3f2, 1, 0x3f9);
   (0x3f3, 0x3f3, 1, 0x37f); (0x3f5, 0x3f5, 1, 0x395);
   (0x3f8, 0x3f8, 1, 0x3f7); (0x3fb, 0x3fb, 1, 0x3fa);
   (0x430, 0x44f, 1, 0x410); (0x450, 0x45f, 1, 0x400);
   (0x461, 0x481, 2, 0x460); (0x48b, 0x4bf, 2, 0x48a);
   (0x4c2, 0x4ce, 2, 0x4c1); (0x4cf, 0x4cf, 1, 0x4c0);
   (0x4d1, 0x52f, 2, 0x4d0); (0x561, 0x586, 1, 0x531);
   (0x10d0, 0x10fa, 1, 0x1c90); (0x10fd, 0x10ff, 1, 0x1cbd);
   (0x13f8, 0x13fd, 1, 0x13f0); (0x1c80, 0x1c80, 1, 0x412);
   (0x1c81, 0x1c81, 1, 0x414); (0x1c82, 0x1c82, 1, 0x41e);
   (0x1c83, 0x1c84, 1, 0x421); (0x1c85, 0x1c85, 1, 0x422);
   (0x1c86, 0x1c86, 1, 0x42a); (0x1c87, 0x1c87, 1, 0x462);
   (0x1c88, 0x1c88, 1, 0xa64a); (0x1d79, 0x1d79, 1, 0xa77d);
   (0x1d7d, 0x1d7d, 1, 0x2c63); (0x1d8e, 0x1d8e, 1, 0xa7c6);
   (0x1e01, 0x1e95, 2, 0x1e00); (0x1e9b, 0x1e9b, 1, 0x1e60);
   (0x1ea1, 0x1eff, 2, 0x1ea0); (0x1f00, 0x1f07, 1, 0x1f08);
   (0x1f10, 0x1f15, 1, 0x1f18); (0x1f20, 0x1f27, 1, 0x1f28);
   (0x1f30, 0x1f37, 1, 0x1f38); (0x1f40, 0x1f45, 1, 0x1f48);
   (0x1f51, 0x1f57, 2, 0x1f59); (0x1f60, 0x1f67, 1, 0x1f68);
   (0x1f70, 0x1f71, 1, 0x1fba); (0x1f72, 0x1f75, 1, 0x1fc8);
   (0x1f76, 0x1f77, 1, 0x1fda); (0x1f78, 0x1f79, 1, 0x1ff8);
   (0x1f7a, 0x1f7b, 1, 0x1fea); (0x1f7c, 0x1f7d, 1, 0x1ffa);
   (0x1fb0, 0x1fb1, 1, 0x1fb8); (0x1fbe, 0x1fbe, 1, 0x399);
   (0x1fd0, 0x1fd1, 1, 0x1fd8); (0x1fe0, 0x1fe1, 1, 0x1fe8);
   (0x1fe5, 0x1fe5, 1, 0x1fec); (0x214e, 0x214e, 1, 0x2132);
   (0x2170, 0x217f, 1, 0x2160); (0x2184, 0x2184, 1, 0x2183);
   (0x24d0, 0x24e9, 1, 0x24b6); (0x2c30, 0x2c5f, 1, 0x2c00);
   (0x2c61, 0x2c61, 1, 0x2c60); (0x2c65, 0x2c65, 1, 0x23a);
   (0x2c66, 0x2c66, 1, 0x23e); (0x2c68, 0x2c6c, 2, 0x2c67);
   (0x2c73, 0x2c73, 1, 0x2c72); (0x2c76, 0x2c76, 1, 0x2c75);
   (0x2c81, 0x2ce3, 2, 0x2c80); (0x2cec, 0x2cee, 2, 0x2ceb);
   (0x2cf3, 0x2cf3, 1, 0x2cf2); (0x2d00, 0x2d25, 1, 0x10a0);
   (0x2d27, 0x2d27, 1, 0x10c7); (0x2d2d, 0x2d2d, 1, 0x10cd);
   (0xa641, 0xa66d, 2, 0xa640); (0xa681, 0xa69b, 2, 0xa680);
   (0xa723, 0xa72f, 2, 0xa722); (0xa733, 0xa76f, 2, 0xa732);
   (0xa77a, 0xa77c, 2, 0xa779); (0xa77f, 0xa787, 2, 0xa77e);
   (0xa78c, 0xa78c, 1, 0xa78b); (0xa791, 0xa793, 2, 0xa790);
   (0xa794, 0xa794, 1, 0xa7c4); (0xa797, 0xa7a9, 2, 0xa796);
   (0xa7b5, 0xa7c3, 2, 0xa7b4); (0xa7c8, 0xa7ca, 2, 0xa7c7);
   (0xa7d1, 0xa7d1, 1, 0xa7d0); (0xa7d7, 0xa7d9, 2, 0xa7d6);
   (0xa7f6, 0xa7f6, 1, 0xa7f5); (0xab53, 0xab53, 1, 0xa7b3);
   (0xab70, 0xabbf, 1, 0x13a0); (0xff41, 0xff5a, 1, 0xff21);
   (0x10428, 0x1044f, 1, 0x10400); (0x104d8, 0x104fb, 1, 0x104b0);
   (0x10597, 0x105bb, 2, 0x10570); (0x10598, 0x105a0, 2, 0x10571);
   (0x105a4, 0x105b0, 2, 0x1057d); (0x105b4, 0x105b8, 2, 0x1058d);
   (0x105bc, 0x105bc, 1, 0x10595); (0x10cc0, 0x10cf2, 1, 0x10c80);
   (0x118c0, 0x118df, 1, 0x118a0); (0x16e60, 0x16e7f, 1, 0x16e40);
   (0x1e922, 0x1e943, 1, 0x1e900)].

(** The code points whose uppercase is several code points. *)
Definition upper_special : list (N * list N) :=
  [(0xdf, [0x53; 0x53]); (0x149, [0x2bc; 0x4e]); (0x1f0, [0x4a; 0x30c]);
   (0x390, [0x399; 0x308; 0x301]); (0x3b0, [0x3a5; 0x308; 0x301]);
   (0x587, [0x535; 0x552]); (0x1e96, [0x48; 0x331]); (0x1e97, [0x54; 0x308]);
   (0x1e98, [0x57; 0x30a]); (0x1e99, [0x59; 0x30a]); (0x1e9a, [0x41; 0x2be]);
   (0x1f50, [0x3a5; 0x313]); (0x1f52, [0x3a5; 0x313; 0x300]);
   (0x1f54, [0x3a5; 0x313; 0x301]); (0x1f56, [0x3a5; 0x313; 0x342]);
   (0x1f80, [0x1f08; 0x399]); (0x1f81, [0x1f09; 0x399]);
   (0x1f82, [0x1f0a; 0x399]); (0x1f83, [0x1f0b; 0x399]);
   (0x1f84, [0x1f0c; 0x399]); (0x1f85, [0x1f0d; 0x399]);
   (0x1f86, [0x1f0e; 0x399]); (0x1f87, [0x1f0f; 0x399]);
   (0x1f88, [0x1f08; 0x399]); (0x1f89, [0x1f09; 0x399]);
   (0x1f8a, [0x1f0a; 0x399]); (0x1f8b, [0x1f0b; 0x399]);
   (0x1f8c, [0x1f0c; 0x399]); (0x1f8d, [0x1f0d; 0x399]);
   (0x1f8e, [0x1f0e; 0x399]); (0x1f8f, [0x1f0f; 0x399]);
   (0x1f90, [0x1f28; 0x399]); (0x1f91, [0x1f29; 0x399]);
   (0x1f92, [0x1f2a; 0x399]); (0x1f93, [0x1f2b; 0x399]);
   (0x1f94, [0x1f2c; 0x399]); (0x1f95, [0x1f2d; 0x399]);
   (0x1f96, [0x1f2e; 0x399]); (0x1f97, [0x1f2f; 0x399]);
   (0x1f98, [0x1f28; 0x399]); (0x1f99, [0x1f29; 0x399]);
   (0x1f9a, [0x1f2a; 0x399]); (0x1f9b, [0x1f2b; 0x399]);
   (0x1f9c, [0x1f2c; 0x399]); (0x1f9d, [0x1f2d; 0x399]);
   (0x1f9e, [0x1f2e; 0x399]); (0x1f9f, [0x1f2f; 0x399]);
   (0x1fa0, [0x1f68; 0x399]); (0x1fa1, [0x1f69; 0x399]);
   (0x1fa2, [0x1f6a; 0x399]); (0x1fa3, [0x1f6b; 0x399]);
   (0x1fa4, [0x1f6c; 0x399]); (0x1fa5, [0x1f6d; 0x399]);
   (0x1fa6, [0x1f6e; 0x399]); (0x1fa7, [0x1f6f; 0x399]);
   (0x1fa8, [0x1f68; 0x399]); (0x1fa9, [0x1f69; 0x399]);
   (0x1faa, [0x1f6a; 0x399]); (0x1fab, [0x1f6b; 0x399]);
   (0x1fac, [0x1f6c; 0x399]); (0x1fad, [0x1f6d; 0x399]);
   (0x1fae, [0x1f6e; 0x399]); (0x1faf, [0x1f6f; 0x399]);
   (0x1fb2, [0x1fba; 0x399]); (0x1fb3, [0x391; 0x399]);
   (0x1fb4, [0x386; 0x399]); (0x1fb6, [0x391; 0x342]);
   (0x1fb7, [0x391; 0x342; 0x399]); (0x1fbc, [0x391; 0x399]);
   (0x1fc2, [0x1fca; 0x399]); (0x1fc3, [0x397; 0x399]);
   (0x1fc4, [0x389; 0x399]); (0x1fc6, [0x397; 0x342]);
   (0x1fc7, [0x397; 0x342; 0x399]); (0x1fcc, [0x397; 0x399]);
   (0x1fd2, [0x399; 0x308; 0x300]); (0x1fd3, [0x399; 0x308; 0x301]);
   (0x1fd6, [0x399; 0x342]); (0x1fd7, [0x399; 0x308; 0x342]);
   (0x1fe2, [0x3a5; 0x308; 0x300]); (0x1fe3, [0x3a5; 0x308; 0x301]);
   (0x1fe4, [0x3a1; 0x313]); (0x1fe6, [0x3a5; 0x342]);
   (0x1fe7, [0x3a5; 0x308; 0x342]); (0x1ff2, [0x1ffa; 0x399]);
   (0x1ff3, [0x3a9; 0x399]); (0x1ff4, [0x38f; 0x399]);
   (0x1ff6, [0x3a9; 0x342]); (0x1ff7, [0x3a9; 0x342; 0x399]);
   (0x1ffc, [0x3a9; 0x399]); (0xfb00, [0x46; 0x46]); (0xfb01, [0x46; 0x49]);
   (0xfb02, [0x46; 0x4c]); (0xfb03, [0x46; 0x46; 0x49]);
   (0xfb04, [0x46; 0x46; 0x4c]); (0xfb05, [0x53; 0x54]);
   (0xfb06, [0x53; 0x54]); (0xfb13, [0x544; 0x546]); (0xfb14, [0x544; 0x535]);
   (0xfb15, [0x544; 0x53b]); (0xfb16, [0x54e; 0x546]);
   (0xfb17, [0x544; 0x53d])].

(** [str.upper] for one code point. *)
Definition upper_char (c : char) : list char :=
  match find (fun e => c =? fst e) upper_special with
  | Some e => snd e
  | None =>
    match find (fun e => let '(lo, hi, step, _) := e in
                         in_range lo hi c && ((c - lo) mod step =? 0))
               upper_ranges with
    | Some (lo, _, _, up) => [up + (c - lo)]
    | None => [c]
    end
  end.

(** The code points of a range of [upper_ranges], as offsets from its
    first one. *)
Definition range_offsets (lo hi step : N) : list N :=
  map (fun j => step * N.of_nat j) (List.seq 0 (S (N.to_nat ((hi - lo) / step)))).

(** The full canonical decomposition of the code points that have one,
    Hangul syllables apart. *)
Definition decomposition_table : list (N * list N) :=
  [(0xc0, [0x41; 0x300]); (0xc1, [0x41; 0x301]); (0xc2, [0x41; 0x302]);
   (0xc3, [0x41; 0x303]); (0xc4, [0x41; 0x308]); (0xc5, [0x41; 0x30a]);
   (0xc7, [0x43; 0x327]); (0xc8, [0x45; 0x300]); (0xc9, [0x45; 0x301]);
   (0xca, [0x45; 0x302]); (0xcb, [0x45; 0x308]); (0xcc, [0x49; 0x300]);
   (0xcd, [0x49; 0x301]); (0xce, [0x49; 0x302]); (0xcf, [0x49; 0x308]);
   (0xd1, [0x4e; 0x303]); (0xd2, [0x4f; 0x300]); (0xd3, [0x4f; 0x301]);
   (0xd4, [0x4f; 0x302]); (0xd5, [0x4f; 0x303]); (0xd6, [0x4f; 0x308]);
   (0xd9, [0x55; 0x300]); (0xda, [0x55; 0x301]); (0xdb, [0x55; 0x302]);
   (0xdc, [0x55; 0x308]); (0xdd, [0x59; 0x301]); (0xe0, [0x61; 0x300]);
   (0xe1, [0x61; 0x301]); (0xe2, [0x61; 0x302]); (0xe3, [0x61; 0x303]);
   (0xe4, [0x61; 0x308]); (0xe5, [0x61; 0x30a]); (0xe7, [0x63; 0x327]);
   (0xe8, [0x65; 0x300]); (0xe9, [0x65; 0x301]); (0xea, [0x65; 0x302]);
   (0xeb, [0x65; 0x308]); (0xec, [0x69; 0x300]); (0xed, [0x69; 0x301]);
   (0xee, [0x69; 0x302]); (0xef, [0x69; 0x308]); (0xf1, [0x6e; 0x303]);
   (0xf2, [0x6f; 0x300]); (0xf3, [0x6f; 0x301]); (0xf4, [0x6f; 0x302]);
   (0xf5, [0x6f; 0x303]); (0xf6, [0x6f; 0x308]); (0xf9, [0x75; 0x300]);
   (0xfa, [0x75; 0x301]); (0xfb, [0x75; 0x302]); (0xfc, [0x75; 0x308]);
   (0xfd, [0x79; 0x301]); (0xff, [0x79; 0x308]); (0x100, [0x41; 0x304]);
   (0x101, [0x61; 0x304]); (0x102, [0x41; 0x306]); (0x103, [0x61; 0x306]);
   (0x104, [0x41; 0x328]); (0x105, [0x61; 0x328]); (0x106, [0x43; 0x301]);
   (0x107, [0x63; 0x301]); (0x108, [0x43; 0x302]); (0x109, [0x63; 0x302]);
   (0x10a, [0x43; 0x307]); (0x10b, [0x63; 0x307]); (0x10c, [0x43; 0x30c]);
   (0x10d, [0x63; 0x30c]); (0x10e, [0x44; 0x30c]); (0x10f, [0x64; 0x30c]);
   (0x112, [0x45; 0x304]); (0x113, [0x65; 0x304]); (0x114, [0x45; 0x306]);
   (0x115, [0x65; 0x306]); (0x116, [0x45; 0x307]); (0x117, [0x65; 0x307]);
   (0x118, [0x45; 0x328]); (0x119, [0x65; 0x328]); (0x11a, [0x45; 0x30c]);
   (0x11b, [0x65; 0x30c]); (0x11c, [0x47; 0x302]); (0x11d, [0x67; 0x302]);
   (0x11e, [0x47; 0x306]); (0x11f, [0x67; 0x306]); (0x120, [0x47; 0x307]);
   (0x121, [0x67; 0x307]); (0x122, [0x47; 0x327]); (0x123, [0x67; 0x327]);
   (0x124, [0x48; 0x302]); (0x125, [0x68; 0x302]); (0x128, [0x49; 0x303]);
   (0x129, [0x69; 0x303]); (0x12a, [0x49; 0x304]); (0x12b, [0x69; 0x304]);
   (0x12c, [0x49; 0x306]); (0x12d, [0x69; 0x306]); (0x12e, [0x49; 0x328]);
   (0x12f, [0x69; 0x328]); (0x130, [0x49; 0x307]); (0x134, [0x4a; 0x302]);
   (0x135, [0x6a; 0x302]); (0x136, [0x4b; 0x327]); (0x137, [0x6b; 0x327]);
   (0x139, [0x4c; 0x301]); (0x13a, [0x6c; 0x301]); (0x13b, [0x4c; 0x327]);
   (0x13c, [0x6c; 0x327]); (0x13d, [0x4c; 0x30c]); (0x13e, [0x6c; 0x30c]);
   (0x143, [0x4e; 0x301]); (0x144, [0x6e; 0x301]); (0x145, [0x4e; 0x327]);
   (0x146, [0x6e; 0x327]); (0x147, [0x4e; 0x30c]); (0x148, [0x6e; 0x30c]);
   (0x14c, [0x4f; 0x304]); (0x14d, [0x6f; 0x304]); (0x14e, [0x4f; 0x306]);
   (0x14f, [0x6f; 0x306]); (0x150, [0x4f; 0x30b]); (0x151, [0x6f; 0x30b]);
   (0x154, [0x52; 0x301]); (0x155, [0x72; 0x301]); (0x156, [0x52; 0x327]);
   (0x157, [0x72; 0x327]); (0x158, [0x52; 0x30c]); (0x159, [0x72; 0x30c]);
   (0x15a, [0x53; 0x301]); (0x15b, [0x73; 0x301]); (0x15c, [0x53; 0x302]);
   (0x15d, [0x73; 0x302]); (0x15e, [0x53; 0x327]); (0x15f, [0x73; 0x327]);
   (0x160, [0x53; 0x30c]); (0x161, [0x73; 0x30c]); (0x162, [0x54; 0x327]);
   (0x163, [0x74; 0x327]); (0x164, [0x54; 0x30c]); (0x165, [0x74; 0x30c]);
   (0x168, [0x55; 0x303]); (0x169, [0x75; 0x303]); (0x16a, [0x55; 0x304]);
   (0x16b, [0x75; 0x304]); (0x16c, [0x55; 0x306]); (0x16d, [0x75; 0x306]);
   (0x16e, [0x55; 0x30a]); (0x16f, [0x75; 0x30a]); (0x170, [0x55; 0x30b]);
   (0x171, [0x75; 0x30b]); (0x172, [0x55; 0x328]); (0x173, [0x75; 0x328]);
   (0x174, [0x57; 0x302]); (0x175, [0x77; 0x302]); (0x176, [0x59; 0x302]);
   (0x177, [0x79; 0x302]); (0x178, [0x59; 0x308]); (0x179, [0x5a; 0x301]);
   (0x17a, [0x7a; 0x301]); (0x17b, [0x5a; 0x307]); (0x17c, [0x7a; 0x307]);
   (0x17d, [0x5a; 0x30c]); (0x17e, [0x7a; 0x30c]); (0x1a0, [0x4f; 0x31b]);
   (0x1a1, [0x6f; 0x31b]); (0x1af, [0x55; 0x31b]); (0x1b0, [0x75; 0x31b]);
   (0x1cd, [0x41; 0x30c]); (0x1ce, [0x61; 0x30c]); (0x1cf, [0x49; 0x30c]);
   (0x1d0, [0x69; 0x30c]); (0x1d1, [0x4f; 0x30c]); (0x1d2, [0x6f; 0x30c]);
   (0x1d3, [0x55; 0x30c]); (0x1d4, [0x75; 0x30c]);
   (0x1d5, [0x55; 0x308; 0x304]); (0x1d6, [0x75; 0x308; 0x304]);
   (0x1d7, [0x55; 0x308; 0x301]); (0x1d8, [0x75; 0x308; 0x301]);
   (0x1d9, [0x55; 0x308; 0x30c]); (0x1da, [0x75; 0x308; 0x30c]);
   (0x1db, [0x55; 0x308; 0x300]); (0x1dc, [0x75; 0x308; 0x300]);
   (0x1de, [0x41; 0x308; 0x304]); (0x1df, [0x61; 0x308; 0x304]);
   (0x1e0, [0x41; 0x307; 0x304]); (0x1e1, [0x61; 0x307; 0x304]);
   (0x1e2, [0xc6; 0x304]); (0x1e3, [0xe6; 0x304]); (0x1e6, [0x47; 0x30c]);
   (0x1e7, [0x67; 0x30c]); (0x1e8, [0x4b; 0x30c]); (0x1e9, [0x6b; 0x30c]);
   (0x1ea, [0x4f; 0x328]); (0x1eb, [0x6f; 0x328]);
   (0x1ec, [0x4f; 0x328; 0x304]); (0x1ed, [0x6f; 0x328; 0x304]);
   (0x1ee, [0x1b7; 0x30c]); (0x1ef, [0x292; 0x30c]); (0x1f0, [0x6a; 0x30c]);
   (0x1f4, [0x47; 0x301]); (0x1f5, [0x67; 0x301]); (0x1f8, [0x4e; 0x300]);
   (0x1f9, [0x6e; 0x300]); (0x1fa, [0x41; 0x30a; 0x301]);
   (0x1fb, [0x61; 0x30a; 0x301]); (0x1fc, [0xc6; 0x301]);
   (0x1fd, [0xe6; 0x301]); (0x1fe, [0xd8; 0x301]); (0x1ff, [0xf8; 0x301]);
   (0x200, [0x41; 0x30f]); (0x201, [0x61; 0x30f]); (0x202, [0x41; 0x311]);
   (0x203, [0x61; 0x311]); (0x204, [0x45; 0x30f]); (0x205, [0x65; 0x30f]);
   (0x206, [0x45; 0x311]); (0x207, [0x65; 0x311]); (0x208, [0x49; 0x30f]);
   (0x209, [0x69; 0x30f]); (0x20a, [0x49; 0x311]); (0x20b, [0x69; 0x311]);
   (0x20c, [0x4f; 0x30f]); (0x20d, [0x6f; 0x30f]); (0x20e, [0x4f; 0x311]);
   (0x20f, [0x6f; 0x311]); (0x210, [0x52; 0x30f]); (0x211, [0x72; 0x30f]);
   (0x212, [0x52; 0x311]); (0x213, [0x72; 0x311]); (0x214, [0x55; 0x30f]);
   (0x215, [0x75; 0x30f]); (0x216, [0x55; 0x311]); (0x217, [0x75; 0x311]);
   (0x218, [0x53; 0x326]); (0x219, [0x73; 0x326]); (0x21a, [0x54; 0x326]);
   (0x21b, [0x74; 0x326]); (0x21e, [0x48; 0x30c]); (0x21f, [0x68; 0x30c]);
   (0x226, [0x41; 0x307]); (0x227, [0x61; 0x307]); (0x228, [0x45; 0x327]);
   (0x229, [0x65; 0x327]); (0x22a, [0x4f; 0x308; 0x304]);
   (0x22b, [0x6f; 0x308; 0x304]); (0x22c, [0x4f; 0x303; 0x304]);
   (0x22d, [0x6f; 0x303; 0x304]); (0x22e, [0x4f; 0x307]);
   (0x22f, [0x6f; 0x307]); (0x230, [0x4f; 0x307; 0x304]);
   (0x231, [0x6f; 0x307; 0x304]); (0x232, [0x59; 0x304]);
   (0x233, [0x79; 0x304]); (0x340, [0x300]); (0x341, [0x301]);
   (0x343, [0x313]); (0x344, [0x308; 0x301]); (0x374, [0x2b9]);
   (0x37e, [0x3b]); (0x385, [0xa8; 0x301]); (0x386, [0x391; 0x301]);
   (0x387, [0xb7]); (0x388, [0x395; 0x301]); (0x389, [0x397; 0x301]);
   (0x38a, [0x399; 0x301]); (0x38c, [0x39f; 0x301]); (0x38e, [0x3a5; 0x301]);
   (0x38f, [0x3a9; 0x301]); (0x390, [0x3b9; 0x308; 0x301]);
   (0x3aa, [0x399; 0x308]); (0x3ab, [0x3a5; 0x308]); (0x3ac, [0x3b1; 0x301]);
   (0x3ad, [0x3b5; 0x301]); (0x3ae, [0x3b7; 0x301]); (0x3af, [0x3b9; 0x301]);
   (0x3b0, [0x3c5; 0x308; 0x301]); (0x3ca, [0x3b9; 0x308]);
   (0x3cb, [0x3c5; 0x308]); (0x3cc, [0x3bf; 0x301]); (0x3cd, [0x3c5; 0x301]);
   (0x3ce, [0x3c9; 0x301]); (0x3d3, [0x3d2; 0x301]); (0x3d4, [0x3d2; 0x308]);
   (0x400, [0x415; 0x300]); (0x401, [0x415; 0x308]); (0x403, [0x413; 0x301]);
   (0x407, [0x406; 0x308]); (0x40c, [0x41a; 0x301]); (0x40d, [0x418; 0x300]);
   (0x40e, [0x423; 0x306]); (0x419, [0x418; 0x306]); (0x439, [0x438; 0x306]);
   (0x450, [0x435; 0x300]); (0x451, [0x435; 0x308]); (0x453, [0x433; 0x301]);
   (0x457, [0x456; 0x308]); (0x45c, [0x43a; 0x301]); (0x45d, [0x438; 0x300]);
   (0x45e, [0x443; 0x306]); (0x476, [0x474; 0x30f]); (0x477, [0x475; 0x30f]);
   (0x4c1, [0x416; 0x306]); (0x4c2, [0x436; 0x306]); (0x4d0, [0x410; 0x306]);
   (0x4d1, [0x430; 0x306]); (0x4d2, [0x410; 0x308]); (0x4d3, [0x430; 0x308]);
   (0x4d6, [0x415; 0x306]); (0x4d7, [0x435; 0x306]); (0x4da, [0x4d8; 0x308]);
   (0x4db, [0x4d9; 0x308]); (0x4dc, [0x416; 0x308]); (0x4dd, [0x436; 0x308]);
   (0x4de, [0x417; 0x308]); (0x4df, [0x437; 0x308]); (0x4e2, [0x418; 0x304]);
   (0x4e3, [0x438; 0x304]); (0x4e4, [0x418; 0x308]); (0x4e5, [0x438; 0x308]);
   (0x4e6, [0x41e; 0x308]); (0x4e7, [0x43e; 0x308]); (0x4ea, [0x4e8; 0x308]);
   (0x4eb, [0x4e9; 0x308]); (0x4ec, [0x42d; 0x308]); (0x4ed, [0x44d; 0x308]);
   (0x4ee, [0x423; 0x304]); (0x4ef, [0x443; 0x304]); (0x4f0, [0x423; 0x308]);
   (0x4f1, [0x443; 0x308]); (0x4f2, [0x423; 0x30b]); (0x4f3, [0x443; 0x30b]);
   (0x4f4, [0x427; 0x308]); (0x4f5, [0x447; 0x308]); (0x4f8, [0x42b; 0x308]);
   (0x4f9, [0x44b; 0x308]); (0x622, [0x627; 0x653]); (0x623, [0x627; 0x654]);
   (0x624, [0x648; 0x654]); (0x625, [0x627; 0x655]); (0x626, [0x64a; 0x654]);
   (0x6c0, [0x6d5; 0x654]); (0x6c2, [0x6c1; 0x654]); (0x6d3, [0x6d2; 0x654]);
   (0x929, [0x928; 0x93c]); (0x931, [0x930; 0x93c]); (0x934, [0x933; 0x93c]);
   (0x958, [0x915; 0x93c]); (0x959, [0x916; 0x93c]); (0x95a, [0x917; 0x93c]);
   (0x95b, [0x91c; 0x93c]); (0x95c, [0x921; 0x93c]); (0x95d, [0x922; 0x93c]);
   (0x95e, [0x92b; 0x93c]); (0x95f, [0x92f; 0x93c]); (0x9cb, [0x9c7; 0x9be]);
   (0x9cc, [0x9c7; 0x9d7]); (0x9dc, [0x9a1; 0x9bc]); (0x9dd, [0x9a2; 0x9bc]);
   (0x9df, [0x9af; 0x9bc]); (0xa33, [0xa32; 0xa3c]); (0xa36, [0xa38; 0xa3c]);
   (0xa59, [0xa16; 0xa3c]); (0xa5a, [0xa17; 0xa3c]); (0xa5b, [0xa1c; 0xa3c]);
   (0xa5e, [0xa2b; 0xa3c]); (0xb48, [0xb47; 0xb56]); (0xb4b, [0xb47; 0xb3e]);
   (0xb4c, [0xb47; 0xb57]); (0xb5c, [0xb21; 0xb3c]); (0xb5d, [0xb22; 0xb3c]);
   (0xb94, [0xb92; 0xbd7]); (0xbca, [0xbc6; 0xbbe]); (0xbcb, [0xbc7; 0xbbe]);
   (0xbcc, [0xbc6; 0xbd7]); (0xc48, [0xc46; 0xc56]); (0xcc0, [0xcbf; 0xcd5]);
   (0xcc7, [0xcc6; 0xcd5]); (0xcc8, [0xcc6; 0xcd6]); (0xcca, [0xcc6; 0xcc2]);
   (0xccb, [0xcc6; 0xcc2; 0xcd5]); (0xd4a, [0xd46; 0xd3e]);
   (0xd4b, [0xd47; 0xd3e]); (0xd4c, [0xd46; 0xd57]); (0xdda, [0xdd9; 0xdca]);
   (0xddc, [0xdd9; 0xdcf]); (0xddd, [0xdd9; 0xdcf; 0xdca]);
   (0xdde, [0xdd9; 0xddf]); (0xf43, [0xf42; 0xfb7]); (0xf4d, [0xf4c; 0xfb7]);
   (0xf52, [0xf51; 0xfb7]); (0xf57, [0xf56; 0xfb7]); (0xf5c, [0xf5b; 0xfb7]);
   (0xf69, [0xf40; 0xfb5]); (0xf73, [0xf71; 0xf72]); (0xf75, [0xf71; 0xf74]);
   (0xf76, [0xfb2; 0xf80]); (0xf78, [0xfb3; 0xf80]); (0xf81, [0xf71; 0xf80]);
   (0xf93, [0xf92; 0xfb7]); (0xf9d, [0xf9c; 0xfb7]); (0xfa2, [0xfa1; 0xfb7]);
   (0xfa7, [0xfa6; 0xfb7]); (0xfac, [0xfab; 0xfb7]); (0xfb9, [0xf90; 0xfb5]);
   (0x1026, [0x1025; 0x102e]); (0x1b06, [0x1b05; 0x1b35]);
   (0x1b08, [0x1b07; 0x1b35]); (0x1b0a, [0x1b09; 0x1b35]);
   (0x1b0c, [0x1b0b; 0x1b35]); (0x1b0e, [0x1b0d; 0x1b35]);
   (0x1b12, [0x1b11; 0x1b35]); (0x1b3b, [0x1b3a; 0x1b35]);
   (0x1b3d, [0x1b3c; 0x1b35]); (0x1b40, [0x1b3e; 0x1b35]);
   (0x1b41, [0x1b3f; 0x1b35]); (0x1b43, [0x1b42; 0x1b35]);
   (0x1e00, [0x41; 0x325]); (0x1e01, [0x61; 0x325]); (0x1e02, [0x42; 0x307]);
   (0x1e03, [0x62; 0x307]); (0x1e04, [0x42; 0x323]); (0x1e05, [0x62; 0x323]);
   (0x1e06, [0x42; 0x331]); (0x1e07, [0x62; 0x331]);
   (0x1e08, [0x43; 0x327; 0x301]); (0x1e09, [0x63; 0x327; 0x301]);
   (0x1e0a, [0x44; 0x307]); (0x1e0b, [0x64; 0x307]); (0x1e0c, [0x44; 0x323]);
   (0x1e0d, [0x64; 0x323]); (0x1e0e, [0x44; 0x331]); (0x1e0f, [0x64; 0x331]);
   (0x1e10, [0x44; 0x327]); (0x1e11, [0x64; 0x327]); (0x1e12, [0x44; 0x32d]);
   (0x1e13, [0x64; 0x32d]); (0x1e14, [0x45; 0x304; 0x300]);
   (0x1e15, [0x65; 0x304; 0x300]); (0x1e16, [0x45; 0x304; 0x301]);
   (0x1e17, [0x65; 0x304; 0x301]); (0x1e18, [0x45; 0x32d]);
   (0x1e19, [0x65; 0x32d]); (0x1e1a, [0x45; 0x330]); (0x1e1b, [0x65; 0x330]);
   (0x1e1c, [0x45; 0x327; 0x306]); (0x1e1d, [0x65; 0x327; 0x306]);
   (0x1e1e, [0x46; 0x307]); (0x1e1f, [0x66; 0x307]); (0x1e20, [0x47; 0x304]);
   (0x1e21, [0x67; 0x304]); (0x1e22, [0x48; 0x307]); (0x1e23, [0x68; 0x307]);
   (0x1e24, [0x48; 0x323]); (0x1e25, [0x68; 0x323]); (0x1e26, [0x48; 0x308]);
   (0x1e27, [0x68; 0x308]); (0x1e28, [0x48; 0x327]); (0x1e29, [0x68; 0x327]);
   (0x1e2a, [0x48; 0x32e]); (0x1e2b, [0x68; 0x32e]); (0x1e2c, [0x49; 0x330]);
   (0x1e2d, [0x69; 0x330]); (0x1e2e, [0x49; 0x308; 0x301]);
   (0x1e2f, [0x69; 0x308; 0x301]); (0x1e30, [0x4b; 0x301]);
   (0x1e31, [0x6b; 0x301]); (0x1e32, [0x4b; 0x323]); (0x1e33, [0x6b; 0x323]);
   (0x1e34, [0x4b; 0x331]); (0x1e35, [0x6b; 0x331]); (0x1e36, [0x4c; 0x323]);
   (0x1e37, [0x6c; 0x323]); (0x1e38, [0x4c; 0x323; 0x304]);
   (0x1e39, [0x6c; 0x323; 0x304]); (0x1e3a, [0x4c; 0x331]);
   (0x1e3b, [0x6c; 0x331]); (0x1e3c, [0x4c; 0x32d]); (0x1e3d, [0x6c; 0x32d]);
   (0x1e3e, [0x4d; 0x301]); (0x1e3f, [0x6d; 0x301]); (0x1e40, [0x4d; 0x307]);
   (0x1e41, [0x6d; 0x307]); (0x1e42, [0x4d; 0x323]); (0x1e43, [0x6d; 0x323]);
   (0x1e44, [0x4e; 0x307]); (0x1e45, [0x6e; 0x307]); (0x1e46, [0x4e; 0x323]);
   (0x1e47, [0x6e; 0x323]); (0x1e48, [0x4e; 0x331]); (0x1e49, [0x6e; 0x331]);
   (0x1e4a, [0x4e; 0x32d]); (0x1e4b, [0x6e; 0x32d]);
   (0x1e4c, [0x4f; 0x303; 0x301]); (0x1e4d, [0x6f; 0x303; 0x301]);
   (0x1e4e, [0x4f; 0x303; 0x308]); (0x1e4f, [0x6f; 0x303; 0x308]);
   (0x1e50, [0x4f; 0x304; 0x300]); (0x1e51, [0x6f; 0x304; 0x300]);
   (0x1e52, [0x4f; 0x304; 0x301]); (0x1e53, [0x6f; 0x304; 0x301]);
   (0x1e54, [0x50; 0x301]); (0x1e55, [0x70; 0x301]); (0x1e56, [0x50; 0x307]);
   (0x1e57, [0x70; 0x307]); (0x1e58, [0x52; 0x307]); (0x1e59, [0x72; 0x307]);
   (0x1e5a, [0x52; 0x323]); (0x1e5b, [0x72; 0x323]);
   (0x1e5c, [0x52; 0x323; 0x304]); (0x1e5d, [0x72; 0x323; 0x304]);
   (0x1e5e, [0x52; 0x331]); (0x1e5f, [0x72; 0x331]); (0x1e60, [0x53; 0x307]);
   (0x1e61, [0x73; 0x307]); (0x1e62, [0x53; 0x323]); (0x1e63, [0x73; 0x323]);
   (0x1e64, [0x53; 0x301; 0x307]); (0x1e65, [0x73; 0x301; 0x307]);
   (0x1e66, [0x53; 0x30c; 0x307]); (0x1e67, [0x73; 0x30c; 0x307]);
   (0x1e68, [0x53; 0x323; 0x307]); (0x1e69, [0x73; 0x323; 0x307]);
   (0x1e6a, [0x54; 0x307]); (0x1e6b, [0x74; 0x307]); (0x1e6c, [0x54; 0x323]);
   (0x1e6d, [0x74; 0x323]); (0x1e6e, [0x54; 0x331]); (0x1e6f, [0x74; 0x331]);
   (0x1e70, [0x54; 0x32d]); (0x1e71, [0x74; 0x32d]); (0x1e72, [0x55; 0x324]);
   (0x1e73, [0x75; 0x324]); (0x1e74, [0x55; 0x330]); (0x1e75, [0x75; 0x330]);
   (0x1e76, [0x55; 0x32d]); (0x1e77, [0x75; 0x32d]);
   (0x1e78, [0x55; 0x303; 0x301]); (0x1e79, [0x75; 0x303; 0x301]);
   (0x1e7a, [0x55; 0x304; 0x308]); (0x1e7b, [0x75; 0x304; 0x308]);
   (0x1e7c, [0x56; 0x303]); (0x1e7d, [0x76; 0x303]); (0x1e7e, [0x56; 0x323]);
   (0x1e7f, [0x76; 0x323]); (0x1e80, [0x57; 0x300]); (0x1e81, [0x77; 0x300]);
   (0x1e82, [0x57; 0x301]); (0x1e83, [0x77; 0x301]); (0x1e84, [0x57; 0x308]);
   (0x1e85, [0x77; 0x308]); (0x1e86, [0x57; 0x307]); (0x1e87, [0x77; 0x307]);
   (0x1e88, [0x57; 0x323]); (0x1e89, [0x77; 0x323]); (0x1e8a, [0x58; 0x307]);
   (0x1e8b, [0x78; 0x307]); (0x1e8c, [0x58; 0x308]); (0x1e8d, [0x78; 0x308]);
   (0x1e8e, [0x59; 0x307]); (0x1e8f, [0x79; 0x307]); (0x1e90, [0x5a; 0x302]);
   (0x1e91, [0x7a; 0x302]); (0x1e92, [0x5a; 0x323]); (0x1e93, [0x7a; 0x323]);
   (0x1e94, [0x5a; 0x331]); (0x1e95, [0x7a; 0x331]); (0x1e96, [0x68; 0x331]);
   (0x1e97, [0x74; 0x308]); (0x1e98, [0x77; 0x30a]); (0x1e99, [0x79; 0x30a]);
   (0x1e9b, [0x17f; 0x307]); (0x1ea0, [0x41; 0x323]); (0x1ea1, [0x61; 0x323]);
   (0x1ea2, [0x41; 0x309]); (0x1ea3, [0x61; 0x309]);
   (0x1ea4, [0x41; 0x302; 0x301]); (0x1ea5, [0x61; 0x302; 0x301]);
   (0x1ea6, [0x41; 0x302; 0x300]); (0x1ea7, [0x61; 0x302; 0x300]);
   (0x1ea8, [0x41; 0x302; 0x309]); (0x1ea9, [0x61; 0x302; 0x309]);
   (0x1eaa, [0x41; 0x302; 0x303]); (0x1eab, [0x61; 0x302; 0x303]);
   (0x1eac, [0x41; 0x323; 0x302]); (0x1ead, [0x61; 0x323; 0x302]);
   (0x1eae, [0x41; 0x306; 0x301]); (0x1eaf, [0x61; 0x306; 0x301]);
   (0x1eb0, [0x41; 0x306; 0x300]); (0x1eb1, [0x61; 0x306; 0x300]);
   (0x1eb2, [0x41; 0x306; 0x309]); (0x1eb3, [0x61; 0x306; 0x309]);
   (0x1eb4, [0x41; 0x306; 0x303]); (0x1eb5, [0x61; 0x306; 0x303]);
   (0x1eb6, [0x41; 0x323; 0x306]); (0x1eb7, [0x61; 0x323; 0x306]);
   (0x1eb8, [0x45; 0x323]); (0x1eb9, [0x65; 0x323]); (0x1eba, [0x45; 0x309]);
   (0x1ebb, [0x65; 0x309]); (0x1ebc, [0x45; 0x303]); (0x1ebd, [0x65; 0x303]);
   (0x1ebe, [0x45; 0x302; 0x301]); (0x1ebf, [0x65; 0x302; 0x301]);
   (0x1ec0, [0x45; 0x302; 0x300]); (0x1ec1, [0x65; 0x302; 0x300]);
   (0x1ec2, [0x45; 0x302; 0x309]); (0x1ec3, [0x65; 0x302; 0x309]);
   (0x1ec4, [0x45; 0x302; 0x303]); (0x1ec5, [0x65; 0x302; 0x303]);
   (0x1ec6, [0x45; 0x323; 0x302]); (0x1ec7, [0x65; 0x323; 0x302]);
   (0x1ec8, [0x49; 0x309]); (0x1ec9, [0x69; 0x309]); (0x1eca, [0x49; 0x323]);
   (0x1ecb, [0x69; 0x323]); (0x1ecc, [0x4f; 0x323]); (0x1ecd, [0x6f; 0x323]);
   (0x1ece, [0x4f; 0x309]); (0x1ecf, [0x6f; 0x309]);
   (0x1ed0, [0x4f; 0x302; 0x301]); (0x1ed1, [0x6f; 0x302; 0x301]);
   (0x1ed2, [0x4f; 0x302; 0x300]); (0x1ed3, [0x6f; 0x302; 0x300]);
   (0x1ed4, [0x4f; 0x302; 0x309]); (0x1ed5, [0x6f; 0x302; 0x309]);
   (0x1ed6, [0x4f; 0x302; 0x303]); (0x1ed7, [0x6f; 0x302; 0x303]);
   (0x1ed8, [0x4f; 0x323; 0x302]); (0x1ed9, [0x6f; 0x323; 0x302]);
   (0x1eda, [0x4f; 0x31b; 0x301]); (0x1edb, [0x6f; 0x31b; 0x301]);
   (0x1edc, [0x4f; 0x31b; 0x300]); (0x1edd, [0x6f; 0x31b; 0x300]);
   (0x1ede, [0x4f; 0x31b; 0x309]); (0x1edf, [0x6f; 0x31b; 0x309]);
   (0x1ee0, [0x4f; 0x31b; 0x303]); (0x1ee1, [0x6f; 0x31b; 0x303]);
   (0x1ee2, [0x4f; 0x31b; 0x323]); (0x1ee3, [0x6f; 0x31b; 0x323]);
   (0x1ee4, [0x55; 0x323]); (0x1ee5, [0x75; 0x323]); (0x1ee6, [0x55; 0x309]);
   (0x1ee7, [0x75; 0x309]); (0x1ee8, [0x55; 0x31b; 0x301]);
   (0x1ee9, [0x75; 0x31b; 0x301]); (0x1eea, [0x55; 0x31b; 0x300]);
   (0x1eeb, [0x75; 0x31b; 0x300]); (0x1eec, [0x55; 0x31b; 0x309]);
   (0x1eed, [0x75; 0x31b; 0x309]); (0x1eee, [0x55; 0x31b; 0x303]);
   (0x1eef, [0x75; 0x31b; 0x303]); (0x1ef0, [0x55; 0x31b; 0x323]);
   (0x1ef1, [0x75; 0x31b; 0x323]); (0x1ef2, [0x59; 0x300]);
   (0x1ef3, [0x79; 0x300]); (0x1ef4, [0x59; 0x323]); (0x1ef5, [0x79; 0x323]);
   (0x1ef6, [0x59; 0x309]); (0x1ef7, [0x79; 0x309]); (0x1ef8, [0x59; 0x303]);
   (0x1ef9, [0x79; 0x303]); (0x1f00, [0x3b1; 0x313]);
   (0x1f01, [0x3b1; 0x314]); (0x1f02, [0x3b1; 0x313; 0x300]);
   (0x1f03, [0x3b1; 0x314; 0x300]); (0x1f04, [0x3b1; 0x313; 0x301]);
   (0x1f05, [0x3b1; 0x314; 0x301]); (0x1f06, [0x3b1; 0x313; 0x342]);
   (0x1f07, [0x3b1; 0x314; 0x342]); (0x1f08, [0x391; 0x313]);
   (0x1f09, [0x391; 0x314]); (0x1f0a, [0x391; 0x313; 0x300]);
   (0x1f0b, [0x391; 0x314; 0x300]); (0x1f0c, [0x391; 0x313; 0x301]);
   (0x1f0d, [0x391; 0x314; 0x301]); (0x1f0e, [0x391; 0x313; 0x342]);
   (0x1f0f, [0x391; 0x314; 0x342]); (0x1f10, [0x3b5; 0x313]);
   (0x1f11, [0x3b5; 0x314]); (0x1f12, [0x3b5; 0x313; 0x300]);
   (0x1f13, [0x3b5; 0x314; 0x300]); (0x1f14, [0x3b5; 0x313; 0x301]);
   (0x1f15, [0x3b5; 0x314; 0x301]); (0x1f18, [0x395; 0x313]);
   (0x1f19, [0x395; 0x314]); (0x1f1a, [0x395; 0x313; 0x300]);
   (0x1f1b, [0x395; 0x314; 0x300]); (0x1f1c, [0x395; 0x313; 0x301]);
   (0x1f1d, [0x395; 0x314; 0x301]); (0x1f20, [0x3b7; 0x313]);
   (0x1f21, [0x3b7; 0x314]); (0x1f22, [0x3b7; 0x313; 0x300]);
   (0x1f23, [0x3b7; 0x314; 0x300]); (0x1f24, [0x3b7; 0x313; 0x301]);
   (0x1f25, [0x3b7; 0x314; 0x301]); (0x1f26, [0x3b7; 0x313; 0x342]);
   (0x1f27, [0x3b7; 0x314; 0x342]); (0x1f28, [0x397; 0x313]);
   (0x1f29, [0x397; 0x314]); (0x1f2a, [0x397; 0x313; 0x300]);
   (0x1f2b, [0x397; 0x314; 0x300]); (0x1f2c, [0x397; 0x313; 0x301]);
   (0x1f2d, [0x397; 0x314; 0x301]); (0x1f2e, [0x397; 0x313; 0x342]);
   (0x1f2f, [0x397; 0x314; 0x342]); (0x1f30, [0x3b9; 0x313]);
   (0x1f31, [0x3b9; 0x314]); (0x1f32, [0x3b9; 0x313; 0x300]);
   (0x1f33, [0x3b9; 0x314; 0x300]); (0x1f34, [0x3b9; 0x313; 0x301]);
   (0x1f35, [0x3b9; 0x314; 0x301]); (0x1f36, [0x3b9; 0x313; 0x342]);
   (0x1f37, [0x3b9; 0x314; 0x342]); (0x1f38, [0x399; 0x313]);
   (0x1f39, [0x399; 0x314]); (0x1f3a, [0x399; 0x313; 0x300]);
   (0x1f3b, [0x399; 0x314; 0x300]); (0x1f3c, [0x399; 0x313; 0x301]);
   (0x1f3d, [0x399; 0x314; 0x301]); (0x1f3e, [0x399; 0x313; 0x342]);
   (0x1f3f, [0x399; 0x314; 0x342]); (0x1f40, [0x3bf; 0x313]);
   (0x1f41, [0x3bf; 0x314]); (0x1f42, [0x3bf; 0x313; 0x300]);
   (0x1f43, [0x3bf; 0x314; 0x300]); (0x1f44, [0x3bf; 0x313; 0x301]);
   (0x1f45, [0x3bf; 0x314; 0x301]); (0x1f48, [0x39f; 0x313]);
   (0x1f49, [0x39f; 0x314]); (0x1f4a, [0x39f; 0x313; 0x300]);
   (0x1f4b, [0x39f; 0x314; 0x300]); (0x1f4c, [0x39f; 0x313; 0x301]);
   (0x1f4d, [0x39f; 0x314; 0x301]); (0x1f50, [0x3c5; 0x313]);
   (0x1f51, [0x3c5; 0x314]); (0x1f52, [0x3c5; 0x313; 0x300]);
   (0x1f53, [0x3c5; 0x314; 0x300]); (0x1f54, [0x3c5; 0x313; 0x301]);
   (0x1f55, [0x3c5; 0x314; 0x301]); (0x1f56, [0x3c5; 0x313; 0x342]);
   (0x1f57, [0x3c5; 0x314; 0x342]); (0x1f59, [0x3a5; 0x314]);
   (0x1f5b, [0x3a5; 0x314; 0x300]); (0x1f5d, [0x3a5; 0x314; 0x301]);
   (0x1f5f, [0x3a5; 0x314; 0x342]); (0x1f60, [0x3c9; 0x313]);
   (0x1f61, [0x3c9; 0x314]); (0x1f62, [0x3c9; 0x313; 0x300]);
   (0x1f63, [0x3c9; 0x314; 0x300]); (0x1f64, [0x3c9; 0x313; 0x301]);
   (0x1f65, [0x3c9; 0x314; 0x301]); (0x1f66, [0x3c9; 0x313; 0x342]);
   (0x1f67, [0x3c9; 0x314; 0x342]); (0x1f68, [0x3a9; 0x313]);
   (0x1f69, [0x3a9; 0x314]); (0x1f6a, [0x3a9; 0x313; 0x300]);
   (0x1f6b, [0x3a9; 0x314; 0x300]); (0x1f6c, [0x3a9; 0x313; 0x301]);
   (0x1f6d, [0x3a9; 0x314; 0x301]); (0x1f6e, [0x3a9; 0x313; 0x342]);
   (0x1f6f, [0x3a9; 0x314; 0x342]); (0x1f70, [0x3b1; 0x300]);
   (0x1f71, [0x3b1; 0x301]); (0x1f72, [0x3b5; 0x300]);
   (0x1f73, [0x3b5; 0x301]); (0x1f74, [0x3b7; 0x300]);
   (0x1f75, [0x3b7; 0x301]); (0x1f76, [0x3b9; 0x300]);
   (0x1f77, [0x3b9; 0x301]); (0x1f78, [0x3bf; 0x300]);
   (0x1f79, [0x3bf; 0x301]); (0x1f7a, [0x3c5; 0x300]);
   (0x1f7b, [0x3c5; 0x301]); (0x1f7c, [0x3c9; 0x300]);
   (0x1f7d, [0x3c9; 0x301]); (0x1f80, [0x3b1; 0x313; 0x345]);
   (0x1f81, [0x3b1; 0x314; 0x345]); (0x1f82, [0x3b1; 0x313; 0x300; 0x345]);
   (0x1f83, [0x3b1; 0x314; 0x300; 0x345]);
   (0x1f84, [0x3b1; 0x313; 0x301; 0x345]);
   (0x1f85, [0x3b1; 0x314; 0x301; 0x345]);
   (0x1f86, [0x3b1; 0x313; 0x342; 0x345]);
   (0x1f87, [0x3b1; 0x314; 0x342; 0x345]); (0x1f88, [0x391; 0x313; 0x345]);
   (0x1f89, [0x391; 0x314; 0x345]); (0x1f8a, [0x391; 0x313; 0x300; 0x345]);
   (0x1f8b, [0x391; 0x314; 0x300; 0x345]);
   (0x1f8c, [0x391; 0x313; 0x301; 0x345]);
   (0x1f8d, [0x391; 0x314; 0x301; 0x345]);
   (0x1f8e, [0x391; 0x313; 0x342; 0x345]);
   (0x1f8f, [0x391; 0x314; 0x342; 0x345]); (0x1f90, [0x3b7; 0x313; 0x345]);
   (0x1f91, [0x3b7; 0x314; 0x345]); (0x1f92, [0x3b7; 0x313; 0x300; 0x345]);
   (0x1f93, [0x3b7; 0x314; 0x300; 0x345]);
   (0x1f94, [0x3b7; 0x313; 0x301; 0x345]);
   (0x1f95, [0x3b7; 0x314; 0x301; 0x345]);
   (0x1f96, [0x3b7; 0x313; 0x342; 0x345]);
   (0x1f97, [0x3b7; 0x314; 0x342; 0x345]); (0x1f98, [0x397; 0x313; 0x345]);
   (0x1f99, [0x397; 0x314; 0x345]); (0x1f9a, [0x397; 0x313; 0x300; 0x345]);
   (0x1f9b, [0x397; 0x314; 0x300; 0x345]);
   (0x1f9c, [0x397; 0x313; 0x301; 0x345]);
   (0x1f9d, [0x397; 0x314; 0x301; 0x345]);
   (0x1f9e, [0x397; 0x313; 0x342; 0x345]);
   (0x1f9f, [0x397; 0x314; 0x342; 0x345]); (0x1fa0, [0x3c9; 0x313; 0x345]);
   (0x1fa1, [0x3c9; 0x314; 0x345]); (0x1fa2, [0x3c9; 0x313; 0x300; 0x345]);
   (0x1fa3, [0x3c9; 0x314; 0x300; 0x345]);
   (0x1fa4, [0x3c9; 0x313; 0x301; 0x345]);
   (0x1fa5, [0x3c9; 0x314; 0x301; 0x345]);
   (0x1fa6, [0x3c9; 0x313; 0x342; 0x345]);
   (0x1fa7, [0x3c9; 0x314; 0x342; 0x345]); (0x1fa8, [0x3a9; 0x313; 0x345]);
   (0x1fa9, [0x3a9; 0x314; 0x345]); (0x1faa, [0x3a9; 0x313; 0x300; 0x345]);
   (0x1fab, [0x3a9; 0x314; 0x300; 0x345]);
   (0x1fac, [0x3a9; 0x313; 0x301; 0x345]);
   (0x1fad, [0x3a9; 0x314; 0x301; 0x345]);
   (0x1fae, [0x3a9; 0x313; 0x342; 0x345]);
   (0x1faf, [0x3a9; 0x314; 0x342; 0x345]); (0x1fb0, [0x3b1; 0x306]);
   (0x1fb1, [0x3b1; 0x304]); (0x1fb2, [0x3b1; 0x300; 0x345]);
   (0x1fb3, [0x3b1; 0x345]); (0x1fb4, [0x3b1; 0x301; 0x345]);
   (0x1fb6, [0x3b1; 0x342]); (0x1fb7, [0x3b1; 0x342; 0x345]);
   (0x1fb8, [0x391; 0x306]); (0x1fb9, [0x391; 0x304]);
   (0x1fba, [0x391; 0x300]); (0x1fbb, [0x391; 0x301]);
   (0x1fbc, [0x391; 0x345]); (0x1fbe, [0x3b9]); (0x1fc1, [0xa8; 0x342]);
   (0x1fc2, [0x3b7; 0x300; 0x345]); (0x1fc3, [0x3b7; 0x345]);
   (0x1fc4, [0x3b7; 0x301; 0x345]); (0x1fc6, [0x3b7; 0x342]);
   (0x1fc7, [0x3b7; 0x342; 0x345]); (0x1fc8, [0x395; 0x300]);
   (0x1fc9, [0x395; 0x301]); (0x1fca, [0x397; 0x300]);
   (0x1fcb, [0x397; 0x301]); (0x1fcc, [0x397; 0x345]);
   (0x1fcd, [0x1fbf; 0x300]); (0x1fce, [0x1fbf; 0x301]);
   (0x1fcf, [0x1fbf; 0x342]); (0x1fd0, [0x3b9; 0x306]);
   (0x1fd1, [0x3b9; 0x304]); (0x1fd2, [0x3b9; 0x308; 0x300]);
   (0x1fd3, [0x3b9; 0x308; 0x301]); (0x1fd6, [0x3b9; 0x342]);
   (0x1fd7, [0x3b9; 0x308; 0x342]); (0x1fd8, [0x399; 0x306]);
   (0x1fd9, [0x399; 0x304]); (0x1fda, [0x399; 0x300]);
   (0x1fdb, [0x399; 0x301]); (0x1fdd, [0x1ffe; 0x300]);
   (0x1fde, [0x1ffe; 0x301]); (0x1fdf, [0x1ffe; 0x342]);
   (0x1fe0, [0x3c5; 0x306]); (0x1fe1, [0x3c5; 0x304]);
   (0x1fe2, [0x3c5; 0x308; 0x300]); (0x1fe3, [0x3c5; 0x308; 0x301]);
   (0x1fe4, [0x3c1; 0x313]); (0x1fe5, [0x3c1; 0x314]);
   (0x1fe6, [0x3c5; 0x342]); (0x1fe7, [0x3c5; 0x308; 0x342]);
   (0x1fe8, [0x3a5; 0x306]); (0x1fe9, [0x3a5; 0x304]);
   (0x1fea, [0x3a5; 0x300]); (0x1feb, [0x3a5; 0x301]);
   (0x1fec, [0x3a1; 0x314]); (0x1fed, [0xa8; 0x300]); (0x1fee, [0xa8; 0x301]);
   (0x1fef, [0x60]); (0x1ff2, [0x3c9; 0x300; 0x345]);
   (0x1ff3, [0x3c9; 0x345]); (0x1ff4, [0x3c9; 0x301; 0x345]);
   (0x1ff6, [0x3c9; 0x342]); (0x1ff7, [0x3c9; 0x342; 0x345]);
   (0x1ff8, [0x39f; 0x300]); (0x1ff9, [0x39f; 0x301]);
   (0x1ffa, [0x3a9; 0x300]); (0x1ffb, [0x3a9; 0x301]);
   (0x1ffc, [0x3a9; 0x345]); (0x1ffd, [0xb4]); (0x2000, [0x2002]);
   (0x2001, [0x2003]); (0x2126, [0x3a9]); (0x212a, [0x4b]);
   (0x212b, [0x41; 0x30a]); (0x219a, [0x2190; 0x338]);
   (0x219b, [0x2192; 0x338]); (0x21ae, [0x2194; 0x338]);
   (0x21cd, [0x21d0; 0x338]); (0x21ce, [0x21d4; 0x338]);
   (0x21cf, [0x21d2; 0x338]); (0x2204, [0x2203; 0x338]);
   (0x2209, [0x2208; 0x338]); (0x220c, [0x220b; 0x338]);
   (0x2224, [0x2223; 0x338]); (0x2226, [0x2225; 0x338]);
   (0x2241, [0x223c; 0x338]); (0x2244, [0x2243; 0x338]);
   (0x2247, [0x2245; 0x338]); (0x2249, [0x2248; 0x338]);
   (0x2260, [0x3d; 0x338]); (0x2262, [0x2261; 0x338]);
   (0x226d, [0x224d; 0x338]); (0x226e, [0x3c; 0x338]);
   (0x226f, [0x3e; 0x338]); (0x2270, [0x2264; 0x338]);
   (0x2271, [0x2265; 0x338]); (0x2274, [0x2272; 0x338]);
   (0x2275, [0x2273; 0x338]); (0x2278, [0x2276; 0x338]);
   (0x2279, [0x2277; 0x338]); (0x2280, [0x227a; 0x338]);
   (0x2281, [0x227b; 0x338]); (0x2284, [0x2282; 0x338]);
   (0x2285, [0x2283; 0x338]); (0x2288, [0x2286; 0x338]);
   (0x2289, [0x2287; 0x338]); (0x22ac, [0x22a2; 0x338]);
   (0x22ad, [0x22a8; 0x338]); (0x22ae, [0x22a9; 0x338]);
   (0x22af, [0x22ab; 0x338]); (0x22e0, [0x227c; 0x338]);
   (0x22e1, [0x227d; 0x338]); (0x22e2, [0x2291; 0x338]);
   (0x22e3, [0x2292; 0x338]); (0x22ea, [0x22b2; 0x338]);
   (0x22eb, [0x22b3; 0x338]); (0x22ec, [0x22b4; 0x338]);
   (0x22ed, [0x22b5; 0x338]); (0x2329, [0x3008]); (0x232a, [0x3009]);
   (0x2adc, [0x2add; 0x338]); (0x304c, [0x304b; 0x3099]);
   (0x304e, [0x304d; 0x3099]); (0x3050, [0x304f; 0x3099]);
   (0x3052, [0x3051; 0x3099]); (0x3054, [0x3053; 0x3099]);
   (0x3056, [0x3055; 0x3099]); (0x3058, [0x3057; 0x3099]);
   (0x305a, [0x3059; 0x3099]); (0x305c, [0x305b; 0x3099]);
   (0x305e, [0x305d; 0x3099]); (0x3060, [0x305f; 0x3099]);
   (0x3062, [0x3061; 0x3099]); (0x3065, [0x3064; 0x3099]);
   (0x3067, [0x3066; 0x3099]); (0x3069, [0x3068; 0x3099]);
   (0x3070, [0x306f; 0x3099]); (0x3071, [0x306f; 0x309a]);
   (0x3073, [0x3072; 0x3099]); (0x3074, [0x3072; 0x309a]);
   (0x3076, [0x3075; 0x3099]); (0x3077, [0x3075; 0x309a]);
   (0x3079, [0x3078; 0x3099]); (0x307a, [0x3078; 0x309a]);
   (0x307c, [0x307b; 0x3099]); (0x307d, [0x307b; 0x309a]);
   (0x3094, [0x3046; 0x3099]); (0x309e, [0x309d; 0x3099]);
   (0x30ac, [0x30ab; 0x3099]); (0x30ae, [0x30ad; 0x3099]);
   (0x30b0, [0x30af; 0x3099]); (0x30b2, [0x30b1; 0x3099]);
   (0x30b4, [0x30b3; 0x3099]); (0x30b6, [0x30b5; 0x3099]);
   (0x30b8, [0x30b7; 0x3099]); (0x30ba, [0x30b9; 0x3099]);
   (0x30bc, [0x30bb; 0x3099]); (0x30be, [0x30bd; 0x3099]);
   (0x30c0, [0x30bf; 0x3099]); (0x30c2, [0x30c1; 0x3099]);
   (0x30c5, [0x30c4; 0x3099]); (0x30c7, [0x30c6; 0x3099]);
   (0x30c9, [0x30c8; 0x3099]); (0x30d0, [0x30cf; 0x3099]);
   (0x30d1, [0x30cf; 0x309a]); (0x30d3, [0x30d2; 0x3099]);
   (0x30d4, [0x30d2; 0x309a]); (0x30d6, [0x30d5; 0x3099]);
   (0x30d7, [0x30d5; 0x309a]); (0x30d9, [0x30d8; 0x3099]);
   (0x30da, [0x30d8; 0x309a]); (0x30dc, [0x30db; 0x3099]);
   (0x30dd, [0x30db; 0x309a]); (0x30f4, [0x30a6; 0x3099]);
   (0x30f7, [0x30ef; 0x3099]); (0x30f8, [0x30f0; 0x3099]);
   (0x30f9, [0x30f1; 0x3099]); (0x30fa, [0x30f2; 0x3099]);
   (0x30fe, [0x30fd; 0x3099]); (0xf900, [0x8c48]); (0xf901, [0x66f4]);
   (0xf902, [0x8eca]); (0xf903, [0x8cc8]); (0xf904, [0x6ed1]);
   (0xf905, [0x4e32]); (0xf906, [0x53e5]); (0xf907, [0x9f9c]);
   (0xf908, [0x9f9c]); (0xf909, [0x5951]); (0xf90a, [0x91d1]);
   (0xf90b, [0x5587]); (0xf90c, [0x5948]); (0xf90d, [0x61f6]);
   (0xf90e, [0x7669]); (0xf90f, [0x7f85]); (0xf910, [0x863f]);
   (0xf911, [0x87ba]); (0xf912, [0x88f8]); (0xf913, [0x908f]);
   (0xf914, [0x6a02]); (0xf915, [0x6d1b]); (0xf916, [0x70d9]);
   (0xf917, [0x73de]); (0xf918, [0x843d]); (0xf919, [0x916a]);
   (0xf91a, [0x99f1]); (0xf91b, [0x4e82]); (0xf91c, [0x5375]);
   (0xf91d, [0x6b04]); (0xf91e, [0x721b]); (0xf91f, [0x862d]);
   (0xf920, [0x9e1e]); (0xf921, [0x5d50]); (0xf922, [0x6feb]);
   (0xf923, [0x85cd]); (0xf924, [0x8964]); (0xf925, [0x62c9]);
   (0xf926, [0x81d8]); (0xf927, [0x881f]); (0xf928, [0x5eca]);
   (0xf929, [0x6717]); (0xf92a, [0x6d6a]); (0xf92b, [0x72fc]);
   (0xf92c, [0x90ce]); (0xf92d, [0x4f86]); (0xf92e, [0x51b7]);
   (0xf92f, [0x52de]); (0xf930, [0x64c4]); (0xf931, [0x6ad3]);
   (0xf932, [0x7210]); (0xf933, [0x76e7]); (0xf934, [0x8001]);
   (0xf935, [0x8606]); (0xf936, [0x865c]); (0xf937, [0x8def]);
   (0xf938, [0x9732]); (0xf939, [0x9b6f]); (0xf93a, [0x9dfa]);
   (0xf93b, [0x788c]); (0xf93c, [0x797f]); (0xf93d, [0x7da0]);
   (0xf93e, [0x83c9]); (0xf93f, [0x9304]); (0xf940, [0x9e7f]);
   (0xf941, [0x8ad6]); (0xf942, [0x58df]); (0xf943, [0x5f04]);
   (0xf944, [0x7c60]); (0xf945, [0x807e]); (0xf946, [0x7262]);
   (0xf947, [0x78ca]); (0xf948, [0x8cc2]); (0xf949, [0x96f7]);
   (0xf94a, [0x58d8]); (0xf94b, [0x5c62]); (0xf94c, [0x6a13]);
   (0xf94d, [0x6dda]); (0xf94e, [0x6f0f]); (0xf94f, [0x7d2f]);
   (0xf950, [0x7e37]); (0xf951, [0x964b]); (0xf952, [0x52d2]);
   (0xf953, [0x808b]); (0xf954, [0x51dc]); (0xf955, [0x51cc]);
   (0xf956, [0x7a1c]); (0xf957, [0x7dbe]); (0xf958, [0x83f1]);
   (0xf959, [0x9675]); (0xf95a, [0x8b80]); (0xf95b, [0x62cf]);
   (0xf95c, [0x6a02]); (0xf95d, [0x8afe]); (0xf95e, [0x4e39]);
   (0xf95f, [0x5be7]); (0xf960, [0x6012]); (0xf961, [0x7387]);
   (0xf962, [0x7570]); (0xf963, [0x5317]); (0xf964, [0x78fb]);
   (0xf965, [0x4fbf]); (0xf966, [0x5fa9]); (0xf967, [0x4e0d]);
   (0xf968, [0x6ccc]); (0xf969, [0x6578]); (0xf96a, [0x7d22]);
   (0xf96b, [0x53c3]); (0xf96c, [0x585e]); (0xf96d, [0x7701]);
   (0xf96e, [0x8449]); (0xf96f, [0x8aaa]); (0xf970, [0x6bba]);
   (0xf971, [0x8fb0]); (0xf972, [0x6c88]); (0xf973, [0x62fe]);
   (0xf974, [0x82e5]); (0xf975, [0x63a0]); (0xf976, [0x7565]);
   (0xf977, [0x4eae]); (0xf978, [0x5169]); (0xf979, [0x51c9]);
   (0xf97a, [0x6881]); (0xf97b, [0x7ce7]); (0xf97c, [0x826f]);
   (0xf97d, [0x8ad2]); (0xf97e, [0x91cf]); (0xf97f, [0x52f5]);
   (0xf980, [0x5442]); (0xf981, [0x5973]); (0xf982, [0x5eec]);
   (0xf983, [0x65c5]); (0xf984, [0x6ffe]); (0xf985, [0x792a]);
   (0xf986, [0x95ad]); (0xf987, [0x9a6a]); (0xf988, [0x9e97]);
   (0xf989, [0x9ece]); (0xf98a, [0x529b]); (0xf98b, [0x66c6]);
   (0xf98c, [0x6b77]); (0xf98d, [0x8f62]); (0xf98e, [0x5e74]);
   (0xf98f, [0x6190]); (0xf990, [0x6200]); (0xf991, [0x649a]);
   (0xf992, [0x6f23]); (0xf993, [0x7149]); (0xf994, [0x7489]);
   (0xf995, [0x79ca]); (0xf996, [0x7df4]); (0xf997, [0x806f]);
   (0xf998, [0x8f26]); (0xf999, [0x84ee]); (0xf99a, [0x9023]);
   (0xf99b, [0x934a]); (0xf99c, [0x5217]); (0xf99d, [0x52a3]);
   (0xf99e, [0x54bd]); (0xf99f, [0x70c8]); (0xf9a0, [0x88c2]);
   (0xf9a1, [0x8aaa]); (0xf9a2, [0x5ec9]); (0xf9a3, [0x5ff5]);
   (0xf9a4, [0x637b]); (0xf9a5, [0x6bae]); (0xf9a6, [0x7c3e]);
   (0xf9a7, [0x7375]); (0xf9a8, [0x4ee4]); (0xf9a9, [0x56f9]);
   (0xf9aa, [0x5be7]); (0xf9ab, [0x5dba]); (0xf9ac, [0x601c]);
   (0xf9ad, [0x73b2]); (0xf9ae, [0x7469]); (0xf9af, [0x7f9a]);
   (0xf9b0, [0x8046]); (0xf9b1, [0x9234]); (0xf9b2, [0x96f6]);
   (0xf9b3, [0x9748]); (0xf9b4, [0x9818]); (0xf9b5, [0x4f8b]);
   (0xf9b6, [0x79ae]); (0xf9b7, [0x91b4]); (0xf9b8, [0x96b8]);
   (0xf9b9, [0x60e1]); (0xf9ba, [0x4e86]); (0xf9bb, [0x50da]);
   (0xf9bc, [0x5bee]); (0xf9bd, [0x5c3f]); (0xf9be, [0x6599]);
   (0xf9bf, [0x6a02]); (0xf9c0, [0x71ce]); (0xf9c1, [0x7642]);
   (0xf9c2, [0x84fc]); (0xf9c3, [0x907c]); (0xf9c4, [0x9f8d]);
   (0xf9c5, [0x6688]); (0xf9c6, [0x962e]); (0xf9c7, [0x5289]);
   (0xf9c8, [0x677b]); (0xf9c9, [0x67f3]); (0xf9ca, [0x6d41]);
   (0xf9cb, [0x6e9c]); (0xf9cc, [0x7409]); (0xf9cd, [0x7559]);
   (0xf9ce, [0x786b]); (0xf9cf, [0x7d10]); (0xf9d0, [0x985e]);
   (0xf9d1, [0x516d]); (0xf9d2, [0x622e]); (0xf9d3, [0x9678]);
   (0xf9d4, [0x502b]); (0xf9d5, [0x5d19]); (0xf9d6, [0x6dea]);
   (0xf9d7, [0x8f2a]); (0xf9d8, [0x5f8b]); (0xf9d9, [0x6144]);
   (0xf9da, [0x6817]); (0xf9db, [0x7387]); (0xf9dc, [0x9686]);
   (0xf9dd, [0x5229]); (0xf9de, [0x540f]); (0xf9df, [0x5c65]);
   (0xf9e0, [0x6613]); (0xf9e1, [0x674e]); (0xf9e2, [0x68a8]);
   (0xf9e3, [0x6ce5]); (0xf9e4, [0x7406]); (0xf9e5, [0x75e2]);
   (0xf9e6, [0x7f79]); (0xf9e7, [0x88cf]); (0xf9e8, [0x88e1]);
   (0xf9e9, [0x91cc]); (0xf9ea, [0x96e2]); (0xf9eb, [0x533f]);
   (0xf9ec, [0x6eba]); (0xf9ed, [0x541d]); (0xf9ee, [0x71d0]);
   (0xf9ef, [0x7498]); (0xf9f0, [0x85fa]); (0xf9f1, [0x96a3]);
   (0xf9f2, [0x9c57]); (0xf9f3, [0x9e9f]); (0xf9f4, [0x6797]);
   (0xf9f5, [0x6dcb]); (0xf9f6, [0x81e8]); (0xf9f7, [0x7acb]);
   (0xf9f8, [0x7b20]); (0xf9f9, [0x7c92]); (0xf9fa, [0x72c0]);
   (0xf9fb, [0x7099]); (0xf9fc, [0x8b58]); (0xf9fd, [0x4ec0]);
   (0xf9fe, [0x8336]); (0xf9ff, [0x523a]); (0xfa00, [0x5207]);
   (0xfa01, [0x5ea6]); (0xfa02, [0x62d3]); (0xfa03, [0x7cd6]);
   (0xfa04, [0x5b85]); (0xfa05, [0x6d1e]); (0xfa06, [0x66b4]);
   (0xfa07, [0x8f3b]); (0xfa08, [0x884c]); (0xfa09, [0x964d]);
   (0xfa0a, [0x898b]); (0xfa0b, [0x5ed3]); (0xfa0c, [0x5140]);
   (0xfa0d, [0x55c0]); (0xfa10, [0x585a]); (0xfa12, [0x6674]);
   (0xfa15, [0x51de]); (0xfa16, [0x732a]); (0xfa17, [0x76ca]);
   (0xfa18, [0x793c]); (0xfa19, [0x795e]); (0xfa1a, [0x7965]);
   (0xfa1b, [0x798f]); (0xfa1c, [0x9756]); (0xfa1d, [0x7cbe]);
   (0xfa1e, [0x7fbd]); (0xfa20, [0x8612]); (0xfa22, [0x8af8]);
   (0xfa25, [0x9038]); (0xfa26, [0x90fd]); (0xfa2a, [0x98ef]);
   (0xfa2b, [0x98fc]); (0xfa2c, [0x9928]); (0xfa2d, [0x9db4]);
   (0xfa2e, [0x90de]); (0xfa2f, [0x96b7]); (0xfa30, [0x4fae]);
   (0xfa31, [0x50e7]); (0xfa32, [0x514d]); (0xfa33, [0x52c9]);
   (0xfa34, [0x52e4]); (0xfa35, [0x5351]); (0xfa36, [0x559d]);
   (0xfa37, [0x5606]); (0xfa38, [0x5668]); (0xfa39, [0x5840]);
   (0xfa3a, [0x58a8]); (0xfa3b, [0x5c64]); (0xfa3c, [0x5c6e]);
   (0xfa3d, [0x6094]); (0xfa3e, [0x6168]); (0xfa3f, [0x618e]);
   (0xfa40, [0x61f2]); (0xfa41, [0x654f]); (0xfa42, [0x65e2]);
   (0xfa43, [0x6691]); (0xfa44, [0x6885]); (0xfa45, [0x6d77]);
   (0xfa46, [0x6e1a]); (0xfa47, [0x6f22]); (0xfa48, [0x716e]);
   (0xfa49, [0x722b]); (0xfa4a, [0x7422]); (0xfa4b, [0x7891]);
   (0xfa4c, [0x793e]); (0xfa4d, [0x7949]); (0xfa4e, [0x7948]);
   (0xfa4f, [0x7950]); (0xfa50, [0x7956]); (0xfa51, [0x795d]);
   (0xfa52, [0x798d]); (0xfa53, [0x798e]); (0xfa54, [0x7a40]);
   (0xfa55, [0x7a81]); (0xfa56, [0x7bc0]); (0xfa57, [0x7df4]);
   (0xfa58, [0x7e09]); (0xfa59, [0x7e41]); (0xfa5a, [0x7f72]);
   (0xfa5b, [0x8005]); (0xfa5c, [0x81ed]); (0xfa5d, [0x8279]);
   (0xfa5e, [0x8279]); (0xfa5f, [0x8457]); (0xfa60, [0x8910]);
   (0xfa61, [0x8996]); (0xfa62, [0x8b01]); (0xfa63, [0x8b39]);
   (0xfa64, [0x8cd3]); (0xfa65, [0x8d08]); (0xfa66, [0x8fb6]);
   (0xfa67, [0x9038]); (0xfa68, [0x96e3]); (0xfa69, [0x97ff]);
   (0xfa6a, [0x983b]); (0xfa6b, [0x6075]); (0xfa6c, [0x242ee]);
   (0xfa6d, [0x8218]); (0xfa70, [0x4e26]); (0xfa71, [0x51b5]);
   (0xfa72, [0x5168]); (0xfa73, [0x4f80]); (0xfa74, [0x5145]);
   (0xfa75, [0x5180]); (0xfa76, [0x52c7]); (0xfa77, [0x52fa]);
   (0xfa78, [0x559d]); (0xfa79, [0x5555]); (0xfa7a, [0x5599]);
   (0xfa7b, [0x55e2]); (0xfa7c, [0x585a]); (0xfa7d, [0x58b3]);
   (0xfa7e, [0x5944]); (0xfa7f, [0x5954]); (0xfa80, [0x5a62]);
   (0xfa81, [0x5b28]); (0xfa82, [0x5ed2]); (0xfa83, [0x5ed9]);
   (0xfa84, [0x5f69]); (0xfa85, [0x5fad]); (0xfa86, [0x60d8]);
   (0xfa87, [0x614e]); (0xfa88, [0x6108]); (0xfa89, [0x618e]);
   (0xfa8a, [0x6160]); (0xfa8b, [0x61f2]); (0xfa8c, [0x6234]);
   (0xfa8d, [0x63c4]); (0xfa8e, [0x641c]); (0xfa8f, [0x6452]);
   (0xfa90, [0x6556]); (0xfa91, [0x6674]); (0xfa92, [0x6717]);
   (0xfa93, [0x671b]); (0xfa94, [0x6756]); (0xfa95, [0x6b79]);
   (0xfa96, [0x6bba]); (0xfa97, [0x6d41]); (0xfa98, [0x6edb]);
   (0xfa99, [0x6ecb]); (0xfa9a, [0x6f22]); (0xfa9b, [0x701e]);
   (0xfa9c, [0x716e]); (0xfa9d, [0x77a7]); (0xfa9e, [0x7235]);
   (0xfa9f, [0x72af]); (0xfaa0, [0x732a]); (0xfaa1, [0x7471]);
   (0xfaa2, [0x7506]); (0xfaa3, [0x753b]); (0xfaa4, [0x761d]);
   (0xfaa5, [0x761f]); (0xfaa6, [0x76ca]); (0xfaa7, [0x76db]);
   (0xfaa8, [0x76f4]); (0xfaa9, [0x774a]); (0xfaaa, [0x7740]);
   (0xfaab, [0x78cc]); (0xfaac, [0x7ab1]); (0xfaad, [0x7bc0]);
   (0xfaae, [0x7c7b]); (0xfaaf, [0x7d5b]); (0xfab0, [0x7df4]);
   (0xfab1, [0x7f3e]); (0xfab2, [0x8005]); (0xfab3, [0x8352]);
   (0xfab4, [0x83ef]); (0xfab5, [0x8779]); (0xfab6, [0x8941]);
   (0xfab7, [0x8986]); (0xfab8, [0x8996]); (0xfab9, [0x8abf]);
   (0xfaba, [0x8af8]); (0xfabb, [0x8acb]); (0xfabc, [0x8b01]);
   (0xfabd, [0x8afe]); (0xfabe, [0x8aed]); (0xfabf, [0x8b39]);
   (0xfac0, [0x8b8a]); (0xfac1, [0x8d08]); (0xfac2, [0x8f38]);
   (0xfac3, [0x9072]); (0xfac4, [0x9199]); (0xfac5, [0x9276]);
   (0xfac6, [0x967c]); (0xfac7, [0x96e3]); (0xfac8, [0x9756]);
   (0xfac9, [0x97db]); (0xfaca, [0x97ff]); (0xfacb, [0x980b]);
   (0xfacc, [0x983b]); (0xfacd, [0x9b12]); (0xface, [0x9f9c]);
   (0xfacf, [0x2284a]); (0xfad0, [0x22844]); (0xfad1, [0x233d5]);
   (0xfad2, [0x3b9d]); (0xfad3, [0x4018]); (0xfad4, [0x4039]);
   (0xfad5, [0x25249]); (0xfad6, [0x25cd0]); (0xfad7, [0x27ed3]);
   (0xfad8, [0x9f43]); (0xfad9, [0x9f8e]); (0xfb1d, [0x5d9; 0x5b4]);
   (0xfb1f, [0x5f2; 0x5b7]); (0xfb2a, [0x5e9; 0x5c1]);
   (0xfb2b, [0x5e9; 0x5c2]); (0xfb2c, [0x5e9; 0x5bc; 0x5c1]);
   (0xfb2d, [0x5e9; 0x5bc; 0x5c2]); (0xfb2e, [0x5d0; 0x5b7]);
   (0xfb2f, [0x5d0; 0x5b8]); (0xfb30, [0x5d0; 0x5bc]);
   (0xfb31, [0x5d1; 0x5bc]); (0xfb32, [0x5d2; 0x5bc]);
   (0xfb33, [0x5d3; 0x5bc]); (0xfb34, [0x5d4; 0x5bc]);
   (0xfb35, [0x5d5; 0x5bc]); (0xfb36, [0x5d6; 0x5bc]);
   (0xfb38, [0x5d8; 0x5bc]); (0xfb39, [0x5d9; 0x5bc]);
   (0xfb3a, [0x5da; 0x5bc]); (0xfb3b, [0x5db; 0x5bc]);
   (0xfb3c, [0x5dc; 0x5bc]); (0xfb3e, [0x5de; 0x5bc]);
   (0xfb40, [0x5e0; 0x5bc]); (0xfb41, [0x5e1; 0x5bc]);
   (0xfb43, [0x5e3; 0x5bc]); (0xfb44, [0x5e4; 0x5bc]);
   (0xfb46, [0x5e6; 0x5bc]); (0xfb47, [0x5e7; 0x5bc]);
   (0xfb48, [0x5e8; 0x5bc]); (0xfb49, [0x5e9; 0x5bc]);
   (0xfb4a, [0x5ea; 0x5bc]); (0xfb4b, [0x5d5; 0x5b9]);
   (0xfb4c, [0x5d1; 0x5bf]); (0xfb4d, [0x5db; 0x5bf]);
   (0xfb4e, [0x5e4; 0x5bf]); (0x1109a, [0x11099; 0x110ba]);
   (0x1109c, [0x1109b; 0x110ba]); (0x110ab, [0x110a5; 0x110ba]);
   (0x1112e, [0x11131; 0x11127]); (0x1112f, [0x11132; 0x11127]);
   (0x1134b, [0x11347; 0x1133e]); (0x1134c, [0x11347; 0x11357]);
   (0x114bb, [0x114b9; 0x114ba]); (0x114bc, [0x114b9; 0x114b0]);
   (0x114be, [0x114b9; 0x114bd]); (0x115ba, [0x115b8; 0x115af]);
   (0x115bb, [0x115b9; 0x115af]); (0x11938, [0x11935; 0x11930]);
   (0x1d15e, [0x1d157; 0x1d165]); (0x1d15f, [0x1d158; 0x1d165]);
   (0x1d160, [0x1d158; 0x1d165; 0x1d16e]);
   (0x1d161, [0x1d158; 0x1d165; 0x1d16f]);
   (0x1d162, [0x1d158; 0x1d165; 0x1d170]);
   (0x1d163, [0x1d158; 0x1d165; 0x1d171]);
   (0x1d164, [0x1d158; 0x1d165; 0x1d172]); (0x1d1bb, [0x1d1b9; 0x1d165]);
   (0x1d1bc, [0x1d1ba; 0x1d165]); (0x1d1bd, [0x1d1b9; 0x1d165; 0x1d16e]);
   (0x1d1be, [0x1d1ba; 0x1d165; 0x1d16e]);
   (0x1d1bf, [0x1d1b9; 0x1d165; 0x1d16f]);
   (0x1d1c0, [0x1d1ba; 0x1d165; 0x1d16f]); (0x2f800, [0x4e3d]);
   (0x2f801, [0x4e38]); (0x2f802, [0x4e41]); (0x2f803, [0x20122]);
   (0x2f804, [0x4f60]); (0x2f805, [0x4fae]); (0x2f806, [0x4fbb]);
   (0x2f807, [0x5002]); (0x2f808, [0x507a]); (0x2f809, [0x5099]);
   (0x2f80a, [0x50e7]); (0x2f80b, [0x50cf]); (0x2f80c, [0x349e]);
   (0x2f80d, [0x2063a]); (0x2f80e, [0x514d]); (0x2f80f, [0x5154]);
   (0x2f810, [0x5164]); (0x2f811, [0x5177]); (0x2f812, [0x2051c]);
   (0x2f813, [0x34b9]); (0x2f814, [0x5167]); (0x2f815, [0x518d]);
   (0x2f816, [0x2054b]); (0x2f817, [0x5197]); (0x2f818, [0x51a4]);
   (0x2f819, [0x4ecc]); (0x2f81a, [0x51ac]); (0x2f81b, [0x51b5]);
   (0x2f81c, [0x291df]); (0x2f81d, [0x51f5]); (0x2f81e, [0x5203]);
   (0x2f81f, [0x34df]); (0x2f820, [0x523b]); (0x2f821, [0x5246]);
   (0x2f822, [0x5272]); (0x2f823, [0x5277]); (0x2f824, [0x3515]);
   (0x2f825, [0x52c7]); (0x2f826, [0x52c9]); (0x2f827, [0x52e4]);
   (0x2f828, [0x52fa]); (0x2f829, [0x5305]); (0x2f82a, [0x5306]);
   (0x2f82b, [0x5317]); (0x2f82c, [0x5349]); (0x2f82d, [0x5351]);
   (0x2f82e, [0x535a]); (0x2f82f, [0x5373]); (0x2f830, [0x537d]);
   (0x2f831, [0x537f]); (0x2f832, [0x537f]); (0x2f833, [0x537f]);
   (0x2f834, [0x20a2c]); (0x2f835, [0x7070]); (0x2f836, [0x53ca]);
   (0x2f837, [0x53df]); (0x2f838, [0x20b63]); (0x2f839, [0x53eb]);
   (0x2f83a, [0x53f1]); (0x2f83b, [0x5406]); (0x2f83c, [0x549e]);
   (0x2f83d, [0x5438]); (0x2f83e, [0x5448]); (0x2f83f, [0x5468]);
   (0x2f840, [0x54a2]); (0x2f841, [0x54f6]); (0x2f842, [0x5510]);
   (0x2f843, [0x5553]); (0x2f844, [0x5563]); (0x2f845, [0x5584]);
   (0x2f846, [0x5584]); (0x2f847, [0x5599]); (0x2f848, [0x55ab]);
   (0x2f849, [0x55b3]); (0x2f84a, [0x55c2]); (0x2f84b, [0x5716]);
   (0x2f84c, [0x5606]); (0x2f84d, [0x5717]); (0x2f84e, [0x5651]);
   (0x2f84f, [0x5674]); (0x2f850, [0x5207]); (0x2f851, [0x58ee]);
   (0x2f852, [0x57ce]); (0x2f853, [0x57f4]); (0x2f854, [0x580d]);
   (0x2f855, [0x578b]); (0x2f856, [0x5832]); (0x2f857, [0x5831]);
   (0x2f858, [0x58ac]); (0x2f859, [0x214e4]); (0x2f85a, [0x58f2]);
   (0x2f85b, [0x58f7]); (0x2f85c, [0x5906]); (0x2f85d, [0x591a]);
   (0x2f85e, [0x5922]); (0x2f85f, [0x5962]); (0x2f860, [0x216a8]);
   (0x2f861, [0x216ea]); (0x2f862, [0x59ec]); (0x2f863, [0x5a1b]);
   (0x2f864, [0x5a27]); (0x2f865, [0x59d8]); (0x2f866, [0x5a66]);
   (0x2f867, [0x36ee]); (0x2f868, [0x36fc]); (0x2f869, [0x5b08]);
   (0x2f86a, [0x5b3e]); (0x2f86b, [0x5b3e]); (0x2f86c, [0x219c8]);
   (0x2f86d, [0x5bc3]); (0x2f86e, [0x5bd8]); (0x2f86f, [0x5be7]);
   (0x2f870, [0x5bf3]); (0x2f871, [0x21b18]); (0x2f872, [0x5bff]);
   (0x2f873, [0x5c06]); (0x2f874, [0x5f53]); (0x2f875, [0x5c22]);
   (0x2f876, [0x3781]); (0x2f877, [0x5c60]); (0x2f878, [0x5c6e]);
   (0x2f879, [0x5cc0]); (0x2f87a, [0x5c8d]); (0x2f87b, [0x21de4]);
   (0x2f87c, [0x5d43]); (0x2f87d, [0x21de6]); (0x2f87e, [0x5d6e]);
   (0x2f87f, [0x5d6b]); (0x2f880, [0x5d7c]); (0x2f881, [0x5de1]);
   (0x2f882, [0x5de2]); (0x2f883, [0x382f]); (0x2f884, [0x5dfd]);
   (0x2f885, [0x5e28]); (0x2f886, [0x5e3d]); (0x2f887, [0x5e69]);
   (0x2f888, [0x3862]); (0x2f889, [0x22183]); (0x2f88a, [0x387c]);
   (0x2f88b, [0x5eb0]); (0x2f88c, [0x5eb3]); (0x2f88d, [0x5eb6]);
   (0x2f88e, [0x5eca]); (0x2f88f, [0x2a392]); (0x2f890, [0x5efe]);
   (0x2f891, [0x22331]); (0x2f892, [0x22331]); (0x2f893, [0x8201]);
   (0x2f894, [0x5f22]); (0x2f895, [0x5f22]); (0x2f896, [0x38c7]);
   (0x2f897, [0x232b8]); (0x2f898, [0x261da]); (0x2f899, [0x5f62]);
   (0x2f89a, [0x5f6b]); (0x2f89b, [0x38e3]); (0x2f89c, [0x5f9a]);
   (0x2f89d, [0x5fcd]); (0x2f89e, [0x5fd7]); (0x2f89f, [0x5ff9]);
   (0x2f8a0, [0x6081]); (0x2f8a1, [0x393a]); (0x2f8a2, [0x391c]);
   (0x2f8a3, [0x6094]); (0x2f8a4, [0x226d4]); (0x2f8a5, [0x60c7]);
   (0x2f8a6, [0x6148]); (0x2f8a7, [0x614c]); (0x2f8a8, [0x614e]);
   (0x2f8a9, [0x614c]); (0x2f8aa, [0x617a]); (0x2f8ab, [0x618e]);
   (0x2f8ac, [0x61b2]); (0x2f8ad, [0x61a4]); (0x2f8ae, [0x61af]);
   (0x2f8af, [0x61de]); (0x2f8b0, [0x61f2]); (0x2f8b1, [0x61f6]);
   (0x2f8b2, [0x6210]); (0x2f8b3, [0x621b]); (0x2f8b4, [0x625d]);
   (0x2f8b5, [0x62b1]); (0x2f8b6, [0x62d4]); (0x2f8b7, [0x6350]);
   (0x2f8b8, [0x22b0c]); (0x2f8b9, [0x633d]); (0x2f8ba, [0x62fc]);
   (0x2f8bb, [0x6368]); (0x2f8bc, [0x6383]); (0x2f8bd, [0x63e4]);
   (0x2f8be, [0x22bf1]); (0x2f8bf, [0x6422]); (0x2f8c0, [0x63c5]);
   (0x2f8c1, [0x63a9]); (0x2f8c2, [0x3a2e]); (0x2f8c3, [0x6469]);
   (0x2f8c4, [0x647e]); (0x2f8c5, [0x649d]); (0x2f8c6, [0x6477]);
   (0x2f8c7, [0x3a6c]); (0x2f8c8, [0x654f]); (0x2f8c9, [0x656c]);
   (0x2f8ca, [0x2300a]); (0x2f8cb, [0x65e3]); (0x2f8cc, [0x66f8]);
   (0x2f8cd, [0x6649]); (0x2f8ce, [0x3b19]); (0x2f8cf, [0x6691]);
   (0x2f8d0, [0x3b08]); (0x2f8d1, [0x3ae4]); (0x2f8d2, [0x5192]);
   (0x2f8d3, [0x5195]); (0x2f8d4, [0x6700]); (0x2f8d5, [0x669c]);
   (0x2f8d6, [0x80ad]); (0x2f8d7, [0x43d9]); (0x2f8d8, [0x6717]);
   (0x2f8d9, [0x671b]); (0x2f8da, [0x6721]); (0x2f8db, [0x675e]);
   (0x2f8dc, [0x6753]); (0x2f8dd, [0x233c3]); (0x2f8de, [0x3b49]);
   (0x2f8df, [0x67fa]); (0x2f8e0, [0x6785]); (0x2f8e1, [0x6852]);
   (0x2f8e2, [0x6885]); (0x2f8e3, [0x2346d]); (0x2f8e4, [0x688e]);
   (0x2f8e5, [0x681f]); (0x2f8e6, [0x6914]); (0x2f8e7, [0x3b9d]);
   (0x2f8e8, [0x6942]); (0x2f8e9, [0x69a3]); (0x2f8ea, [0x69ea]);
   (0x2f8eb, [0x6aa8]); (0x2f8ec, [0x236a3]); (0x2f8ed, [0x6adb]);
   (0x2f8ee, [0x3c18]); (0x2f8ef, [0x6b21]); (0x2f8f0, [0x238a7]);
   (0x2f8f1, [0x6b54]); (0x2f8f2, [0x3c4e]); (0x2f8f3, [0x6b72]);
   (0x2f8f4, [0x6b9f]); (0x2f8f5, [0x6bba]); (0x2f8f6, [0x6bbb]);
   (0x2f8f7, [0x23a8d]); (0x2f8f8, [0x21d0b]); (0x2f8f9, [0x23afa]);
   (0x2f8fa, [0x6c4e]); (0x2f8fb, [0x23cbc]); (0x2f8fc, [0x6cbf]);
   (0x2f8fd, [0x6ccd]); (0x2f8fe, [0x6c67]); (0x2f8ff, [0x6d16]);
   (0x2f900, [0x6d3e]); (0x2f901, [0x6d77]); (0x2f902, [0x6d41]);
   (0x2f903, [0x6d69]); (0x2f904, [0x6d78]); (0x2f905, [0x6d85]);
   (0x2f906, [0x23d1e]); (0x2f907, [0x6d34]); (0x2f908, [0x6e2f]);
   (0x2f909, [0x6e6e]); (0x2f90a, [0x3d33]); (0x2f90b, [0x6ecb]);
   (0x2f90c, [0x6ec7]); (0x2f90d, [0x23ed1]); (0x2f90e, [0x6df9]);
   (0x2f90f, [0x6f6e]); (0x2f910, [0x23f5e]); (0x2f911, [0x23f8e]);
   (0x2f912, [0x6fc6]); (0x2f913, [0x7039]); (0x2f914, [0x701e]);
   (0x2f915, [0x701b]); (0x2f916, [0x3d96]); (0x2f917, [0x704a]);
   (0x2f918, [0x707d]); (0x2f919, [0x7077]); (0x2f91a, [0x70ad]);
   (0x2f91b, [0x20525]); (0x2f91c, [0x7145]); (0x2f91d, [0x24263]);
   (0x2f91e, [0x719c]); (0x2f91f, [0x243ab]); (0x2f920, [0x7228]);
   (0x2f921, [0x7235]); (0x2f922, [0x7250]); (0x2f923, [0x24608]);
   (0x2f924, [0x7280]); (0x2f925, [0x7295]); (0x2f926, [0x24735]);
   (0x2f927, [0x24814]); (0x2f928, [0x737a]); (0x2f929, [0x738b]);
   (0x2f92a, [0x3eac]); (0x2f92b, [0x73a5]); (0x2f92c, [0x3eb8]);
   (0x2f92d, [0x3eb8]); (0x2f92e, [0x7447]); (0x2f92f, [0x745c]);
   (0x2f930, [0x7471]); (0x2f931, [0x7485]); (0x2f932, [0x74ca]);
   (0x2f933, [0x3f1b]); (0x2f934, [0x7524]); (0x2f935, [0x24c36]);
   (0x2f936, [0x753e]); (0x2f937, [0x24c92]); (0x2f938, [0x7570]);
   (0x2f939, [0x2219f]); (0x2f93a, [0x7610]); (0x2f93b, [0x24fa1]);
   (0x2f93c, [0x24fb8]); (0x2f93d, [0x25044]); (0x2f93e, [0x3ffc]);
   (0x2f93f, [0x4008]); (0x2f940, [0x76f4]); (0x2f941, [0x250f3]);
   (0x2f942, [0x250f2]); (0x2f943, [0x25119]); (0x2f944, [0x25133]);
   (0x2f945, [0x771e]); (0x2f946, [0x771f]); (0x2f947, [0x771f]);
   (0x2f948, [0x774a]); (0x2f949, [0x4039]); (0x2f94a, [0x778b]);
   (0x2f94b, [0x4046]); (0x2f94c, [0x4096]); (0x2f94d, [0x2541d]);
   (0x2f94e, [0x784e]); (0x2f94f, [0x788c]); (0x2f950, [0x78cc]);
   (0x2f951, [0x40e3]); (0x2f952, [0x25626]); (0x2f953, [0x7956]);
   (0x2f954, [0x2569a]); (0x2f955, [0x256c5]); (0x2f956, [0x798f]);
   (0x2f957, [0x79eb]); (0x2f958, [0x412f]); (0x2f959, [0x7a40]);
   (0x2f95a, [0x7a4a]); (0x2f95b, [0x7a4f]); (0x2f95c, [0x2597c]);
   (0x2f95d, [0x25aa7]); (0x2f95e, [0x25aa7]); (0x2f95f, [0x7aee]);
   (0x2f960, [0x4202]); (0x2f961, [0x25bab]); (0x2f962, [0x7bc6]);
   (0x2f963, [0x7bc9]); (0x2f964, [0x4227]); (0x2f965, [0x25c80]);
   (0x2f966, [0x7cd2]); (0x2f967, [0x42a0]); (0x2f968, [0x7ce8]);
   (0x2f969, [0x7ce3]); (0x2f96a, [0x7d00]); (0x2f96b, [0x25f86]);
   (0x2f96c, [0x7d63]); (0x2f96d, [0x4301]); (0x2f96e, [0x7dc7]);
   (0x2f96f, [0x7e02]); (0x2f970, [0x7e45]); (0x2f971, [0x4334]);
   (0x2f972, [0x26228]); (0x2f973, [0x26247]); (0x2f974, [0x4359]);
   (0x2f975, [0x262d9]); (0x2f976, [0x7f7a]); (0x2f977, [0x2633e]);
   (0x2f978, [0x7f95]); (0x2f979, [0x7ffa]); (0x2f97a, [0x8005]);
   (0x2f97b, [0x264da]); (0x2f97c, [0x26523]); (0x2f97d, [0x8060]);
   (0x2f97e, [0x265a8]); (0x2f97f, [0x8070]); (0x2f980, [0x2335f]);
   (0x2f981, [0x43d5]); (0x2f982, [0x80b2]); (0x2f983, [0x8103]);
   (0x2f984, [0x440b]); (0x2f985, [0x813e]); (0x2f986, [0x5ab5]);
   (0x2f987, [0x267a7]); (0x2f988, [0x267b5]); (0x2f989, [0x23393]);
   (0x2f98a, [0x2339c]); (0x2f98b, [0x8201]); (0x2f98c, [0x8204]);
   (0x2f98d, [0x8f9e]); (0x2f98e, [0x446b]); (0x2f98f, [0x8291]);
   (0x2f990, [0x828b]); (0x2f991, [0x829d]); (0x2f992, [0x52b3]);
   (0x2f993, [0x82b1]); (0x2f994, [0x82b3]); (0x2f995, [0x82bd]);
   (0x2f996, [0x82e6]); (0x2f997, [0x26b3c]); (0x2f998, [0x82e5]);
   (0x2f999, [0x831d]); (0x2f99a, [0x8363]); (0x2f99b, [0x83ad]);
   (0x2f99c, [0x8323]); (0x2f99d, [0x83bd]); (0x2f99e, [0x83e7]);
   (0x2f99f, [0x8457]); (0x2f9a0, [0x8353]); (0x2f9a1, [0x83ca]);
   (0x2f9a2, [0x83cc]); (0x2f9a3, [0x83dc]); (0x2f9a4, [0x26c36]);
   (0x2f9a5, [0x26d6b]); (0x2f9a6, [0x26cd5]); (0x2f9a7, [0x452b]);
   (0x2f9a8, [0x84f1]); (0x2f9a9, [0x84f3]); (0x2f9aa, [0x8516]);
   (0x2f9ab, [0x273ca]); (0x2f9ac, [0x8564]); (0x2f9ad, [0x26f2c]);
   (0x2f9ae, [0x455d]); (0x2f9af, [0x4561]); (0x2f9b0, [0x26fb1]);
   (0x2f9b1, [0x270d2]); (0x2f9b2, [0x456b]); (0x2f9b3, [0x8650]);
   (0x2f9b4, [0x865c]); (0x2f9b5, [0x8667]); (0x2f9b6, [0x8669]);
   (0x2f9b7, [0x86a9]); (0x2f9b8, [0x8688]); (0x2f9b9, [0x870e]);
   (0x2f9ba, [0x86e2]); (0x2f9bb, [0x8779]); (0x2f9bc, [0x8728]);
   (0x2f9bd, [0x876b]); (0x2f9be, [0x8786]); (0x2f9bf, [0x45d7]);
   (0x2f9c0, [0x87e1]); (0x2f9c1, [0x8801]); (0x2f9c2, [0x45f9]);
   (0x2f9c3, [0x8860]); (0x2f9c4, [0x8863]); (0x2f9c5, [0x27667]);
   (0x2f9c6, [0x88d7]); (0x2f9c7, [0x88de]); (0x2f9c8, [0x4635]);
   (0x2f9c9, [0x88fa]); (0x2f9ca, [0x34bb]); (0x2f9cb, [0x278ae]);
   (0x2f9cc, [0x27966]); (0x2f9cd, [0x46be]); (0x2f9ce, [0x46c7]);
   (0x2f9cf, [0x8aa0]); (0x2f9d0, [0x8aed]); (0x2f9d1, [0x8b8a]);
   (0x2f9d2, [0x8c55]); (0x2f9d3, [0x27ca8]); (0x2f9d4, [0x8cab]);
   (0x2f9d5, [0x8cc1]); (0x2f9d6, [0x8d1b]); (0x2f9d7, [0x8d77]);
   (0x2f9d8, [0x27f2f]); (0x2f9d9, [0x20804]); (0x2f9da, [0x8dcb]);
   (0x2f9db, [0x8dbc]); (0x2f9dc, [0x8df0]); (0x2f9dd, [0x208de]);
   (0x2f9de, [0x8ed4]); (0x2f9df, [0x8f38]); (0x2f9e0, [0x285d2]);
   (0x2f9e1, [0x285ed]); (0x2f9e2, [0x9094]); (0x2f9e3, [0x90f1]);
   (0x2f9e4, [0x9111]); (0x2f9e5, [0x2872e]); (0x2f9e6, [0x911b]);
   (0x2f9e7, [0x9238]); (0x2f9e8, [0x92d7]); (0x2f9e9, [0x92d8]);
   (0x2f9ea, [0x927c]); (0x2f9eb, [0x93f9]); (0x2f9ec, [0x9415]);
   (0x2f9ed, [0x28bfa]); (0x2f9ee, [0x958b]); (0x2f9ef, [0x4995]);
   (0x2f9f0, [0x95b7]); (0x2f9f1, [0x28d77]); (0x2f9f2, [0x49e6]);
   (0x2f9f3, [0x96c3]); (0x2f9f4, [0x5db2]); (0x2f9f5, [0x9723]);
   (0x2f9f6, [0x29145]); (0x2f9f7, [0x2921a]); (0x2f9f8, [0x4a6e]);
   (0x2f9f9, [0x4a76]); (0x2f9fa, [0x97e0]); (0x2f9fb, [0x2940a]);
   (0x2f9fc, [0x4ab2]); (0x2f9fd, [0x29496]); (0x2f9fe, [0x980b]);
   (0x2f9ff, [0x980b]); (0x2fa00, [0x9829]); (0x2fa01, [0x295b6]);
   (0x2fa02, [0x98e2]); (0x2fa03, [0x4b33]); (0x2fa04, [0x9929]);
   (0x2fa05, [0x99a7]); (0x2fa06, [0x99c2]); (0x2fa07, [0x99fe]);
   (0x2fa08, [0x4bce]); (0x2fa09, [0x29b30]); (0x2fa0a, [0x9b12]);
   (0x2fa0b, [0x9c40]); (0x2fa0c, [0x9cfd]); (0x2fa0d, [0x4cce]);
   (0x2fa0e, [0x4ced]); (0x2fa0f, [0x9d67]); (0x2fa10, [0x2a0ce]);
   (0x2fa11, [0x4cf8]); (0x2fa12, [0x2a105]); (0x2fa13, [0x2a20e]);
   (0x2fa14, [0x2a291]); (0x2fa15, [0x9ebb]); (0x2fa16, [0x4d56]);
   (0x2fa17, [0x9ef9]); (0x2fa18, [0x9efe]); (0x2fa19, [0x9f05]);
   (0x2fa1a, [0x9f0f]); (0x2fa1b, [0x9f16]); (0x2fa1c, [0x9f3b]);
   (0x2fa1d, [0x2a600])].

(** The canonical decomposition of one code point; that of a Hangul
    syllable is computed. *)
Definition decompose (c : char) : list char :=
  if in_range 0xAC00 0xD7A3 c then
    let s := c - 0xAC00 in
    let l := 0x1100 + s / 588 in
    let v := 0x1161 + (s mod 588) / 28 in
    let t := s mod 28 in
    if t =? 0 then [l; v] else [l; v; 0x11A7 + t]
  else
    match find (fun e => c =? fst e) decomposition_table with
    | Some e => snd e
    | None => [c]
    end.

(** The canonical combining classes that are not zero:
    [(first, last, class)]. *)
Definition ccc_ranges : list (N * N * N) :=
  [(0x300, 0x314, 230); (0x315, 0x315, 232); (0x316, 0x319, 220);
   (0x31a, 0x31a, 232); (0x31b, 0x31b, 216); (0x31c, 0x320, 220);
   (0x321, 0x322, 202); (0x323, 0x326, 220); (0x327, 0x328, 202);
   (0x329, 0x333, 220); (0x334, 0x338, 1); (0x339, 0x33c, 220);
   (0x33d, 0x344, 230); (0x345, 0x345, 240); (0x346, 0x346, 230);
   (0x347, 0x349, 220); (0x34a, 0x34c, 230); (0x34d, 0x34e, 220);
   (0x350, 0x352, 230); (0x353, 0x356, 220); (0x357, 0x357, 230);
   (0x358, 0x358, 232); (0x359, 0x35a, 220); (0x35b, 0x35b, 230);
   (0x35c, 0x35c, 233); (0x35d, 0x35e, 234); (0x35f, 0x35f, 233);
   (0x360, 0x361, 234); (0x362, 0x362, 233); (0x363, 0x36f, 230);
   (0x483, 0x487, 230); (0x591, 0x591, 220); (0x592, 0x595, 230);
   (0x596, 0x596, 220); (0x597, 0x599, 230); (0x59a, 0x59a, 222);
   (0x59b, 0x59b, 220); (0x59c, 0x5a1, 230); (0x5a2, 0x5a7, 220);
   (0x5a8, 0x5a9, 230); (0x5aa, 0x5aa, 220); (0x5ab, 0x5ac, 230);
   (0x5ad, 0x5ad, 222); (0x5ae, 0x5ae, 228); (0x5af, 0x5af, 230);
   (0x5b0, 0x5b0, 10); (0x5b1, 0x5b1, 11); (0x5b2, 0x5b2, 12);
   (0x5b3, 0x5b3, 13); (0x5b4, 0x5b4, 14); (0x5b5, 0x5b5, 15);
   (0x5b6, 0x5b6, 16); (0x5b7, 0x5b7, 17); (0x5b8, 0x5b8, 18);
   (0x5b9, 0x5ba, 19); (0x5bb, 0x5bb, 20); (0x5bc, 0x5bc, 21);
   (0x5bd, 0x5bd, 22); (0x5bf, 0x5bf, 23); (0x5c1, 0x5c1, 24);
   (0x5c2, 0x5c2, 25); (0x5c4, 0x5c4, 230); (0x5c5, 0x5c5, 220);
   (0x5c7, 0x5c7, 18); (0x610, 0x617, 230); (0x618, 0x618, 30);
   (0x619, 0x619, 31); (0x61a, 0x61a, 32); (0x64b, 0x64b, 27);
   (0x64c, 0x64c, 28); (0x64d, 0x64d, 29); (0x64e, 0x64e, 30);
   (0x64f, 0x64f, 31); (0x650, 0x650, 32); (0x651, 0x651, 33);
   (0x652, 0x652, 34); (0x653, 0x654, 230); (0x655, 0x656, 220);
   (0x657, 0x65b, 230); (0x65c, 0x65c, 220); (0x65d, 0x65e, 230);
   (0x65f, 0x65f, 220); (0x670, 0x670, 35); (0x6d6, 0x6dc, 230);
   (0x6df, 0x6e2, 230); (0x6e3, 0x6e3, 220); (0x6e4, 0x6e4, 230);
   (0x6e7, 0x6e8, 230); (0x6ea, 0x6ea, 220); (0x6eb, 0x6ec, 230);
   (0x6ed, 0x6ed, 220); (0x711, 0x711, 36); (0x730, 0x730, 230);
   (0x731, 0x731, 220); (0x732, 0x733, 230); (0x734, 0x734, 220);
   (0x735, 0x736, 230); (0x737, 0x739, 220); (0x73a, 0x73a, 230);
   (0x73b, 0x73c, 220); (0x73d, 0x73d, 230); (0x73e, 0x73e, 220);
   (0x73f, 0x741, 230); (0x742, 0x742, 220); (0x743, 0x743, 230);
   (0x744, 0x744, 220); (0x745, 0x745, 230); (0x746, 0x746, 220);
   (0x747, 0x747, 230); (0x748, 0x748, 220); (0x749, 0x74a, 230);
   (0x7eb, 0x7f1, 230); (0x7f2, 0x7f2, 220); (0x7f3, 0x7f3, 230);
   (0x7fd, 0x7fd, 220); (0x816, 0x819, 230); (0x81b, 0x823, 230);
   (0x825, 0x827, 230); (0x829, 0x82d, 230); (0x859, 0x85b, 220);
   (0x898, 0x898, 230); (0x899, 0x89b, 220); (0x89c, 0x89f, 230);
   (0x8ca, 0x8ce, 230); (0x8cf, 0x8d3, 220); (0x8d4, 0x8e1, 230);
   (0x8e3, 0x8e3, 220); (0x8e4, 0x8e5, 230); (0x8e6, 0x8e6, 220);
   (0x8e7, 0x8e8, 230); (0x8e9, 0x8e9, 220); (0x8ea, 0x8ec, 230);
   (0x8ed, 0x8ef, 220); (0x8f0, 0x8f0, 27); (0x8f1, 0x8f1, 28);
   (0x8f2, 0x8f2, 29); (0x8f3, 0x8f5, 230); (0x8f6, 0x8f6, 220);
   (0x8f7, 0x8f8, 230); (0x8f9, 0x8fa, 220); (0x8fb, 0x8ff, 230);
   (0x93c, 0x93c, 7); (0x94d, 0x94d, 9); (0x951, 0x951, 230);
   (0x952, 0x952, 220); (0x953, 0x954, 230); (0x9bc, 0x9bc, 7);
   (0x9cd, 0x9cd, 9); (0x9fe, 0x9fe, 230); (0xa3c, 0xa3c, 7);
   (0xa4d, 0xa4d, 9); (0xabc, 0xabc, 7); (0xacd, 0xacd, 9); (0xb3c, 0xb3c, 7);
   (0xb4d, 0xb4d, 9); (0xbcd, 0xbcd, 9); (0xc3c, 0xc3c, 7); (0xc4d, 0xc4d, 9);
   (0xc55, 0xc55, 84); (0xc56, 0xc56, 91); (0xcbc, 0xcbc, 7);
   (0xccd, 0xccd, 9); (0xd3b, 0xd3c, 9); (0xd4d, 0xd4d, 9); (0xdca, 0xdca, 9);
   (0xe38, 0xe39, 103); (0xe3a, 0xe3a, 9); (0xe48, 0xe4b, 107);
   (0xeb8, 0xeb9, 118); (0xeba, 0xeba, 9); (0xec8, 0xecb, 122);
   (0xf18, 0xf19, 220); (0xf35, 0xf35, 220); (0xf37, 0xf37, 220);
   (0xf39, 0xf39, 216); (0xf71, 0xf71, 129); (0xf72, 0xf72, 130);
   (0xf74, 0xf74, 132); (0xf7a, 0xf7d, 130); (0xf80, 0xf80, 130);
   (0xf82, 0xf83, 230); (0xf84, 0xf84, 9); (0xf86, 0xf87, 230);
   (0xfc6, 0xfc6, 220); (0x1037, 0x1037, 7); (0x1039, 0x103a, 9);
   (0x108d, 0x108d, 220); (0x135d, 0x135f, 230); (0x1714, 0x1715, 9);
   (0x1734, 0x1734, 9); (0x17d2, 0x17d2, 9); (0x17dd, 0x17dd, 230);
   (0x18a9, 0x18a9, 228); (0x1939, 0x1939, 222); (0x193a, 0x193a, 230);
   (0x193b, 0x193b, 220); (0x1a17, 0x1a17, 230); (0x1a18, 0x1a18, 220);
   (0x1a60, 0x1a60, 9); (0x1a75, 0x1a7c, 230); (0x1a7f, 0x1a7f, 220);
   (0x1ab0, 0x1ab4, 230); (0x1ab5, 0x1aba, 220); (0x1abb, 0x1abc, 230);
   (0x1abd, 0x1abd, 220); (0x1abf, 0x1ac0, 220); (0x1ac1, 0x1ac2, 230);
   (0x1ac3, 0x1ac4, 220); (0x1ac5, 0x1ac9, 230); (0x1aca, 0x1aca, 220);
   (0x1acb, 0x1ace, 230); (0x1b34, 0x1b34, 7); (0x1b44, 0x1b44, 9);
   (0x1b6b, 0x1b6b, 230); (0x1b6c, 0x1b6c, 220); (0x1b6d, 0x1b73, 230);
   (0x1baa, 0x1bab, 9); (0x1be6, 0x1be6, 7); (0x1bf2, 0x1bf3, 9);
   (0x1c37, 0x1c37, 7); (0x1cd0, 0x1cd2, 230); (0x1cd4, 0x1cd4, 1);
   (0x1cd5, 0x1cd9, 220); (0x1cda, 0x1cdb, 230); (0x1cdc, 0x1cdf, 220);
   (0x1ce0, 0x1ce0, 230); (0x1ce2, 0x1ce8, 1); (0x1ced, 0x1ced, 220);
   (0x1cf4, 0x1cf4, 230); (0x1cf8, 0x1cf9, 230); (0x1dc0, 0x1dc1, 230);
   (0x1dc2, 0x1dc2, 220); (0x1dc3, 0x1dc9, 230); (0x1dca, 0x1dca, 220);
   (0x1dcb, 0x1dcc, 230); (0x1dcd, 0x1dcd, 234); (0x1dce, 0x1dce, 214);
   (0x1dcf, 0x1dcf, 220); (0x1dd0, 0x1dd0, 202); (0x1dd1, 0x1df5, 230);
   (0x1df6, 0x1df6, 232); (0x1df7, 0x1df8, 228); (0x1df9, 0x1df9, 220);
   (0x1dfa, 0x1dfa, 218); (0x1dfb, 0x1dfb, 230); (0x1dfc, 0x1dfc, 233);
   (0x1dfd, 0x1dfd, 220); (0x1dfe, 0x1dfe, 230); (0x1dff, 0x1dff, 220);
   (0x20d0, 0x20d1, 230); (0x20d2, 0x20d3, 1); (0x20d4, 0x20d7, 230);
   (0x20d8, 0x20da, 1); (0x20db, 0x20dc, 230); (0x20e1, 0x20e1, 230);
   (0x20e5, 0x20e6, 1); (0x20e7, 0x20e7, 230); (0x20e8, 0x20e8, 220);
   (0x20e9, 0x20e9, 230); (0x20ea, 0x20eb, 1); (0x20ec, 0x20ef, 220);
   (0x20f0, 0x20f0, 230); (0x2cef, 0x2cf1, 230); (0x2d7f, 0x2d7f, 9);
   (0x2de0, 0x2dff, 230); (0x302a, 0x302a, 218); (0x302b, 0x302b, 228);
   (0x302c, 0x302c, 232); (0x302d, 0x302d, 222); (0x302e, 0x302f, 224);
   (0x3099, 0x309a, 8); (0xa66f, 0xa66f, 230); (0xa674, 0xa67d, 230);
   (0xa69e, 0xa69f, 230); (0xa6f0, 0xa6f1, 230); (0xa806, 0xa806, 9);
   (0xa82c, 0xa82c, 9); (0xa8c4, 0xa8c4, 9); (0xa8e0, 0xa8f1, 230);
   (0xa92b, 0xa92d, 220); (0xa953, 0xa953, 9); (0xa9b3, 0xa9b3, 7);
   (0xa9c0, 0xa9c0, 9); (0xaab0, 0xaab0, 230); (0xaab2, 0xaab3, 230);
   (0xaab4, 0xaab4, 220); (0xaab7, 0xaab8, 230); (0xaabe, 0xaabf, 230);
   (0xaac1, 0xaac1, 230); (0xaaf6, 0xaaf6, 9); (0xabed, 0xabed, 9);
   (0xfb1e, 0xfb1e, 26); (0xfe20, 0xfe26, 230); (0xfe27, 0xfe2d, 220);
   (0xfe2e, 0xfe2f, 230); (0x101fd, 0x101fd, 220); (0x102e0, 0x102e0, 220);
   (0x10376, 0x1037a, 230); (0x10a0d, 0x10a0d, 220); (0x10a0f, 0x10a0f, 230);
   (0x10a38, 0x10a38, 230); (0x10a39, 0x10a39, 1); (0x10a3a, 0x10a3a, 220);
   (0x10a3f, 0x10a3f, 9); (0x10ae5, 0x10ae5, 230); (0x10ae6, 0x10ae6, 220);
   (0x10d24, 0x10d27, 230); (0x10eab, 0x10eac, 230); (0x10f46, 0x10f47, 220);
   (0x10f48, 0x10f4a, 230); (0x10f4b, 0x10f4b, 220); (0x10f4c, 0x10f4c, 230);
   (0x10f4d, 0x10f50, 220); (0x10f82, 0x10f82, 230); (0x10f83, 0x10f83, 220);
   (0x10f84, 0x10f84, 230); (0x10f85, 0x10f85, 220); (0x11046, 0x11046, 9);
   (0x11070, 0x11070, 9); (0x1107f, 0x1107f, 9); (0x110b9, 0x110b9, 9);
   (0x110ba, 0x110ba, 7); (0x11100, 0x11102, 230); (0x11133, 0x11134, 9);
   (0x11173, 0x11173, 7); (0x111c0, 0x111c0, 9); (0x111ca, 0x111ca, 7);
   (0x11235, 0x11235, 9); (0x11236, 0x11236, 7); (0x112e9, 0x112e9, 7);
   (0x112ea, 0x112ea, 9); (0x1133b, 0x1133c, 7); (0x1134d, 0x1134d, 9);
   (0x11366, 0x1136c, 230); (0x11370, 0x11374, 230); (0x11442, 0x11442, 9);
   (0x11446, 0x11446, 7); (0x1145e, 0x1145e, 230); (0x114c2, 0x114c2, 9);
   (0x114c3, 0x114c3, 7); (0x115bf, 0x115bf, 9); (0x115c0, 0x115c0, 7);
   (0x1163f, 0x1163f, 9); (0x116b6, 0x116b6, 9); (0x116b7, 0x116b7, 7);
   (0x1172b, 0x1172b, 9); (0x11839, 0x11839, 9); (0x1183a, 0x1183a, 7);
   (0x1193d, 0x1193e, 9); (0x11943, 0x11943, 7); (0x119e0, 0x119e0, 9);
   (0x11a34, 0x11a34, 9); (0x11a47, 0x11a47, 9); (0x11a99, 0x11a99, 9);
   (0x11c3f, 0x11c3f, 9); (0x11d42, 0x11d42, 7); (0x11d44, 0x11d45, 9);
   (0x11d97, 0x11d97, 9); (0x16af0, 0x16af4, 1); (0x16b30, 0x16b36, 230);
   (0x16ff0, 0x16ff1, 6); (0x1bc9e, 0x1bc9e, 1); (0x1d165, 0x1d166, 216);
   (0x1d167, 0x1d169, 1); (0x1d16d, 0x1d16d, 226); (0x1d16e, 0x1d172, 216);
   (0x1d17b, 0x1d182, 220); (0x1d185, 0x1d189, 230); (0x1d18a, 0x1d18b, 220);
   (0x1d1aa, 0x1d1ad, 230); (0x1d242, 0x1d244, 230); (0x1e000, 0x1e006, 230);
   (0x1e008, 0x1e018, 230); (0x1e01b, 0x1e021, 230); (0x1e023, 0x1e024, 230);
   (0x1e026, 0x1e02a, 230); (0x1e130, 0x1e136, 230); (0x1e2ae, 0x1e2ae, 230);
   (0x1e2ec, 0x1e2ef, 230); (0x1e8d0, 0x1e8d6, 220); (0x1e944, 0x1e949, 230);
   (0x1e94a, 0x1e94a, 7)].

(** [unicodedata.combining] *)
Definition combining (c : char) : N :=
  match find (fun e => let '(lo, hi, _) := e in in_range lo hi c) ccc_ranges with
  | Some (_, _, k) => k
  | None => 0
  end.

(** The canonical ordering: a character of class [k > 0] moves to the left
    of the characters of greater class that precede it.  [out] is the
    output so far, last character first. *)
Fixpoint insert_mark (c : char) (k : N) (out : list char) : list char :=
  match out with
  | p :: t =>
    if (combining p =? 0) || (combining p <=? k) then c :: out
    else p :: insert_mark c k t
  | [] => [c]
  end.

Definition canonical_order (l : list char) : list char :=
  rev (fold_left (fun out c =>
                    let k := combining c in
                    if k =? 0 then c :: out else insert_mark c k out)
                 l []).

(** [unicodedata.normalize('NFD', s)] *)
Definition nfd (s : list char) : list char :=
  canonical_order (flat_map decompose s).

(** The nonspacing marks: [unicodedata.category(c) == 'Mn']. *)
Definition mn_ranges : list (N * N) :=
  [(0x300, 0x36f); (0x483, 0x487); (0x591, 0x5bd); (0x5bf, 0x5bf);
   (0x5c1, 0x5c2); (0x5c4, 0x5c5); (0x5c7, 0x5c7); (0x610, 0x61a);
   (0x64b, 0x65f); (0x670, 0x670); (0x6d6, 0x6dc); (0x6df, 0x6e4);
   (0x6e7, 0x6e8); (0x6ea, 0x6ed); (0x711, 0x711); (0x730, 0x74a);
   (0x7a6, 0x7b0); (0x7eb, 0x7f3); (0x7fd, 0x7fd); (0x816, 0x819);
   (0x81b, 0x823); (0x825, 0x827); (0x829, 0x82d); (0x859, 0x85b);
   (0x898, 0x89f); (0x8ca, 0x8e1); (0x8e3, 0x902); (0x93a, 0x93a);
   (0x93c, 0x93c); (0x941, 0x948); (0x94d, 0x94d); (0x951, 0x957);
   (0x962, 0x963); (0x981, 0x981); (0x9bc, 0x9bc); (0x9c1, 0x9c4);
   (0x9cd, 0x9cd); (0x9e2, 0x9e3); (0x9fe, 0x9fe); (0xa01, 0xa02);
   (0xa3c, 0xa3c); (0xa41, 0xa42); (0xa47, 0xa48); (0xa4b, 0xa4d);
   (0xa51, 0xa51); (0xa70, 0xa71); (0xa75, 0xa75); (0xa81, 0xa82);
   (0xabc, 0xabc); (0xac1, 0xac5); (0xac7, 0xac8); (0xacd, 0xacd);
   (0xae2, 0xae3); (0xafa, 0xaff); (0xb01, 0xb01); (0xb3c, 0xb3c);
   (0xb3f, 0xb3f); (0xb41, 0xb44); (0xb4d, 0xb4d); (0xb55, 0xb56);
   (0xb62, 0xb63); (0xb82, 0xb82); (0xbc0, 0xbc0); (0xbcd, 0xbcd);
   (0xc00, 0xc00); (0xc04, 0xc04); (0xc3c, 0xc3c); (0xc3e, 0xc40);
   (0xc46, 0xc48); (0xc4a, 0xc4d); (0xc55, 0xc56); (0xc62, 0xc63);
   (0xc81, 0xc81); (0xcbc, 0xcbc); (0xcbf, 0xcbf); (0xcc6, 0xcc6);
   (0xccc, 0xccd); (0xce2, 0xce3); (0xd00, 0xd01); (0xd3b, 0xd3c);
   (0xd41, 0xd44); (0xd4d, 0xd4d); (0xd62, 0xd63); (0xd81, 0xd81);
   (0xdca, 0xdca); (0xdd2, 0xdd4); (0xdd6, 0xdd6); (0xe31, 0xe31);
   (0xe34, 0xe3a); (0xe47, 0xe4e); (0xeb1, 0xeb1); (0xeb4, 0xebc);
   (0xec8, 0xecd); (0xf18, 0xf19); (0xf35, 0xf35); (0xf37, 0xf37);
   (0xf39, 0xf39); (0xf71, 0xf7e); (0xf80, 0xf84); (0xf86, 0xf87);
   (0xf8d, 0xf97); (0xf99, 0xfbc); (0xfc6, 0xfc6); (0x102d, 0x1030);
   (0x1032, 0x1037); (0x1039, 0x103a); (0x103d, 0x103e); (0x1058, 0x1059);
   (0x105e, 0x1060); (0x1071, 0x1074); (0x1082, 0x1082); (0x1085, 0x1086);
   (0x108d, 0x108d); (0x109d, 0x109d); (0x135d, 0x135f); (0x1712, 0x1714);
   (0x1732, 0x1733); (0x1752, 0x1753); (0x1772, 0x1773); (0x17b4, 0x17b5);
   (0x17b7, 0x17bd); (0x17c6, 0x17c6); (0x17c9, 0x17d3); (0x17dd, 0x17dd);
   (0x180b, 0x180d); (0x180f, 0x180f); (0x1885, 0x1886); (0x18a9, 0x18a9);
   (0x1920, 0x1922); (0x1927, 0x1928); (0x1932, 0x1932); (0x1939, 0x193b);
   (0x1a17, 0x1a18); (0x1a1b, 0x1a1b); (0x1a56, 0x1a56); (0x1a58, 0x1a5e);
   (0x1a60, 0x1a60); (0x1a62, 0x1a62); (0x1a65, 0x1a6c); (0x1a73, 0x1a7c);
   (0x1a7f, 0x1a7f); (0x1ab0, 0x1abd); (0x1abf, 0x1ace); (0x1b00, 0x1b03);
   (0x1b34, 0x1b34); (0x1b36, 0x1b3a); (0x1b3c, 0x1b3c); (0x1b42, 0x1b42);
   (0x1b6b, 0x1b73); (0x1b80, 0x1b81); (0x1ba2, 0x1ba5); (0x1ba8, 0x1ba9);
   (0x1bab, 0x1bad); (0x1be6, 0x1be6); (0x1be8, 0x1be9); (0x1bed, 0x1bed);
   (0x1bef, 0x1bf1); (0x1c2c, 0x1c33); (0x1c36, 0x1c37); (0x1cd0, 0x1cd2);
   (0x1cd4, 0x1ce0); (0x1ce2, 0x1ce8); (0x1ced, 0x1ced); (0x1cf4, 0x1cf4);
   (0x1cf8, 0x1cf9); (0x1dc0, 0x1dff); (0x20d0, 0x20dc); (0x20e1, 0x20e1);
   (0x20e5, 0x20f0); (0x2cef, 0x2cf1); (0x2d7f, 0x2d7f); (0x2de0, 0x2dff);
   (0x302a, 0x302d); (0x3099, 0x309a); (0xa66f, 0xa66f); (0xa674, 0xa67d);
   (0xa69e, 0xa69f); (0xa6f0, 0xa6f1); (0xa802, 0xa802); (0xa806, 0xa806);
   (0xa80b, 0xa80b); (0xa825, 0xa826); (0xa82c, 0xa82c); (0xa8c4, 0xa8c5);
   (0xa8e0, 0xa8f1); (0xa8ff, 0xa8ff); (0xa926, 0xa92d); (0xa947, 0xa951);
   (0xa980, 0xa982); (0xa9b3, 0xa9b3); (0xa9b6, 0xa9b9); (0xa9bc, 0xa9bd);
   (0xa9e5, 0xa9e5); (0xaa29, 0xaa2e); (0xaa31, 0xaa32); (0xaa35, 0xaa36);
   (0xaa43, 0xaa43); (0xaa4c, 0xaa4c); (0xaa7c, 0xaa7c); (0xaab0, 0xaab0);
   (0xaab2, 0xaab4); (0xaab7, 0xaab8); (0xaabe, 0xaabf); (0xaac1, 0xaac1);
   (0xaaec, 0xaaed); (0xaaf6, 0xaaf6); (0xabe5, 0xabe5); (0xabe8, 0xabe8);
   (0xabed, 0xabed); (0xfb1e, 0xfb1e); (0xfe00, 0xfe0f); (0xfe20, 0xfe2f);
   (0x101fd, 0x101fd); (0x102e0, 0x102e0); (0x10376, 0x1037a);
   (0x10a01, 0x10a03); (0x10a05, 0x10a06); (0x10a0c, 0x10a0f);
   (0x10a38, 0x10a3a); (0x10a3f, 0x10a3f); (0x10ae5, 0x10ae6);
   (0x10d24, 0x10d27); (0x10eab, 0x10eac); (0x10f46, 0x10f50);
   (0x10f82, 0x10f85); (0x11001, 0x11001); (0x11038, 0x11046);
   (0x11070, 0x11070); (0x11073, 0x11074); (0x1107f, 0x11081);
   (0x110b3, 0x110b6); (0x110b9, 0x110ba); (0x110c2, 0x110c2);
   (0x11100, 0x11102); (0x11127, 0x1112b); (0x1112d, 0x11134);
   (0x11173, 0x11173); (0x11180, 0x11181); (0x111b6, 0x111be);
   (0x111c9, 0x111cc); (0x111cf, 0x111cf); (0x1122f, 0x11231);
   (0x11234, 0x11234); (0x11236, 0x11237); (0x1123e, 0x1123e);
   (0x112df, 0x112df); (0x112e3, 0x112ea); (0x11300, 0x11301);
   (0x1133b, 0x1133c); (0x11340, 0x11340); (0x11366, 0x1136c);
   (0x11370, 0x11374); (0x11438, 0x1143f); (0x11442, 0x11444);
   (0x11446, 0x11446); (0x1145e, 0x1145e); (0x114b3, 0x114b8);
   (0x114ba, 0x114ba); (0x114bf, 0x114c0); (0x114c2, 0x114c3);
   (0x115b2, 0x115b5); (0x115bc, 0x115bd); (0x115bf, 0x115c0);
   (0x115dc, 0x115dd); (0x11633, 0x1163a); (0x1163d, 0x1163d);
   (0x1163f, 0x11640); (0x116ab, 0x116ab); (0x116ad, 0x116ad);
   (0x116b0, 0x116b5); (0x116b7, 0x116b7); (0x1171d, 0x1171f);
   (0x11722, 0x11725); (0x11727, 0x1172b); (0x1182f, 0x11837);
   (0x11839, 0x1183a); (0x1193b, 0x1193c); (0x1193e, 0x1193e);
   (0x11943, 0x11943); (0x119d4, 0x119d7); (0x119da, 0x119db);
   (0x119e0, 0x119e0); (0x11a01, 0x11a0a); (0x11a33, 0x11a38);
   (0x11a3b, 0x11a3e); (0x11a47, 0x11a47); (0x11a51, 0x11a56);
   (0x11a59, 0x11a5b); (0x11a8a, 0x11a96); (0x11a98, 0x11a99);
   (0x11c30, 0x11c36); (0x11c38, 0x11c3d); (0x11c3f, 0x11c3f);
   (0x11c92, 0x11ca7); (0x11caa, 0x11cb0); (0x11cb2, 0x11cb3);
   (0x11cb5, 0x11cb6); (0x11d31, 0x11d36); (0x11d3a, 0x11d3a);
   (0x11d3c, 0x11d3d); (0x11d3f, 0x11d45); (0x11d47, 0x11d47);
   (0x11d90, 0x11d91); (0x11d95, 0x11d95); (0x11d97, 0x11d97);
   (0x11ef3, 0x11ef4); (0x16af0, 0x16af4); (0x16b30, 0x16b36);
   (0x16f4f, 0x16f4f); (0x16f8f, 0x16f92); (0x16fe4, 0x16fe4);
   (0x1bc9d, 0x1bc9e); (0x1cf00, 0x1cf2d); (0x1cf30, 0x1cf46);
   (0x1d167, 0x1d169); (0x1d17b, 0x1d182); (0x1d185, 0x1d18b);
   (0x1d1aa, 0x1d1ad); (0x1d242, 0x1d244); (0x1da00, 0x1da36);
   (0x1da3b, 0x1da6c); (0x1da75, 0x1da75); (0x1da84, 0x1da84);
   (0x1da9b, 0x1da9f); (0x1daa1, 0x1daaf); (0x1e000, 0x1e006);
   (0x1e008, 0x1e018); (0x1e01b, 0x1e021); (0x1e023, 0x1e024);
   (0x1e026, 0x1e02a); (0x1e130, 0x1e136); (0x1e2ae, 0x1e2ae);
   (0x1e2ec, 0x1e2ef); (0x1e8d0, 0x1e8d6); (0x1e944, 0x1e94a);
   (0xe0100, 0xe01ef)].

Definition is_mn (c : char) : bool :=
  existsb (fun r => in_range (fst r) (snd r) c) mn_ranges.

(** The class [\w] of [re] on strings ([str.isalnum] or underscore), which
    decides the word boundary [\b]. *)
Definition word_ranges : list (N * N) :=
  [(0x30, 0x39); (0x41, 0x5a); (0x5f, 0x5f); (0x61, 0x7a); (0xaa, 0xaa);
   (0xb2, 0xb3); (0xb5, 0xb5); (0xb9, 0xba); (0xbc, 0xbe); (0xc0, 0xd6);
   (0xd8, 0xf6); (0xf8, 0x2c1); (0x2c6, 0x2d1); (0x2e0, 0x2e4);
   (0x2ec, 0x2ec); (0x2ee, 0x2ee); (0x370, 0x374); (0x376, 0x377);
   (0x37a, 0x37d); (0x37f, 0x37f); (0x386, 0x386); (0x388, 0x38a);
   (0x38c, 0x38c); (0x38e, 0x3a1); (0x3a3, 0x3f5); (0x3f7, 0x481);
   (0x48a, 0x52f); (0x531, 0x556); (0x559, 0x559); (0x560, 0x588);
   (0x5d0, 0x5ea); (0x5ef, 0x5f2); (0x620, 0x64a); (0x660, 0x669);
   (0x66e, 0x66f); (0x671, 0x6d3); (0x6d5, 0x6d5); (0x6e5, 0x6e6);
   (0x6ee, 0x6fc); (0x6ff, 0x6ff); (0x710, 0x710); (0x712, 0x72f);
   (0x74d, 0x7a5); (0x7b1, 0x7b1); (0x7c0, 0x7ea); (0x7f4, 0x7f5);
   (0x7fa, 0x7fa); (0x800, 0x815); (0x81a, 0x81a); (0x824, 0x824);
   (0x828, 0x828); (0x840, 0x858); (0x860, 0x86a); (0x870, 0x887);
   (0x889, 0x88e); (0x8a0, 0x8c9); (0x904, 0x939); (0x93d, 0x93d);
   (0x950, 0x950); (0x958, 0x961); (0x966, 0x96f); (0x971, 0x980);
   (0x985, 0x98c); (0x98f, 0x990); (0x993, 0x9a8); (0x9aa, 0x9b0);
   (0x9b2, 0x9b2); (0x9b6, 0x9b9); (0x9bd, 0x9bd); (0x9ce, 0x9ce);
   (0x9dc, 0x9dd); (0x9df, 0x9e1); (0x9e6, 0x9f1); (0x9f4, 0x9f9);
   (0x9fc, 0x9fc); (0xa05, 0xa0a); (0xa0f, 0xa10); (0xa13, 0xa28);
   (0xa2a, 0xa30); (0xa32, 0xa33); (0xa35, 0xa36); (0xa38, 0xa39);
   (0xa59, 0xa5c); (0xa5e, 0xa5e); (0xa66, 0xa6f); (0xa72, 0xa74);
   (0xa85, 0xa8d); (0xa8f, 0xa91); (0xa93, 0xaa8); (0xaaa, 0xab0);
   (0xab2, 0xab3); (0xab5, 0xab9); (0xabd, 0xabd); (0xad0, 0xad0);
   (0xae0, 0xae1); (0xae6, 0xaef); (0xaf9, 0xaf9); (0xb05, 0xb0c);
   (0xb0f, 0xb10); (0xb13, 0xb28); (0xb2a, 0xb30); (0xb32, 0xb33);
   (0xb35, 0xb39); (0xb3d, 0xb3d); (0xb5c, 0xb5d); (0xb5f, 0xb61);
   (0xb66, 0xb6f); (0xb71, 0xb77); (0xb83, 0xb83); (0xb85, 0xb8a);
   (0xb8e, 0xb90); (0xb92, 0xb95); (0xb99, 0xb9a); (0xb9c, 0xb9c);
   (0xb9e, 0xb9f); (0xba3, 0xba4); (0xba8, 0xbaa); (0xbae, 0xbb9);
   (0xbd0, 0xbd0); (0xbe6, 0xbf2); (0xc05, 0xc0c); (0xc0e, 0xc10);
   (0xc12, 0xc28); (0xc2a, 0xc39); (0xc3d, 0xc3d); (0xc58, 0xc5a);
   (0xc5d, 0xc5d); (0xc60, 0xc61); (0xc66, 0xc6f); (0xc78, 0xc7e);
   (0xc80, 0xc80); (0xc85, 0xc8c); (0xc8e, 0xc90); (0xc92, 0xca8);
   (0xcaa, 0xcb3); (0xcb5, 0xcb9); (0xcbd, 0xcbd); (0xcdd, 0xcde);
   (0xce0, 0xce1); (0xce6, 0xcef); (0xcf1, 0xcf2); (0xd04, 0xd0c);
   (0xd0e, 0xd10); (0xd12, 0xd3a); (0xd3d, 0xd3d); (0xd4e, 0xd4e);
   (0xd54, 0xd56); (0xd58, 0xd61); (0xd66, 0xd78); (0xd7a, 0xd7f);
   (0xd85, 0xd96); (0xd9a, 0xdb1); (0xdb3, 0xdbb); (0xdbd, 0xdbd);
   (0xdc0, 0xdc6); (0xde6, 0xdef); (0xe01, 0xe30); (0xe32, 0xe33);
   (0xe40, 0xe46); (0xe50, 0xe59); (0xe81, 0xe82); (0xe84, 0xe84);
   (0xe86, 0xe8a); (0xe8c, 0xea3); (0xea5, 0xea5); (0xea7, 0xeb0);
   (0xeb2, 0xeb3); (0xebd, 0xebd); (0xec0, 0xec4); (0xec6, 0xec6);
   (0xed0, 0xed9); (0xedc, 0xedf); (0xf00, 0xf00); (0xf20, 0xf33);
   (0xf40, 0xf47); (0xf49, 0xf6c); (0xf88, 0xf8c); (0x1000, 0x102a);
   (0x103f, 0x1049); (0x1050, 0x1055); (0x105a, 0x105d); (0x1061, 0x1061);
   (0x1065, 0x1066); (0x106e, 0x1070); (0x1075, 0x1081); (0x108e, 0x108e);
   (0x1090, 0x1099); (0x10a0, 0x10c5); (0x10c7, 0x10c7); (0x10cd, 0x10cd);
   (0x10d0, 0x10fa); (0x10fc, 0x1248); (0x124a, 0x124d); (0x1250, 0x1256);
   (0x1258, 0x1258); (0x125a, 0x125d); (0x1260, 0x1288); (0x128a, 0x128d);
   (0x1290, 0x12b0); (0x12b2, 0x12b5); (0x12b8, 0x12be); (0x12c0, 0x12c0);
   (0x12c2, 0x12c5); (0x12c8, 0x12d6); (0x12d8, 0x1310); (0x1312, 0x1315);
   (0x1318, 0x135a); (0x1369, 0x137c); (0x1380, 0x138f); (0x13a0, 0x13f5);
   (0x13f8, 0x13fd); (0x1401, 0x166c); (0x166f, 0x167f); (0x1681, 0x169a);
   (0x16a0, 0x16ea); (0x16ee, 0x16f8); (0x1700, 0x1711); (0x171f, 0x1731);
   (0x1740, 0x1751); (0x1760, 0x176c); (0x176e, 0x1770); (0x1780, 0x17b3);
   (0x17d7, 0x17d7); (0x17dc, 0x17dc); (0x17e0, 0x17e9); (0x17f0, 0x17f9);
   (0x1810, 0x1819); (0x1820, 0x1878); (0x1880, 0x1884); (0x1887, 0x18a8);
   (0x18aa, 0x18aa); (0x18b0, 0x18f5); (0x1900, 0x191e); (0x1946, 0x196d);
   (0x1970, 0x1974); (0x1980, 0x19ab); (0x19b0, 0x19c9); (0x19d0, 0x19da);
   (0x1a00, 0x1a16); (0x1a20, 0x1a54); (0x1a80, 0x1a89); (0x1a90, 0x1a99);
   (0x1aa7, 0x1aa7); (0x1b05, 0x1b33); (0x1b45, 0x1b4c); (0x1b50, 0x1b59);
   (0x1b83, 0x1ba0); (0x1bae, 0x1be5); (0x1c00, 0x1c23); (0x1c40, 0x1c49);
   (0x1c4d, 0x1c7d); (0x1c80, 0x1c88); (0x1c90, 0x1cba); (0x1cbd, 0x1cbf);
   (0x1ce9, 0x1cec); (0x1cee, 0x1cf3); (0x1cf5, 0x1cf6); (0x1cfa, 0x1cfa);
   (0x1d00, 0x1dbf); (0x1e00, 0x1f15); (0x1f18, 0x1f1d); (0x1f20, 0x1f45);
   (0x1f48, 0x1f4d); (0x1f50, 0x1f57); (0x1f59, 0x1f59); (0x1f5b, 0x1f5b);
   (0x1f5d, 0x1f5d); (0x1f5f, 0x1f7d); (0x1f80, 0x1fb4); (0x1fb6, 0x1fbc);
   (0x1fbe, 0x1fbe); (0x1fc2, 0x1fc4); (0x1fc6, 0x1fcc); (0x1fd0, 0x1fd3);
   (0x1fd6, 0x1fdb); (0x1fe0, 0x1fec); (0x1ff2, 0x1ff4); (0x1ff6, 0x1ffc);
   (0x2070, 0x2071); (0x2074, 0x2079); (0x207f, 0x2089); (0x2090, 0x209c);
   (0x2102, 0x2102); (0x2107, 0x2107); (0x210a, 0x2113); (0x2115, 0x2115);
   (0x2119, 0x211d); (0x2124, 0x2124); (0x2126, 0x2126); (0x2128, 0x2128);
   (0x212a, 0x212d); (0x212f, 0x2139); (0x213c, 0x213f); (0x2145, 0x2149);
   (0x214e, 0x214e); (0x2150, 0x2189); (0x2460, 0x249b); (0x24ea, 0x24ff);
   (0x2776, 0x2793); (0x2c00, 0x2ce4); (0x2ceb, 0x2cee); (0x2cf2, 0x2cf3);
   (0x2cfd, 0x2cfd); (0x2d00, 0x2d25); (0x2d27, 0x2d27); (0x2d2d, 0x2d2d);
   (0x2d30, 0x2d67); (0x2d6f, 0x2d6f); (0x2d80, 0x2d96); (0x2da0, 0x2da6);
   (0x2da8, 0x2dae); (0x2db0, 0x2db6); (0x2db8, 0x2dbe); (0x2dc0, 0x2dc6);
   (0x2dc8, 0x2dce); (0x2dd0, 0x2dd6); (0x2dd8, 0x2dde); (0x2e2f, 0x2e2f);
   (0x3005, 0x3007); (0x3021, 0x3029); (0x3031, 0x3035); (0x3038, 0x303c);
   (0x3041, 0x3096); (0x309d, 0x309f); (0x30a1, 0x30fa); (0x30fc, 0x30ff);
   (0x3105, 0x312f); (0x3131, 0x318e); (0x3192, 0x3195); (0x31a0, 0x31bf);
   (0x31f0, 0x31ff); (0x3220, 0x3229); (0x3248, 0x324f); (0x3251, 0x325f);
   (0x3280, 0x3289); (0x32b1, 0x32bf); (0x3400, 0x4dbf); (0x4e00, 0xa48c);
   (0xa4d0, 0xa4fd); (0xa500, 0xa60c); (0xa610, 0xa62b); (0xa640, 0xa66e);
   (0xa67f, 0xa69d); (0xa6a0, 0xa6ef); (0xa717, 0xa71f); (0xa722, 0xa788);
   (0xa78b, 0xa7ca); (0xa7d0, 0xa7d1); (0xa7d3, 0xa7d3); (0xa7d5, 0xa7d9);
   (0xa7f2, 0xa801); (0xa803, 0xa805); (0xa807, 0xa80a); (0xa80c, 0xa822);
   (0xa830, 0xa835); (0xa840, 0xa873); (0xa882, 0xa8b3); (0xa8d0, 0xa8d9);
   (0xa8f2, 0xa8f7); (0xa8fb, 0xa8fb); (0xa8fd, 0xa8fe); (0xa900, 0xa925);
   (0xa930, 0xa946); (0xa960, 0xa97c); (0xa984, 0xa9b2); (0xa9cf, 0xa9d9);
   (0xa9e0, 0xa9e4); (0xa9e6, 0xa9fe); (0xaa00, 0xaa28); (0xaa40, 0xaa42);
   (0xaa44, 0xaa4b); (0xaa50, 0xaa59); (0xaa60, 0xaa76); (0xaa7a, 0xaa7a);
   (0xaa7e, 0xaaaf); (0xaab1, 0xaab1); (0xaab5, 0xaab6); (0xaab9, 0xaabd);
   (0xaac0, 0xaac0); (0xaac2, 0xaac2); (0xaadb, 0xaadd); (0xaae0, 0xaaea);
   (0xaaf2, 0xaaf4); (0xab01, 0xab06); (0xab09, 0xab0e); (0xab11, 0xab16);
   (0xab20, 0xab26); (0xab28, 0xab2e); (0xab30, 0xab5a); (0xab5c, 0xab69);
   (0xab70, 0xabe2); (0xabf0, 0xabf9); (0xac00, 0xd7a3); (0xd7b0, 0xd7c6);
   (0xd7cb, 0xd7fb); (0xf900, 0xfa6d); (0xfa70, 0xfad9); (0xfb00, 0xfb06);
   (0xfb13, 0xfb17); (0xfb1d, 0xfb1d); (0xfb1f, 0xfb28); (0xfb2a, 0xfb36);
   (0xfb38, 0xfb3c); (0xfb3e, 0xfb3e); (0xfb40, 0xfb41); (0xfb43, 0xfb44);
   (0xfb46, 0xfbb1); (0xfbd3, 0xfd3d); (0xfd50, 0xfd8f); (0xfd92, 0xfdc7);
   (0xfdf0, 0xfdfb); (0xfe70, 0xfe74); (0xfe76, 0xfefc); (0xff10, 0xff19);
   (0xff21, 0xff3a); (0xff41, 0xff5a); (0xff66, 0xffbe); (0xffc2, 0xffc7);
   (0xffca, 0xffcf); (0xffd2, 0xffd7); (0xffda, 0xffdc); (0x10000, 0x1000b);
   (0x1000d, 0x10026); (0x10028, 0x1003a); (0x1003c, 0x1003d);
   (0x1003f, 0x1004d); (0x10050, 0x1005d); (0x10080, 0x100fa);
   (0x10107, 0x10133); (0x10140, 0x10178); (0x1018a, 0x1018b);
   (0x10280, 0x1029c); (0x102a0, 0x102d0); (0x102e1, 0x102fb);
   (0x10300, 0x10323); (0x1032d, 0x1034a); (0x10350, 0x10375);
   (0x10380, 0x1039d); (0x103a0, 0x103c3); (0x103c8, 0x103cf);
   (0x103d1, 0x103d5); (0x10400, 0x1049d); (0x104a0, 0x104a9);
   (0x104b0, 0x104d3); (0x104d8, 0x104fb); (0x10500, 0x10527);
   (0x10530, 0x10563); (0x10570, 0x1057a); (0x1057c, 0x1058a);
   (0x1058c, 0x10592); (0x10594, 0x10595); (0x10597, 0x105a1);
   (0x105a3, 0x105b1); (0x105b3, 0x105b9); (0x105bb, 0x105bc);
   (0x10600, 0x10736); (0x10740, 0x10755); (0x10760, 0x10767);
   (0x10780, 0x10785); (0x10787, 0x107b0); (0x107b2, 0x107ba);
   (0x10800, 0x10805); (0x10808, 0x10808); (0x1080a, 0x10835);
   (0x10837, 0x10838); (0x1083c, 0x1083c); (0x1083f, 0x10855);
   (0x10858, 0x10876); (0x10879, 0x1089e); (0x108a7, 0x108af);
   (0x108e0, 0x108f2); (0x108f4, 0x108f5); (0x108fb, 0x1091b);
   (0x10920, 0x10939); (0x10980, 0x109b7); (0x109bc, 0x109cf);
   (0x109d2, 0x10a00); (0x10a10, 0x10a13); (0x10a15, 0x10a17);
   (0x10a19, 0x10a35); (0x10a40, 0x10a48); (0x10a60, 0x10a7e);
   (0x10a80, 0x10a9f); (0x10ac0, 0x10ac7); (0x10ac9, 0x10ae4);
   (0x10aeb, 0x10aef); (0x10b00, 0x10b35); (0x10b40, 0x10b55);
   (0x10b58, 0x10b72); (0x10b78, 0x10b91); (0x10ba9, 0x10baf);
   (0x10c00, 0x10c48); (0x10c80, 0x10cb2); (0x10cc0, 0x10cf2);
   (0x10cfa, 0x10d23); (0x10d30, 0x10d39); (0x10e60, 0x10e7e);
   (0x10e80, 0x10ea9); (0x10eb0, 0x10eb1); (0x10f00, 0x10f27);
   (0x10f30, 0x10f45); (0x10f51, 0x10f54); (0x10f70, 0x10f81);
   (0x10fb0, 0x10fcb); (0x10fe0, 0x10ff6); (0x11003, 0x11037);
   (0x11052, 0x1106f); (0x11071, 0x11072); (0x11075, 0x11075);
   (0x11083, 0x110af); (0x110d0, 0x110e8); (0x110f0, 0x110f9);
   (0x11103, 0x11126); (0x11136, 0x1113f); (0x11144, 0x11144);
   (0x11147, 0x11147); (0x11150, 0x11172); (0x11176, 0x11176);
   (0x11183, 0x111b2); (0x111c1, 0x111c4); (0x111d0, 0x111da);
   (0x111dc, 0x111dc); (0x111e1, 0x111f4); (0x11200, 0x11211);
   (0x11213, 0x1122b); (0x11280, 0x11286); (0x11288, 0x11288);
   (0x1128a, 0x1128d); (0x1128f, 0x1129d); (0x1129f, 0x112a8);
   (0x112b0, 0x112de); (0x112f0, 0x112f9); (0x11305, 0x1130c);
   (0x1130f, 0x11310); (0x11313, 0x11328); (0x1132a, 0x11330);
   (0x11332, 0x11333); (0x11335, 0x11339); (0x1133d, 0x1133d);
   (0x11350, 0x11350); (0x1135d, 0x11361); (0x11400, 0x11434);
   (0x11447, 0x1144a); (0x11450, 0x11459); (0x1145f, 0x11461);
   (0x11480, 0x114af); (0x114c4, 0x114c5); (0x114c7, 0x114c7);
   (0x114d0, 0x114d9); (0x11580, 0x115ae); (0x115d8, 0x115db);
   (0x11600, 0x1162f); (0x11644, 0x11644); (0x11650, 0x11659);
   (0x11680, 0x116aa); (0x116b8, 0x116b8); (0x116c0, 0x116c9);
   (0x11700, 0x1171a); (0x11730, 0x1173b); (0x11740, 0x11746);
   (0x11800, 0x1182b); (0x118a0, 0x118f2); (0x118ff, 0x11906);
   (0x11909, 0x11909); (0x1190c, 0x11913); (0x11915, 0x11916);
   (0x11918, 0x1192f); (0x1193f, 0x1193f); (0x11941, 0x11941);
   (0x11950, 0x11959); (0x119a0, 0x119a7); (0x119aa, 0x119d0);
   (0x119e1, 0x119e1); (0x119e3, 0x119e3); (0x11a00, 0x11a00);
   (0x11a0b, 0x11a32); (0x11a3a, 0x11a3a); (0x11a50, 0x11a50);
   (0x11a5c, 0x11a89); (0x11a9d, 0x11a9d); (0x11ab0, 0x11af8);
   (0x11c00, 0x11c08); (0x11c0a, 0x11c2e); (0x11c40, 0x11c40);
   (0x11c50, 0x11c6c); (0x11c72, 0x11c8f); (0x11d00, 0x11d06);
   (0x11d08, 0x11d09); (0x11d0b, 0x11d30); (0x11d46, 0x11d46);
   (0x11d50, 0x11d59); (0x11d60, 0x11d65); (0x11d67, 0x11d68);
   (0x11d6a, 0x11d89); (0x11d98, 0x11d98); (0x11da0, 0x11da9);
   (0x11ee0, 0x11ef2); (0x11fb0, 0x11fb0); (0x11fc0, 0x11fd4);
   (0x12000, 0x12399); (0x12400, 0x1246e); (0x12480, 0x12543);
   (0x12f90, 0x12ff0); (0x13000, 0x1342e); (0x14400, 0x14646);
   (0x16800, 0x16a38); (0x16a40, 0x16a5e); (0x16a60, 0x16a69);
   (0x16a70, 0x16abe); (0x16ac0, 0x16ac9); (0x16ad0, 0x16aed);
   (0x16b00, 0x16b2f); (0x16b40, 0x16b43); (0x16b50, 0x16b59);
   (0x16b5b, 0x16b61); (0x16b63, 0x16b77); (0x16b7d, 0x16b8f);
   (0x16e40, 0x16e96); (0x16f00, 0x16f4a); (0x16f50, 0x16f50);
   (0x16f93, 0x16f9f); (0x16fe0, 0x16fe1); (0x16fe3, 0x16fe3);
   (0x17000, 0x187f7); (0x18800, 0x18cd5); (0x18d00, 0x18d08);
   (0x1aff0, 0x1aff3); (0x1aff5, 0x1affb); (0x1affd, 0x1affe);
   (0x1b000, 0x1b122); (0x1b150, 0x1b152); (0x1b164, 0x1b167);
   (0x1b170, 0x1b2fb); (0x1bc00, 0x1bc6a); (0x1bc70, 0x1bc7c);
   (0x1bc80, 0x1bc88); (0x1bc90, 0x1bc99); (0x1d2e0, 0x1d2f3);
   (0x1d360, 0x1d378); (0x1d400, 0x1d454); (0x1d456, 0x1d49c);
   (0x1d49e, 0x1d49f); (0x1d4a2, 0x1d4a2); (0x1d4a5, 0x1d4a6);
   (0x1d4a9, 0x1d4ac); (0x1d4ae, 0x1d4b9); (0x1d4bb, 0x1d4bb);
   (0x1d4bd, 0x1d4c3); (0x1d4c5, 0x1d505); (0x1d507, 0x1d50a);
   (0x1d50d, 0x1d514); (0x1d516, 0x1d51c); (0x1d51e, 0x1d539);
   (0x1d53b, 0x1d53e); (0x1d540, 0x1d544); (0x1d546, 0x1d546);
   (0x1d54a, 0x1d550); (0x1d552, 0x1d6a5); (0x1d6a8, 0x1d6c0);
   (0x1d6c2, 0x1d6da); (0x1d6dc, 0x1d6fa); (0x1d6fc, 0x1d714);
   (0x1d716, 0x1d734); (0x1d736, 0x1d74e); (0x1d750, 0x1d76e);
   (0x1d770, 0x1d788); (0x1d78a, 0x1d7a8); (0x1d7aa, 0x1d7c2);
   (0x1d7c4, 0x1d7cb); (0x1d7ce, 0x1d7ff); (0x1df00, 0x1df1e);
   (0x1e100, 0x1e12c); (0x1e137, 0x1e13d); (0x1e140, 0x1e149);
   (0x1e14e, 0x1e14e); (0x1e290, 0x1e2ad); (0x1e2c0, 0x1e2eb);
   (0x1e2f0, 0x1e2f9); (0x1e7e0, 0x1e7e6); (0x1e7e8, 0x1e7eb);
   (0x1e7ed, 0x1e7ee); (0x1e7f0, 0x1e7fe); (0x1e800, 0x1e8c4);
   (0x1e8c7, 0x1e8cf); (0x1e900, 0x1e943); (0x1e94b, 0x1e94b);
   (0x1e950, 0x1e959); (0x1ec71, 0x1ecab); (0x1ecad, 0x1ecaf);
   (0x1ecb1, 0x1ecb4); (0x1ed01, 0x1ed2d); (0x1ed2f, 0x1ed3d);
   (0x1ee00, 0x1ee03); (0x1ee05, 0x1ee1f); (0x1ee21, 0x1ee22);
   (0x1ee24, 0x1ee24); (0x1ee27, 0x1ee27); (0x1ee29, 0x1ee32);
   (0x1ee34, 0x1ee37); (0x1ee39, 0x1ee39); (0x1ee3b, 0x1ee3b);
   (0x1ee42, 0x1ee42); (0x1ee47, 0x1ee47); (0x1ee49, 0x1ee49);
   (0x1ee4b, 0x1ee4b); (0x1ee4d, 0x1ee4f); (0x1ee51, 0x1ee52);
   (0x1ee54, 0x1ee54); (0x1ee57, 0x1ee57); (0x1ee59, 0x1ee59);
   (0x1ee5b, 0x1ee5b); (0x1ee5d, 0x1ee5d); (0x1ee5f, 0x1ee5f);
   (0x1ee61, 0x1ee62); (0x1ee64, 0x1ee64); (0x1ee67, 0x1ee6a);
   (0x1ee6c, 0x1ee72); (0x1ee74, 0x1ee77); (0x1ee79, 0x1ee7c);
   (0x1ee7e, 0x1ee7e); (0x1ee80, 0x1ee89); (0x1ee8b, 0x1ee9b);
   (0x1eea1, 0x1eea3); (0x1eea5, 0x1eea9); (0x1eeab, 0x1eebb);
   (0x1f100, 0x1f10c); (0x1fbf0, 0x1fbf9); (0x20000, 0x2a6df);
   (0x2a700, 0x2b738); (0x2b740, 0x2b81d); (0x2b820, 0x2cea1);
   (0x2ceb0, 0x2ebe0); (0x2f800, 0x2fa1d); (0x30000, 0x3134a)].

Definition isword (c : char) : bool :=
  existsb (fun r => in_range (fst r) (snd r) c) word_ranges.

(** The code points that a pattern letter matches under [re.IGNORECASE]:
    both cases of the letter, and for [i], [s] and [k] the extra code
    points U+0130, U+0131, U+017F and U+212A. *)
Definition ignorecase_eq (pat c : char) : bool :=
  let lo := if in_range 0x41 0x5A pat then pat + 0x20 else pat in
  (c =? pat) || (c =? lo)
  || (in_range 0x61 0x7A lo && (c =? lo - 0x20))
  || ((lo =? 0x69) && ((c =? 0x130) || (c =? 0x131)))
  || ((lo =? 0x73) && (c =? 0x17F))
  || ((lo =? 0x6B) && (c =? 0x212A)).

(** Decoding of the UTF-8 bytes of a literal into code points. *)
Fixpoint utf8_decode (l : list N) : list char :=
  match l with
  | [] => []
  | b0 :: t =>
    if b0 <? 0x80 then b0 :: utf8_decode t
    else if b0 <? 0xE0 then
      match t with
      | b1 :: t1 => ((b0 mod 0x20) * 0x40 + b1 mod 0x40) :: utf8_decode t1
      | _ => []
      end
    else if b0 <? 0xF0 then
      match t with
      | b1 :: b2 :: t2 =>
        ((b0 mod 0x10) * 0x1000 + (b1 mod 0x40) * 0x40 + b2 mod 0x40)
          :: utf8_decode t2
      | _ => []
      end
    else
      match t with
      | b1 :: b2 :: b3 :: t3 =>
        ((b0 mod 0x08) * 0x40000 + (b1 mod 0x40) * 0x1000
         + (b2 mod 0x40) * 0x40 + b3 mod 0x40) :: utf8_decode t3
      | _ => []
      end
  end.
End Unicode.

(** A string literal of the source, as code points. *)
Definition py (s : string) : pystr :=
  Unicode.utf8_decode (List.map N_of_ascii (list_ascii_of_string s)).

Definition chr (s : string) : char :=
  match py s with c :: _ => c | [] => 0%N end.

(* ===================================================================== *)
(** ** The methods of Python's [str] that the program calls *)
(* ===================================================================== *)

Module Py.

(** [s == t] *)
Fixpoint eqb (s t : pystr) : bool :=
  match s, t with
  | [], [] => true
  | a :: s', b :: t' => N.eqb a b && eqb s' t'
  | _, _ => false
  end.

Definition eq_dec : forall s t : pystr, {s = t} + {s <> t} :=
  list_eq_dec N.eq_dec.

(** [x in xs] for a list, set or frozenset of strings. *)
Definition mem (x : pystr) (xs : list pystr) : bool := existsb (eqb x) xs.

Definition cmem (c : char) (cs : list char) : bool := existsb (N.eqb c) cs.

(** [s.upper()] *)
Definition upper (s : pystr) : pystr := flat_map Unicode.upper_char s.

(** [c.upper() == c] for one character *)
Definition is_upper (d : char) : bool := eqb (Unicode.upper_char d) [d].

(** [s.lstrip()], [s.rstrip()], [s.strip()] *)
Fixpoint lstrip (s : pystr) : pystr :=
  match s with
  | c :: t => if Unicode.isspace c then lstrip t else s
  | [] => []
  end.

Definition rstrip (s : pystr) : pystr := rev (lstrip (rev s)).

Definition strip (s : pystr) : pystr := rstrip (lstrip s).

(** [s.lstrip(chars)], [s.rstrip(chars)] *)
Fixpoint lstrip_chars (cs : list char) (s : pystr) : pystr :=
  match s with
  | c :: t => if cmem c cs then lstrip_chars cs t else s
  | [] => []
  end.

Definition rstrip_chars (cs : list char) (s : pystr) : pystr :=
  rev (lstrip_chars cs (rev s)).

(** [s.startswith(p)], [s.endswith(p)] *)
Fixpoint startswith (s p : pystr) : bool :=
  match p, s with
  | [], _ => true
  | a :: p', b :: s' => N.eqb a b && startswith s' p'
  | _ :: _, [] => false
  end.

Definition endswith (s p : pystr) : bool := startswith (rev s) (rev p).

(** The offsets at which [sub] occurs in [s], in increasing order;
    [i] is the offset of the head of [s]. *)
Fixpoint occurrences_from (i : nat) (sub s : pystr) : list nat :=
  (if startswith s sub then [i] else [])
    ++ match s with
       | [] => []
       | _ :: t => occurrences_from (S i) sub t
       end.

Definition occurrences (sub s : pystr) : list nat := occurrences_from 0 sub s.

(** [sub in s] *)
Definition contains (s sub : pystr) : bool :=
  match occurrences sub s with [] => false | _ :: _ => true end.

(** [s.rfind(sub)]: the highest offset, or -1. *)
Definition rfind (s sub : pystr) : Z :=
  match rev (occurrences sub s) with
  | i :: _ => Z.of_nat i
  | [] => (-1)%Z
  end.

(** [s[:n]] and [s[n:]] for [n >= 0]; [s[a:b]] *)
Definition upto (n : nat) (s : pystr) : pystr := firstn n s.
Definition from (n : nat) (s : pystr) : pystr := skipn n s.
Definition slice (a b : nat) (s : pystr) : pystr := firstn (b - a) (skipn a s).

(** [s[:-n]] for [n > 0] *)
Definition drop_last (n : nat) (s : pystr) : pystr := firstn (length s - n) s.

(** [s.split(sep)] for a separator of one character *)
Fixpoint split (sep : char) (s : pystr) : list pystr :=
  match s with
  | [] => [[]]
  | c :: t =>
    if N.eqb c sep then [] :: split sep t
    else match split sep t with
         | w :: ws => (c :: w) :: ws
         | [] => [[c]]
         end
  end.

(** [s.split()]: the maximal runs of characters that are not spaces *)
Fixpoint split_ws_aux (cur : pystr) (s : pystr) : list pystr :=
  match s with
  | [] => match cur with [] => [] | _ => [rev cur] end
  | c :: t =>
    if Unicode.isspace c
    then match cur with [] => split_ws_aux [] t | _ => rev cur :: split_ws_aux [] t end
    else split_ws_aux (c :: cur) t
  end.

Definition split_ws (s : pystr) : list pystr := split_ws_aux [] s.

(** [s.replace(old, new)] for a non-empty [old]: the occurrences are
    replaced from the left and do not overlap.  [skip] counts the
    characters of an occurrence still to be dropped. *)
Fixpoint replace_aux (old new : pystr) (skip : nat) (s : pystr) : pystr :=
  match s with
  | [] => []
  | c :: t =>
    match skip with
    | S k => replace_aux old new k t
    | O => if startswith s old
           then new ++ replace_aux old new (length old - 1) t
           else c :: replace_aux old new 0 t
    end
  end.

Definition replace (old new s : pystr) : pystr := replace_aux old new 0 s.

(** What [replace] makes of one character when [old] is the character [c]. *)
Definition subst_char (c : char) (new : pystr) (x : char) : pystr :=
  if N.eqb c x then new else [x].

(** [sep.join(parts)] *)
Fixpoint join (sep : pystr) (parts : list pystr) : pystr :=
  match parts with
  | [] => []
  | [p] => p
  | p :: ps => p ++ sep ++ join sep ps
  end.

(** [s.zfill(n)]: the zeros go after a leading sign *)
Definition zfill (n : nat) (s : pystr) : pystr :=
  match s with
  | c :: t =>
    if N.eqb c 0x2B || N.eqb c 0x2D
    then c :: repeat 0x30%N (n - length s) ++ t
    else repeat 0x30%N (n - length s) ++ s
  | [] => repeat 0x30%N n
  end.

(** [s.isdigit()] *)
Definition isdigit (s : pystr) : bool :=
  match s with [] => false | _ => forallb Unicode.isdigit s end.

(** The digits of a string read in base ten (most significant first);
    [None] when some character is not a decimal digit. *)
Fixpoint digits_value (acc : N) (s : pystr) : option N :=
  match s with
  | [] => Some acc
  | c :: t => match Unicode.digit_value c with
              | Some d => digits_value (10 * acc + d)%N t
              | None => None
              end
  end.

(** [int(s)] for a string without sign, spaces or underscores: [None]
    stands for [ValueError]. *)
Definition int (s : pystr) : option N :=
  match s with [] => None | _ => digits_value 0 s end.

(** The number that a literal made of decimal digits and dots denotes:
    digits with at most one dot and at least one digit.  [None] for any
    other string of digits and dots. *)
Definition decimal_value (s : pystr) : option Q :=
  match split 0x2E%N s with
  | [ip] =>
    match int ip with
    | Some n => Some (inject_Z (Z.of_N n))
    | None => None
    end
  | [ip; fp] =>
    match ip, fp with
    | [], [] => None
    | _, _ =>
      match digits_value 0 ip, digits_value 0 fp with
      | Some n, Some f =>
        Some (Qred (Qmake (Z.of_N (n * 10 ^ N.of_nat (length fp) + f))
                          (Z.to_pos (10 ^ Z.of_nat (length fp)))))
      | _, _ => None
      end
    end
  | _ => None
  end.

(** What [float] returns for a literal without sign: a finite binary64
    number, given as the rational that it is, or infinity. *)
Inductive pyfloat : Type :=
| Finite (q : Q)
| Infinity.

(** The integer nearest to [n / d] for [d > 0]; of two nearest ones, the
    even one. *)
Definition round_half_even (n d : Z) : Z :=
  let q := (n / d)%Z in
  match (2 * (n mod d) ?= d)%Z with
  | Lt => q
  | Gt => (q + 1)%Z
  | Eq => if Z.even q then q else (q + 1)%Z
  end.

(** The finite binary64 numbers that are not negative are the numbers
    [m * 2^u / 2^1074] with a significand [m] below [2^53] and [u] from 0
    to 2045: multiples of the least positive number, [2^-1074]. *)
Definition is_binary64 (r : Q) : Prop :=
  exists m u : Z,
    (0 <= m < 2 ^ 53)%Z /\ (0 <= u <= 2045)%Z
    /\ (r == Qmake (m * 2 ^ u) (Z.to_pos (2 ^ 1074)))%Q.

(** The binary64 number nearest to a rational [q >= 0], as the conversion
    of a decimal literal rounds it (to nearest, ties to even).  With
    [N / d] for [q * 2^1074] and [2^e <= N / d < 2^(e+1)], the unit in the
    last place is [2^u], [u = max (e - 52) 0], and [N / d] is rounded to a
    multiple [m * 2^u] of it; a result of [2^1024] or more is infinity. *)
Definition binary64 (q : Q) : pyfloat :=
  let n := Qnum q in
  let d := Zpos (Qden q) in
  if (n <=? 0)%Z then Finite 0
  else
    let N := (n * 2 ^ 1074)%Z in
    let u := Z.max (Z.log2 (N / d) - 52) 0 in
    let m := round_half_even N (d * 2 ^ u) in
    if (2 ^ 2098 <=? m * 2 ^ u)%Z then Infinity
    else Finite (Qred (Qmake (m * 2 ^ u) (Z.to_pos (2 ^ 1074)))).

(** [float(s)] for a string made of decimal digits and dots, the only
    strings the program converts.  [None] stands for [ValueError]. *)
Definition float (s : pystr) : option pyfloat :=
  match decimal_value s with
  | Some q => Some (binary64 q)
  | None => None
  end.

End Py.

(* ===================================================================== *)
(** ** Regular expressions: syntax and the backtracking matcher of [re] *)
(* ===================================================================== *)

Module Re.

(** The numbered groups that took part in a match, latest first, each
    with its start and end offsets. *)
Definition caps := list (nat * (nat * nat)).

Inductive regex : Type :=
| Eps
| Chr (p : char -> bool)                       (* one character of a class *)
| Seq (r1 r2 : regex)
| Alt (r1 r2 : regex)                          (* r1|r2, r1 tried first *)
| Rep (greedy : bool) (lo : nat) (hi : option nat) (r : regex)
| Group (n : nat) (r : regex)                  (* (r), the n-th group *)
| Bol (multiline : bool)                       (* ^ *)
| Eol (multiline : bool)                       (* $ *)
| WordB                                        (* \b *)
| Ahead (r : regex)                            (* (?=r) *)
| Behind (ps : list (char -> bool)).           (* (?<=...), classes in text order *)

(** *** Character classes *)

Definition ch (s : string) : char -> bool := N.eqb (chr s).
Definition one_of (s : string) : char -> bool := fun c => Py.cmem c (py s).
Definition range (lo hi : string) : char -> bool :=
  Unicode.in_range (chr lo) (chr hi).
Definition space : char -> bool := Unicode.isspace.
Definition digit : char -> bool := Unicode.isdecimal.
Definition either (p q : char -> bool) : char -> bool := fun c => p c || q c.
Definition not_of (s : string) : char -> bool := fun c => negb (Py.cmem c (py s)).
(** [.] without and with [re.DOTALL] *)
Definition dot : char -> bool := fun c => negb (N.eqb c 10).
Definition dot_all : char -> bool := fun _ => true.

(** *** Derived forms *)

Fixpoint chars (mk : char -> char -> bool) (s : pystr) : regex :=
  match s with
  | [] => Eps
  | [c] => Chr (mk c)
  | c :: t => Seq (Chr (mk c)) (chars mk t)
  end.

(** A literal, and a literal under [re.IGNORECASE] *)
Definition lit (s : string) : regex := chars N.eqb (py s).
Definition lit_i (s : string) : regex := chars Unicode.ignorecase_eq (py s).

Definition star (r : regex) : regex := Rep true 0 None r.
Definition plus (r : regex) : regex := Rep true 1 None r.
Definition opt (r : regex) : regex := Rep true 0 (Some 1) r.
Definition plus_lazy (r : regex) : regex := Rep false 1 None r.

Fixpoint seq (rs : list regex) : regex :=
  match rs with
  | [] => Eps
  | [r] => r
  | r :: t => Seq r (seq t)
  end.

(** *** Zero-width tests.  [b] holds the text before the position,
    nearest character first; [a] the text from the position on. *)

Definition at_bol (ml : bool) (b : list char) : bool :=
  match b with
  | [] => true
  | c :: _ => ml && N.eqb c 10
  end.

Definition at_eol (ml : bool) (a : list char) : bool :=
  match a with
  | [] => true
  | c :: t => N.eqb c 10 && (ml || match t with [] => true | _ => false end)
  end.

Definition word_at (l : list char) : bool :=
  match l with c :: _ => Unicode.isword c | [] => false end.

Definition at_wordb (b a : list char) : bool := xorb (word_at b) (word_at a).

Fixpoint behind_ok (ps_rev : list (char -> bool)) (b : list char) : bool :=
  match ps_rev, b with
  | [], _ => true
  | p :: ps, c :: b' => p c && behind_ok ps b'
  | _ :: _, [] => false
  end.

Definition below (n : nat) (hi : option nat) : bool :=
  match hi with Some h => n <? h | None => true end.

(** *** The matcher.  A matcher takes the text before the position
    (nearest character first), the text after it, the groups set so far
    and a continuation; it hands every way of matching, in the order of
    [re]'s priorities, to the continuation until the continuation
    succeeds. *)
Definition cont (R : Type) : Type := list char -> list char -> caps -> option R.
Definition matcher (R : Type) : Type := list char -> list char -> caps -> cont R -> option R.

(** The iterations of a repetition: [n] counts those done.  A greedy
    repetition tries one more iteration before it stops, a lazy one stops
    before it tries.  An iteration counts only if it consumed something
    (the repeated expressions of the program always do), so [length a]
    iterations are all that can happen and [budget] never cuts a match
    off. *)
Fixpoint rep_loop (R : Type) (body : matcher R) (greedy : bool) (lo : nat)
         (hi : option nat) (k : cont R) (budget n : nat)
         (b a : list char) (c : caps) {struct budget} : option R :=
  match budget with
  | O => if lo <=? n then k b a c else None
  | S budget' =>
    if greedy then
      match (if below n hi
             then body b a c (fun b' a' c' =>
                    if length a' <? length a
                    then rep_loop body greedy lo hi k budget' (S n) b' a' c'
                    else None)
             else None) with
      | Some x => Some x
      | None => if lo <=? n then k b a c else None
      end
    else
      match (if lo <=? n then k b a c else None) with
      | Some x => Some x
      | None =>
        if below n hi
        then body b a c (fun b' a' c' =>
               if length a' <? length a
               then rep_loop body greedy lo hi k budget' (S n) b' a' c'
               else None)
        else None
      end
  end.

Fixpoint go (R : Type) (r : regex) (b a : list char) (c : caps)
         (k : cont R) {struct r} : option R :=
  match r with
  | Eps => k b a c
  | Chr p =>
    match a with
    | x :: a' => if p x then k (x :: b) a' c else None
    | [] => None
    end
  | Seq r1 r2 => go r1 b a c (fun b' a' c' => go r2 b' a' c' k)
  | Alt r1 r2 =>
    match go r1 b a c k with
    | Some x => Some x
    | None => go r2 b a c k
    end
  | Rep greedy lo hi r1 =>
    rep_loop (fun b' a' c' k' => go r1 b' a' c' k') greedy lo hi k (length a) 0 b a c
  | Group n r1 =>
    go r1 b a c (fun b' a' c' => k b' a' ((n, (length b, length b')) :: c'))
  | Bol ml => if at_bol ml b then k b a c else None
  | Eol ml => if at_eol ml a then k b a c else None
  | WordB => if at_wordb b a then k b a c else None
  | Ahead r1 =>
    match go r1 b a c (fun _ _ _ => Some tt) with
    | Some _ => k b a c
    | None => None
    end
  | Behind ps => if behind_ok (rev ps) b then k b a c else None
  end.

(** *** Match objects *)

Record rmatch := { m_start : nat; m_end : nat; m_caps : caps }.

(** [m.group(n)] on the text [s]; [None] for a group that took no part *)
Fixpoint lookup (n : nat) (c : caps) : option (nat * nat) :=
  match c with
  | [] => None
  | (m, span) :: c' => if Nat.eqb m n then Some span else lookup n c'
  end.

Definition group (s : pystr) (m : rmatch) (n : nat) : option pystr :=
  match lookup n (m_caps m) with
  | Some (i, j) => Some (Py.slice i j s)
  | None => None
  end.

(** A match of [r] that starts exactly between [b] and [a]. *)
Definition match_here (r : regex) (b a : list char) : option rmatch :=
  go r b a [] (fun b' _ c =>
    Some {| m_start := length b; m_end := length b'; m_caps := c |}).

(** [re.match(r, s)] *)
Definition rmatch_ (r : regex) (s : pystr) : option rmatch := match_here r [] s.

(** The leftmost match that starts between [b] and [a] or later. *)
Fixpoint search_from (r : regex) (b a : list char) {struct a} : option rmatch :=
  match match_here r b a with
  | Some m => Some m
  | None =>
    match a with
    | [] => None
    | x :: a' => search_from r (x :: b) a'
    end
  end.

(** [re.search(r, s)] *)
Definition search (r : regex) (s : pystr) : option rmatch := search_from r [] s.

(** Moving the position [n] characters to the right. *)
Fixpoint advance (n : nat) (b a : list char) : list char * list char :=
  match n, a with
  | S n', x :: a' => advance n' (x :: b) a'
  | _, _ => (b, a)
  end.

(** [re.finditer(r, s)]: successive leftmost matches, each search
    resuming where the previous match ended (one character further after
    an empty match). *)
Fixpoint finditer_from (budget : nat) (r : regex) (b a : list char)
  : list rmatch :=
  match budget with
  | O => []
  | S budget' =>
    match search_from r b a with
    | None => []
    | Some m =>
      let step := Nat.max (m_end m) (S (m_start m)) - length b in
      let '(b', a') := advance step b a in
      m :: (if length a <? step then []
            else finditer_from budget' r b' a')
    end
  end.

Definition finditer (r : regex) (s : pystr) : list rmatch :=
  finditer_from (S (length s)) r [] s.

(** [re.sub(r, repl, s)] for a replacement without group references:
    the text between the matches is kept, every match becomes [repl]. *)
Fixpoint sub_matches (repl s : pystr) (from : nat) (ms : list rmatch) : pystr :=
  match ms with
  | [] => Py.from from s
  | m :: ms' =>
    Py.slice from (m_start m) s ++ repl ++ sub_matches repl s (m_end m) ms'
  end.

Definition sub (r : regex) (repl s : pystr) : pystr :=
  sub_matches repl s 0 (finditer r s).

End Re.

(* ===================================================================== *)
(** ** Exceptions and paths *)
(* ===================================================================== *)

(** A computation that returns or raises. *)
Inductive exc (A : Type) : Type :=
| Ok (a : A)
| Raise (e : string).
Arguments Ok {A} a.
Arguments Raise {A} e.

Definition bind {A B : Type} (x : exc A) (f : A -> exc B) : exc B :=
  match x with
  | Ok a => f a
  | Raise e => Raise e
  end.

Notation "x <- e ;; k" := (bind e (fun x => k))
  (at level 61, e at next level, right associativity).

(** [m.group(n)] used as a string: a group that took no part is [None]
    in Python and the method call on it raises. *)
Definition group_str (s : pystr) (m : Re.rmatch) (n : nat) : exc pystr :=
  match Re.group s m n with
  | Some g => Ok g
  | None => Raise "AttributeError"
  end.

Definition int_exc (s : pystr) : exc N :=
  match Py.int s with
  | Some n => Ok n
  | None => Raise "ValueError"
  end.

(** [str(n)] for a non-negative integer: its decimal digits. *)
Fixpoint str_of_N_aux (budget : nat) (n : N) (acc : pystr) : pystr :=
  match budget with
  | O => acc
  | S budget' =>
    let acc' := (0x30 + n mod 10)%N :: acc in
    if (n <? 10)%N then acc' else str_of_N_aux budget' (n / 10)%N acc'
  end.

Definition str_of_N (n : N) : pystr := str_of_N_aux (S (N.to_nat (N.log2 n))) n [].

Module PosixPath.
(** [pathlib.PurePosixPath]: the root, then the components that are
    neither empty nor a single dot. *)
Definition components (p : pystr) : list pystr :=
  filter (fun x => negb (Py.eqb x [] || Py.eqb x (py "."))) (Py.split (chr "/") p).

Definition root (p : pystr) : list pystr :=
  if Py.startswith p (py "///") then [py "/"]
  else if Py.startswith p (py "//") then [py "//"]
  else if Py.startswith p (py "/") then [py "/"]
  else [].

Definition parts (p : pystr) : list pystr := root p ++ components p.

Definition name (p : pystr) : pystr := last (components p) [].
End PosixPath.

(* ===================================================================== *)
(** ** [borme_batch_parser.py]: constants and regular expressions *)
(* ===================================================================== *)

Module Borme.
Import Re.

Definition PROVINCIAS : list pystr := Eval vm_compute in map py [
  "ALBACETE";"ALICANTE";"ALICANTE/ALACANT";"ALMERIA";"ALMERÍA";
  "ARABA/ÁLAVA";"ASTURIAS";"AVILA";"ÁVILA";"BADAJOZ";
  "BARCELONA";"BIZKAIA";"BURGOS";"CACERES";"CÁCERES";
  "CADIZ";"CÁDIZ";"CANTABRIA";"CASTELLON";"CASTELLÓN";"CASTELLÓN/CASTELLÓ";
  "CIUDAD REAL";"CORDOBA";"CÓRDOBA";"A CORUÑA";"CUENCA";
  "GIPUZKOA";"GIRONA";"GRANADA";"GUADALAJARA";"HUELVA";
  "HUESCA";"ILLES BALEARS";"JAEN";"JAÉN";"LEON";"LEÓN";
  "LLEIDA";"LUGO";"MADRID";"MALAGA";"MÁLAGA";"MELILLA";
  "MURCIA";"NAVARRA";"OURENSE";"PALENCIA";"LAS PALMAS";
  "PONTEVEDRA";"LA RIOJA";"SALAMANCA";"SEGOVIA";"SEVILLA";
  "SORIA";"TARRAGONA";"SANTA CRUZ DE TENERIFE";"TERUEL";
  "TOLEDO";"VALENCIA";"VALENCIA/VALÈNCIA";"VALLADOLID";
  "ZAMORA";"ZARAGOZA";"CEUTA" ]%string.

Definition COD_PROVINCIA : list (pystr * pystr) := Eval vm_compute in
  map (fun kv => (py (fst kv), py (snd kv))) [
  ("01","ARABA/ÁLAVA");("02","ALBACETE");("03","ALICANTE");("04","ALMERÍA");
  ("05","ÁVILA");("06","BADAJOZ");("07","ILLES BALEARS");("08","BARCELONA");
  ("09","BURGOS");("10","CÁCERES");("11","CÁDIZ");("12","CASTELLÓN");
  ("13","CIUDAD REAL");("14","CÓRDOBA");("15","A CORUÑA");("16","CUENCA");
  ("17","GIRONA");("18","GRANADA");("19","GUADALAJARA");("20","GIPUZKOA");
  ("21","HUELVA");("22","HUESCA");("23","JAÉN");("24","LEÓN");("25","LLEIDA");
  ("26","LA RIOJA");("27","LUGO");("28","MADRID");("29","MÁLAGA");("30","MURCIA");
  ("31","NAVARRA");("32","OURENSE");("33","ASTURIAS");("34","PALENCIA");
  ("35","LAS PALMAS");("36","PONTEVEDRA");("37","SALAMANCA");
  ("38","SANTA CRUZ DE TENERIFE");("39","CANTABRIA");("40","SEGOVIA");
  ("41","SEVILLA");("42","SORIA");("43","TARRAGONA");("44","TERUEL");
  ("45","TOLEDO");("46","VALENCIA");("47","VALLADOLID");("48","BIZKAIA");
  ("49","ZAMORA");("50","ZARAGOZA");("51","CEUTA");("52","MELILLA");
  ("99","REGISTROS MERCANTILES CENTRALES") ]%string.

(** [d.get(k, default)] on a dictionary kept as its list of items *)
Fixpoint dict_get (d : list (pystr * pystr)) (k default : pystr) : pystr :=
  match d with
  | [] => default
  | (k', v) :: d' => if Py.eqb k k' then v else dict_get d' k default
  end.

Definition ACTOS : list pystr := Eval vm_compute in map py [
  "Constitución";"Disolución";"Extinción";
  "Ceses/Dimisiones";"Nombramientos";"Revocaciones";"Reelecciones";
  "Cancelaciones de oficio de nombramientos";
  "Nombramiento de administradores";
  "Modificaciones estatutarias";
  "Cambio de domicilio social";"Cambio de objeto social";
  "Cambio de denominación social";
  "Ampliación del objeto social";"Ampliacion del objeto social";
  "Ampliación de capital";"Reducción de capital";
  "Fusión por absorción";"Fusión";"Escisión";"Transformación de sociedad";
  "Transformación";
  "Situación concursal";
  "Auto de declaración de concurso";
  "Auto de apertura de la fase de liquidación";
  "Auto de conclusión del concurso";
  "Revocación de administradores concursales";
  "Crédito incobrable";
  "Cierre provisional hoja registral";
  "Reapertura hoja registral";
  "Declaración de unipersonalidad";
  "Pérdida del carácter de unipersonalidad";
  "Pérdida del caracter de unipersonalidad";
  "Otros conceptos";"Fe de erratas";"Depósito de cuentas anuales";
  "Empresario Individual";"Sociedad unipersonal" ]%string.

Definition upper_es : char -> bool := either (range "A" "Z") (one_of "ÁÉÍÓÚÑ").
Definition lower_es : char -> bool := either (range "a" "z") (one_of "áéíóúñ").
Definition ws : regex := star (Chr space).
Definition digits : regex := plus (Chr digit).

(** [^(\d{4,7})\s*-\s*] with [re.MULTILINE] *)
Definition ENTRY_START_RE : regex :=
  seq [Bol true; Group 1 (Rep true 4 (Some 7) (Chr digit)); ws; Chr (ch "-"); ws].

(** [(?<=\.)\s+(?=[A-ZÁÉÍÓÚÑ][a-záéíóúñ]{2,})] *)
Definition _BODY_START_RE : regex :=
  seq [Behind [ch "."]; plus (Chr space);
       Ahead (Seq (Chr upper_es) (Rep true 2 None (Chr lower_es)))].

(** [\.\s+Fe de erratas] *)
Definition _FE_ERRATAS_RE : regex :=
  seq [Chr (ch "."); plus (Chr space); lit "Fe de erratas"].

Definition _LEGAL_FORMS : list pystr := Eval vm_compute in map py [
  "Sociedad"; "Limitada"; "Anónima"; "Anonima"; "Cooperativa"; "Profesional";
  "Laboral"; "Deportiva"; "Unipersonal"; "Civil"; "Comanditaria"; "Colectiva";
  "Comandita"; "Agrupación"; "Agrupacion"; "Europea"; "Responsabilidad";
  "Sucursal"; "Nueva"; "Empresa" ]%string.

(** [[A-Za-záéíóúñ.\s/\-\d=]] and [[A-ZÁÉÍÓÚÑ\d\s;,.\-]] *)
Definition cargo_label_char : char -> bool :=
  either (range "A" "Z") (either (range "a" "z")
    (either (one_of "áéíóúñ./-=") (either space digit))).
Definition persona_char : char -> bool :=
  either upper_es (either digit (either space (one_of ";,.-"))).

(** [(?<=\.\s)([A-Z][A-Za-záéíóúñ.\s/\-\d=]{0,25}?):\s*([A-ZÁÉÍÓÚÑ][A-ZÁÉÍÓÚÑ\d\s;,.\-]+?)(?:\.\s|$)] *)
Definition CARGO_RE : regex :=
  seq [Behind [ch "."; space];
       Group 1 (Seq (Chr (range "A" "Z")) (Rep false 0 (Some 25) (Chr cargo_label_char)));
       Chr (ch ":"); ws;
       Group 2 (Seq (Chr upper_es) (plus_lazy (Chr persona_char)));
       Alt (Seq (Chr (ch ".")) (Chr space)) (Eol false)].

Definition CARGO_EXCLUDE : list pystr := Eval vm_compute in map py [
  "Objeto social"; "Domicilio"; "Capital"; "Datos registrales";
  "ACTIVIDAD PRINCIPAL"; "Comienzo de operaciones";
  "Artículo de los estatutos"; "ARTICULO";
  "Otros conceptos"; "Sociedades absorbidas"; "Resoluciones";
  "Denominación y forma adoptada" ]%string.

(** [^(?:ART(?:ICULO|S)?[\s.\d,]+|CNAE\s|ACTIVIDAD)] with [re.IGNORECASE] *)
Definition CARGO_EXCLUDE_RE : regex :=
  Seq (Bol false)
      (Alt (seq [lit_i "ART"; opt (Alt (lit_i "ICULO") (lit_i "S"));
                 plus (Chr (either space (either (one_of ".,") digit)))])
      (Alt (Seq (lit_i "CNAE") (Chr space))
           (lit_i "ACTIVIDAD"))).

Definition SECTION_MAP : list (pystr * pystr) := Eval vm_compute in
  map (fun kv => (py (fst kv), py (snd kv))) [
  ("Nombramientos", "nombramiento");
  ("Ceses/Dimisiones", "cese");
  ("Revocaciones", "revocacion");
  ("Reelecciones", "reeleccion");
  ("Cancelaciones de oficio de nombramientos", "cancelacion") ]%string.

(** [Datos registrales[.:]\s*T\s*(\d+),\s*L\s*(\d+),\s*F\s*(\d+),\s*S\s*(\d+),\s*H\s*([A-Z\s]*\d+),\s*I/A\s*(\d+)\s*\((\d{1,2}\.\d{2}\.\d{2,4})\)] *)
Definition DATOS_REG_RE : regex :=
  seq [lit "Datos registrales"; Chr (one_of ".:"); ws;
       lit "T"; ws; Group 1 digits; lit ","; ws;
       lit "L"; ws; Group 2 digits; lit ","; ws;
       lit "F"; ws; Group 3 digits; lit ","; ws;
       lit "S"; ws; Group 4 digits; lit ",";
       ws; lit "H"; ws;
       Group 5 (Seq (star (Chr (either (range "A" "Z") space))) digits);
       lit ","; ws; lit "I/A"; ws; Group 6 digits; ws; lit "(";
       Group 7 (seq [Rep true 1 (Some 2) (Chr digit); lit ".";
                     Rep true 2 (Some 2) (Chr digit); lit ".";
                     Rep true 2 (Some 4) (Chr digit)]);
       lit ")"].

(** [Domicilio[.:]\s*(.+?)(?:[.]\s*Capital[.:]|$)] with [re.DOTALL] *)
Definition DOMICILIO_RE : regex :=
  seq [lit "Domicilio"; Chr (one_of ".:"); ws;
       Group 1 (plus_lazy (Chr dot_all));
       Alt (seq [Chr (ch "."); ws; lit "Capital"; Chr (one_of ".:")]) (Eol false)].

(** [Capital[.:]\s*([\d.,]+)\s*Euros] *)
Definition CAPITAL_RE : regex :=
  seq [lit "Capital"; Chr (one_of ".:"); ws;
       Group 1 (plus (Chr (either digit (one_of ".,")))); ws; lit "Euros"].

(** [Objeto social[.:]\s*(.+?)(?:[.]\s*Domicilio[.:]|$)] with [re.DOTALL] *)
Definition OBJETO_RE : regex :=
  seq [lit "Objeto social"; Chr (one_of ".:"); ws;
       Group 1 (plus_lazy (Chr dot_all));
       Alt (seq [Chr (ch "."); ws; lit "Domicilio"; Chr (one_of ".:")]) (Eol false)].

(** [Comienzo de operaciones[.:]\s*([\d.]+)] *)
Definition COMIENZO_RE : regex :=
  seq [lit "Comienzo de operaciones"; Chr (one_of ".:"); ws;
       Group 1 (plus (Chr (either digit (ch "."))))].

(** [Cambio de domicilio social[.:]\s*(.+?)(?:[.]\s*Datos registrales|$)],
    written in place in [parse_single_pdf] *)
Definition CAMBIO_DOMICILIO_RE : regex :=
  seq [lit "Cambio de domicilio social"; Chr (one_of ".:"); ws;
       Group 1 (plus_lazy (Chr dot));
       Alt (seq [Chr (ch "."); ws; lit "Datos registrales"]) (Eol false)].

(** [^[\d-]+[A-Z]-EMROB$], written in place in [_clean] *)
Definition EMROB_RE : regex :=
  seq [Bol false; plus (Chr (either digit (ch "-"))); Chr (range "A" "Z");
       lit "-EMROB"; Eol false].

(** [BORME-([A-Z])-(\d{4})-(\d+)-(\d+)], written in place in [parse_single_pdf] *)
Definition FILENAME_RE : regex :=
  seq [lit "BORME-"; Group 1 (Chr (range "A" "Z")); lit "-";
       Group 2 (Rep true 4 (Some 4) (Chr digit)); lit "-";
       Group 3 digits; lit "-"; Group 4 digits].

(** [\s{2,}] and [[.,;]+$], written in place *)
Definition SPACES_RE : regex := Rep true 2 None (Chr space).
Definition TRAILING_PUNCT_RE : regex := Seq (plus (Chr (one_of ".,;"))) (Eol false).

Definition _SKIP_LINES : list pystr := Eval vm_compute in map py [
  "SECCIÓN PRIMERA";"Empresarios";"Actos inscritos";
  "SECCIÓN SEGUNDA";"Anuncios y avisos legales";
  "Otros actos publicados en el Registro Mercantil" ]%string.

(* =================================================================== *)
(** ** [borme_batch_parser.py]: auxiliary functions *)
(* =================================================================== *)

(** [_clean] *)
Definition noise_line (line : pystr) : bool :=
  let s := Py.strip line in
  Py.startswith s (py "BOLETÍN OFICIAL DEL REGISTRO")
  || (Py.startswith s (py "Núm.") && Py.contains s (py "Pág."))
  || (match rmatch_ EMROB_RE s with Some _ => true | None => false end)
  || Py.eqb s (py ":evc")
  || Py.startswith s (py "http://www.boe.es")
  || Py.contains s (py "D.L.: M-5188")
  || Py.mem s _SKIP_LINES.

Definition _clean (raw : pystr) : pystr :=
  Py.join [10%N]
          (filter (fun line => negb (noise_line line)) (Py.split 10%N raw)).

Definition SUFFIXES_LIGHT : list pystr := Eval vm_compute in map py [
  " SOCIEDAD ANONIMA DEPORTIVA"; " SOCIEDAD ANONIMA";
  " SOCIEDAD LIMITADA PROFESIONAL"; " SOCIEDAD LIMITADA LABORAL";
  " SOCIEDAD LIMITADA NUEVA EMPRESA"; " SOCIEDAD LIMITADA";
  " SOCIEDAD COOPERATIVA ANDALUZA"; " SOCIEDAD COOPERATIVA";
  " SOCIEDAD CIVIL PROFESIONAL"; " SOCIEDAD CIVIL";
  " AGRUPACION DE INTERES ECONOMICO";
  " SAU"; " SLU"; " SAD"; " SLL"; " SLP"; " SLNE";
  " SA SME"; " SA"; " SL"; " SC"; " SCA"; " SCCL"; " SCOOP";
  " SE"; " SRL"; " AIE" ]%string.

(** The [for suffix in [...]: if n.endswith(suffix): ...; break] loop:
    the first suffix of the list that ends [n] is cut off, once. *)
Fixpoint strip_first_suffix (suffixes : list pystr) (n : pystr) : pystr :=
  match suffixes with
  | [] => n
  | suffix :: rest =>
    if Py.endswith n suffix
    then Py.strip (Py.drop_last (length suffix) n)
    else strip_first_suffix rest n
  end.

(** [_normalize_empresa] *)
Definition _normalize_empresa (name : pystr) : pystr :=
  let n := Py.strip (Py.upper name) in
  let n := strip_first_suffix SUFFIXES_LIGHT n in
  Py.strip (sub TRAILING_PUNCT_RE [] n).

(** [max(positions, key=positions.get)]: the first key, in insertion
    order, whose value is the greatest. *)
Fixpoint max_key (best : pystr * Z) (items : list (pystr * Z)) : pystr :=
  match items with
  | [] => fst best
  | kv :: rest => if (snd best <? snd kv)%Z then max_key kv rest else max_key best rest
  end.

(** [_extract_cargo_and_tipo], step 1: the label carries its section *)
Fixpoint section_prefix (c : pystr) (sections : list (pystr * pystr))
  : option (pystr * pystr) :=
  match sections with
  | [] => None
  | (prefix, tipo) :: rest =>
    if Py.startswith c (prefix ++ py ". ") || Py.startswith c (prefix ++ py ".")
    then Some (Py.strip (Py.lstrip_chars (py ". ") (Py.strip (Py.from (length prefix) c))), tipo)
    else section_prefix c rest
  end.

(** step 2: the dictionary [positions], in insertion order *)
Fixpoint section_positions (pre : pystr) (sections : list (pystr * pystr))
  : list (pystr * Z) :=
  match sections with
  | [] => []
  | (kw, tipo) :: rest =>
    let pos := Py.rfind pre kw in
    if (pos =? -1)%Z then section_positions pre rest
    else (tipo, pos) :: section_positions pre rest
  end.

Definition _extract_cargo_and_tipo (raw_cargo body : pystr) (match_start : nat)
  : pystr * pystr :=
  let c := Py.strip raw_cargo in
  match section_prefix c SECTION_MAP with
  | Some r => r
  | None =>
    let pre := Py.upto match_start body in
    match section_positions pre SECTION_MAP with
    | kv :: rest => (c, max_key kv rest)
    | [] => (c, py "nombramiento")
    end
  end.

(* =================================================================== *)
(** ** [borme_batch_parser.py]: [parse_single_pdf] *)
(* =================================================================== *)

(** The row of [empresas_rows]: a dictionary whose optional keys are
    options here. *)
Record empresa_row := {
  fecha_borme : pystr;
  num_borme : N;
  num_entrada : pystr;
  empresa : pystr;
  empresa_norm : pystr;
  provincia : pystr;
  cod_provincia : pystr;
  tipo_borme : pystr;
  pdf_filename : pystr;
  fecha_constitucion : option pystr;
  objeto_social : option pystr;
  domicilio : option pystr;
  capital_euros : option Py.pyfloat;
  actos : pystr;
  hoja_registral : option pystr;
  tomo : option pystr;
  inscripcion : option pystr;
  fecha_inscripcion : option pystr
}.

(** The row of [cargos_rows]. *)
Record cargo_row := {
  c_fecha_borme : pystr;
  c_num_entrada : pystr;
  c_empresa : pystr;
  c_empresa_norm : pystr;
  c_provincia : pystr;
  c_hoja_registral : pystr;
  tipo_acto : pystr;
  cargo : pystr;
  persona : pystr;
  c_pdf_filename : pystr
}.

(** What [parse_single_pdf] reads off the path before it opens the file. *)
Record header := {
  h_tipo : pystr;
  h_numero : N;
  h_cod_prov : pystr;
  h_provincia_filename : pystr;
  h_fecha_borme : pystr;
  h_fname : pystr
}.

(** The date of the path: the first component that is a year between
    2000 and 2030 and the two components after it.  [int] raising inside
    the [try] leaves the default. *)
Fixpoint fecha_from_parts (default : pystr) (parts : list pystr) : pystr :=
  match parts with
  | [] => default
  | p :: rest =>
    if Py.isdigit p && Nat.eqb (length p) 4 then
      match Py.int p with
      | None => default
      | Some v =>
        if ((2000 <=? v) && (v <=? 2030))%N then
          match rest with
          | p1 :: p2 :: _ =>
            p ++ py "-" ++ Py.zfill 2 p1 ++ py "-" ++ Py.zfill 2 p2
          | _ => default
          end
        else fecha_from_parts default rest
      end
    else fecha_from_parts default rest
  end.

Definition read_header (pdf_path fname : pystr) (bm : rmatch) : exc header :=
  tipo <- group_str fname bm 1 ;;
  g2 <- group_str fname bm 2 ;;
  year <- int_exc g2 ;;
  g3 <- group_str fname bm 3 ;;
  numero <- int_exc g3 ;;
  cod_prov <- group_str fname bm 4 ;;
  Ok {| h_tipo := tipo;
        h_numero := numero;
        h_cod_prov := cod_prov;
        h_provincia_filename := dict_get COD_PROVINCIA cod_prov [];
        h_fecha_borme :=
          fecha_from_parts (str_of_N year ++ py "-01-01") (PosixPath.parts pdf_path);
        h_fname := fname |}.

(** [rest.split('.')[0].split(':')[0].split(' ')[0].strip()] for
    [rest = block[e:e + 40]] *)
Definition first_word (block : pystr) (e : nat) : pystr :=
  let rest := Py.slice e (e + 40) block in
  Py.strip (hd [] (Py.split (chr " ")
             (hd [] (Py.split (chr ":") (hd [] (Py.split (chr ".") rest)))))).

(** The [for bm in _BODY_START_RE.finditer(block)] loop with its
    [break] and [continue]. *)
Fixpoint body_start_loop (block : pystr) (body_pos : nat) (ms : list rmatch) : nat :=
  match ms with
  | [] => body_pos
  | bm :: rest =>
    if body_pos <=? m_start bm + 1 then body_pos
    else if Py.mem (first_word block (m_end bm)) _LEGAL_FORMS
         then body_start_loop block body_pos rest
         else m_start bm + 1
  end.

Definition body_pos (block : pystr) : nat :=
  let body_pos :=
    match search _FE_ERRATAS_RE block with
    | Some fe => m_start fe + 1
    | None => length block
    end in
  body_start_loop block body_pos (finditer _BODY_START_RE block).

(** [block], [empresa] and [body] of one entry *)
Definition entry_block (text : pystr) (start end_ : nat) : pystr :=
  Py.strip (sub SPACES_RE (py " ")
             (Py.replace [10%N] (py " ") (Py.slice start end_ text))).

Definition entry_empresa (block : pystr) : pystr :=
  Py.rstrip_chars (py ".") (Py.strip (Py.upto (body_pos block) block)).

Definition entry_body (block : pystr) : pystr :=
  if body_pos block <? length block
  then py ". " ++ Py.strip (Py.from (body_pos block) block)
  else [].

(** The jurisdiction in force: the last line of the gap before the
    marker that is a province name *)
Definition track_provincia (gap : pystr) (provincia_actual : pystr) : pystr :=
  fold_left (fun prov line =>
               if Py.mem (Py.strip line) PROVINCIAS then Py.strip line else prov)
            (Py.split 10%N gap) provincia_actual.

(** [acto + "." in body or acto + ":" in body] *)
Definition has_label (body acto : pystr) : bool :=
  Py.contains body (acto ++ py ".") || Py.contains body (acto ++ py ":").

(** The list [actos] as the three places of the code fill it. *)
Definition actos_constitucion (body : pystr) : list pystr :=
  if has_label body (py "Constitución") then [py "Constitución"] else [].

Definition actos_domicilio (body : pystr) : list pystr :=
  match search DOMICILIO_RE body with
  | Some _ => []
  | None => if Py.contains body (py "Cambio de domicilio social.")
            then [py "Cambio de domicilio"] else []
  end.

Definition actos_loop (body : pystr) (actos : list pystr) : list pystr :=
  fold_left (fun actos acto =>
               if has_label body acto
                  && negb (Py.eqb acto (py "Constitución"))
                  && negb (Py.mem acto actos)
               then actos ++ [acto] else actos)
            ACTOS actos.

Definition entry_actos (body : pystr) : list pystr :=
  actos_loop body (actos_constitucion body ++ actos_domicilio body).

(** [m.group(1).strip()[:n]] of the first match of [r], when there is one *)
Definition field_upto (r : regex) (n : nat) (body : pystr) : exc (option pystr) :=
  match search r body with
  | None => Ok None
  | Some m => g <- group_str body m 1 ;; Ok (Some (Py.upto n (Py.strip g)))
  end.

Definition entry_domicilio (body : pystr) : exc (option pystr) :=
  match search DOMICILIO_RE body with
  | Some m => g <- group_str body m 1 ;; Ok (Some (Py.upto 300 (Py.strip g)))
  | None =>
    if Py.contains body (py "Cambio de domicilio social.")
    then field_upto CAMBIO_DOMICILIO_RE 300 body
    else Ok None
  end.

(** The capital: everything inside the [try], any failure leaves it unset *)
Definition entry_capital (body : pystr) : option Py.pyfloat :=
  match search CAPITAL_RE body with
  | None => None
  | Some m =>
    match group body m 1 with
    | None => None
    | Some g => Py.float (Py.replace (py ",") (py ".") (Py.replace (py ".") [] g))
    end
  end.

(** The four registry keys of the row, set together from one match *)
Record registro := {
  r_hoja_registral : option pystr;
  r_tomo : option pystr;
  r_inscripcion : option pystr;
  r_fecha_inscripcion : option pystr
}.

Definition entry_registro (body : pystr) : exc registro :=
  match search DATOS_REG_RE body with
  | None => Ok {| r_hoja_registral := None; r_tomo := None;
                  r_inscripcion := None; r_fecha_inscripcion := None |}
  | Some m =>
    g5 <- group_str body m 5 ;;
    Ok {| r_hoja_registral := Some (Py.strip g5);
          r_tomo := group body m 1;
          r_inscripcion := group body m 6;
          r_fecha_inscripcion := group body m 7 |}
  end.

Definition excluded (cargo : pystr) : bool :=
  Py.mem cargo CARGO_EXCLUDE
  || match rmatch_ CARGO_EXCLUDE_RE cargo with Some _ => true | None => false end.

(** The body of [for cm in CARGO_RE.finditer(body)] *)
Definition cargo_rows (row : empresa_row) (body : pystr) (cm : rmatch)
  : exc (list cargo_row) :=
  g1 <- group_str body cm 1 ;;
  g2 <- group_str body cm 2 ;;
  let raw_cargo := Py.strip g1 in
  let personas_raw := Py.strip g2 in
  if excluded raw_cargo then Ok []
  else
    let words := filter (fun w => 1 <? length w)
                   (Py.split_ws (Py.replace (py ".") (py " ")
                                  (Py.replace (py ";") (py " ") personas_raw))) in
    if length words <? 2 then Ok []
    else
      let '(cargo, tipo_acto) := _extract_cargo_and_tipo raw_cargo body (m_start cm) in
      if Py.eqb cargo [] || excluded cargo then Ok []
      else
        let personas := filter (fun p => negb (Py.eqb p []))
                          (map Py.strip (Py.split (chr ";") personas_raw)) in
        Ok (map (fun persona =>
                   {| c_fecha_borme := fecha_borme row;
                      c_num_entrada := num_entrada row;
                      c_empresa := empresa row;
                      c_empresa_norm := empresa_norm row;
                      c_provincia := provincia row;
                      c_hoja_registral :=
                        match hoja_registral row with Some h => h | None => [] end;
                      tipo_acto := tipo_acto;
                      cargo := cargo;
                      persona := persona;
                      c_pdf_filename := pdf_filename row |})
                personas).

Fixpoint cargos_loop (row : empresa_row) (body : pystr) (cms : list rmatch)
  : exc (list cargo_row) :=
  match cms with
  | [] => Ok []
  | cm :: rest =>
    rows <- cargo_rows row body cm ;;
    more <- cargos_loop row body rest ;;
    Ok (rows ++ more)
  end.

(** The dictionary [row] of one entry, once its optional keys are known. *)
Definition entry_row (hdr : header) (entry_num empresa body provincia_actual : pystr)
           (objeto domicilio : option pystr) (reg : registro) : empresa_row :=
  {| fecha_borme := h_fecha_borme hdr;
     num_borme := h_numero hdr;
     num_entrada := entry_num;
     empresa := empresa;
     empresa_norm := _normalize_empresa empresa;
     provincia := provincia_actual;
     cod_provincia := h_cod_prov hdr;
     tipo_borme := h_tipo hdr;
     pdf_filename := h_fname hdr;
     fecha_constitucion :=
       if has_label body (py "Constitución")
       then match search COMIENZO_RE body with
            | Some m => group body m 1
            | None => None
            end
       else None;
     objeto_social := objeto;
     domicilio := domicilio;
     capital_euros := entry_capital body;
     actos := Py.join (py "|") (entry_actos body);
     hoja_registral := r_hoja_registral reg;
     tomo := r_tomo reg;
     inscripcion := r_inscripcion reg;
     fecha_inscripcion := r_fecha_inscripcion reg |}.

(** The rows of an entry whose name and body are cut. *)
Definition parse_body (hdr : header) (entry_num empresa body provincia_actual : pystr)
  : exc (empresa_row * list cargo_row) :=
  objeto <- (if has_label body (py "Constitución")
             then field_upto OBJETO_RE 500 body else Ok None) ;;
  domicilio <- entry_domicilio body ;;
  reg <- entry_registro body ;;
  cargos <- cargos_loop
              (entry_row hdr entry_num empresa body provincia_actual objeto domicilio reg)
              body (finditer CARGO_RE body) ;;
  Ok (entry_row hdr entry_num empresa body provincia_actual objeto domicilio reg, cargos).

(** One turn of [for i, match in enumerate(splits)]: the rows of the
    entry and the jurisdiction it leaves in force. *)
Definition parse_entry (hdr : header) (text : pystr) (gap_start : nat)
           (m : rmatch) (end_ : nat) (provincia_actual : pystr)
  : exc (empresa_row * list cargo_row * pystr) :=
  entry_num <- group_str text m 1 ;;
  rows <- parse_body hdr entry_num
            (entry_empresa (entry_block text (m_end m) end_))
            (entry_body (entry_block text (m_end m) end_))
            (track_provincia (Py.slice gap_start (m_start m) text) provincia_actual) ;;
  Ok (fst rows, snd rows,
      track_provincia (Py.slice gap_start (m_start m) text) provincia_actual).

Fixpoint entries_loop (hdr : header) (text : pystr) (gap_start : nat)
         (splits : list rmatch) (provincia_actual : pystr)
  : exc (list empresa_row * list cargo_row) :=
  match splits with
  | [] => Ok ([], [])
  | m :: rest =>
    let end_ := match rest with m' :: _ => m_start m' | [] => length text end in
    r <- parse_entry hdr text gap_start m end_ provincia_actual ;;
    let '(row, cargos, provincia_actual) := r in
    rs <- entries_loop hdr text (m_start m) rest provincia_actual ;;
    Ok (row :: fst rs, cargos ++ snd rs)
  end.

(** The text extraction done by pdfplumber: the text of each page
    ([None] for a page without text), or [None] when opening or
    extracting raises. *)
Definition pdf_reader := pystr -> option (list (option pystr)).

Definition page_text (p : option pystr) : pystr :=
  match p with Some t => t | None => [] end.

Definition parse_text (hdr : header) (raw : pystr)
  : exc (list empresa_row * list cargo_row) :=
  let text := _clean raw in
  let splits := finditer ENTRY_START_RE text in
  match splits with
  | [] => Ok ([], [])
  | _ => entries_loop hdr text 0 splits (h_provincia_filename hdr)
  end.

(** [parse_single_pdf]: the paths it opened, and what it returns or raises. *)
Definition parse_single_pdf (open_pdf : pdf_reader) (pdf_path : pystr)
  : list pystr * exc (list empresa_row * list cargo_row) :=
  let fname := PosixPath.name pdf_path in
  match rmatch_ FILENAME_RE fname with
  | None => ([], Ok ([], []))
  | Some bm =>
    match read_header pdf_path fname bm with
    | Raise e => ([], Raise e)
    | Ok hdr =>
      ([pdf_path],
       match open_pdf pdf_path with
       | None => Ok ([], [])
       | Some pages => parse_text hdr (Py.join [10%N] (map page_text pages))
       end)
    end
  end.

(* =================================================================== *)
(** ** [borme_batch_parser.py]: [_process_one] and [run_batch] *)
(* =================================================================== *)

(** [_process_one]: rows, path and the [ok] flag *)
Definition _process_one (open_pdf : pdf_reader) (pdf_path_str : pystr)
  : list empresa_row * list cargo_row * pystr * bool :=
  match snd (parse_single_pdf open_pdf pdf_path_str) with
  | Ok (e_rows, c_rows) => (e_rows, c_rows, pdf_path_str, true)
  | Raise _ => ([], [], pdf_path_str, false)
  end.

(** The variables that [run_batch] updates as the futures complete.
    [batch_empresas] and [batch_cargos] are appended to [all_empresas] and
    [all_cargos] at the end of every batch, so the rows are kept here in
    the two final lists directly. *)
Record batch_state := {
  all_empresas : list empresa_row;
  all_cargos : list cargo_row;
  done_set : list pystr;
  errors : list pystr;
  processed : nat
}.

(** The state before the first batch: [done_set] comes from the progress
    file when the run resumes and is empty otherwise. *)
Definition start_state (done : list pystr) : batch_state :=
  {| all_empresas := []; all_cargos := []; done_set := done;
     errors := []; processed := length done |}.

(** [done_set.add(p)] *)
Definition set_add (p : pystr) (s : list pystr) : list pystr :=
  if Py.mem p s then s else s ++ [p].

(** The body of [for future in as_completed(futures)] *)
Definition collect (st : batch_state)
           (res : list empresa_row * list cargo_row * pystr * bool) : batch_state :=
  let '(e_rows, c_rows, path_str, ok) := res in
  if ok then
    {| all_empresas := all_empresas st ++ e_rows;
       all_cargos := all_cargos st ++ c_rows;
       done_set := set_add path_str (done_set st);
       errors := errors st;
       processed := S (processed st) |}
  else
    {| all_empresas := all_empresas st;
       all_cargos := all_cargos st;
       done_set := done_set st;
       errors := errors st ++ [path_str];
       processed := S (processed st) |}.

(** The pending documents, in the order in which their futures complete *)
Definition run_pending (open_pdf : pdf_reader) (completed : list pystr)
           (st : batch_state) : batch_state :=
  fold_left (fun st p => collect st (_process_one open_pdf p)) completed st.

(** [df.drop_duplicates(subset=..., keep="first")]: [key] reads the
    columns of the subset, [seen] holds the keys of the rows kept so far. *)
Fixpoint drop_duplicates_from (A K : Type) (key_eqb : K -> K -> bool)
         (key : A -> K) (seen : list K) (rows : list A) : list A :=
  match rows with
  | [] => []
  | r :: rest =>
    if existsb (key_eqb (key r)) seen
    then drop_duplicates_from key_eqb key seen rest
    else r :: drop_duplicates_from key_eqb key (key r :: seen) rest
  end.

Definition drop_duplicates (A K : Type) (key_eqb : K -> K -> bool)
           (key : A -> K) (rows : list A) : list A :=
  drop_duplicates_from key_eqb key [] rows.

(** A cell of a key column: a string, or a date after
    [pd.to_datetime(..., errors="coerce")], where [None] is NaT.  Pandas
    counts two NaT as equal when it looks for duplicates. *)
Definition date_eqb (d e : option Z) : bool :=
  match d, e with
  | Some x, Some y => Z.eqb x y
  | None, None => true
  | _, _ => false
  end.

Definition empresa_key (to_datetime : pystr -> option Z) (r : empresa_row)
  : option Z * pystr * pystr :=
  (to_datetime (fecha_borme r), num_entrada r, empresa_norm r).

Definition empresa_key_eqb (k l : option Z * pystr * pystr) : bool :=
  let '(d, n, e) := k in
  let '(d', n', e') := l in
  date_eqb d d' && Py.eqb n n' && Py.eqb e e'.

Definition cargo_key (to_datetime : pystr -> option Z) (r : cargo_row)
  : option Z * pystr * pystr * pystr * pystr :=
  (to_datetime (c_fecha_borme r), c_num_entrada r, cargo r, persona r, tipo_acto r).

Definition cargo_key_eqb (k l : option Z * pystr * pystr * pystr * pystr) : bool :=
  let '(d, n, c, p, t) := k in
  let '(d', n', c', p', t') := l in
  date_eqb d d' && Py.eqb n n' && Py.eqb c c' && Py.eqb p p' && Py.eqb t t'.

(** The two frames that [run_batch] writes *)
Definition dedup_empresas (to_datetime : pystr -> option Z)
           (rows : list empresa_row) : list empresa_row :=
  drop_duplicates empresa_key_eqb (empresa_key to_datetime) rows.

Definition dedup_cargos (to_datetime : pystr -> option Z)
           (rows : list cargo_row) : list cargo_row :=
  drop_duplicates cargo_key_eqb (cargo_key to_datetime) rows.

(* =================================================================== *)
(** ** The claims in the words of the specification *)
(* =================================================================== *)

(** The file-name grammar
    [BORME-<letter>-<4-digit year>-<issue number>-<region code>],
    followed by anything. *)
Definition filename_grammar (fname : pystr) : Prop :=
  exists letter year issue code rest,
    fname = py "BORME-" ++ [letter] ++ py "-" ++ year ++ py "-" ++ issue
               ++ py "-" ++ code ++ rest
    /\ range "A" "Z" letter = true
    /\ length year = 4 /\ Forall (fun x => digit x = true) year
    /\ issue <> [] /\ Forall (fun x => digit x = true) issue
    /\ code <> [] /\ Forall (fun x => digit x = true) code.

(** The offsets [start] and [end] that the loop over [splits] computes
    for each entry: from the end of its marker to the start of the next
    marker, or to the end of the text. *)
Fixpoint entry_spans (text : pystr) (splits : list rmatch) : list (nat * nat) :=
  match splits with
  | [] => []
  | m :: rest =>
    (m_end m, match rest with m' :: _ => m_start m' | [] => length text end)
      :: entry_spans text rest
  end.

(** The text of every marker followed by the text of its entry, in order. *)
Fixpoint markers_and_entries (text : pystr) (splits : list rmatch) : pystr :=
  match splits with
  | [] => []
  | m :: rest =>
    Py.slice (m_start m) (m_end m) text
      ++ Py.slice (m_end m)
           (match rest with m' :: _ => m_start m' | [] => length text end) text
      ++ markers_and_entries text rest
  end.

(** An entry marker in the words of the specification: at the start of a
    line, four to seven digits, optional spaces, a dash, optional spaces. *)
Definition is_marker (text : pystr) (i j : nat) (number : pystr) : Prop :=
  exists before w1 w2 after,
    text = before ++ number ++ w1 ++ py "-" ++ w2 ++ after
    /\ length before = i
    /\ length (before ++ number ++ w1 ++ py "-" ++ w2) = j
    /\ (before = [] \/ exists before', before = before' ++ [10%N])
    /\ 4 <= length number <= 7
    /\ Forall (fun x => digit x = true) number
    /\ Forall (fun x => space x = true) w1
    /\ Forall (fun x => space x = true) w2.

(** The class [[\d.,]] of the capital pattern. *)
Definition amount_char : char -> bool := either digit (one_of ".,").

(** [r] is empty or begins with a character outside the class [P]. *)
Definition stops (P : char -> bool) (r : pystr) : Prop :=
  match r with [] => True | x :: _ => P x = false end.

(** The text [a] begins with a labelled amount: the label, a period or a
    colon, spaces, the run [amount] of digits, periods and commas, spaces
    and the currency. *)
Definition labelled_amount (a amount : pystr) : Prop :=
  exists sep sp1 sp2 post,
    a = py "Capital" ++ [sep] ++ sp1 ++ amount ++ sp2 ++ py "Euros" ++ post
    /\ (sep = chr "." \/ sep = chr ":")
    /\ Forall (fun x => space x = true) sp1
    /\ Forall (fun x => space x = true) sp2
    /\ amount <> []
    /\ Forall (fun x => amount_char x = true) amount.

(** The first labelled amount of [body] stands at offset [i] and is
    [amount]. *)
Definition first_labelled_amount (body : pystr) (i : nat) (amount : pystr) : Prop :=
  i <= length body
  /\ labelled_amount (Py.from i body) amount
  /\ forall j amount', j < i -> ~ labelled_amount (Py.from j body) amount'.

(** The number that a run of decimal digits denotes. *)
Definition digits_N (s : pystr) : N :=
  fold_left (fun acc c =>
               (10 * acc + match Unicode.digit_value c with
                           | Some d => d
                           | None => 0
                           end)%N) s 0%N.

(** An amount in the printed convention: groups of digits separated by
    periods (the thousands separator), then optionally a comma (the decimal
    separator) and the digits of the fraction. *)
Definition printed_amount (amount : pystr) (groups : list pystr)
           (frac : option pystr) : Prop :=
  amount = Py.join (py ".") groups
             ++ match frac with Some f => py "," ++ f | None => [] end
  /\ groups <> []
  /\ Forall (fun g => g <> [] /\ Forall (fun x => digit x = true) g) groups
  /\ match frac with
     | Some f => f <> [] /\ Forall (fun x => digit x = true) f
     | None => True
     end.

(** The decimal number that a printed amount denotes: the digits of the
    groups read as one integer, plus the fraction over its power of ten. *)
Definition printed_value (groups : list pystr) (frac : option pystr) : Q :=
  match frac with
  | None => inject_Z (Z.of_N (digits_N (concat groups)))
  | Some f =>
    Qred (Qmake (Z.of_N (digits_N (concat groups) * 10 ^ N.of_nat (length f)
                         + digits_N f))
                (Z.to_pos (10 ^ Z.of_nat (length f))))
  end.

(** The section markers of a body, as the specification has them: every
    occurrence of a section keyword with its offset and its action type. *)
Definition section_marks (body : pystr) : list (nat * pystr) :=
  flat_map (fun kv => map (fun i => (i, snd kv)) (Py.occurrences (fst kv) body))
           SECTION_MAP.

(** One marker against the best so far: a marker counts when its offset
    is below [start] and above the offset of the best. *)
Definition best_step (start : nat) (best : option (nat * pystr))
           (mark : nat * pystr) : option (nat * pystr) :=
  if (fst mark <? start)
     && match best with None => true | Some b => fst b <? fst mark end
  then Some mark else best.

(** The action type of the marker with the greatest offset strictly below
    [start]; the appointment when no marker precedes. *)
Definition nearest_section (body : pystr) (start : nat) : pystr :=
  match fold_left (best_step start) (section_marks body) None with
  | Some (_, tipo) => tipo
  | None => py "nombramiento"
  end.



(** The persons of a captured run of names: its pieces between semicolons,
    trimmed, the empty ones left out. *)
Definition persons (names : pystr) : list pystr :=
  filter (fun p => negb (Py.eqb p [])) (map Py.strip (Py.split (chr ";") names)).

(** A candidate that yields no officer: an excluded label, fewer than two
    words of two characters or more among the names, or an empty or
    excluded role. *)
Definition candidate_rejected (label names cargo : pystr) : bool :=
  excluded label
  || (length (filter (fun w => 1 <? length w)
                (Py.split_ws (Py.replace (py ".") (py " ")
                               (Py.replace (py ";") (py " ") names)))) <? 2)
  || (Py.eqb cargo [] || excluded cargo).

(** The officer row of a person. *)
Definition officer_row (row : empresa_row) (cargo tipo_acto persona : pystr) : cargo_row :=
  {| c_fecha_borme := fecha_borme row;
     c_num_entrada := num_entrada row;
     c_empresa := empresa row;
     c_empresa_norm := empresa_norm row;
     c_provincia := provincia row;
     c_hoja_registral := match hoja_registral row with Some h => h | None => [] end;
     tipo_acto := tipo_acto;
     cargo := cargo;
     persona := persona;
     c_pdf_filename := pdf_filename row |}.

(** A path component that [parse_single_pdf] takes for the year of the
    date: four digits that read as a number from 2000 to 2030. *)
Definition year_component (p : pystr) : bool :=
  Py.isdigit p && Nat.eqb (length p) 4
  && match Py.int p with
     | Some v => ((2000 <=? v) && (v <=? 2030))%N
     | None => false
     end.

(** A component of four digits that [int] refuses: the conversion raises
    inside the [try] and the scan of the path is given up. *)
Definition unreadable_component (p : pystr) : bool :=
  Py.isdigit p && Nat.eqb (length p) 4
  && match Py.int p with Some _ => false | None => true end.

(** [pending = [p for p in all_pdfs if str(p) not in done_set]] *)
Definition pending (all_pdfs done : list pystr) : list pystr :=
  filter (fun p => negb (Py.mem p done)) all_pdfs.

(** The [ok] flag and the rows that [_process_one] returns for a path. *)
Definition process_ok (open_pdf : pdf_reader) (p : pystr) : bool :=
  snd (_process_one open_pdf p).

Definition process_empresas (open_pdf : pdf_reader) (p : pystr) : list empresa_row :=
  fst (fst (fst (_process_one open_pdf p))).

Definition process_cargos (open_pdf : pdf_reader) (p : pystr) : list cargo_row :=
  snd (fst (fst (_process_one open_pdf p))).

(** The rows of one entry of a document: a company row [r] and its officer
    rows [cs], made from the name and the body of the entry under a
    jurisdiction that is a province name of the list or the jurisdiction
    [prov0] the document starts with. *)
Definition entry_of (hdr : header) (prov0 : pystr)
           (r : empresa_row) (cs : list cargo_row) : Prop :=
  exists entry_num empresa body prov,
    parse_body hdr entry_num empresa body prov = Ok (r, cs)
    /\ (In prov PROVINCIAS \/ prov = prov0).

(** A candidate boundary, as the specification has it: a period, then
    white space from the offset [i] to the offset [j], then a capital
    letter and at least two lower-case letters. *)
Definition candidate (block : pystr) (i j : nat) : Prop :=
  exists before gap x y1 y2 after,
    block = before ++ chr "." :: gap ++ x :: y1 :: y2 :: after
    /\ gap <> [] /\ Forall (fun w => space w = true) gap
    /\ upper_es x = true /\ lower_es y1 = true /\ lower_es y2 = true
    /\ i = length before + 1 /\ j = i + length gap.

(** A candidate whose following word is no legal-form token. *)
Definition accepted (block : pystr) (i j : nat) : Prop :=
  candidate block i j /\ Py.mem (first_word block j) _LEGAL_FORMS = false.

(** The notice of errata: a period at the offset [p], white space and the
    words of the notice. *)
Definition erratum_at (block : pystr) (p : nat) : Prop :=
  exists before gap after,
    block = before ++ chr "." :: gap ++ py "Fe de erratas" ++ after
    /\ gap <> [] /\ Forall (fun w => space w = true) gap
    /\ p = length before.

(** The offset after the period of the first notice of errata, or the
    length of the block when it has none. *)
Definition erratum_limit (block : pystr) (limit : nat) : Prop :=
  (exists p, erratum_at block p /\ (forall p', erratum_at block p' -> p <= p')
             /\ limit = p + 1)
  \/ ((forall p, ~ erratum_at block p) /\ limit = length block).

(** A block with a notice of errata before its first section. *)
Definition erratum_block : pystr :=
  py "ACME SL. Fe de erratas. Nombramientos. Adm. Unico: JUAN GARCIA LOPEZ.".

(** A document of two entries under a province heading, its path, and the
    reader that finds it there. *)
Definition example_path : pystr := py "/data/2020/01/20/BORME-A-2020-12-28.pdf".

Definition example_page : pystr := Eval vm_compute in
  Py.join [10%N] (map py [
    "BOLETÍN OFICIAL DEL REGISTRO MERCANTIL";
    "Núm. 12 Lunes 20 de enero de 2020 Pág. 2561";
    "SECCIÓN PRIMERA";
    "Empresarios";
    "Actos inscritos";
    "BARCELONA";
    "12345 - ACME INVERSIONES SL.";
    "Constitución. Comienzo de operaciones: 2.01.20. Objeto social: Compraventa de bienes. Domicilio: C/ MAYOR 1 (BARCELONA). Capital: 3.012,50 Euros. Nombramientos. Adm. Unico: GARCIA LOPEZ JUAN. Datos registrales. T 100, L 0, F 10, S 8, H B 12345, I/A 1 (10.01.20).";
    "12346 - BETA SOCIEDAD LIMITADA.";
    "Ceses/Dimisiones. Adm. Solid.: PEREZ RUIZ PEDRO;RUIZ DIAZ ANA. Datos registrales. T 200, L 0, F 20, S 8, H B 54321, I/A 2 (11.01.20).";
    "cve: BORME-A-2020-12-28" ]%string).

Definition example_reader : pdf_reader :=
  fun p => if Py.eqb p example_path then Some [Some example_page] else None.

Definition example_rows : list empresa_row * list cargo_row :=
  Eval vm_compute in
    match snd (parse_single_pdf example_reader example_path) with
    | Ok rows => rows
    | Raise _ => ([], [])
    end.

(** A block whose name holds legal-form words in capitals and lower case. *)
Definition legal_form_block : pystr :=
  py "INVERSIONES LIMITADA SOCIEDAD. Limitada. Nombramientos. Adm. Unico: JUAN GARCIA LOPEZ.".

(** An entry of two officer sections, and the row of its company. *)
Definition example_body : pystr :=
  py ". Nombramientos. Adm. Unico: JUAN GARCIA LOPEZ. Ceses/Dimisiones. Adm. Solid.: PEDRO PEREZ RUIZ;ANA RUIZ DIAZ. Datos registrales. T 1.".

Definition example_row : empresa_row :=
  {| fecha_borme := py "2020-01-02";
     num_borme := 1%N;
     num_entrada := py "1234";
     empresa := py "ACME SL";
     empresa_norm := py "ACME";
     provincia := py "MADRID";
     cod_provincia := py "28";
     tipo_borme := py "A";
     pdf_filename := py "BORME-A-2020-1-28.pdf";
     fecha_constitucion := None;
     objeto_social := None;
     domicilio := None;
     capital_euros := None;
     actos := py "Nombramientos|Ceses/Dimisiones";
     hoja_registral := Some (py "M 1");
     tomo := None;
     inscripcion := None;
     fecha_inscripcion := None |}.

(** [label] occurs in [body] immediately followed by a period or a colon. *)
Definition occurs_followed (body label : pystr) : Prop :=
  exists pre t post,
    body = pre ++ label ++ t :: post /\ (t = chr "." \/ t = chr ":").

(** The list of acts as the specification describes it: the acts of the
    vocabulary whose label occurs in the body followed by a period or a
    colon, in the order of the vocabulary. *)
Definition claimed_actos (body : pystr) : list pystr :=
  filter (has_label body) ACTOS.

End Borme.

(* ===================================================================== *)
(** ** [borme_placsp_match.py]: [normalize_empresa] *)
(* ===================================================================== *)

Module Placsp.
Import Re.

(** [unicodedata.normalize('NFD', n)] followed by the removal of the
    characters of category Mn *)
Definition strip_marks (n : pystr) : pystr :=
  filter (fun c => negb (Unicode.is_mn c)) (Unicode.nfd n).

(** [\s*\([^)]*\)] *)
Definition PAREN_RE : regex :=
  seq [star (Chr space); lit "("; star (Chr (not_of ")")); lit ")"].

(** [\bX\s*\.\s*Y\s*\.\s*Z\s*\.?\b] for the letters X, Y, Z *)
Fixpoint dotted_tail (letters : list string) : list regex :=
  match letters with
  | [] => [star (Chr space); opt (lit "."); WordB]
  | l :: rest => star (Chr space) :: lit "." :: star (Chr space) :: lit l
                   :: dotted_tail rest
  end.

Definition dotted (first : string) (letters : list string) : regex :=
  seq (WordB :: lit first :: dotted_tail letters).

(** [\bX\s+Y\s+Z\b], and with a final [$] *)
Fixpoint spaced_tail (at_end : bool) (letters : list string) : list regex :=
  match letters with
  | [] => WordB :: (if at_end then [Eol false] else [])
  | l :: rest => plus (Chr space) :: lit l :: spaced_tail at_end rest
  end.

Definition spaced (at_end : bool) (first : string) (letters : list string) : regex :=
  seq (WordB :: lit first :: spaced_tail at_end letters).

(** The substitutions of the abbreviations, in the order of the source *)
Definition ABBREVIATIONS : list (regex * pystr) :=
  [ (dotted "S" ["R"; "L"], py "SRL");
    (dotted "S" ["L"; "U"], py "SLU");
    (dotted "S" ["L"; "P"], py "SLP");
    (dotted "S" ["L"; "L"], py "SLL");
    (dotted "S" ["L"], py "SL");
    (dotted "S" ["A"; "U"], py "SAU");
    (dotted "S" ["A"; "E"], py "SAE");
    (dotted "S" ["A"], py "SA");
    (dotted "S" ["C"], py "SC");
    (dotted "A" ["I"; "E"], py "AIE");
    (dotted "S" ["M"; "E"], py "SME");
    (spaced false "S" ["R"; "L"], py "SRL");
    (spaced false "S" ["M"; "E"], py "SME");
    (spaced false "S" ["L"; "U"], py "SLU");
    (spaced false "S" ["L"; "P"], py "SLP");
    (spaced false "S" ["L"; "L"], py "SLL");
    (spaced true "S" ["L"], py "SL");
    (spaced false "S" ["A"; "U"], py "SAU");
    (spaced false "S" ["A"; "E"], py "SAE");
    (spaced true "S" ["A"], py "SA") ]%string.

Definition SUFFIXES : list pystr := Eval vm_compute in map py [
  " SOCIEDAD ANONIMA DEPORTIVA"; " SOCIEDAD ANONIMA";
  " SOCIEDAD LIMITADA PROFESIONAL"; " SOCIEDAD LIMITADA LABORAL";
  " SOCIEDAD LIMITADA NUEVA EMPRESA"; " SOCIEDAD LIMITADA";
  " SOCIEDAD COOPERATIVA ANDALUZA"; " SOCIEDAD COOPERATIVA";
  " SOCIEDAD CIVIL PROFESIONAL"; " SOCIEDAD CIVIL";
  " SOCIEDAD UNIPERSONAL";
  " AGRUPACION DE INTERES ECONOMICO";
  " SAU"; " SLU"; " SAD"; " SLL"; " SLP"; " SLNE";
  " SA SME"; " SAE"; " SME"; " SA"; " SL"; " SC";
  " SCA"; " SCCL"; " SCOOP"; " SE"; " SRL"; " AIE" ]%string.

(** The first suffix of the list that ends [n] *)
Definition matching_suffix (suffixes : list pystr) (n : pystr) : option pystr :=
  find (Py.endswith n) suffixes.

(** [while changed: ...]: one suffix is cut per turn.  Every turn
    shortens [n], so [length n] turns are enough. *)
Fixpoint suffix_loop (turns : nat) (suffixes : list pystr) (n : pystr) : pystr :=
  match turns with
  | O => n
  | S turns' =>
    match matching_suffix suffixes n with
    | Some suffix => suffix_loop turns' suffixes (Py.strip (Py.drop_last (length suffix) n))
    | None => n
    end
  end.

(** Everything before the suffix loop *)
Definition prepare (name : pystr) : pystr :=
  let n := Py.strip (Py.upper name) in
  let n := Py.replace (py "Ñ") (py "##ENIE##") n in
  let n := strip_marks n in
  let n := Py.replace (py "##ENIE##") (py "Ñ") n in
  let n := sub PAREN_RE [] n in
  let n := fold_left (fun n rs => sub (fst rs) (snd rs) n) ABBREVIATIONS n in
  let n := sub (Chr (one_of ",.-")) (py " ") n in
  Py.strip (sub (plus (Chr space)) (py " ") n).

(** [normalize_empresa] on a string; the empty name is returned at once *)
Definition normalize_empresa (name : pystr) : pystr :=
  match name with
  | [] => []
  | _ =>
    let n := prepare name in
    let n := suffix_loop (length n) SUFFIXES n in
    Py.strip (sub Borme.TRAILING_PUNCT_RE [] n)
  end.

End Placsp.

(* ===================================================================== *)
(** ** [borme_scraper.py]: the links of an index page, the error log *)
(* ===================================================================== *)

Module Scraper.
Import Re.

Definition quote : char := 34%N.

(** [href=Q(/borme/dias/\d{4}/\d{2}/\d{2}/pdfs/[^Q]+\.pdf)Q] under
    [re.IGNORECASE], where Q stands for the double quote *)
Definition PDF_HREF_RE : regex :=
  seq [lit_i "href="; Chr (N.eqb quote);
       Group 1 (seq [lit_i "/borme/dias/"; Rep true 4 (Some 4) (Chr digit);
                     lit_i "/"; Rep true 2 (Some 2) (Chr digit);
                     lit_i "/"; Rep true 2 (Some 2) (Chr digit);
                     lit_i "/pdfs/";
                     plus (Chr (fun c => negb (N.eqb c quote)));
                     lit_i ".pdf"]);
       Chr (N.eqb quote)].

Record pdf_link := {
  url : pystr;
  pdf_filename : pystr;
  tipo : pystr
}.

(** The section of a document, read from its file name. *)
Definition link_tipo (pdf_filename : pystr) : pystr :=
  let upper_fn := Py.upper pdf_filename in
  if Py.contains upper_fn (py "BORME-A-") then py "A"
  else if Py.contains upper_fn (py "BORME-B-") then py "B"
  else if Py.contains upper_fn (py "BORME-C-") then py "C"
  else if Py.contains upper_fn (py "BORME-S-") then py "S"
  else if Py.startswith upper_fn (py "R") then py "C"
  else if Py.startswith upper_fn (py "A") then py "A"
  else py "otro".

(** The loop of [extract_pdf_links] over the matches: [seen_urls] is the
    set of the paths met so far. *)
Fixpoint links_loop (html : pystr) (seen_urls : list pystr) (ms : list rmatch)
  : exc (list pdf_link) :=
  match ms with
  | [] => Ok []
  | m :: rest =>
    url_path <- group_str html m 1 ;;
    if Py.mem url_path seen_urls then links_loop html seen_urls rest
    else
      let pdf_filename := last (Py.split (chr "/") url_path) [] in
      results <- links_loop html (url_path :: seen_urls) rest ;;
      Ok ({| url := url_path; pdf_filename := pdf_filename;
             tipo := link_tipo pdf_filename |} :: results)
  end.

Definition extract_pdf_links (html : pystr) : exc (list pdf_link) :=
  links_loop html [] (finditer PDF_HREF_RE html).

(** An entry of the error log of [ScraperState]: the date in ISO format
    and the message. *)
Record error_entry := { e_date : pystr; e_error : pystr }.

(** [s[-n:]] for [n > 0] *)
Definition last_n (A : Type) (n : nat) (l : list A) : list A :=
  skipn (length l - n) l.

(** [ScraperState.add_error] on the list [state["errors"]] *)
Definition add_error (errors : list error_entry) (d error : pystr)
  : list error_entry :=
  let errors := errors ++ [{| e_date := d; e_error := error |}] in
  if 1000 <? length errors then last_n 500 errors else errors.

(** A page with the same document linked twice, in two spellings of the
    attribute, and a second document. *)
Definition example_html : pystr :=
  py "<a href=" ++ [quote] ++ py "/borme/dias/2020/01/20/pdfs/BORME-A-2020-12-28.pdf"
  ++ [quote] ++ py ">PDF</a> <a HREF=" ++ [quote]
  ++ py "/borme/dias/2020/01/20/pdfs/BORME-A-2020-12-28.pdf" ++ [quote]
  ++ py ">otra vez</a> <a href=" ++ [quote]
  ++ py "/borme/dias/2020/01/20/pdfs/BORME-S-2020-12.pdf" ++ [quote] ++ py ">Sumario</a>".

End Scraper.

(* ===================================================================== *)
(** ** [borme_validate.py]: the statistics of a document *)
(* ===================================================================== *)

(** The patterns and the constants of the script, its [clean] and its
    [extract_cargo_and_tipo] have the text of those of the batch parser:
    they are the definitions of [Borme].  So has the loop of
    [find_empresa], which is [Borme.body_start_loop]. *)
Module Validate.
Import Re Borme.

Definition clean (raw : pystr) : pystr := _clean raw.

Definition extract_cargo_and_tipo (raw_cargo body : pystr) (match_start : nat)
  : pystr * pystr :=
  _extract_cargo_and_tipo raw_cargo body match_start.

(** [find_empresa]: the name and the body of a block *)
Definition find_empresa (block : pystr) : pystr * pystr :=
  let body_pos :=
    match search _FE_ERRATAS_RE block with
    | Some fe => m_start fe + 1
    | None => length block
    end in
  let body_pos := body_start_loop block body_pos (finditer _BODY_START_RE block) in
  (Py.rstrip_chars (py ".") (Py.strip (Py.upto body_pos block)),
   if body_pos <? length block
   then py ". " ++ Py.strip (Py.from body_pos block)
   else []).

(** [collections.Counter]: the keys in the order of their first count *)
Definition counter := list (pystr * nat).

Fixpoint counter_add (k : pystr) (n : nat) (c : counter) : counter :=
  match c with
  | [] => [(k, n)]
  | (k', v) :: rest =>
    if Py.eqb k' k then (k', v + n) :: rest else (k', v) :: counter_add k n rest
  end.

(** [c[k]]: zero for a key that was never counted *)
Fixpoint counter_get (c : counter) (k : pystr) : nat :=
  match c with
  | [] => 0
  | (k', v) :: rest => if Py.eqb k' k then v else counter_get rest k
  end.

(** The dictionary [stats] *)
Record stats := {
  path : pystr;
  entries : nat;
  cargos_found : nat;
  cargo_types : counter;
  tipo_actos : counter;
  long_empresa_names : list pystr;
  unknown_cargo_patterns : list pystr;
  body_start_words : counter
}.

(** What [validate_pdf] returns: the dictionary of an unreadable
    document, or the statistics. *)
Inductive report : Type :=
| Unreadable (path : pystr)
| Stats (s : stats).

(** [(?<=\.\s)([^:]{1,30}?):\s*([A-ZÁÉÍÓÚÑ]{2,})] *)
Definition POSSIBLE_CARGO : regex :=
  seq [Behind [ch "."; space];
       Group 1 (Rep false 1 (Some 30) (Chr (not_of ":")));
       Chr (ch ":"); ws;
       Group 2 (Rep true 2 None (Chr upper_es))].

(** [s.split('.')[0].split(':')[0].split(' ')[0].strip()] *)
Definition leading_word (s : pystr) : pystr :=
  Py.strip (hd [] (Py.split (chr " ")
             (hd [] (Py.split (chr ":") (hd [] (Py.split (chr ".") s)))))).

Definition note_body_word (body : pystr) (st : stats) : stats :=
  if negb (Py.eqb body []) && (2 <? length body)
  then {| path := path st; entries := entries st; cargos_found := cargos_found st;
          cargo_types := cargo_types st; tipo_actos := tipo_actos st;
          long_empresa_names := long_empresa_names st;
          unknown_cargo_patterns := unknown_cargo_patterns st;
          body_start_words :=
            counter_add (leading_word (Py.from 2 body)) 1 (body_start_words st) |}
  else st.

Definition note_long_name (empresa : pystr) (st : stats) : stats :=
  if 150 <? length empresa
  then {| path := path st; entries := entries st; cargos_found := cargos_found st;
          cargo_types := cargo_types st; tipo_actos := tipo_actos st;
          long_empresa_names := long_empresa_names st ++ [Py.upto 200 empresa];
          unknown_cargo_patterns := unknown_cargo_patterns st;
          body_start_words := body_start_words st |}
  else st.

(** The body of [for m in CARGO_RE.finditer(body)] *)
Definition count_cargo (body : pystr) (st : stats) (m : rmatch) : exc stats :=
  g1 <- group_str body m 1 ;;
  g2 <- group_str body m 2 ;;
  let raw_cargo := Py.strip g1 in
  let personas_raw := Py.strip g2 in
  if excluded raw_cargo then Ok st
  else
    let words := filter (fun w => 1 <? length w)
                   (Py.split_ws (Py.replace (py ".") (py " ")
                                  (Py.replace (py ";") (py " ") personas_raw))) in
    if length words <? 2 then Ok st
    else
      let '(cargo, tipo) := extract_cargo_and_tipo raw_cargo body (m_start m) in
      if Py.eqb cargo [] || excluded cargo then Ok st
      else
        let personas := filter (fun p => negb (Py.eqb p []))
                          (map Py.strip (Py.split (chr ";") personas_raw)) in
        Ok {| path := path st; entries := entries st;
              cargos_found := cargos_found st + length personas;
              cargo_types := counter_add cargo (length personas) (cargo_types st);
              tipo_actos := counter_add tipo (length personas) (tipo_actos st);
              long_empresa_names := long_empresa_names st;
              unknown_cargo_patterns := unknown_cargo_patterns st;
              body_start_words := body_start_words st |}.

(** The body of [for pm in POSSIBLE_CARGO.finditer(body)] *)
Definition note_unknown (body : pystr) (st : stats) (pm : rmatch) : exc stats :=
  g1 <- group_str body pm 1 ;;
  let candidate := Py.strip g1 in
  if Py.mem candidate CARGO_EXCLUDE then Ok st
  else
    match search CARGO_RE
            (py ". " ++ Py.slice (m_start pm) (m_end pm) body ++ py ". ") with
    | Some _ => Ok st
    | None =>
      Ok {| path := path st; entries := entries st; cargos_found := cargos_found st;
            cargo_types := cargo_types st; tipo_actos := tipo_actos st;
            long_empresa_names := long_empresa_names st;
            unknown_cargo_patterns := unknown_cargo_patterns st ++ [Py.upto 50 candidate];
            body_start_words := body_start_words st |}
    end.

(** A loop whose body may raise *)
Fixpoint for_each (A B : Type) (f : A -> B -> exc A) (a : A) (l : list B) : exc A :=
  match l with
  | [] => Ok a
  | x :: rest => a' <- f a x ;; for_each f a' rest
  end.

(** One turn of [for i, match in enumerate(splits)] *)
Definition validate_entry (text : pystr) (st : stats) (m : rmatch) (end_ : nat)
  : exc stats :=
  let block := Py.strip (sub SPACES_RE (py " ")
                 (Py.replace [10%N] (py " ") (Py.slice (m_end m) end_ text))) in
  let '(empresa, body) := find_empresa block in
  let st := note_body_word body st in
  let st := note_long_name empresa st in
  st <- for_each (count_cargo body) st (finditer CARGO_RE body) ;;
  for_each (note_unknown body) st (finditer POSSIBLE_CARGO body).

Fixpoint validate_loop (text : pystr) (st : stats) (splits : list rmatch) : exc stats :=
  match splits with
  | [] => Ok st
  | m :: rest =>
    let end_ := match rest with m' :: _ => m_start m' | [] => length text end in
    st <- validate_entry text st m end_ ;;
    validate_loop text st rest
  end.

(** [validate_pdf] from the text of the pages on *)
Definition validate_text (pdf_path raw : pystr) : exc stats :=
  let text := clean raw in
  let splits := finditer ENTRY_START_RE text in
  validate_loop text
    {| path := pdf_path; entries := length splits; cargos_found := 0;
       cargo_types := []; tipo_actos := []; long_empresa_names := [];
       unknown_cargo_patterns := []; body_start_words := [] |}
    splits.

Definition validate_pdf (open_pdf : pdf_reader) (pdf_path : pystr) : exc report :=
  match open_pdf pdf_path with
  | None => Ok (Unreadable pdf_path)
  | Some pages =>
    st <- validate_text pdf_path (Py.join [10%N] (map page_text pages)) ;;
    Ok (Stats st)
  end.

(** The statistics [st'] are [st] after the officer rows [rows] were
    counted: by number, by kind of act and by role. *)
Definition tallies (st st' : stats) (rows : list cargo_row) : Prop :=
  path st' = path st
  /\ entries st' = entries st
  /\ cargos_found st' = cargos_found st + length rows
  /\ (forall t, counter_get (tipo_actos st') t
                = counter_get (tipo_actos st) t
                  + length (filter (fun r => Py.eqb (tipo_acto r) t) rows))
  /\ (forall c, counter_get (cargo_types st') c
                = counter_get (cargo_types st) c
                  + length (filter (fun r => Py.eqb (cargo r) c) rows)).

End Validate.

(* ===================================================================== *)
(** ** [scraper_galicia.py]: the cleaning of a cell *)
(* ===================================================================== *)

Module Galicia.
Import Re.

(** [<[^>]+>] *)
Definition TAG_RE : regex :=
  seq [Chr (ch "<"); plus (Chr (not_of ">")); Chr (ch ">")].

(** [clean_html]: a value that is not a string is returned as it is. *)
Definition clean_html (A : Type) (val : pystr + A) : pystr + A :=
  match val with
  | inl s => inl (Py.strip (sub (plus (Chr space)) (py " ") (sub TAG_RE [] s)))
  | inr v => inr v
  end.

(** Every opening angle bracket of [l] is followed at once by a closing
    one, or by none at all: no tag can be read in [l]. *)
Definition tagless (l : pystr) : Prop :=
  forall u v, l = u ++ chr "<" :: v ->
              (exists v', v = chr ">" :: v') \/ ~ In (chr ">") v.

(** A cell as the server may send it. *)
Definition example_cell : pystr :=
  Eval vm_compute in
    py "<b>Obra  nueva</b>" ++ [10%N; 9%N] ++ py "<i>2020</i> <>".

End Galicia.

(* ===================================================================== *)
(** ** [borme_anonymize.py]: the graph of shared administrators *)
(* ===================================================================== *)

Module Anonymize.

(** The order of Python on strings: by code point, a proper prefix first. *)
Fixpoint str_ltb (s t : pystr) : bool :=
  match s, t with
  | _, [] => false
  | [], _ :: _ => true
  | x :: s', y :: t' => (x <? y)%N || ((x =? y)%N && str_ltb s' t')
  end.

(** [sorted(l)] for a list of strings *)
Fixpoint insert_sorted (x : pystr) (l : list pystr) : list pystr :=
  match l with
  | [] => [x]
  | y :: t => if str_ltb y x then y :: insert_sorted x t else x :: y :: t
  end.

Definition sorted (l : list pystr) : list pystr := fold_right insert_sorted [] l.

(** [sorted(set(x))] *)
Definition sorted_set (x : list pystr) : list pystr := sorted (nodup Py.eq_dec x).

(** The columns of [df_car_anon] that [build_admin_graph] reads: they
    hold strings. *)
Record anon_row := {
  a_empresa_norm : pystr;
  a_tipo_acto : pystr;
  a_persona_hash : pystr
}.

(** [df_car_anon[df_car_anon["tipo_acto"].isin(["nombramiento", "reeleccion"])]] *)
Definition admins (df : list anon_row) : list anon_row :=
  filter (fun r => Py.mem (a_tipo_acto r) [py "nombramiento"; py "reeleccion"]) df.

(** [admins.groupby("persona_hash")["empresa_norm"].apply(lambda x: sorted(set(x)))]:
    the keys come in ascending order, each with the values of its rows. *)
Definition persona_empresas (df : list anon_row) : list (pystr * list pystr) :=
  map (fun h =>
         (h, sorted_set (map a_empresa_norm
                           (filter (fun r => Py.eqb (a_persona_hash r) h) (admins df)))))
      (sorted_set (map a_persona_hash (admins df))).

(** [persona_empresas[persona_empresas.apply(len).between(2, max_empresas_per_admin)]] *)
Definition multi (max_empresas_per_admin : nat) (df : list anon_row)
  : list (pystr * list pystr) :=
  filter (fun g => (2 <=? length (snd g)) && (length (snd g) <=? max_empresas_per_admin))
         (persona_empresas df).

(** [itertools.combinations(l, 2)] *)
Fixpoint combinations2 (l : list pystr) : list (pystr * pystr) :=
  match l with
  | [] => []
  | a :: t => map (pair a) t ++ combinations2 t
  end.

Definition key_eqb (k k' : pystr * pystr) : bool :=
  Py.eqb (fst k) (fst k') && Py.eqb (snd k) (snd k').

(** A dictionary keyed by pairs, in insertion order: the value of [k]
    becomes [f] of what it was, or [init] when [k] is a new key. *)
Fixpoint dict_upsert (V : Type) (k : pystr * pystr) (init : V) (f : V -> V)
         (d : list (pystr * pystr * V)) : list (pystr * pystr * V) :=
  match d with
  | [] => [(k, init)]
  | (k', v) :: t =>
    if key_eqb k' k then (k', f v) :: t else (k', v) :: dict_upsert k init f t
  end.

(** [pair_counts[key] = pair_counts.get(key, 0) + 1] *)
Definition count_pair (k : pystr * pystr) (d : list (pystr * pystr * nat))
  : list (pystr * pystr * nat) :=
  dict_upsert k 1 (fun n => n + 1) d.

(** [s.add(h)] on a set kept as a list without repetition *)
Definition set_add (h : pystr) (s : list pystr) : list pystr :=
  if Py.mem h s then s else s ++ [h].

(** [if key not in pair_hashes: pair_hashes[key] = set()] and
    [pair_hashes[key].add(persona_hash)] *)
Definition note_hash (k : pystr * pystr) (h : pystr)
           (d : list (pystr * pystr * list pystr)) : list (pystr * pystr * list pystr) :=
  dict_upsert k [h] (set_add h) d.

Record pairs := {
  pair_counts : list (pystr * pystr * nat);
  pair_hashes : list (pystr * pystr * list pystr)
}.

Definition pair_step (persona_hash : pystr) (st : pairs) (k : pystr * pystr) : pairs :=
  {| pair_counts := count_pair k (pair_counts st);
     pair_hashes := note_hash k persona_hash (pair_hashes st) |}.

(** The two nested loops over [multi.items()] *)
Definition pair_loop (m : list (pystr * list pystr)) : pairs :=
  fold_left (fun st g => fold_left (pair_step (fst g)) (combinations2 (snd g)) st)
            m {| pair_counts := []; pair_hashes := [] |}.

(** [pair_hashes[(a, b)]]: a missing key raises. *)
Fixpoint hashes_get (k : pystr * pystr) (d : list (pystr * pystr * list pystr))
  : exc (list pystr) :=
  match d with
  | [] => Raise "KeyError"
  | (k', hs) :: t => if key_eqb k' k then Ok hs else hashes_get k t
  end.

Record graph_row := {
  empresa_a : pystr;
  empresa_b : pystr;
  n_admins_compartidos : nat;
  admin_hashes : pystr
}.

(** The list [rows], which is made into the frame. *)
Fixpoint graph_rows (counts : list (pystr * pystr * nat))
         (hashes : list (pystr * pystr * list pystr)) : exc (list graph_row) :=
  match counts with
  | [] => Ok []
  | (k, count) :: t =>
    hs <- hashes_get k hashes ;;
    rows <- graph_rows t hashes ;;
    Ok ({| empresa_a := fst k; empresa_b := snd k;
           n_admins_compartidos := count;
           admin_hashes := Py.join (py "|") (sorted hs) |} :: rows)
  end.

(** [build_admin_graph] up to the rows of the frame, before they are
    sorted by number of shared administrators. *)
Definition build_admin_graph (df_car_anon : list anon_row)
           (max_empresas_per_admin : nat) : exc (list graph_row) :=
  let st := pair_loop (multi max_empresas_per_admin df_car_anon) in
  graph_rows (pair_counts st) (pair_hashes st).

(** The turns of the inner loop, in order: the administrator and the
    pair of each. *)
Definition pair_events (m : list (pystr * list pystr)) : list (pystr * (pystr * pystr)) :=
  flat_map (fun g => map (pair (fst g)) (combinations2 (snd g))) m.

(** The companies in which [h] is appointed or re-elected. *)
Definition companies_of (df : list anon_row) (h : pystr) : list pystr :=
  nodup Py.eq_dec
    (map a_empresa_norm (filter (fun r => Py.eqb (a_persona_hash r) h) (admins df))).

(** [h] is an administrator that [a] and [b] share: a person appointed in
    both, and in at least 2 and at most [max] companies in all. *)
Definition shares (df : list anon_row) (max : nat) (a b h : pystr) : Prop :=
  In a (companies_of df h) /\ In b (companies_of df h)
  /\ 2 <= length (companies_of df h) <= max.

Definition example_cargos : list anon_row :=
  [ {| a_empresa_norm := py "BETA"; a_tipo_acto := py "nombramiento";
       a_persona_hash := py "aa11" |};
    {| a_empresa_norm := py "ALFA"; a_tipo_acto := py "reeleccion";
       a_persona_hash := py "aa11" |};
    {| a_empresa_norm := py "ALFA"; a_tipo_acto := py "nombramiento";
       a_persona_hash := py "bb22" |};
    {| a_empresa_norm := py "BETA"; a_tipo_acto := py "nombramiento";
       a_persona_hash := py "bb22" |};
    {| a_empresa_norm := py "GAMMA"; a_tipo_acto := py "cese";
       a_persona_hash := py "bb22" |};
    {| a_empresa_norm := py "GAMMA"; a_tipo_acto := py "nombramiento";
       a_persona_hash := py "cc33" |} ].

End Anonymize.

(* ===================================================================== *)
(** ** What a regular expression can match: the declarative reading *)
(* ===================================================================== *)

Module ReSem.
Import Re.

(** A position in a text with the groups set so far: the text before
    it (nearest character first), the text after it, the groups. *)
Record st := St { bef : list char; aft : list char; cap : caps }.

Definition text_of (s : st) : pystr := rev (bef s) ++ aft s.
Definition pos_of (s : st) : nat := length (bef s).

Definition within (n : nat) (hi : option nat) : Prop :=
  match hi with Some h => n <= h | None => True end.

Fixpoint iter (step : st -> st -> Prop) (n : nat) (s s' : st) : Prop :=
  match n with
  | O => s' = s
  | S n' => exists s1, step s s1 /\ iter step n' s1 s'
  end.

(** [Matches r s s']: [r] can match from [s] to [s'], whatever the
    priorities.  An iteration of a repetition consumes something. *)
Fixpoint Matches (r : regex) (s s' : st) {struct r} : Prop :=
  match r with
  | Eps => s' = s
  | Chr p =>
    exists x a', aft s = x :: a' /\ p x = true /\ s' = St (x :: bef s) a' (cap s)
  | Seq r1 r2 => exists s1, Matches r1 s s1 /\ Matches r2 s1 s'
  | Alt r1 r2 => Matches r1 s s' \/ Matches r2 s s'
  | Rep _ lo hi r1 =>
    exists n, lo <= n /\ within n hi /\
              iter (fun u v => Matches r1 u v /\ length (aft v) < length (aft u)) n s s'
  | Group n r1 =>
    exists s1, Matches r1 s s1 /\
               s' = St (bef s1) (aft s1) ((n, (pos_of s, pos_of s1)) :: cap s1)
  | Bol ml => at_bol ml (bef s) = true /\ s' = s
  | Eol ml => at_eol ml (aft s) = true /\ s' = s
  | WordB => at_wordb (bef s) (aft s) = true /\ s' = s
  | Ahead r1 => (exists s1, Matches r1 s s1) /\ s' = s
  | Behind ps => behind_ok (rev ps) (bef s) = true /\ s' = s
  end.

(** [r] can match the text between the offsets [i] and [j] of [t],
    setting the groups [c]. *)
Definition matches_at (r : regex) (t : pystr) (i j : nat) (c : caps) : Prop :=
  exists b a b' a',
    t = rev b ++ a /\ length b = i /\ length b' = j /\
    Matches r (St b a []) (St b' a' c).

(** A match consumes a piece of the text and leaves the rest as it was. *)
Definition consumes (s s' : st) (mid : list char) : Prop :=
  aft s = mid ++ aft s' /\ bef s' = rev mid ++ bef s.

(** Matches that come in order between two offsets and do not overlap. *)
Fixpoint chain (from : nat) (ms : list rmatch) (upto : nat) : Prop :=
  match ms with
  | [] => from <= upto
  | m :: rest => from <= m_start m /\ m_start m <= m_end m /\ chain (m_end m) rest upto
  end.

(** No two characters of the class [p] stand side by side in [l]. *)
Fixpoint no_adjacent (p : char -> bool) (l : pystr) : Prop :=
  match l with
  | x :: (y :: _) as t => ~ (p x = true /\ p y = true) /\ no_adjacent p t
  | _ => True
  end.

(** Every match of [r] sets the group [n]. *)
Fixpoint sets (n : nat) (r : regex) : bool :=
  match r with
  | Seq r1 r2 => sets n r1 || sets n r2
  | Alt r1 r2 => sets n r1 && sets n r2
  | Rep _ lo _ r1 => (1 <=? lo) && sets n r1
  | Group m r1 => Nat.eqb m n || sets n r1
  | _ => false
  end.

End ReSem.

(* ===================================================================== *)
(** * Verified properties *)
(* ===================================================================== *)

(** ** The matcher is sound and complete for the declarative reading *)

Module ReFacts.
Import Re ReSem.

Section Loop.
Variable R : Type.
Variable body : matcher R.
Variable P : st -> st -> Prop.
Variables (greedy : bool) (lo : nat) (hi : option nat) (k : cont R).

Let step (u v : st) : Prop := P u v /\ length (aft v) < length (aft u).

Hypothesis body_sound : forall b a c k' x,
  body b a c k' = Some x ->
  exists s', P (St b a c) s' /\ k' (bef s') (aft s') (cap s') = Some x.

Lemma rep_loop_sound : forall budget n b a c x,
  rep_loop body greedy lo hi k budget n b a c = Some x ->
  within n hi ->
  exists m s', iter step m (St b a c) s' /\ lo <= n + m /\ within (n + m) hi
               /\ k (bef s') (aft s') (cap s') = Some x.
Proof.
  assert (Hstop : forall n b a c x,
             (if lo <=? n then k b a c else None) = Some x -> within n hi ->
             exists m s', iter step m (St b a c) s' /\ lo <= n + m
                          /\ within (n + m) hi
                          /\ k (bef s') (aft s') (cap s') = Some x).
  { intros n b a c x H Hn. destruct (lo <=? n) eqn:E; [|discriminate].
    apply Nat.leb_le in E. exists 0, (St b a c). simpl.
    rewrite Nat.add_0_r. auto. }
  induction budget as [|budget IH]; intros n b a c x H Hn; simpl in H.
  - now apply Hstop.
  - assert (Hmore : forall x,
               (if below n hi
                then body b a c (fun b' a' c' =>
                       if length a' <? length a
                       then rep_loop body greedy lo hi k budget (S n) b' a' c'
                       else None)
                else None) = Some x ->
               exists m s', iter step m (St b a c) s' /\ lo <= n + m
                            /\ within (n + m) hi
                            /\ k (bef s') (aft s') (cap s') = Some x).
    { intros y Hy. destruct (below n hi) eqn:Eb; [|discriminate].
      apply body_sound in Hy. destruct Hy as (s1 & HP & Hk).
      destruct (length (aft s1) <? length a) eqn:El; [|discriminate].
      apply Nat.ltb_lt in El.
      apply IH in Hk.
      - destruct Hk as (m & s' & Hit & Hlo & Hhi & Hk).
        exists (S m), s'. simpl. repeat split.
        + exists s1. destruct s1; simpl in *. split; [split|]; auto.
        + lia.
        + replace (n + S m) with (S n + m) by lia. exact Hhi.
        + exact Hk.
      - unfold below in Eb. unfold within. destruct hi; auto.
        apply Nat.ltb_lt in Eb. lia. }
    destruct greedy.
    + destruct (if below n hi then _ else None) eqn:E.
      * inversion H; subst. now apply Hmore.
      * now apply Hstop.
    + destruct (if lo <=? n then k b a c else None) eqn:E.
      * inversion H; subst. now apply Hstop.
      * now apply Hmore.
Qed.

Hypothesis body_complete : forall b a c s' k' x,
  P (St b a c) s' -> k' (bef s') (aft s') (cap s') = Some x ->
  exists y, body b a c k' = Some y.

Lemma rep_loop_complete : forall m budget n b a c s' x,
  iter step m (St b a c) s' ->
  length a <= budget -> lo <= n + m -> within (n + m) hi ->
  k (bef s') (aft s') (cap s') = Some x ->
  exists y, rep_loop body greedy lo hi k budget n b a c = Some y.
Proof.
  induction m as [|m IH]; intros budget n b a c s' x Hit Hb Hlo Hhi Hk.
  - simpl in Hit. subst s'. simpl in Hk. rewrite Nat.add_0_r in Hlo.
    apply Nat.leb_le in Hlo.
    destruct budget; simpl; rewrite Hlo.
    + eauto.
    + destruct greedy.
      * destruct (if below n hi then _ else None); eauto.
      * rewrite Hk. eauto.
  - simpl in Hit. destruct Hit as (s1 & (HP & Hlen) & Hit).
    simpl in Hlen.
    destruct budget as [|budget]; [lia|].
    assert (Hbelow : below n hi = true).
    { unfold below, within in *. destruct hi; auto. apply Nat.ltb_lt. lia. }
    destruct s1 as [b1 a1 c1]. simpl in Hlen.
    destruct (IH budget (S n) b1 a1 c1 s' x Hit) as (y & Hy); try lia.
    { replace (S n + m) with (n + S m) by lia. exact Hhi. }
    { exact Hk. }
    destruct (@body_complete b a c (St b1 a1 c1)
                (fun b' a' c' =>
                   if length a' <? length a
                   then rep_loop body greedy lo hi k budget (S n) b' a' c'
                   else None) y HP) as (z & Hz).
    { simpl. apply Nat.ltb_lt in Hlen. rewrite Hlen. exact Hy. }
    simpl. rewrite Hbelow. destruct greedy.
    + rewrite Hz. eauto.
    + destruct (if lo <=? n then k b a c else None); eauto.
Qed.
End Loop.

Theorem go_sound : forall r R b a c (k : cont R) x,
  go r b a c k = Some x ->
  exists s', Matches r (St b a c) s' /\ k (bef s') (aft s') (cap s') = Some x.
Proof.
  induction r; intros R b a c k x H; simpl in H.
  - exists (St b a c). simpl. auto.
  - destruct a as [|y a']; [discriminate|].
    destruct (p y) eqn:E; [|discriminate].
    exists (St (y :: b) a' c). simpl. split; [|exact H]. exists y, a'. auto.
  - apply IHr1 in H. destruct H as (s1 & H1 & H).
    apply IHr2 in H. destruct H as (s' & H2 & H).
    exists s'. split; [|exact H]. simpl. exists s1. destruct s1; auto.
  - destruct (go r1 b a c k) eqn:E.
    + inversion H; subst. apply IHr1 in E. destruct E as (s' & H1 & E).
      exists s'. simpl. auto.
    + apply IHr2 in H. destruct H as (s' & H1 & E'). exists s'. simpl. auto.
  - apply rep_loop_sound with (P := Matches r) in H.
    + destruct H as (m & s' & Hit & Hlo & Hhi & Hk).
      exists s'. split; [|exact Hk]. simpl. exists m. simpl in Hlo, Hhi. auto.
    + intros. now apply IHr.
    + unfold within. destruct hi; auto. lia.
  - apply IHr in H. destruct H as (s1 & H1 & H). simpl in H.
    exists (St (bef s1) (aft s1) ((n, (length b, length (bef s1))) :: cap s1)).
    split; [|exact H]. simpl. exists s1. split; [exact H1|].
    unfold pos_of. reflexivity.
  - destruct (at_bol multiline b) eqn:E; [|discriminate].
    exists (St b a c). simpl. auto.
  - destruct (at_eol multiline a) eqn:E; [|discriminate].
    exists (St b a c). simpl. auto.
  - destruct (at_wordb b a) eqn:E; [|discriminate].
    exists (St b a c). simpl. auto.
  - destruct (go r b a c (fun _ _ _ => Some tt)) eqn:E; [|discriminate].
    apply IHr in E. destruct E as (s1 & H1 & _).
    exists (St b a c). simpl. split; [|exact H]. split; [eauto|reflexivity].
  - destruct (behind_ok (rev ps) b) eqn:E; [|discriminate].
    exists (St b a c). simpl. auto.
Qed.

Theorem go_complete : forall r R b a c s' (k : cont R) x,
  Matches r (St b a c) s' -> k (bef s') (aft s') (cap s') = Some x ->
  exists y, go r b a c k = Some y.
Proof.
  induction r; intros R b a c s' k x HM Hk; simpl in HM; simpl.
  - subst s'. eauto.
  - destruct HM as (y & a' & Ha & Hp & ->). simpl in Ha. subst a.
    rewrite Hp. eauto.
  - destruct HM as (s1 & H1 & H2). destruct s1 as [b1 a1 c1].
    destruct (IHr2 R b1 a1 c1 s' k x H2 Hk) as (y & Hy).
    eapply IHr1; [exact H1|]. simpl. exact Hy.
  - destruct HM as [H1|H2].
    + destruct (IHr1 R b a c s' k x H1 Hk) as (y & Hy). rewrite Hy. eauto.
    + destruct (go r1 b a c k); [eauto|]. eapply IHr2; eauto.
  - destruct HM as (n & Hlo & Hhi & Hit).
    eapply rep_loop_complete with (P := Matches r); eauto.
  - destruct HM as (s1 & H1 & ->). simpl in Hk.
    eapply IHr; [exact H1|]. simpl. unfold pos_of in Hk. simpl in Hk. exact Hk.
  - destruct HM as (E & ->). simpl in *. rewrite E. eauto.
  - destruct HM as (E & ->). simpl in *. rewrite E. eauto.
  - destruct HM as (E & ->). simpl in *. rewrite E. eauto.
  - destruct HM as ((s1 & H1) & ->). simpl in *.
    destruct (IHr unit b a c s1 (fun _ _ _ => Some tt) tt H1 eq_refl) as (y & Hy).
    rewrite Hy. eauto.
  - destruct HM as (E & ->). simpl in *. rewrite E. eauto.
Qed.

Lemma consumes_refl : forall s, consumes s s [].
Proof. intros s. split; reflexivity. Qed.

Lemma consumes_trans : forall s1 s2 s3 m1 m2,
  consumes s1 s2 m1 -> consumes s2 s3 m2 -> consumes s1 s3 (m1 ++ m2).
Proof.
  intros s1 s2 s3 m1 m2 [H1 H2] [H3 H4]. split.
  - rewrite H1, H3. now rewrite app_assoc.
  - rewrite H4, H2, rev_app_distr. now rewrite app_assoc.
Qed.

Lemma Matches_consumes : forall r s s',
  Matches r s s' -> exists mid, consumes s s' mid.
Proof.
  induction r; intros s s' H; simpl in H;
    try (destruct H as (_ & ->); exists []; apply consumes_refl).
  - subst. exists []. apply consumes_refl.
  - destruct H as (x & a' & Ha & _ & ->). exists [x]. split; simpl; auto.
  - destruct H as (s1 & H1 & H2).
    apply IHr1 in H1. apply IHr2 in H2.
    destruct H1 as (m1 & H1). destruct H2 as (m2 & H2).
    exists (m1 ++ m2). eapply consumes_trans; eauto.
  - destruct H as [H|H]; eauto.
  - destruct H as (n & _ & _ & Hit). revert s Hit.
    induction n as [|n IHn]; intros s Hit; simpl in Hit.
    + subst. exists []. apply consumes_refl.
    + destruct Hit as (s1 & (H1 & _) & Hit).
      apply IHr in H1. destruct H1 as (m1 & H1).
      apply IHn in Hit. destruct Hit as (m2 & H2).
      exists (m1 ++ m2). eapply consumes_trans; eauto.
  - destruct H as (s1 & H1 & ->). apply IHr in H1.
    destruct H1 as (m1 & H1 & H2). exists m1. split; simpl; auto.
Qed.

Lemma consumes_text : forall s s' mid, consumes s s' mid -> text_of s' = text_of s.
Proof.
  intros s s' mid [H1 H2]. unfold text_of.
  rewrite H2, H1, rev_app_distr, rev_involutive, <- app_assoc. reflexivity.
Qed.

Lemma consumes_pos : forall s s' mid,
  consumes s s' mid -> pos_of s' = pos_of s + length mid.
Proof.
  intros s s' mid [_ H2]. unfold pos_of.
  rewrite H2, length_app, length_rev. lia.
Qed.

(** Groups are only added. *)
Lemma Matches_keeps : forall r n s s',
  Matches r s s' -> lookup n (cap s) <> None -> lookup n (cap s') <> None.
Proof.
  induction r; intros g s s' H Hc; simpl in H;
    try (destruct H as (_ & ->); exact Hc).
  - now subst.
  - destruct H as (x & a' & _ & _ & ->). exact Hc.
  - destruct H as (s1 & H1 & H2). eauto.
  - destruct H as [H|H]; eauto.
  - destruct H as (m & _ & _ & Hit). revert s Hit Hc.
    induction m as [|m IHm]; intros s Hit Hc; simpl in Hit.
    + now subst.
    + destruct Hit as (s1 & (H1 & _) & Hit). eauto.
  - destruct H as (s1 & H1 & ->). simpl.
    destruct (Nat.eqb n g); [discriminate|]. eauto.
Qed.

Lemma Matches_sets : forall r n s s',
  sets n r = true -> Matches r s s' -> lookup n (cap s') <> None.
Proof.
  induction r; intros g s s' Hs H; simpl in Hs, H; try discriminate.
  - destruct H as (s1 & H1 & H2). apply orb_true_iff in Hs.
    destruct Hs as [Hs|Hs].
    + eapply Matches_keeps; eauto.
    + eauto.
  - apply andb_true_iff in Hs. destruct Hs. destruct H; eauto.
  - apply andb_true_iff in Hs. destruct Hs as [Hlo Hs].
    assert (1 <= lo) by (destruct lo; [discriminate|lia]).
    destruct H as (m & Hm & _ & Hit).
    destruct m as [|m]; [lia|]. simpl in Hit.
    destruct Hit as (s1 & (H1 & _) & Hit).
    assert (H2 : lookup g (cap s1) <> None) by eauto.
    clear - Hit H2. revert s1 Hit H2.
    induction m as [|m IHm]; intros s1 Hit H2; simpl in Hit.
    + now subst.
    + destruct Hit as (s2 & (H1 & _) & Hit).
      eapply IHm; eauto. eapply Matches_keeps; eauto.
  - destruct H as (s1 & H1 & ->). simpl.
    destruct (Nat.eqb n g) eqn:E; [discriminate|].
    simpl in Hs. eauto.
Qed.

(** *** [match_here], [search] and [finditer] *)

Lemma match_here_Some : forall r b a m,
  match_here r b a = Some m ->
  exists s', Matches r (St b a []) s' /\
             m = {| m_start := length b; m_end := pos_of s'; m_caps := cap s' |}.
Proof.
  intros r b a m H. unfold match_here in H.
  apply go_sound in H. destruct H as (s' & HM & H).
  exists s'. split; [exact HM|]. now inversion H.
Qed.

Lemma match_here_None : forall r b a,
  match_here r b a = None -> forall s', ~ Matches r (St b a []) s'.
Proof.
  intros r b a H s' HM. unfold match_here in H.
  destruct (@go_complete r _ b a [] s'
              (fun b' _ c => Some {| m_start := length b; m_end := length b';
                                     m_caps := c |}) _ HM eq_refl) as (y & Hy).
  rewrite H in Hy. discriminate.
Qed.

Lemma match_here_matches_at : forall r b a m,
  match_here r b a = Some m ->
  matches_at r (rev b ++ a) (m_start m) (m_end m) (m_caps m)
  /\ m_start m = length b /\ m_start m <= m_end m <= length b + length a.
Proof.
  intros r b a m H. apply match_here_Some in H.
  destruct H as (s' & HM & ->). simpl.
  destruct (Matches_consumes _ _ _ HM) as (mid & Hc).
  pose proof (consumes_pos Hc) as Hp. simpl in Hp. unfold pos_of in Hp. simpl in Hp.
  destruct Hc as [Hc1 Hc2]. simpl in Hc1, Hc2.
  repeat split.
  - exists b, a, (bef s'), (aft s'). repeat split. destruct s'; exact HM.
  - unfold pos_of. lia.
  - unfold pos_of. rewrite Hp, Hc1, length_app. lia.
Qed.

(** The result of a search: a match at the first position that has one. *)
Lemma search_from_Some : forall r a b m,
  search_from r b a = Some m ->
  exists pre post,
    a = pre ++ post /\ match_here r (rev pre ++ b) post = Some m /\
    (forall p1 p2, pre = p1 ++ p2 -> p2 <> [] ->
                   match_here r (rev p1 ++ b) (p2 ++ post) = None).
Proof.
  intros r a. induction a as [|x a IH]; intros b m H; simpl in H.
  - destruct (match_here r b []) eqn:E; [|discriminate].
    inversion H; subst. exists [], []. repeat split; auto.
    intros p1 p2 Hp Hn. destruct p1; destruct p2; try discriminate. congruence.
  - destruct (match_here r b (x :: a)) eqn:E.
    + inversion H; subst. exists [], (x :: a). repeat split; auto.
      intros p1 p2 Hp Hn. destruct p1; destruct p2; try discriminate. congruence.
    + apply IH in H. destruct H as (pre & post & -> & Hm & Hearlier).
      exists (x :: pre), post. repeat split.
      * simpl. rewrite <- app_assoc. exact Hm.
      * intros p1 p2 Hp Hn. destruct p1 as [|y p1]; simpl in Hp.
        -- subst p2. simpl. exact E.
        -- inversion Hp; subst. simpl. rewrite <- app_assoc. simpl.
           apply Hearlier; auto.
Qed.

Lemma search_from_None : forall r a b,
  search_from r b a = None ->
  forall pre post, a = pre ++ post -> match_here r (rev pre ++ b) post = None.
Proof.
  intros r a. induction a as [|x a IH]; intros b H pre post Hp; simpl in H.
  - destruct (match_here r b []) eqn:E; [discriminate|].
    destruct pre; destruct post; try discriminate. exact E.
  - destruct (match_here r b (x :: a)) eqn:E; [discriminate|].
    destruct pre as [|y pre]; simpl in Hp.
    + subst post. exact E.
    + inversion Hp; subst. simpl. rewrite <- app_assoc. simpl. now apply IH.
Qed.

Lemma advance_spec : forall n b a,
  advance n b a = (rev (firstn n a) ++ b, skipn n a).
Proof.
  induction n as [|n IH]; intros b a; simpl.
  - destruct a; reflexivity.
  - destruct a as [|x a]; [reflexivity|]. rewrite IH. simpl.
    now rewrite <- app_assoc.
Qed.

(** The matches of [finditer]: each is a match of the text, they come in
    order and do not overlap. *)
Lemma chain_weaken : forall ms from from' upto,
  chain from ms upto -> from' <= from -> chain from' ms upto.
Proof.
  destruct ms as [|m ms]; simpl; intros; [lia|]. intuition lia.
Qed.

Lemma chain_bound : forall ms from upto, chain from ms upto -> from <= upto.
Proof.
  induction ms as [|m ms IH]; simpl; intros from upto H; [exact H|].
  destruct H as (H1 & H2 & H3). apply IH in H3. lia.
Qed.

Lemma finditer_from_spec : forall r budget b a,
  let ms := finditer_from budget r b a in
  Forall (fun m => matches_at r (rev b ++ a) (m_start m) (m_end m) (m_caps m)) ms
  /\ chain (length b) ms (length b + length a).
Proof.
  intros r. induction budget as [|budget IH]; intros b a; simpl.
  - split; [constructor|simpl; lia].
  - destruct (search_from r b a) as [m|] eqn:E; [|split; [constructor|simpl; lia]].
    apply search_from_Some in E. destruct E as (pre & post & -> & Hm & _).
    apply match_here_matches_at in Hm.
    destruct Hm as (Hat & Hs & Hle).
    rewrite length_app, length_rev in Hs, Hle.
    assert (Htext : rev (rev pre ++ b) ++ post = rev b ++ pre ++ post).
    { rewrite rev_app_distr, rev_involutive, <- app_assoc. reflexivity. }
    rewrite Htext in Hat.
    rewrite advance_spec.
    set (step := Nat.max (m_end m) (S (m_start m)) - length b).
    destruct (length (pre ++ post) <? step) eqn:El.
    + split; [constructor; [exact Hat|constructor]|].
      simpl. rewrite length_app in *. lia.
    + apply Nat.ltb_ge in El.
      specialize (IH (rev (firstn step (pre ++ post)) ++ b) (skipn step (pre ++ post))).
      simpl in IH. destruct IH as [IH1 IH2].
      assert (Htext2 : rev (rev (firstn step (pre ++ post)) ++ b)
                         ++ skipn step (pre ++ post) = rev b ++ pre ++ post).
      { rewrite rev_app_distr, rev_involutive, <- app_assoc.
        now rewrite firstn_skipn. }
      rewrite Htext2 in IH1.
      split; [constructor; assumption|].
      simpl. repeat split; try lia.
      rewrite length_app, length_rev, length_firstn, length_skipn in IH2.
      rewrite Nat.min_l in IH2 by lia.
      replace (step + length b + (length (pre ++ post) - step))
        with (length b + length (pre ++ post)) in IH2 by lia.
      eapply chain_weaken; [exact IH2|]. unfold step. lia.
Qed.

End ReFacts.

(** ** Strings: equality and membership *)

Module PyFacts.

Lemma eqb_eq : forall s t, Py.eqb s t = true <-> s = t.
Proof.
  induction s as [|a s IH]; destruct t as [|b t]; simpl; split; intros H;
    try discriminate; try reflexivity.
  - apply andb_true_iff in H. destruct H as [H1 H2].
    apply N.eqb_eq in H1. apply IH in H2. congruence.
  - inversion H; subst. rewrite N.eqb_refl. simpl. now apply IH.
Qed.

Lemma eqb_refl : forall s, Py.eqb s s = true.
Proof. intros s. now apply eqb_eq. Qed.

Lemma eqb_neq : forall s t, Py.eqb s t = false <-> s <> t.
Proof.
  intros s t. split; intros H.
  - intros E. apply eqb_eq in E. congruence.
  - destruct (Py.eqb s t) eqn:E; [|reflexivity]. apply eqb_eq in E. contradiction.
Qed.

Lemma mem_In : forall x xs, Py.mem x xs = true <-> In x xs.
Proof.
  intros x xs. unfold Py.mem. rewrite existsb_exists. split.
  - intros (y & Hy & E). apply eqb_eq in E. now subst.
  - intros H. exists x. split; [exact H|apply eqb_refl].
Qed.

End PyFacts.

(** ** Deduplication keeps the first row of every key *)

Section Dedup.
Import Borme.
Variables A K : Type.
Variable key_eqb : K -> K -> bool.
Variable key : A -> K.
Hypothesis key_eqb_eq : forall k l, key_eqb k l = true <-> k = l.

Lemma seen_In : forall k seen, existsb (key_eqb k) seen = true <-> In k seen.
Proof.
  intros k seen. rewrite existsb_exists. split.
  - intros (l & Hl & E). apply key_eqb_eq in E. now subst.
  - intros H. exists k. split; [exact H|now apply key_eqb_eq].
Qed.

Lemma seen_not_In : forall k seen, existsb (key_eqb k) seen = false <-> ~ In k seen.
Proof.
  intros k seen. rewrite <- seen_In. destruct (existsb (key_eqb k) seen); split;
    intros H; try discriminate; try reflexivity; try congruence.
Qed.

(** Only the membership in [seen] matters. *)
Lemma ddf_ext : forall rows seen seen',
  (forall k, In k seen <-> In k seen') ->
  drop_duplicates_from key_eqb key seen rows
  = drop_duplicates_from key_eqb key seen' rows.
Proof.
  induction rows as [|r rows IH]; intros seen seen' H; simpl; [reflexivity|].
  destruct (existsb (key_eqb (key r)) seen) eqn:E.
  - apply seen_In in E. apply H in E. apply seen_In in E. rewrite E. now apply IH.
  - assert (E' : existsb (key_eqb (key r)) seen' = false).
    { apply seen_not_In. apply seen_not_In in E. now rewrite <- H. }
    rewrite E'. f_equal. apply IH. intros k. simpl. now rewrite H.
Qed.

Lemma ddf_all_seen : forall rows seen,
  (forall r, In r rows -> In (key r) seen) ->
  drop_duplicates_from key_eqb key seen rows = [].
Proof.
  induction rows as [|r rows IH]; intros seen H; simpl; [reflexivity|].
  assert (E : existsb (key_eqb (key r)) seen = true).
  { apply seen_In. apply H. now left. }
  rewrite E. apply IH. intros r' Hr'. apply H. now right.
Qed.

Lemma ddf_app : forall l1 l2 seen,
  drop_duplicates_from key_eqb key seen (l1 ++ l2)
  = drop_duplicates_from key_eqb key seen l1
    ++ drop_duplicates_from key_eqb key (map key l1 ++ seen) l2.
Proof.
  induction l1 as [|r l1 IH]; intros l2 seen; simpl; [reflexivity|].
  destruct (existsb (key_eqb (key r)) seen) eqn:E.
  - rewrite IH. f_equal. apply ddf_ext. intros k. simpl.
    rewrite !in_app_iff. apply seen_In in E. intuition (subst; auto).
  - simpl. rewrite IH. f_equal. f_equal. apply ddf_ext. intros k. simpl.
    rewrite !in_app_iff. simpl. intuition.
Qed.

(** The rows kept: those whose key was neither seen nor carried by an
    earlier row. *)
Lemma ddf_In : forall rows seen r,
  In r (drop_duplicates_from key_eqb key seen rows) ->
  ~ In (key r) seen /\
  exists pre post, rows = pre ++ r :: post /\ ~ In (key r) (map key pre).
Proof.
  induction rows as [|r0 rows IH]; intros seen r H; simpl in H; [contradiction|].
  destruct (existsb (key_eqb (key r0)) seen) eqn:E.
  - apply IH in H. destruct H as (Hs & pre & post & -> & Hpre).
    split; [exact Hs|]. exists (r0 :: pre), post. split; [reflexivity|].
    simpl. intros [H|H]; [|contradiction].
    apply seen_In in E. rewrite H in E. contradiction.
  - destruct H as [->|H].
    + split; [now apply seen_not_In|]. exists [], rows. split; [reflexivity|].
      simpl. tauto.
    + apply IH in H. destruct H as (Hs & pre & post & -> & Hpre).
      simpl in Hs. split; [tauto|].
      exists (r0 :: pre), post. split; [reflexivity|]. simpl. tauto.
Qed.

Lemma ddf_keys : forall rows seen k,
  In k (map key rows) -> ~ In k seen ->
  In k (map key (drop_duplicates_from key_eqb key seen rows)).
Proof.
  induction rows as [|r rows IH]; intros seen k H Hs; simpl in *; [contradiction|].
  destruct (existsb (key_eqb (key r)) seen) eqn:E.
  - apply seen_In in E. destruct H as [H|H]; [congruence|]. now apply IH.
  - simpl. destruct (key_eqb (key r) k) eqn:Ek.
    + apply key_eqb_eq in Ek. now left.
    + right. destruct H as [H|H].
      * apply key_eqb_eq in H. congruence.
      * apply IH; [exact H|]. simpl. intros [H'|H']; [|contradiction].
        apply key_eqb_eq in H'. congruence.
Qed.

Lemma ddf_NoDup : forall rows seen,
  NoDup (map key (drop_duplicates_from key_eqb key seen rows)).
Proof.
  induction rows as [|r rows IH]; intros seen; simpl; [constructor|].
  destruct (existsb (key_eqb (key r)) seen) eqn:E; [apply IH|].
  simpl. constructor; [|apply IH].
  intros H. apply in_map_iff in H. destruct H as (r' & Hk & H).
  apply ddf_In in H. destruct H as (Hs & _). apply Hs. simpl. now left.
Qed.

Lemma ddf_fixed : forall rows seen,
  NoDup (map key rows) -> (forall r, In r rows -> ~ In (key r) seen) ->
  drop_duplicates_from key_eqb key seen rows = rows.
Proof.
  induction rows as [|r rows IH]; intros seen Hnd Hs; simpl; [reflexivity|].
  simpl in Hnd. inversion Hnd as [|? ? Hr Hnd']; subst.
  assert (E : existsb (key_eqb (key r)) seen = false).
  { apply seen_not_In. apply Hs. now left. }
  rewrite E. f_equal. apply IH; [exact Hnd'|].
  intros r' Hr' [H|H].
  - apply Hr. rewrite H. now apply in_map.
  - eapply Hs; [right; exact Hr'|exact H].
Qed.

(** One more row at the end: it is kept when no row before it has its
    key, and dropped otherwise. *)
Lemma drop_duplicates_snoc : forall rows r,
  drop_duplicates key_eqb key (rows ++ [r])
  = drop_duplicates key_eqb key rows
    ++ (if existsb (fun r0 => key_eqb (key r0) (key r)) rows then [] else [r]).
Proof.
  intros rows r. unfold drop_duplicates. rewrite ddf_app. f_equal.
  rewrite app_nil_r. cbn [drop_duplicates_from].
  assert (E : existsb (key_eqb (key r)) (map key rows)
              = existsb (fun r0 => key_eqb (key r0) (key r)) rows).
  { induction rows as [|r0 rows IH]; [reflexivity|]. cbn [map existsb]. rewrite IH.
    f_equal. destruct (key_eqb (key r) (key r0)) eqn:E1;
      destruct (key_eqb (key r0) (key r)) eqn:E2; try reflexivity.
    - apply key_eqb_eq in E1. symmetry in E1. apply key_eqb_eq in E1. congruence.
    - apply key_eqb_eq in E2. symmetry in E2. apply key_eqb_eq in E2. congruence. }
  rewrite E. destruct (existsb _ rows); reflexivity.
Qed.

Theorem drop_duplicates_first_wins : forall rows,
  let kept := drop_duplicates key_eqb key rows in
  NoDup (map key kept)
  /\ (forall k, In k (map key rows) <-> In k (map key kept))
  /\ (forall r, In r kept ->
        exists pre post, rows = pre ++ r :: post /\ ~ In (key r) (map key pre))
  /\ drop_duplicates key_eqb key (rows ++ rows) = kept
  /\ drop_duplicates key_eqb key kept = kept.
Proof.
  intros rows kept. unfold kept, drop_duplicates. repeat split.
  - apply ddf_NoDup.
  - intros H. apply ddf_keys; [exact H|]. simpl. tauto.
  - intros H. apply in_map_iff in H. destruct H as (r & <- & H).
    apply ddf_In in H. destruct H as (_ & pre & post & -> & _).
    rewrite map_app. simpl. apply in_or_app. right. now left.
  - intros r H. apply ddf_In in H. tauto.
  - rewrite ddf_app. rewrite (@ddf_all_seen rows (map key rows ++ [])).
    + apply app_nil_r.
    + intros r H. apply in_or_app. left. now apply in_map.
  - apply ddf_fixed; [apply ddf_NoDup|]. intros r _ H. exact H.
Qed.
End Dedup.

(** ** C6: aggregation *)

Module DedupFacts.
Import Borme.

Lemma date_eqb_eq : forall d e, date_eqb d e = true <-> d = e.
Proof.
  intros [x|] [y|]; simpl; split; intros H; try discriminate; try reflexivity.
  - apply Z.eqb_eq in H. now subst.
  - inversion H. apply Z.eqb_refl.
Qed.

Lemma empresa_key_eqb_eq : forall k l, empresa_key_eqb k l = true <-> k = l.
Proof.
  intros [[d n] e] [[d' n'] e']. unfold empresa_key_eqb.
  rewrite !andb_true_iff, date_eqb_eq, !PyFacts.eqb_eq.
  split; [intros [[-> ->] ->]; reflexivity|intros H; inversion H; auto].
Qed.

Lemma cargo_key_eqb_eq : forall k l, cargo_key_eqb k l = true <-> k = l.
Proof.
  intros [[[[d n] c] p] t] [[[[d' n'] c'] p'] t']. unfold cargo_key_eqb.
  rewrite !andb_true_iff, date_eqb_eq, !PyFacts.eqb_eq.
  split; [intros [[[[-> ->] ->] ->] ->]; reflexivity|intros H; inversion H; auto].
Qed.

Lemma run_pending_app : forall open_pdf l1 l2 st,
  run_pending open_pdf (l1 ++ l2) st = run_pending open_pdf l2 (run_pending open_pdf l1 st).
Proof. intros. unfold run_pending. apply fold_left_app. Qed.

(** The rows of a batch state after a document was processed. *)
Lemma collect_rows : forall open_pdf p st,
  let res := _process_one open_pdf p in
  all_empresas (collect st res) = all_empresas st ++ fst (fst (fst res))
  /\ all_cargos (collect st res) = all_cargos st ++ snd (fst (fst res)).
Proof.
  intros open_pdf p st. unfold _process_one.
  destruct (snd (parse_single_pdf open_pdf p)) as [[e c]|e]; simpl.
  - auto.
  - now rewrite !app_nil_r.
Qed.
End DedupFacts.

(** C6. Aggregation keeps the first row of every natural key and is
    idempotent.  Two company rows have the same key when their bulletin
    dates (as [to_datetime] reads them), their entry numbers and their
    normalized names agree; two officer rows when their bulletin dates, entry
    numbers, roles, persons and action types agree.  No row is kept of an
    empty input, and a row added at the end of the input is kept exactly when
    no row before it has its key, after the rows kept before.  So the rows
    kept carry pairwise distinct keys, every key of the input is still there,
    each row kept is the first of the input with its key, feeding the same
    rows twice keeps exactly what feeding them once keeps, and so does
    processing the same document twice in a batch. *)
Theorem aggregation_first_occurrence_wins :
  forall (to_datetime : pystr -> option Z)
         (e_rows : list Borme.empresa_row) (c_rows : list Borme.cargo_row),
    let ekey := fun r : Borme.empresa_row =>
                  (to_datetime (Borme.fecha_borme r), Borme.num_entrada r,
                   Borme.empresa_norm r) in
    let ckey := fun c : Borme.cargo_row =>
                  (to_datetime (Borme.c_fecha_borme c), Borme.c_num_entrada c,
                   Borme.cargo c, Borme.persona c, Borme.tipo_acto c) in
    let es := Borme.dedup_empresas to_datetime e_rows in
    let cs := Borme.dedup_cargos to_datetime c_rows in
    (Borme.dedup_empresas to_datetime [] = []
     /\ Borme.dedup_cargos to_datetime [] = [])
    /\ (forall r,
          ((exists r0, In r0 e_rows /\ ekey r0 = ekey r) ->
           Borme.dedup_empresas to_datetime (e_rows ++ [r]) = es)
          /\ ((forall r0, In r0 e_rows -> ekey r0 <> ekey r) ->
              Borme.dedup_empresas to_datetime (e_rows ++ [r]) = es ++ [r]))
    /\ (forall c,
          ((exists c0, In c0 c_rows /\ ckey c0 = ckey c) ->
           Borme.dedup_cargos to_datetime (c_rows ++ [c]) = cs)
          /\ ((forall c0, In c0 c_rows -> ckey c0 <> ckey c) ->
              Borme.dedup_cargos to_datetime (c_rows ++ [c]) = cs ++ [c]))
    /\ (NoDup (map ekey es) /\ NoDup (map ckey cs))
    /\ (forall k, In k (map ekey e_rows) <-> In k (map ekey es))
    /\ (forall k, In k (map ckey c_rows) <-> In k (map ckey cs))
    /\ (forall r, In r es ->
          exists pre post, e_rows = pre ++ r :: post /\ ~ In (ekey r) (map ekey pre))
    /\ (forall r, In r cs ->
          exists pre post, c_rows = pre ++ r :: post /\ ~ In (ckey r) (map ckey pre))
    /\ Borme.dedup_empresas to_datetime (e_rows ++ e_rows) = es
    /\ Borme.dedup_cargos to_datetime (c_rows ++ c_rows) = cs
    /\ Borme.dedup_empresas to_datetime es = es
    /\ Borme.dedup_cargos to_datetime cs = cs
    /\ (forall open_pdf p done,
          let once := Borme.run_pending open_pdf [p] (Borme.start_state done) in
          let twice := Borme.run_pending open_pdf [p; p] (Borme.start_state done) in
          Borme.dedup_empresas to_datetime (Borme.all_empresas twice)
          = Borme.dedup_empresas to_datetime (Borme.all_empresas once)
          /\ Borme.dedup_cargos to_datetime (Borme.all_cargos twice)
             = Borme.dedup_cargos to_datetime (Borme.all_cargos once)).
Proof.
  intros to_datetime e_rows c_rows ekey ckey es cs.
  pose proof (@drop_duplicates_first_wins _ _ _ ekey DedupFacts.empresa_key_eqb_eq) as HE.
  pose proof (@drop_duplicates_first_wins _ _ _ ckey DedupFacts.cargo_key_eqb_eq) as HC.
  pose proof (@drop_duplicates_snoc _ _ _ ekey DedupFacts.empresa_key_eqb_eq e_rows) as SE.
  pose proof (@drop_duplicates_snoc _ _ _ ckey DedupFacts.cargo_key_eqb_eq c_rows) as SC.
  destruct (HE e_rows) as (E1 & E2 & E3 & E4 & E5).
  destruct (HC c_rows) as (C1 & C2 & C3 & C4 & C5).
  split; [split; reflexivity|].
  split.
  { intros r. specialize (SE r). split.
    - intros (r0 & Hin & Hk).
      assert (E : existsb (fun r0 => Borme.empresa_key_eqb (ekey r0) (ekey r)) e_rows = true).
      { apply existsb_exists. exists r0. split; [exact Hin|].
        now apply DedupFacts.empresa_key_eqb_eq. }
      rewrite E, app_nil_r in SE. exact SE.
    - intros Hno.
      assert (E : existsb (fun r0 => Borme.empresa_key_eqb (ekey r0) (ekey r)) e_rows = false).
      { destruct (existsb _ e_rows) eqn:E; [|reflexivity].
        apply existsb_exists in E. destruct E as (r0 & Hin & Hk).
        apply DedupFacts.empresa_key_eqb_eq in Hk. destruct (Hno r0 Hin Hk). }
      rewrite E in SE. exact SE. }
  split.
  { intros c. specialize (SC c). split.
    - intros (c0 & Hin & Hk).
      assert (E : existsb (fun c0 => Borme.cargo_key_eqb (ckey c0) (ckey c)) c_rows = true).
      { apply existsb_exists. exists c0. split; [exact Hin|].
        now apply DedupFacts.cargo_key_eqb_eq. }
      rewrite E, app_nil_r in SC. exact SC.
    - intros Hno.
      assert (E : existsb (fun c0 => Borme.cargo_key_eqb (ckey c0) (ckey c)) c_rows = false).
      { destruct (existsb _ c_rows) eqn:E; [|reflexivity].
        apply existsb_exists in E. destruct E as (c0 & Hin & Hk).
        apply DedupFacts.cargo_key_eqb_eq in Hk. destruct (Hno c0 Hin Hk). }
      rewrite E in SC. exact SC. }
  split; [split; assumption|].
  split; [exact E2|]. split; [exact C2|]. split; [exact E3|]. split; [exact C3|].
  split; [exact E4|]. split; [exact C4|]. split; [exact E5|]. split; [exact C5|].
  intros open_pdf p done once twice. split.
  - unfold once, twice, Borme.run_pending. simpl.
    destruct (DedupFacts.collect_rows open_pdf p (Borme.start_state done)) as [H1 _].
    destruct (DedupFacts.collect_rows open_pdf p
                (Borme.collect (Borme.start_state done) (Borme._process_one open_pdf p)))
      as [H2 _].
    simpl in H1, H2. rewrite H2, H1. simpl.
    apply (HE (fst (fst (fst (Borme._process_one open_pdf p))))).
  - unfold once, twice, Borme.run_pending. simpl.
    destruct (DedupFacts.collect_rows open_pdf p (Borme.start_state done)) as [_ H1].
    destruct (DedupFacts.collect_rows open_pdf p
                (Borme.collect (Borme.start_state done) (Borme._process_one open_pdf p)))
      as [_ H2].
    simpl in H1, H2. rewrite H2, H1. simpl.
    apply (HC (snd (fst (fst (Borme._process_one open_pdf p))))).
Qed.

(** ** Inversion and introduction of matches, piece by piece *)

Module ReInv.
Import Re ReSem ReFacts.

Lemma M_chr : forall p b a c v,
  Matches (Chr p) (St b a c) v <->
  exists x a', a = x :: a' /\ p x = true /\ v = St (x :: b) a' c.
Proof. intros. simpl. reflexivity. Qed.

Lemma M_seq : forall r1 r2 u v,
  Matches (Seq r1 r2) u v <-> exists s1, Matches r1 u s1 /\ Matches r2 s1 v.
Proof. intros. simpl. reflexivity. Qed.

Lemma M_seq_cons : forall r1 r2 rs u v,
  Matches (seq (r1 :: r2 :: rs)) u v <->
  exists s1, Matches r1 u s1 /\ Matches (seq (r2 :: rs)) s1 v.
Proof. intros. simpl. reflexivity. Qed.

Lemma M_seq_one : forall r u v, Matches (seq [r]) u v <-> Matches r u v.
Proof. intros. simpl. reflexivity. Qed.

Lemma M_group : forall n r b a c v,
  Matches (Group n r) (St b a c) v <->
  exists s1, Matches r (St b a c) s1 /\
             v = St (bef s1) (aft s1) ((n, (length b, pos_of s1)) :: cap s1).
Proof. intros. simpl. reflexivity. Qed.

Lemma M_chars : forall mk s b a c v,
  Matches (chars mk s) (St b a c) v <->
  exists mid a', a = mid ++ a' /\ v = St (rev mid ++ b) a' c
                 /\ Forall2 (fun p x => mk p x = true) s mid.
Proof.
  intros mk s. induction s as [|p s IH]; intros b a c v.
  - simpl. split.
    + intros ->. exists [], a. repeat split. constructor.
    + intros (mid & a' & -> & -> & H). inversion H; subst. reflexivity.
  - assert (Hstep : Matches (chars mk (p :: s)) (St b a c) v <->
                    exists s1, Matches (Chr (mk p)) (St b a c) s1
                               /\ Matches (chars mk s) s1 v).
    { destruct s as [|q s]; [|reflexivity].
      change (chars mk [p]) with (Chr (mk p)). change (chars mk []) with Eps.
      split.
      - intros H. exists v. split; [exact H|reflexivity].
      - intros (s1 & H & E). simpl in E. subst v. exact H. }
    rewrite Hstep. split.
    + intros (s1 & H1 & H2).
      destruct H1 as (x & a1 & Ha & Hp & Hs). simpl in Ha, Hs. subst a s1.
      apply IH in H2. destruct H2 as (mid & a' & -> & -> & HF).
      exists (x :: mid), a'. simpl. rewrite <- app_assoc. repeat split.
      now constructor.
    + intros (mid & a' & -> & -> & HF). inversion HF as [|? x ? mid' Hp HF']; subst.
      exists (St (x :: b) (mid' ++ a') c). split.
      * exists x, (mid' ++ a'). auto.
      * apply IH. exists mid', a'. simpl. rewrite <- app_assoc. auto.
Qed.

Lemma Forall2_eqb : forall s mid,
  Forall2 (fun p x => N.eqb p x = true) s mid <-> mid = s.
Proof.
  induction s as [|p s IH]; intros mid; split; intros H.
  - now inversion H.
  - subst. constructor.
  - inversion H; subst. apply N.eqb_eq in H2. subst. f_equal. now apply IH.
  - subst. constructor; [apply N.eqb_refl|now apply IH].
Qed.

Lemma M_lit : forall str b a c v,
  Matches (lit str) (St b a c) v <->
  exists a', a = py str ++ a' /\ v = St (rev (py str) ++ b) a' c.
Proof.
  intros. unfold lit. rewrite M_chars. split.
  - intros (mid & a' & -> & -> & H). apply Forall2_eqb in H. subst. eauto.
  - intros (a' & -> & ->). exists (py str), a'. repeat split. now apply Forall2_eqb.
Qed.

Lemma iter_chr : forall p n b a c v,
  iter (fun u v => Matches (Chr p) u v /\ length (aft v) < length (aft u)) n (St b a c) v <->
  exists mid a', a = mid ++ a' /\ v = St (rev mid ++ b) a' c
                 /\ Forall (fun x => p x = true) mid /\ length mid = n.
Proof.
  intros p. induction n as [|n IH]; intros b a c v; simpl.
  - split.
    + intros ->. exists [], a. repeat split. constructor.
    + intros (mid & a' & -> & -> & _ & H). destruct mid; [reflexivity|discriminate].
  - split.
    + intros (s1 & (H1 & _) & H2).
      destruct H1 as (x & a1 & Ha & Hp & ->). simpl in Ha. subst a.
      apply IH in H2. destruct H2 as (mid & a' & -> & -> & HF & Hn).
      exists (x :: mid), a'. simpl. rewrite <- app_assoc. repeat split; auto.
    + intros (mid & a' & -> & -> & HF & Hn).
      destruct mid as [|x mid]; [discriminate|]. inversion HF; subst.
      exists (St (x :: b) (mid ++ a') c). split; [split|].
      * exists x, (mid ++ a'). auto.
      * simpl. lia.
      * apply IH. exists mid, a'. simpl. rewrite <- app_assoc.
        repeat split; auto.
Qed.

Lemma M_rep_chr : forall g lo hi p b a c v,
  Matches (Rep g lo hi (Chr p)) (St b a c) v <->
  exists mid a', a = mid ++ a' /\ v = St (rev mid ++ b) a' c
                 /\ Forall (fun x => p x = true) mid
                 /\ lo <= length mid /\ within (length mid) hi.
Proof.
  intros. split.
  - intros (n & Hlo & Hhi & Hit). apply iter_chr in Hit.
    destruct Hit as (mid & a' & -> & -> & HF & <-). exists mid, a'. auto.
  - intros (mid & a' & -> & -> & HF & Hlo & Hhi).
    exists (length mid). repeat split; auto. apply iter_chr. exists mid, a'. auto.
Qed.

(** Group text: the slice between two offsets of a text cut in three. *)
Lemma slice_app : forall (pre mid post : pystr) i j,
  i = length pre -> j = length pre + length mid ->
  Py.slice i j (pre ++ mid ++ post) = mid.
Proof.
  intros pre mid post i j -> ->. unfold Py.slice.
  rewrite skipn_app, skipn_all, Nat.sub_diag. simpl.
  replace (length pre + length mid - length pre) with (length mid) by lia.
  rewrite firstn_app, firstn_all, Nat.sub_diag. simpl. apply app_nil_r.
Qed.

Ltac norm := unfold pos_of in *; cbn [bef aft cap] in *.
Ltac peel H s :=
  apply M_seq_cons in H; destruct H as (s & ? & H).
Ltac inv_lit H :=
  let a := fresh "a" in let Ha := fresh "Ha" in let Hs := fresh "Hs" in
  apply M_lit in H; destruct H as (a & Ha & Hs); norm; subst; norm.
Ltac inv_chr H x Hx :=
  let a := fresh "a" in let Ha := fresh "Ha" in let Hs := fresh "Hs" in
  apply M_chr in H; destruct H as (x & a & Ha & Hx & Hs); norm; subst; norm.
Ltac inv_rep H mid HF Hlo Hhi :=
  let a := fresh "a" in let Ha := fresh "Ha" in let Hs := fresh "Hs" in
  apply M_rep_chr in H; destruct H as (mid & a & Ha & Hs & HF & Hlo & Hhi);
  norm; subst; norm.
Ltac inv_group H :=
  let t := fresh "t" in let Hs := fresh "Hs" in
  apply M_group in H; destruct H as (t & H & Hs); norm.

Lemma slice_mid : forall (pre mid post text : pystr) i j,
  text = pre ++ mid ++ post -> i = length pre -> j = length pre + length mid ->
  Py.slice i j text = mid.
Proof. intros; subst text. now apply slice_app. Qed.

Ltac slice_with p q :=
  apply slice_mid with (pre := p) (post := q);
  [ repeat (rewrite <- app_assoc; simpl); reflexivity
  | repeat (rewrite ?length_app, ?length_rev; simpl); lia
  | repeat (rewrite ?length_app, ?length_rev; simpl); lia ].

Lemma match_here_exists : forall r b a s',
  Matches r (St b a []) s' -> exists m, match_here r b a = Some m.
Proof.
  intros r b a s' HM. destruct (match_here r b a) eqn:E; [eauto|].
  exfalso. eapply match_here_None; eauto.
Qed.

End ReInv.

(** ** C10: the file-name grammar *)

Module FilenameFacts.
Import Re ReSem ReFacts ReInv Borme.

Lemma filename_match_inv : forall fname bm,
  rmatch_ FILENAME_RE fname = Some bm ->
  exists letter year issue code rest,
    fname = py "BORME-" ++ [letter] ++ py "-" ++ year ++ py "-" ++ issue
               ++ py "-" ++ code ++ rest
    /\ range "A" "Z" letter = true
    /\ length year = 4 /\ Forall (fun x => digit x = true) year
    /\ issue <> [] /\ Forall (fun x => digit x = true) issue
    /\ code <> [] /\ Forall (fun x => digit x = true) code
    /\ group fname bm 1 = Some [letter]
    /\ group fname bm 2 = Some year
    /\ group fname bm 3 = Some issue
    /\ group fname bm 4 = Some code.
Proof.
  intros fname bm H. unfold rmatch_ in H. apply match_here_Some in H.
  destruct H as (s' & HM & ->). unfold FILENAME_RE in HM.
  peel HM s1. inv_lit H.
  peel HM s2. inv_group H. inv_chr H letter Hletter. 
  peel HM s3. inv_lit H.
  peel HM s4. inv_group H. inv_rep H year Hyear Hlo Hhi.
  peel HM s5. inv_lit H.
  peel HM s6. inv_group H. unfold digits, plus in H. inv_rep H issue Hissue Hlo3 Hhi3.
  peel HM s7. inv_lit H.
  apply M_seq_one in HM. inv_group HM. unfold digits, plus in HM.
  inv_rep HM code Hcode Hlo4 Hhi4.
  exists letter, year, issue, code, a0.
  split; [reflexivity|]. split; [exact Hletter|].
  split; [simpl in Hhi; lia|]. split; [exact Hyear|].
  split; [destruct issue; [simpl in Hlo3; lia|discriminate]|]. split; [exact Hissue|].
  split; [destruct code; [simpl in Hlo4; lia|discriminate]|]. split; [exact Hcode|].
  unfold group. cbn [m_caps lookup Nat.eqb].
  split; [|split; [|split]]; apply f_equal.
  - slice_with (py "BORME-") (py "-" ++ year ++ py "-" ++ issue ++ py "-" ++ code ++ a0).
  - slice_with (py "BORME-" ++ [letter] ++ py "-") (py "-" ++ issue ++ py "-" ++ code ++ a0).
  - slice_with (py "BORME-" ++ [letter] ++ py "-" ++ year ++ py "-") (py "-" ++ code ++ a0).
  - slice_with (py "BORME-" ++ [letter] ++ py "-" ++ year ++ py "-" ++ issue ++ py "-") a0.
Qed.

Lemma filename_grammar_match : forall fname,
  filename_grammar fname -> exists bm, rmatch_ FILENAME_RE fname = Some bm.
Proof.
  intros fname (letter & year & issue & code & rest & -> & Hl & Hy & HyF
                & Hi & HiF & Hc & HcF).
  unfold rmatch_. eapply match_here_exists. unfold FILENAME_RE.
  apply M_seq_cons. eexists. split.
  { apply M_lit. eexists. split; reflexivity. }
  apply M_seq_cons. eexists. split.
  { apply M_group. eexists. split; [|reflexivity].
    apply M_chr. eexists. eexists. split; [reflexivity|]. split; [exact Hl|reflexivity]. }
  norm. apply M_seq_cons. eexists. split.
  { apply M_lit. eexists. split; reflexivity. }
  apply M_seq_cons. eexists. split.
  { apply M_group. eexists. split; [|reflexivity].
    apply M_rep_chr. exists year. eexists. split; [reflexivity|].
    split; [reflexivity|]. split; [exact HyF|]. simpl. lia. }
  norm. apply M_seq_cons. eexists. split.
  { apply M_lit. eexists. split; reflexivity. }
  apply M_seq_cons. eexists. split.
  { apply M_group. eexists. split; [|reflexivity].
    apply M_rep_chr. exists issue. eexists. split; [reflexivity|].
    split; [reflexivity|]. split; [exact HiF|]. simpl.
    destruct issue; [contradiction|simpl; lia]. }
  norm. apply M_seq_cons. eexists. split.
  { apply M_lit. eexists. split; reflexivity. }
  apply M_seq_one.
  apply M_group. eexists. split; [|reflexivity].
  apply M_rep_chr. exists code. eexists. split; [reflexivity|].
  split; [reflexivity|]. split; [exact HcF|]. simpl.
  destruct code; [contradiction|simpl; lia].
Qed.

(** The file name matches the pattern exactly when it follows the grammar. *)
Lemma filename_grammar_iff : forall fname,
  (exists bm, rmatch_ FILENAME_RE fname = Some bm) <-> filename_grammar fname.
Proof.
  intros fname. split.
  - intros (bm & H). apply filename_match_inv in H.
    destruct H as (l & y & i & c & r & H). exists l, y, i, c, r. tauto.
  - apply filename_grammar_match.
Qed.

(** Decimal digits always convert. *)
Lemma digit_value_Some : forall x, digit x = true -> exists d, Unicode.digit_value x = Some d.
Proof.
  intros x H. unfold digit, Unicode.isdecimal in H.
  destruct (Unicode.digit_value x); [eauto|discriminate].
Qed.

Lemma digits_value_Some : forall s acc,
  Forall (fun x => digit x = true) s -> exists n, Py.digits_value acc s = Some n.
Proof.
  induction s as [|x s IH]; intros acc H; simpl; [eauto|].
  inversion H; subst. destruct (digit_value_Some _ H2) as (d & ->). now apply IH.
Qed.

Lemma int_exc_Ok : forall s,
  s <> [] -> Forall (fun x => digit x = true) s -> exists n, int_exc s = Ok n.
Proof.
  intros s Hn HF. unfold int_exc, Py.int.
  destruct s as [|x s]; [contradiction|].
  destruct (digits_value_Some 0%N HF) as (n & ->). eauto.
Qed.

(** Reading the header of a matching file name never raises. *)
Lemma read_header_Ok : forall pdf_path fname bm,
  rmatch_ FILENAME_RE fname = Some bm ->
  exists hdr, read_header pdf_path fname bm = Ok hdr.
Proof.
  intros pdf_path fname bm H. apply filename_match_inv in H.
  destruct H as (l & y & i & c & r & _ & _ & Hy & HyF & Hi & HiF & _ & _
                 & G1 & G2 & G3 & G4).
  unfold read_header, group_str. rewrite G1, G2, G3, G4. simpl.
  destruct (@int_exc_Ok y) as (ny & ->); [destruct y; [discriminate|congruence]|exact HyF|].
  destruct (@int_exc_Ok i) as (ni & ->); [exact Hi|exact HiF|].
  simpl. eauto.
Qed.

End FilenameFacts.

(** C10. A path whose file name does not follow the grammar
    BORME-<letter>-<4-digit year>-<issue number>-<region code> makes
    [parse_single_pdf] return two empty lists: it does not raise and it opens
    no document, whatever the reader would have delivered. *)
Theorem unmatched_filename_yields_nothing :
  forall (open_pdf : Borme.pdf_reader) (pdf_path : pystr),
    ~ Borme.filename_grammar (PosixPath.name pdf_path) ->
    Borme.parse_single_pdf open_pdf pdf_path = ([], Ok ([], [])).
Proof.
  intros open_pdf pdf_path H. unfold Borme.parse_single_pdf.
  destruct (Re.rmatch_ Borme.FILENAME_RE (PosixPath.name pdf_path)) as [bm|] eqn:E;
    [|reflexivity].
  exfalso. apply H. apply FilenameFacts.filename_grammar_iff. eauto.
Qed.

Lemma unmatched_filename_witness :
  ~ Borme.filename_grammar (PosixPath.name (py "/data/2020/01/20/sumario.pdf"))
  /\ Borme.parse_single_pdf (fun _ => Some [Some (py "1234 - ACME SL.")])
       (py "/data/2020/01/20/sumario.pdf") = ([], Ok ([], [])).
Proof.
  assert (H : ~ Borme.filename_grammar (PosixPath.name (py "/data/2020/01/20/sumario.pdf"))).
  { intros (l & y & i & c & r & H & _). vm_compute in H. discriminate. }
  split; [exact H|].
  apply (unmatched_filename_yields_nothing _ _ H).
Defined.

(** ** Groups that always take part *)

Module GroupFacts.
Import Re ReSem ReFacts Borme.

Lemma search_matches_at : forall r s m,
  search r s = Some m -> matches_at r s (m_start m) (m_end m) (m_caps m).
Proof.
  intros r s m H. unfold search in H. apply search_from_Some in H.
  destruct H as (pre & post & -> & H & _).
  apply match_here_matches_at in H. destruct H as (H & _).
  rewrite app_nil_r, rev_involutive in H. exact H.
Qed.

Lemma finditer_matches_at : forall r s m,
  In m (finditer r s) -> matches_at r s (m_start m) (m_end m) (m_caps m).
Proof.
  intros r s m H. unfold finditer in H.
  destruct (finditer_from_spec r (S (length s)) [] s) as [HF _].
  rewrite Forall_forall in HF. apply (HF m H).
Qed.

Lemma matches_at_group : forall r t i j c n,
  matches_at r t i j c -> sets n r = true -> lookup n c <> None.
Proof.
  intros r t i j c n (b & a & b' & a' & _ & _ & _ & HM) Hs.
  apply (Matches_sets r n _ _ Hs HM).
Qed.

Lemma group_Some : forall r t m n,
  matches_at r t (m_start m) (m_end m) (m_caps m) -> sets n r = true ->
  exists g, group t m n = Some g.
Proof.
  intros r t m n HM Hs. unfold group.
  pose proof (@matches_at_group _ _ _ _ _ n HM Hs) as H.
  destruct (lookup n (m_caps m)) as [[i j]|]; [eauto|congruence].
Qed.

Lemma group_str_Ok : forall r t m n,
  matches_at r t (m_start m) (m_end m) (m_caps m) -> sets n r = true ->
  exists g, group_str t m n = Ok g /\ group t m n = Some g.
Proof.
  intros r t m n HM Hs. destruct (@group_Some _ _ _ n HM Hs) as (g & Hg).
  exists g. unfold group_str. rewrite Hg. auto.
Qed.

End GroupFacts.

(** ** C7: the registry coordinates *)

(** C7. The four registry keys of a row are set together from one match
    of the anchored pattern, or not at all: when the pattern matches the
    body, all seven groups took part and the keys are its captures (the
    sheet is group 5 stripped, the tome group 1, the inscription number
    group 6, the inscription date group 7); when it does not match, none of
    the keys is set.  No row has some of them set and others unset. *)
Theorem registry_all_or_nothing :
  forall body : pystr,
    ((exists m g1 g5 g6 g7,
         Re.search Borme.DATOS_REG_RE body = Some m
         /\ (forall n, In n [1; 2; 3; 4; 5; 6; 7] -> Re.group body m n <> None)
         /\ Re.group body m 1 = Some g1 /\ Re.group body m 5 = Some g5
         /\ Re.group body m 6 = Some g6 /\ Re.group body m 7 = Some g7
         /\ Borme.entry_registro body =
            Ok {| Borme.r_hoja_registral := Some (Py.strip g5);
                  Borme.r_tomo := Some g1;
                  Borme.r_inscripcion := Some g6;
                  Borme.r_fecha_inscripcion := Some g7 |})
     \/ (Re.search Borme.DATOS_REG_RE body = None
         /\ Borme.entry_registro body =
            Ok {| Borme.r_hoja_registral := None; Borme.r_tomo := None;
                  Borme.r_inscripcion := None; Borme.r_fecha_inscripcion := None |}))
    /\ (forall hdr text gap m end_ prov row cargos prov',
          Borme.parse_entry hdr text gap m end_ prov = Ok (row, cargos, prov') ->
          (Borme.hoja_registral row <> None /\ Borme.tomo row <> None
           /\ Borme.inscripcion row <> None /\ Borme.fecha_inscripcion row <> None)
          \/ (Borme.hoja_registral row = None /\ Borme.tomo row = None
              /\ Borme.inscripcion row = None /\ Borme.fecha_inscripcion row = None)).
Proof.
  assert (Hreg : forall body,
    (exists m g1 g5 g6 g7,
         Re.search Borme.DATOS_REG_RE body = Some m
         /\ (forall n, In n [1; 2; 3; 4; 5; 6; 7] -> Re.group body m n <> None)
         /\ Re.group body m 1 = Some g1 /\ Re.group body m 5 = Some g5
         /\ Re.group body m 6 = Some g6 /\ Re.group body m 7 = Some g7
         /\ Borme.entry_registro body =
            Ok {| Borme.r_hoja_registral := Some (Py.strip g5);
                  Borme.r_tomo := Some g1;
                  Borme.r_inscripcion := Some g6;
                  Borme.r_fecha_inscripcion := Some g7 |})
     \/ (Re.search Borme.DATOS_REG_RE body = None
         /\ Borme.entry_registro body =
            Ok {| Borme.r_hoja_registral := None; Borme.r_tomo := None;
                  Borme.r_inscripcion := None; Borme.r_fecha_inscripcion := None |})).
  { intros body. unfold Borme.entry_registro.
    destruct (Re.search Borme.DATOS_REG_RE body) as [m|] eqn:E; [left|right; auto].
    apply GroupFacts.search_matches_at in E.
    assert (HG : forall n, In n [1; 2; 3; 4; 5; 6; 7] ->
                           exists g, group_str body m n = Ok g /\ Re.group body m n = Some g).
    { intros n Hn. apply (@GroupFacts.group_str_Ok _ _ _ n E).
      simpl in Hn. repeat (destruct Hn as [<-|Hn]; [reflexivity|]). contradiction. }
    destruct (HG 1) as (g1 & _ & G1); [simpl; tauto|].
    destruct (HG 5) as (g5 & S5 & G5); [simpl; tauto|].
    destruct (HG 6) as (g6 & _ & G6); [simpl; tauto|].
    destruct (HG 7) as (g7 & _ & G7); [simpl; tauto|].
    exists m, g1, g5, g6, g7. split; [reflexivity|].
    split. { intros n Hn. destruct (HG n Hn) as (g & _ & ->). discriminate. }
    rewrite S5, G1, G6, G7. cbn [bind]. auto. }
  intros body. split; [apply Hreg|].
  intros hdr text gap m end_ prov row cargos prov' H.
  unfold Borme.parse_entry in H.
  destruct (group_str text m 1) as [entry_num|]; [|discriminate].
  cbn [bind] in H.
  destruct (Borme.parse_body _ _ _ _ _) as [[row0 cargos0]|] eqn:Hb; [|discriminate].
  cbn [bind fst snd] in H. injection H as <- <- <-.
  unfold Borme.parse_body in Hb.
  match type of Hb with
  | bind ?o _ = _ => destruct o as [objeto|]; [|discriminate]
  end. cbn [bind] in Hb.
  match type of Hb with
  | bind ?o _ = _ => destruct o as [domicilio|]; [|discriminate]
  end. cbn [bind] in Hb.
  match type of Hb with
  | bind (Borme.entry_registro ?b) _ = _ =>
    destruct (Hreg b) as [(m' & g1 & g5 & g6 & g7 & _ & _ & _ & _ & _ & _ & Hr)|(_ & Hr)];
    rewrite Hr in Hb
  end; cbn [bind] in Hb;
  match type of Hb with
  | bind ?o _ = _ => destruct o as [cs|]; [|discriminate]
  end; cbn [bind] in Hb; injection Hb as <- <-;
  cbn [Borme.entry_row Borme.hoja_registral Borme.tomo Borme.inscripcion
       Borme.fecha_inscripcion Borme.r_hoja_registral Borme.r_tomo
       Borme.r_inscripcion Borme.r_fecha_inscripcion].
  - left. repeat split; discriminate.
  - right. auto.
Qed.

(** ** C9: a document whose text cannot be obtained *)

Module BatchFacts.
Import Borme.

Lemma set_add_In : forall p s, In p (set_add p s).
Proof.
  intros p s. unfold set_add. destruct (Py.mem p s) eqn:E.
  - now apply PyFacts.mem_In.
  - apply in_or_app. right. now left.
Qed.

Lemma parse_unreadable : forall open_pdf pdf_path,
  open_pdf pdf_path = None ->
  snd (parse_single_pdf open_pdf pdf_path) = Ok ([], []).
Proof.
  intros open_pdf pdf_path H. unfold parse_single_pdf.
  destruct (Re.rmatch_ FILENAME_RE (PosixPath.name pdf_path)) as [bm|] eqn:E;
    [|reflexivity].
  destruct (FilenameFacts.read_header_Ok pdf_path _ E) as (hdr & ->).
  cbn [snd]. now rewrite H.
Qed.

End BatchFacts.

(** C9. What the code does with a document whose text cannot be
    obtained: [parse_single_pdf] returns two empty lists and raises nothing,
    [_process_one] hands them on with the flag [ok] set, and [run_batch]
    therefore records the path in [done_set], leaves [errors] as it was and
    goes on with the rows it had.  No error marker is recorded. *)
Theorem unreadable_pdf_is_recorded_as_done :
  forall (open_pdf : Borme.pdf_reader) (pdf_path : pystr) (st : Borme.batch_state),
    open_pdf pdf_path = None ->
    snd (Borme.parse_single_pdf open_pdf pdf_path) = Ok ([], [])
    /\ Borme._process_one open_pdf pdf_path = ([], [], pdf_path, true)
    /\ (let st' := Borme.collect st (Borme._process_one open_pdf pdf_path) in
        Borme.errors st' = Borme.errors st
        /\ In pdf_path (Borme.done_set st')
        /\ Borme.all_empresas st' = Borme.all_empresas st
        /\ Borme.all_cargos st' = Borme.all_cargos st
        /\ Borme.processed st' = S (Borme.processed st))
    /\ (forall rest,
          Borme.run_pending open_pdf (pdf_path :: rest) st
          = Borme.run_pending open_pdf rest
              (Borme.collect st (Borme._process_one open_pdf pdf_path))).
Proof.
  intros open_pdf pdf_path st H.
  pose proof (BatchFacts.parse_unreadable open_pdf pdf_path H) as Hp.
  assert (Ho : Borme._process_one open_pdf pdf_path = ([], [], pdf_path, true)).
  { unfold Borme._process_one. now rewrite Hp. }
  split; [exact Hp|]. split; [exact Ho|]. split; [|reflexivity].
  rewrite Ho. cbn. rewrite !app_nil_r.
  repeat split. apply BatchFacts.set_add_In.
Qed.

Lemma unreadable_pdf_witness :
  (fun _ : pystr => @None (list (option pystr)))
    (py "/data/2020/01/20/BORME-A-2020-12-28.pdf") = None
  /\ Borme._process_one (fun _ => None) (py "/data/2020/01/20/BORME-A-2020-12-28.pdf")
     = ([], [], py "/data/2020/01/20/BORME-A-2020-12-28.pdf", true)
  /\ Borme.errors (Borme.collect (Borme.start_state [])
        (Borme._process_one (fun _ => None)
           (py "/data/2020/01/20/BORME-A-2020-12-28.pdf"))) = [].
Proof.
  destruct (unreadable_pdf_is_recorded_as_done (fun _ => None)
              (py "/data/2020/01/20/BORME-A-2020-12-28.pdf") (Borme.start_state [])
              eq_refl) as (_ & Ho & (He & _) & _).
  split; [reflexivity|]. split; [exact Ho|exact He].
Defined.

(** ** Strings: prefixes and occurrences *)

Module StrFacts.

Lemma startswith_iff : forall p s,
  Py.startswith s p = true <-> exists rest, s = p ++ rest.
Proof.
  induction p as [|a p IH]; intros s; simpl.
  - split; [intros _; now exists s|intros _; destruct s; reflexivity].
  - destruct s as [|b s]; simpl.
    + split; [discriminate|intros (r & H); discriminate].
    + rewrite andb_true_iff, N.eqb_eq, IH. split.
      * intros (-> & r & ->). now exists r.
      * intros (r & H). inversion H; subst. split; [reflexivity|now exists r].
Qed.

Lemma occurrences_from_iff : forall sub s i j,
  In j (Py.occurrences_from i sub s) <->
  exists pre post, s = pre ++ sub ++ post /\ j = i + length pre.
Proof.
  intros sub s. induction s as [|c s IH]; intros i j.
  - destruct sub as [|a sub]; simpl; split.
    + intros [<-|[]]. exists [], []. simpl. split; [reflexivity|lia].
    + intros (pre & post & H & ->). destruct pre; [|discriminate].
      left. simpl. lia.
    + tauto.
    + intros (pre & post & H & _). destruct pre; discriminate.
  - change (Py.occurrences_from i sub (c :: s))
      with ((if Py.startswith (c :: s) sub then [i] else [])
              ++ Py.occurrences_from (S i) sub s).
    rewrite in_app_iff, IH. split.
    + intros [H|(pre & post & -> & ->)].
      * destruct (Py.startswith (c :: s) sub) eqn:E; simpl in H; [|tauto].
        destruct H as [<-|[]]. apply startswith_iff in E. destruct E as (r & E).
        exists [], r. simpl. split; [exact E|lia].
      * exists (c :: pre), post. simpl. split; [reflexivity|lia].
    + intros (pre & post & H & ->). destruct pre as [|x pre]; simpl in H.
      * left. assert (E : Py.startswith (c :: s) sub = true)
          by (apply startswith_iff; eauto).
        rewrite E. left. simpl. lia.
      * right. inversion H; subst. exists pre, post. split; [reflexivity|simpl; lia].
Qed.

Lemma contains_iff : forall s sub,
  Py.contains s sub = true <-> exists pre post, s = pre ++ sub ++ post.
Proof.
  intros s sub. unfold Py.contains, Py.occurrences. split.
  - destruct (Py.occurrences_from 0 sub s) as [|j l] eqn:E; [discriminate|].
    intros _. assert (H : In j (Py.occurrences_from 0 sub s)) by (rewrite E; now left).
    apply occurrences_from_iff in H. destruct H as (pre & post & H & _). eauto.
  - intros (pre & post & H).
    assert (Hi : In (0 + length pre) (Py.occurrences_from 0 sub s)).
    { apply occurrences_from_iff. eauto. }
    destruct (Py.occurrences_from 0 sub s); [contradiction|reflexivity].
Qed.

End StrFacts.

(** ** C2: the list of acts *)

Module ActosFacts.
Import Borme.

Lemma has_label_iff : forall body label,
  has_label body label = true <-> occurs_followed body label.
Proof.
  intros body label. unfold has_label, occurs_followed.
  rewrite orb_true_iff, !StrFacts.contains_iff. split.
  - intros [(pre & post & H)|(pre & post & H)]; exists pre; eexists; exists post;
      rewrite H, <- app_assoc; simpl; split; [reflexivity|auto|reflexivity|auto].
  - intros (pre & t & post & H & [->| ->]); [left|right]; exists pre, post;
      rewrite H, <- app_assoc; reflexivity.
Qed.

Lemma ACTOS_NoDup : NoDup ACTOS.
Proof.
  assert (H : nodup Py.eq_dec ACTOS = ACTOS) by (vm_compute; reflexivity).
  rewrite <- H. apply NoDup_nodup.
Qed.

Lemma ACTOS_head : ACTOS = py "Constitución" :: tl ACTOS.
Proof. vm_compute. reflexivity. Qed.

Lemma cambio_not_in_ACTOS : ~ In (py "Cambio de domicilio") ACTOS.
Proof.
  intros H. apply PyFacts.mem_In in H. vm_compute in H. discriminate.
Qed.

(** The loop over the vocabulary appends, in order, the acts present
    that are not "Constitución"; the test [acto not in actos] never fires. *)
Lemma actos_loop_filter : forall body voc acc,
  NoDup voc ->
  (forall a, In a voc -> In a acc -> a = py "Constitución") ->
  fold_left (fun actos acto =>
               if has_label body acto
                  && negb (Py.eqb acto (py "Constitución"))
                  && negb (Py.mem acto actos)
               then actos ++ [acto] else actos) voc acc
  = acc ++ filter (fun a => has_label body a && negb (Py.eqb a (py "Constitución"))) voc.
Proof.
  intros body voc. induction voc as [|a voc IH]; intros acc Hnd Hacc; simpl.
  - now rewrite app_nil_r.
  - inversion Hnd as [|? ? Ha Hnd']; subst.
    destruct (has_label body a && negb (Py.eqb a (py "Constitución"))) eqn:E.
    + assert (Hm : Py.mem a acc = false).
      { destruct (Py.mem a acc) eqn:Em; [|reflexivity].
        apply PyFacts.mem_In in Em. apply Hacc in Em; [|now left]. subst a.
        rewrite PyFacts.eqb_refl in E. rewrite andb_false_r in E. discriminate. }
      rewrite Hm. simpl. rewrite IH; [now rewrite <- app_assoc|exact Hnd'|].
      intros b Hb Hin. apply in_app_or in Hin. destruct Hin as [Hin|[->|[]]].
      * apply Hacc; [now right|exact Hin].
      * contradiction.
    + simpl. apply IH; [exact Hnd'|]. intros b Hb. apply Hacc. now right.
Qed.


Lemma filter_step : forall (f : pystr -> bool) c l,
  filter f (c :: l) = if f c then c :: filter f l else filter f l.
Proof. reflexivity. Qed.

Lemma filter_rest : forall body,
  filter (fun a => has_label body a && negb (Py.eqb a (py "Constitución"))) ACTOS
  = filter (has_label body) (tl ACTOS).
Proof.
  intros body. rewrite ACTOS_head at 1. rewrite filter_step.
  rewrite PyFacts.eqb_refl, andb_false_r.
  apply filter_ext_in. intros a Ha.
  destruct (Py.eqb a (py "Constitución")) eqn:E; [|now rewrite andb_true_r].
  apply PyFacts.eqb_eq in E. subst a. exfalso.
  pose proof ACTOS_NoDup as Hnd.
  rewrite ACTOS_head in Hnd. inversion Hnd; contradiction.
Qed.

Lemma actos_domicilio_In : forall body a,
  In a (actos_domicilio body) -> a = py "Cambio de domicilio".
Proof.
  intros body a. unfold actos_domicilio.
  destruct (Re.search DOMICILIO_RE body); [intros []|].
  destruct (Py.contains body (py "Cambio de domicilio social.")); [|intros []].
  intros [<-|[]]. reflexivity.
Qed.

Lemma actos_constitucion_In : forall body a,
  In a (actos_constitucion body) -> a = py "Constitución".
Proof.
  intros body a. unfold actos_constitucion.
  destruct (has_label body (py "Constitución")); [|intros []].
  intros [<-|[]]. reflexivity.
Qed.

Lemma actos_domicilio_short : forall body, (length (actos_domicilio body) <=? 1) = true.
Proof.
  intros body. unfold actos_domicilio.
  destruct (Re.search DOMICILIO_RE body); [reflexivity|].
  destruct (Py.contains body (py "Cambio de domicilio social.")); reflexivity.
Qed.

Lemma actos_constitucion_short : forall body, (length (actos_constitucion body) <=? 1) = true.
Proof.
  intros body. unfold actos_constitucion.
  destruct (has_label body (py "Constitución")); reflexivity.
Qed.

Lemma entry_actos_eq : forall body,
  entry_actos body
  = actos_constitucion body ++ actos_domicilio body ++ filter (has_label body) (tl ACTOS).
Proof.
  intros body. unfold entry_actos, actos_loop.
  rewrite actos_loop_filter.
  - now rewrite filter_rest, <- app_assoc.
  - exact ACTOS_NoDup.
  - intros a Ha Hin. apply in_app_or in Hin. destruct Hin as [Hin|Hin].
    + now apply actos_constitucion_In in Hin.
    + apply actos_domicilio_In in Hin. subst a. exfalso. now apply cambio_not_in_ACTOS.
Qed.

Lemma claimed_actos_eq : forall body,
  claimed_actos body = actos_constitucion body ++ filter (has_label body) (tl ACTOS).
Proof.
  intros body. unfold claimed_actos, actos_constitucion.
  rewrite ACTOS_head at 1. rewrite filter_step.
  generalize (filter (has_label body) (tl ACTOS)). intros l.
  destruct (has_label body (py "Constitución")); reflexivity.
Qed.

Lemma cambio_neq_constitucion : py "Cambio de domicilio" <> py "Constitución".
Proof. intros H. vm_compute in H. discriminate. Qed.

Lemma entry_actos_NoDup : forall body, NoDup (entry_actos body).
Proof.
  intros body. rewrite entry_actos_eq.
  pose proof ACTOS_NoDup as Hnd.
  rewrite ACTOS_head in Hnd. inversion Hnd as [|? ? Hc Hnd']; subst.
  assert (Htl : forall a, In a (filter (has_label body) (tl ACTOS)) -> In a (tl ACTOS)).
  { intros a Ha. apply filter_In in Ha. tauto. }
  assert (Hcd : ~ In (py "Cambio de domicilio") (tl ACTOS)).
  { intros H. apply cambio_not_in_ACTOS. rewrite ACTOS_head. now right. }
  assert (Hnf : NoDup (filter (has_label body) (tl ACTOS)))
    by (apply NoDup_filter; exact Hnd').
  pose proof (actos_domicilio_In body) as Hdom.
  pose proof (actos_constitucion_In body) as Hcon.
  pose proof (actos_domicilio_short body) as Hdom0.
  pose proof (actos_constitucion_short body) as Hcon0.
  revert Htl Hnf. generalize (filter (has_label body) (tl ACTOS)). intros l Htl Hnf.
  revert Hdom Hcon Hdom0 Hcon0.
  generalize (actos_domicilio body) (actos_constitucion body).
  intros d c Hdom Hcon Hdom0 Hcon0.
  assert (Hd : NoDup (d ++ l)).
  { destruct d as [|x d]; [exact Hnf|].
    destruct d as [|y d].
    - cbn [app]. constructor; [|exact Hnf]. intros H.
      rewrite (Hdom x) in H by (now left). apply Hcd. now apply Htl.
    - exfalso. clear - Hdom0. discriminate Hdom0. }
  destruct c as [|x c]; [exact Hd|].
  destruct c as [|y c]; [|exfalso; clear - Hcon0; discriminate Hcon0].
  cbn [app]. constructor; [|exact Hd].
  intros H. rewrite (Hcon x) in H by (now left).
  apply in_app_or in H. destruct H as [H|H].
  - apply Hdom in H. symmetry in H. now apply cambio_neq_constitucion in H.
  - apply Hc. now apply Htl.
Qed.


End ActosFacts.

(** C2 as stated fails: with no "Domicilio" label and the phrase
    "Cambio de domicilio social." in the body, the code emits the label
    "Cambio de domicilio", which is not in the vocabulary. *)
Lemma actos_extra_label_counterexample :
  Borme.entry_actos (py ". Cambio de domicilio social. CALLE MAYOR 1 (MADRID).")
  = [py "Cambio de domicilio"; py "Cambio de domicilio social"]
  /\ Borme.entry_actos (py ". Cambio de domicilio social. CALLE MAYOR 1 (MADRID).")
     <> Borme.claimed_actos (py ". Cambio de domicilio social. CALLE MAYOR 1 (MADRID).")
  /\ ~ In (py "Cambio de domicilio") Borme.ACTOS.
Proof.
  split; [vm_compute; reflexivity|]. split.
  - intros H. vm_compute in H. discriminate.
  - exact ActosFacts.cambio_not_in_ACTOS.
Qed.

(** C2, amended. The list of acts is: "Constitución" when its label
    occurs followed by a period or a colon; then the label "Cambio de
    domicilio" (not an act of the vocabulary) when the domicile pattern has
    no match and the body contains "Cambio de domicilio social."; then the
    other acts of the vocabulary whose label occurs followed by a period or a
    colon, in the order of the vocabulary.  No label is repeated, and without
    the extra label the list is exactly the one claimed. *)
Theorem actos_in_vocabulary_order :
  forall body : pystr,
    Borme.entry_actos body
    = Borme.actos_constitucion body ++ Borme.actos_domicilio body
        ++ filter (Borme.has_label body) (tl Borme.ACTOS)
    /\ Borme.claimed_actos body
       = Borme.actos_constitucion body ++ filter (Borme.has_label body) (tl Borme.ACTOS)
    /\ (forall a, Borme.has_label body a = true <-> Borme.occurs_followed body a)
    /\ (Borme.actos_constitucion body
        = if Borme.has_label body (py "Constitución") then [py "Constitución"] else [])
    /\ (Borme.actos_domicilio body
        = match Re.search Borme.DOMICILIO_RE body with
          | Some _ => []
          | None => if Py.contains body (py "Cambio de domicilio social.")
                    then [py "Cambio de domicilio"] else []
          end)
    /\ NoDup (Borme.entry_actos body)
    /\ (Borme.actos_domicilio body = [] ->
        Borme.entry_actos body = Borme.claimed_actos body).
Proof.
  intros body.
  split; [apply ActosFacts.entry_actos_eq|].
  split; [apply ActosFacts.claimed_actos_eq|].
  split; [apply ActosFacts.has_label_iff|].
  split; [reflexivity|]. split; [reflexivity|].
  split; [apply ActosFacts.entry_actos_NoDup|].
  intros H. rewrite ActosFacts.entry_actos_eq, ActosFacts.claimed_actos_eq, H.
  reflexivity.
Qed.

Lemma actos_in_vocabulary_order_witness :
  Borme.actos_domicilio (py ". Constitución. Nombramientos. Adm: A B.") = []
  /\ Borme.entry_actos (py ". Constitución. Nombramientos. Adm: A B.")
     = Borme.claimed_actos (py ". Constitución. Nombramientos. Adm: A B.").
Proof.
  split; [vm_compute; reflexivity|].
  apply (actos_in_vocabulary_order (py ". Constitución. Nombramientos. Adm: A B.")).
  vm_compute. reflexivity.
Defined.

(** ** Parsing the text of a document never raises *)

Module TotalFacts.
Import Re ReSem ReFacts GroupFacts Borme.

Lemma field_upto_Ok : forall r n body,
  sets 1 r = true -> exists v, field_upto r n body = Ok v.
Proof.
  intros r n body Hs. unfold field_upto.
  destruct (search r body) as [m|] eqn:E; [|eauto].
  apply search_matches_at in E.
  destruct (@group_str_Ok _ _ _ 1 E Hs) as (g & -> & _). cbn [bind]. eauto.
Qed.

Lemma entry_domicilio_Ok : forall body, exists v, entry_domicilio body = Ok v.
Proof.
  intros body. unfold entry_domicilio.
  destruct (search DOMICILIO_RE body) as [m|] eqn:E.
  - apply search_matches_at in E.
    destruct (@group_str_Ok _ _ _ 1 E eq_refl) as (g & -> & _). cbn [bind]. eauto.
  - destruct (Py.contains body (py "Cambio de domicilio social.")); [|eauto].
    apply field_upto_Ok. reflexivity.
Qed.

Lemma entry_registro_Ok : forall body, exists v, entry_registro body = Ok v.
Proof.
  intros body. unfold entry_registro.
  destruct (search DATOS_REG_RE body) as [m|] eqn:E; [|eauto].
  apply search_matches_at in E.
  destruct (@group_str_Ok _ _ _ 5 E eq_refl) as (g & -> & _). cbn [bind]. eauto.
Qed.

Lemma cargo_rows_Ok : forall row body cm,
  matches_at CARGO_RE body (m_start cm) (m_end cm) (m_caps cm) ->
  exists rows, cargo_rows row body cm = Ok rows.
Proof.
  intros row body cm H. unfold cargo_rows.
  destruct (@group_str_Ok _ _ _ 1 H eq_refl) as (g1 & -> & _).
  destruct (@group_str_Ok _ _ _ 2 H eq_refl) as (g2 & -> & _).
  cbn [bind].
  destruct (excluded (Py.strip g1)); [eauto|].
  match goal with |- context [if ?c then Ok [] else _] => destruct c; [eauto|] end.
  destruct (_extract_cargo_and_tipo (Py.strip g1) body (m_start cm)) as [cargo tipo].
  match goal with |- context [if ?c then Ok [] else _] => destruct c; eauto end.
Qed.

Lemma cargos_loop_Ok : forall row body cms,
  Forall (fun cm => matches_at CARGO_RE body (m_start cm) (m_end cm) (m_caps cm)) cms ->
  exists rows, cargos_loop row body cms = Ok rows.
Proof.
  intros row body cms H. induction H as [|cm cms Hcm _ IH]; simpl; [eauto|].
  destruct (@cargo_rows_Ok row body cm Hcm) as (rows & ->).
  destruct IH as (more & ->). cbn [bind]. eauto.
Qed.

Lemma finditer_Forall : forall r s,
  Forall (fun m => matches_at r s (m_start m) (m_end m) (m_caps m)) (finditer r s).
Proof.
  intros r s. apply Forall_forall. intros m H. now apply finditer_matches_at.
Qed.

(** The rows of a body: always returned, and the company row is
    [entry_row] of the optional fields. *)
Lemma parse_body_Ok : forall hdr entry_num empresa body prov,
  exists objeto domicilio reg cargos,
    parse_body hdr entry_num empresa body prov
    = Ok (entry_row hdr entry_num empresa body prov objeto domicilio reg, cargos).
Proof.
  intros hdr entry_num empresa body prov. unfold parse_body.
  assert (Ho : exists v, (if has_label body (py "Constitución")
                          then field_upto OBJETO_RE 500 body else Ok None) = Ok v).
  { destruct (has_label body (py "Constitución")); [|eauto].
    apply field_upto_Ok. reflexivity. }
  destruct Ho as (objeto & ->).
  destruct (entry_domicilio_Ok body) as (domicilio & ->).
  destruct (entry_registro_Ok body) as (reg & ->).
  cbn [bind].
  destruct (@cargos_loop_Ok
              (entry_row hdr entry_num empresa body prov objeto domicilio reg) body _
              (finditer_Forall CARGO_RE body)) as (cargos & ->).
  cbn [bind]. eauto 6.
Qed.

Lemma parse_entry_Ok : forall hdr text gap m end_ prov,
  matches_at ENTRY_START_RE text (m_start m) (m_end m) (m_caps m) ->
  exists entry_num row cargos,
    group text m 1 = Some entry_num
    /\ parse_entry hdr text gap m end_ prov
       = Ok (row, cargos, track_provincia (Py.slice gap (m_start m) text) prov)
    /\ num_entrada row = entry_num
    /\ empresa row = entry_empresa (entry_block text (m_end m) end_)
    /\ provincia row = track_provincia (Py.slice gap (m_start m) text) prov.
Proof.
  intros hdr text gap m end_ prov H. unfold parse_entry.
  destruct (@group_str_Ok _ _ _ 1 H eq_refl) as (entry_num & -> & Hg).
  cbn [bind].
  destruct (parse_body_Ok hdr entry_num
              (entry_empresa (entry_block text (m_end m) end_))
              (entry_body (entry_block text (m_end m) end_))
              (track_provincia (Py.slice gap (m_start m) text) prov))
    as (objeto & domicilio & reg & cargos & ->).
  cbn [bind fst snd]. eexists. eexists. eexists.
  split; [exact Hg|]. split; [reflexivity|]. cbn [entry_row num_entrada empresa provincia].
  auto.
Qed.

(** The loop over the markers returns one company row per marker, whose
    name is cut from the block of the marker's span. *)
Lemma entries_loop_Ok : forall hdr text splits gap prov,
  Forall (fun m => matches_at ENTRY_START_RE text (m_start m) (m_end m) (m_caps m)) splits ->
  exists rows cargos,
    entries_loop hdr text gap splits prov = Ok (rows, cargos)
    /\ length rows = length splits
    /\ map empresa rows
       = map (fun sp => entry_empresa (entry_block text (fst sp) (snd sp)))
             (entry_spans text splits)
    /\ map (fun r => Some (num_entrada r)) rows = map (fun m => group text m 1) splits.
Proof.
  intros hdr text splits. induction splits as [|m rest IH]; intros gap prov H.
  - exists [], []. simpl. auto.
  - inversion H as [|? ? Hm Hrest]; subst.
    cbn [entries_loop].
    destruct (@parse_entry_Ok hdr text gap m
                (match rest with m' :: _ => m_start m' | [] => length text end) prov Hm)
      as (entry_num & row & cargos & Hg & -> & Hn & He & _).
    cbn [bind].
    destruct (IH (m_start m) (track_provincia (Py.slice gap (m_start m) text) prov) Hrest)
      as (rows & crs & -> & Hlen & Hemp & Hnum).
    cbn [bind fst snd]. exists (row :: rows), (cargos ++ crs).
    split; [reflexivity|]. split; [simpl; now rewrite Hlen|].
    split.
    + cbn [map entry_spans fst snd]. now rewrite He, Hemp.
    + cbn [map]. now rewrite Hn, Hg, Hnum.
Qed.

End TotalFacts.

(** ** C3: segmentation *)

Module SegmentFacts.
Import Re ReSem ReFacts ReInv GroupFacts Borme.

Lemma slice_skipn : forall (t : pystr) a b,
  a <= b -> Py.slice a b t ++ skipn b t = skipn a t.
Proof.
  intros t a b H. unfold Py.slice.
  replace (skipn b t) with (skipn (b - a) (skipn a t)).
  - apply firstn_skipn.
  - rewrite skipn_skipn. f_equal. lia.
Qed.

Lemma chain_next : forall rest from upto,
  chain from rest upto ->
  from <= match rest with m' :: _ => m_start m' | [] => upto end <= upto.
Proof.
  intros [|m' rest] from upto H; simpl in *.
  - lia.
  - destruct H as (H1 & H2 & H3). apply chain_bound in H3. lia.
Qed.

Lemma chain_from_next : forall rest from upto,
  chain from rest upto ->
  chain (match rest with m' :: _ => m_start m' | [] => upto end) rest upto.
Proof.
  intros [|m' rest] from upto H; simpl in *; [lia|]. intuition lia.
Qed.

(** Markers and entries tile the text from the first marker on. *)
Lemma markers_and_entries_cover : forall text ms from,
  chain from ms (length text) ->
  Py.from (match ms with m :: _ => m_start m | [] => length text end) text
  = markers_and_entries text ms.
Proof.
  intros text ms. unfold Py.from.
  induction ms as [|m rest IH]; intros from H.
  - simpl. apply skipn_all.
  - cbn [markers_and_entries]. destruct H as (H1 & H2 & H3).
    pose proof (chain_next _ _ _ H3) as Hn.
    rewrite <- (IH _ (chain_from_next _ _ _ H3)).
    rewrite slice_skipn by lia. now rewrite slice_skipn by lia.
Qed.

Lemma entry_spans_length : forall text ms, length (entry_spans text ms) = length ms.
Proof. intros text ms. induction ms as [|m rest IH]; simpl; [reflexivity|now rewrite IH]. Qed.

Lemma entry_spans_combine : forall text ms,
  entry_spans text ms
  = combine (map m_end ms) (tl (map m_start ms) ++ [length text]).
Proof.
  intros text ms. induction ms as [|m rest IH]; [reflexivity|].
  cbn [entry_spans map tl]. rewrite IH.
  destruct rest as [|m' rest]; reflexivity.
Qed.

Lemma entry_spans_bounds : forall text ms from,
  chain from ms (length text) ->
  Forall (fun sp => from <= fst sp <= snd sp /\ snd sp <= length text) (entry_spans text ms).
Proof.
  intros text ms. induction ms as [|m rest IH]; intros from H; [constructor|].
  cbn [entry_spans]. destruct H as (H1 & H2 & H3).
  pose proof (chain_next _ _ _ H3) as Hn.
  constructor.
  - cbn [fst snd]. lia.
  - apply IH in H3. eapply Forall_impl; [|exact H3]. cbn beta. intros sp Hsp. lia.
Qed.

(** Every match of the marker pattern is a marker in the words of the
    specification, and group 1 is its number. *)
Lemma marker_inv : forall text i j c,
  matches_at ENTRY_START_RE text i j c ->
  exists number, is_marker text i j number
                 /\ exists k, lookup 1 c = Some (i, k) /\ Py.slice i k text = number.
Proof.
  intros text i j c (b & a & b' & a' & Ht & Hi & Hj & HM).
  unfold ENTRY_START_RE in HM.
  peel HM s1. destruct H as (Hbol & ->). norm.
  peel HM s2. inv_group H. inv_rep H number Hnum Hlo Hhi.
  peel HM s3. unfold ws, star in H. inv_rep H w1 Hw1 Hlo1 Hhi1.
  peel HM s4. inv_chr H dash Hdash.
  apply M_seq_one in HM. unfold ws, star in HM. inv_rep HM w2 Hw2 Hlo2 Hhi2.
  inversion Hs; subst. clear Hs.
  apply N.eqb_eq in Hdash. subst dash.
  exists number. split.
  - exists (rev b), w1, w2, a. split; [reflexivity|].
    split; [now rewrite length_rev|]. split.
    { repeat (rewrite ?length_app, ?length_rev; cbn [length]).
      change (length (py "-")) with 1. lia. }
    split.
    { destruct b as [|x b]; [now left|right].
      cbn [at_bol] in Hbol. apply andb_true_iff in Hbol. destruct Hbol as [_ Hx].
      apply N.eqb_eq in Hx. subst x. exists (rev b). reflexivity. }
    cbn [within] in Hhi. auto.
  - exists (length (rev number ++ b)). split; [reflexivity|].
    apply slice_mid with (pre := rev b) (post := w1 ++ chr "-" :: w2 ++ a).
    + reflexivity.
    + now rewrite length_rev.
    + rewrite length_app, !length_rev. lia.
Qed.

Lemma marker_nonempty : forall text i j number, is_marker text i j number -> i + 5 <= j.
Proof.
  intros text i j number (before & w1 & w2 & after & _ & <- & <- & _ & Hn & _).
  rewrite !length_app. change (length (py "-")) with 1. lia.
Qed.

End SegmentFacts.
(** ** The rounding of [float] *)

Module FloatFacts.
Local Open Scope Z_scope.

Lemma rhe_cases : forall N D,
  0 < D ->
  let m := Py.round_half_even N D in
  (m = N / D /\ 2 * (N mod D) <= D) \/ (m = N / D + 1 /\ D <= 2 * (N mod D)).
Proof.
  intros N D HD m. unfold m, Py.round_half_even.
  destruct (Z.compare_spec (2 * (N mod D)) D) as [E|E|E].
  - destruct (Z.even (N / D)); [left|right]; split; lia.
  - left. split; lia.
  - right. split; lia.
Qed.

(** The rounded quotient is an integer nearest to [N / D]. *)
Lemma rhe_nearest : forall N D k,
  0 < D -> Z.abs (Py.round_half_even N D * D - N) <= Z.abs (k * D - N).
Proof.
  intros N D k HD.
  pose proof (Z.div_mod N D ltac:(lia)) as Hdm.
  pose proof (Z.mod_pos_bound N D HD) as Hr.
  destruct (rhe_cases N HD) as [[-> H]|[-> H]];
    set (q0 := N / D) in *; set (r0 := N mod D) in *; clearbody q0 r0; subst N.
  - destruct (Z_le_gt_dec k q0) as [Hk|Hk].
    + assert ((q0 - k) * D >= 0) by nia. nia.
    + assert ((k - q0) * D >= D) by nia. nia.
  - destruct (Z_le_gt_dec k q0) as [Hk|Hk].
    + assert ((q0 - k) * D >= 0) by nia. nia.
    + assert ((k - q0) * D >= D) by nia. nia.
Qed.

Lemma rhe_half : forall N D,
  0 < D -> 2 * Z.abs (Py.round_half_even N D * D - N) <= D.
Proof.
  intros N D HD.
  pose proof (Z.div_mod N D ltac:(lia)) as Hdm.
  pose proof (Z.mod_pos_bound N D HD) as Hr.
  destruct (rhe_cases N HD) as [[-> H]|[-> H]];
    set (q0 := N / D) in *; set (r0 := N mod D) in *; clearbody q0 r0; subst N; nia.
Qed.

Lemma rhe_lower : forall N D a,
  0 < D -> a * D <= N -> a <= Py.round_half_even N D.
Proof.
  intros N D a HD Ha.
  assert (a <= N / D) by (apply Z.div_le_lower_bound; lia).
  destruct (rhe_cases N HD) as [[-> _]|[-> _]]; lia.
Qed.

Lemma rhe_upper : forall N D b,
  0 < D -> N <= b * D -> Py.round_half_even N D <= b.
Proof.
  intros N D b HD Hb.
  pose proof (Z.div_mod N D ltac:(lia)) as Hdm.
  pose proof (Z.mod_pos_bound N D HD) as Hr.
  destruct (rhe_cases N HD) as [[-> H]|[-> H]];
    set (q0 := N / D) in *; set (r0 := N mod D) in *; clearbody q0 r0; subst N.
  - destruct (Z_le_gt_dec q0 b); [assumption|]. assert ((q0 - b) * D >= D) by nia. nia.
  - destruct (Z_le_gt_dec (q0 + 1) b); [assumption|].
    assert ((q0 - b) * D >= 0) by nia. nia.
Qed.


(** The sizes that rounding deals with, for [N / d > 0] scaled by [2^1074]:
    [u] is [Z.max (Z.log2 (N / d) - 52) 0]. *)
Section Rounding.
Variables N d : Z.
Hypothesis N_pos : 0 <= N.
Hypothesis d_pos : 0 < d.
Let u := Z.max (Z.log2 (N / d) - 52) 0.
Let D := d * 2 ^ u.
Let m := Py.round_half_even N D.

Lemma u_nonneg : 0 <= u.
Proof. unfold u. lia. Qed.

Lemma pow_u_pos : 0 < 2 ^ u.
Proof. apply Z.pow_pos_nonneg; [lia|apply u_nonneg]. Qed.

Lemma D_pos : 0 < D.
Proof. unfold D. pose proof pow_u_pos. nia. Qed.

Lemma quotient_bounds : d * (N / d) <= N < d * (N / d + 1).
Proof.
  pose proof (Z.div_mod N d ltac:(lia)) as H.
  pose proof (Z.mod_pos_bound N d d_pos). nia.
Qed.

(** Above the least exponent the significand has 53 bits. *)
Lemma scaled_lower : 0 < u -> 2 ^ 52 * D <= N.
Proof.
  intros Hu. unfold D.
  assert (He : Z.log2 (N / d) = u + 52) by (unfold u in *; lia).
  assert (Ht : 0 < N / d).
  { destruct (Z_lt_le_dec 0 (N / d)) as [|Hle]; [assumption|].
    rewrite (Z.log2_nonpos _ Hle) in He. pose proof u_nonneg. lia. }
  pose proof (Z.log2_spec _ Ht) as [Hlo _]. rewrite He in Hlo.
  rewrite Z.pow_add_r in Hlo by (pose proof u_nonneg; lia).
  pose proof quotient_bounds as [Hq _]. pose proof pow_u_pos.
  assert (0 < 2 ^ 52) by (apply Z.pow_pos_nonneg; lia).
  nia.
Qed.

Lemma scaled_upper : N < 2 ^ 53 * D.
Proof.
  unfold D. pose proof quotient_bounds as [_ Hq]. pose proof u_nonneg as Hu.
  assert (Ht : N / d + 1 <= 2 ^ (53 + u)).
  { destruct (Z_lt_le_dec 0 (N / d)) as [Hpos|Hle].
    - pose proof (Z.log2_spec _ Hpos) as [_ Hhi].
      assert (2 ^ Z.succ (Z.log2 (N / d)) <= 2 ^ (53 + u)).
      { apply Z.pow_le_mono_r; [lia|]. unfold u. lia. }
      lia.
    - assert (N / d = 0).
      { pose proof (Z.div_pos N d N_pos d_pos). lia. }
      assert (2 ^ 0 <= 2 ^ (53 + u)) by (apply Z.pow_le_mono_r; lia).
      change (2 ^ 0) with 1 in *. lia. }
  rewrite Z.pow_add_r in Ht by lia. nia.
Qed.

Lemma significand_upper : m <= 2 ^ 53.
Proof.
  unfold m. apply rhe_upper; [apply D_pos|]. pose proof scaled_upper. lia.
Qed.

Lemma significand_lower : 0 < u -> 2 ^ 52 <= m.
Proof.
  intros Hu. unfold m. apply rhe_lower; [apply D_pos|]. now apply scaled_lower.
Qed.

Lemma significand_nonneg : 0 <= m.
Proof.
  unfold m. apply rhe_lower; [apply D_pos|]. lia.
Qed.

(** No multiple of a power of two with a significand below [2^53] is
    nearer to [N / d] than the rounded one. *)
Lemma rounded_nearest : forall m' u',
  0 <= m' < 2 ^ 53 -> 0 <= u' ->
  Z.abs (m * 2 ^ u * d - N) <= Z.abs (m' * 2 ^ u' * d - N).
Proof.
  intros m' u' Hm' Hu'. pose proof u_nonneg as Hu. pose proof D_pos as HD.
  destruct (Z_le_gt_dec u u') as [Hle|Hgt].
  - replace u' with ((u' - u) + u) by lia. rewrite Z.pow_add_r by lia.
    replace (m * 2 ^ u * d) with (m * D) by (unfold D; ring).
    replace (m' * (2 ^ (u' - u) * 2 ^ u) * d) with (m' * 2 ^ (u' - u) * D)
      by (unfold D; ring).
    apply rhe_nearest. exact HD.
  - assert (Hlow : 2 ^ 52 * D <= N) by (apply scaled_lower; lia).
    assert (Hsmall : m' * 2 ^ u' * d <= 2 ^ 52 * D).
    { unfold D.
      assert (H1 : 2 ^ u' * 2 <= 2 ^ u).
      { replace u with (Z.succ u' + (u - u' - 1)) by lia.
        rewrite Z.pow_add_r, Z.pow_succ_r by lia.
        assert (0 < 2 ^ u') by (apply Z.pow_pos_nonneg; lia).
        assert (1 <= 2 ^ (u - u' - 1)).
        { change 1 with (2 ^ 0). apply Z.pow_le_mono_r; lia. }
        nia. }
      assert (H2 : 2 ^ 53 = 2 ^ 52 * 2) by reflexivity.
      assert (0 < 2 ^ u') by (apply Z.pow_pos_nonneg; lia).
      assert (0 < 2 ^ 52) by (apply Z.pow_pos_nonneg; lia).
      assert (m' * 2 ^ u' <= 2 ^ 52 * 2 ^ u) by nia.
      nia. }
    pose proof (@rhe_nearest N D (2 ^ 52) HD) as Hn. fold m in Hn.
    replace (m * 2 ^ u * d) with (m * D) by (unfold D; ring).
    lia.
Qed.

(** The rounded number is a binary64 number unless it is too large. *)
Lemma rounded_representable :
  m * 2 ^ u < 2 ^ 2098 ->
  exists m0 u0, 0 <= m0 < 2 ^ 53 /\ 0 <= u0 <= 2045 /\ m * 2 ^ u = m0 * 2 ^ u0.
Proof.
  intros Hov. pose proof u_nonneg as Hu. pose proof significand_upper as Hup.
  pose proof significand_nonneg as Hnn. pose proof pow_u_pos as Hp.
  destruct (Z_lt_le_dec m (2 ^ 53)) as [Hlt|Hge].
  - exists m, u. split; [lia|]. split; [|reflexivity]. split; [lia|].
    destruct (Z_le_gt_dec u 0) as [|Hpos]; [lia|].
    pose proof (significand_lower ltac:(lia)) as Hlo.
    assert (H : 2 ^ (52 + u) < 2 ^ 2098).
    { rewrite Z.pow_add_r by lia. nia. }
    apply Z.pow_lt_mono_r_iff in H; lia.
  - assert (Hm : m = 2 ^ 53) by lia.
    exists (2 ^ 52), (u + 1). split; [split; [apply Z.pow_nonneg; lia|reflexivity]|].
    split.
    + assert (H : 2 ^ (53 + u) < 2 ^ 2098).
      { rewrite Z.pow_add_r by lia. rewrite <- Hm. exact Hov. }
      apply Z.pow_lt_mono_r_iff in H; lia.
    + rewrite Hm, Z.pow_add_r by lia. change (2 ^ 53) with (2 ^ 52 * 2 ^ 1). ring.
Qed.

(** A rounded number of [2^1024] or more comes from [2^1024 - 2^970] or
    more. *)
Lemma rounded_overflow :
  2 ^ 2098 <= m * 2 ^ u -> (2 ^ 1024 - 2 ^ 970) * 2 ^ 1074 * d <= N.
Proof.
  intros Hov. pose proof u_nonneg as Hu. pose proof significand_upper as Hup.
  pose proof pow_u_pos as Hp. pose proof D_pos as HD.
  assert (H2045 : 2045 <= u).
  { destruct (Z_le_gt_dec 2045 u) as [|Hgt]; [assumption|exfalso].
    assert (H : 2 ^ u * 2 <= 2 ^ 2045).
    { replace 2045 with (Z.succ u + (2045 - u - 1)) by lia.
      rewrite Z.pow_add_r, Z.pow_succ_r by lia.
      assert (1 <= 2 ^ (2045 - u - 1)).
      { change 1 with (2 ^ 0). apply Z.pow_le_mono_r; lia. }
      nia. }
    assert (H' : 2 ^ 2098 = 2 ^ 53 * 2 ^ 2045) by reflexivity.
    assert (0 < 2 ^ 53) by (apply Z.pow_pos_nonneg; lia).
    nia. }
  assert (Hlow : 2 ^ 52 * D <= N) by (apply scaled_lower; lia).
  assert (HT : (2 ^ 1024 - 2 ^ 970) * 2 ^ 1074 = 2 ^ 2098 - 2 ^ 2044) by reflexivity.
  rewrite HT.
  destruct (Z.eq_dec u 2045) as [Hu45|Hne].
  - pose proof (@rhe_half N D HD) as Hh. fold m in Hh.
    unfold D in Hh. rewrite Hu45 in *.
    assert (H1 : 2 ^ 2045 = 2 * 2 ^ 2044) by reflexivity.
    assert (0 < 2 ^ 2044) by (apply Z.pow_pos_nonneg; lia).
    remember (2 ^ 2044) as A. remember (2 ^ 2098) as B. remember (2 ^ 2045) as C.
    clear HeqA HeqB HeqC HT Hlow. nia.
  - assert (H : 2 ^ 2098 <= 2 ^ 52 * 2 ^ u).
    { rewrite <- Z.pow_add_r by lia. apply Z.pow_le_mono_r; lia. }
    unfold D in Hlow.
    assert (0 < 2 ^ 2044) by (apply Z.pow_pos_nonneg; lia).
    remember (2 ^ 2044) as A. remember (2 ^ 2098) as B. remember (2 ^ 52) as C.
    remember (2 ^ u) as E. clear HeqA HeqB HeqC HeqE HT. nia.
Qed.

End Rounding.

Lemma pos_pow : Zpos (Z.to_pos (2 ^ 1074)) = 2 ^ 1074.
Proof. apply Z2Pos.id. apply Z.pow_pos_nonneg; lia. Qed.

(** Distances to [n / d] of two fractions over [2^1074], compared through
    integers. *)
Lemma Qabs_le_scaled : forall (R R' n : Z) (d : positive),
  Z.abs (R * Zpos d - n * 2 ^ 1074) <= Z.abs (R' * Zpos d - n * 2 ^ 1074) ->
  (Qabs (Qmake R (Z.to_pos (2 ^ 1074)) - Qmake n d)
   <= Qabs (Qmake R' (Z.to_pos (2 ^ 1074)) - Qmake n d))%Q.
Proof.
  intros R R' n d H.
  unfold Qle, Qabs, Qminus, Qplus, Qopp. cbn [Qnum Qden].
  rewrite !Pos2Z.inj_mul, pos_pow.
  assert (HP : 0 < 2 ^ 1074) by (apply Z.pow_pos_nonneg; lia).
  remember (2 ^ 1074) as P. clear HeqP.
  replace (R * Zpos d + - n * P) with (R * Zpos d - n * P) by ring.
  replace (R' * Zpos d + - n * P) with (R' * Zpos d - n * P) by ring.
  apply Z.mul_le_mono_nonneg_r; [|exact H]. nia.
Qed.

(** [float] rounds correctly: the result is a binary64 number and no
    binary64 number is nearer to the value of the literal; the result is
    infinity only from [2^1024 - 2^970] on. *)
Lemma binary64_nearest : forall q : Q,
  (0 <= q)%Q ->
  match Py.binary64 q with
  | Py.Finite r =>
    Py.is_binary64 r
    /\ forall r', Py.is_binary64 r' -> (Qabs (r - q) <= Qabs (r' - q))%Q
  | Py.Infinity => (inject_Z (2 ^ 1024 - 2 ^ 970) <= q)%Q
  end.
Proof.
  intros [n d] Hq. unfold Qle in Hq. cbn [Qnum Qden] in Hq.
  rewrite Z.mul_1_r in Hq. change (0 * Zpos d) with 0 in Hq.
  unfold Py.binary64. cbn [Qnum Qden].
  destruct (n <=? 0) eqn:En.
  { apply Z.leb_le in En. assert (n = 0) by lia. subst n. split.
    - exists 0, 0. split; [split; [lia|reflexivity]|]. split; [lia|]. reflexivity.
    - intros r' _. setoid_replace (0 - 0 # d)%Q with 0%Q by reflexivity.
      apply Qabs_nonneg. }
  apply Z.leb_gt in En.
  assert (HN : 0 <= n * 2 ^ 1074).
  { assert (0 < 2 ^ 1074) by (apply Z.pow_pos_nonneg; lia). nia. }
  assert (Hd : 0 < Zpos d) by lia.
  set (N := n * 2 ^ 1074) in *.
  set (u := Z.max (Z.log2 (N / Zpos d) - 52) 0).
  set (m := Py.round_half_even N (Zpos d * 2 ^ u)).
  destruct (2 ^ 2098 <=? m * 2 ^ u) eqn:Eov.
  - apply Z.leb_le in Eov.
    assert (H : (2 ^ 1024 - 2 ^ 970) * 2 ^ 1074 * Zpos d <= N)
      by (apply rounded_overflow; assumption).
    unfold Qle. cbn [Qnum Qden inject_Z]. rewrite Z.mul_1_r.
    unfold N in H.
    assert (HP : 0 < 2 ^ 1074) by (apply Z.pow_pos_nonneg; lia).
    remember (2 ^ 1074) as P. remember (2 ^ 1024 - 2 ^ 970) as T.
    clear HeqP HeqT Eov HN. nia.
  - apply Z.leb_gt in Eov. split.
    + assert (Hrep : exists m0 u0, 0 <= m0 < 2 ^ 53 /\ 0 <= u0 <= 2045
                                   /\ m * 2 ^ u = m0 * 2 ^ u0)
        by (apply rounded_representable; assumption).
      destruct Hrep as (m0 & u0 & Hm0 & Hu0 & Heq).
      exists m0, u0. split; [exact Hm0|]. split; [exact Hu0|].
      rewrite Qred_correct. now rewrite Heq.
    + intros r' (m' & u' & Hm' & Hu' & Hr').
      rewrite Qred_correct, Hr'.
      apply Qabs_le_scaled. fold N.
      apply rounded_nearest; try assumption; lia.
Qed.

(** A binary64 number is converted to itself. *)
Lemma binary64_exact : forall q r,
  (0 <= q)%Q -> Py.is_binary64 q -> Py.binary64 q = Py.Finite r -> (r == q)%Q.
Proof.
  intros q r Hq Hb Hr. pose proof (binary64_nearest Hq) as H. rewrite Hr in H.
  destruct H as [_ H]. specialize (H q Hb).
  setoid_replace (q - q)%Q with 0%Q in H by ring.
  change (Qabs 0) with 0%Q in H.
  apply Qabs_Qle_condition in H. destruct H as [H1 H2]. lra.
Qed.

(** Half way up to an even integer or beyond it, the quotient is rounded
    up to it. *)
Lemma rhe_round_up : forall N D a,
  0 < D -> Z.even a = true -> (2 * a - 1) * D <= 2 * N ->
  a <= Py.round_half_even N D.
Proof.
  intros N D a HD Ha H.
  pose proof (Z.div_mod N D ltac:(lia)) as Hdm.
  pose proof (Z.mod_pos_bound N D HD) as Hr.
  unfold Py.round_half_even.
  set (q0 := N / D) in *. set (r0 := N mod D) in *.
  destruct (Z_le_gt_dec a q0) as [Hge|Hlt].
  { destruct (2 * r0 ?= D); [destruct (Z.even q0)| |]; lia. }
  assert (Hq : q0 = a - 1).
  { destruct (Z.eq_dec q0 (a - 1)) as [|Hne]; [assumption|exfalso].
    assert ((a - 1 - q0) * D >= D) by nia. nia. }
  destruct (Z.compare_spec (2 * r0) D) as [E|E|E].
  - assert (Ho : Z.even q0 = false).
    { rewrite Hq. replace (a - 1) with (Z.pred a) by lia.
      rewrite Z.even_pred. rewrite <- Z.negb_even. now rewrite Ha. }
    rewrite Ho. lia.
  - exfalso. nia.
  - lia.
Qed.

Section Overflow.
Variables N d : Z.
Hypothesis N_pos : 0 <= N.
Hypothesis d_pos : 0 < d.

(** From [2^1024 - 2^970] on, the rounded number is [2^1024] or more. *)
Lemma overflow_reached :
  (2 ^ 1024 - 2 ^ 970) * 2 ^ 1074 * d <= N ->
  let u := Z.max (Z.log2 (N / d) - 52) 0 in
  2 ^ 2098 <= Py.round_half_even N (d * 2 ^ u) * 2 ^ u.
Proof.
  intros H u.
  assert (HT : (2 ^ 1024 - 2 ^ 970) * 2 ^ 1074 = 2 ^ 2098 - 2 ^ 2044) by reflexivity.
  rewrite HT in H. clear HT.
  assert (Ht : 2 ^ 2097 <= N / d).
  { apply Z.div_le_lower_bound; [exact d_pos|].
    assert (H1 : 2 ^ 2097 <= 2 ^ 2098 - 2 ^ 2044) by (vm_compute; discriminate).
    remember (2 ^ 2097) as A. remember (2 ^ 2098 - 2 ^ 2044) as B.
    clear HeqA HeqB. nia. }
  assert (Hlog : 2097 <= Z.log2 (N / d)).
  { apply Z.log2_le_pow2; [|exact Ht].
    assert (0 < 2 ^ 2097) by (apply Z.pow_pos_nonneg; lia). lia. }
  assert (Hu : 2045 <= u) by (unfold u; lia).
  assert (Hu0 : 0 < u) by lia.
  pose proof (@pow_u_pos N d) as Hp. cbv zeta in Hp. fold u in Hp.
  destruct (Z.eq_dec u 2045) as [E|Hne].
  - assert (Hm : 2 ^ 53 <= Py.round_half_even N (d * 2 ^ u)).
    { apply rhe_round_up; [nia|reflexivity|].
      rewrite E.
      assert (H1 : (2 * 2 ^ 53 - 1) * 2 ^ 2045 = 2 * (2 ^ 2098 - 2 ^ 2044)) by reflexivity.
      assert (H2 : (2 * 2 ^ 53 - 1) * (d * 2 ^ 2045) = (2 * (2 ^ 2098 - 2 ^ 2044)) * d).
      { rewrite <- H1. ring. }
      rewrite H2. remember (2 ^ 2098 - 2 ^ 2044) as B. clear HeqB H1 H2. nia. }
    rewrite E in *.
    assert (H3 : 2 ^ 2098 = 2 ^ 53 * 2 ^ 2045) by reflexivity.
    rewrite H3. apply Z.mul_le_mono_nonneg_r; [lia|exact Hm].
  - assert (Hm : 2 ^ 52 <= Py.round_half_even N (d * 2 ^ u)).
    { apply (@significand_lower N d d_pos). fold u. exact Hu0. }
    assert (H3 : 2 ^ 2098 <= 2 ^ 52 * 2 ^ u).
    { rewrite <- Z.pow_add_r by lia. apply Z.pow_le_mono_r; lia. }
    assert (0 < 2 ^ 52) by (apply Z.pow_pos_nonneg; lia).
    remember (2 ^ 2098) as B. remember (2 ^ 52) as C. remember (2 ^ u) as E.
    clear HeqB HeqC HeqE. nia.
Qed.

End Overflow.

(** A finite result comes from less than [2^1024 - 2^970]. *)
Lemma binary64_finite : forall (q r : Q),
  (0 <= q)%Q -> Py.binary64 q = Py.Finite r -> (q < inject_Z (2 ^ 1024 - 2 ^ 970))%Q.
Proof.
  intros [n d] r Hq Hr. unfold Qle in Hq. cbn [Qnum Qden] in Hq.
  rewrite Z.mul_1_r in Hq. change (0 * Zpos d) with 0 in Hq.
  unfold Qlt. cbn [Qnum Qden inject_Z]. rewrite Z.mul_1_r.
  unfold Py.binary64 in Hr. cbn [Qnum Qden] in Hr.
  destruct (n <=? 0) eqn:En.
  { apply Z.leb_le in En. assert (0 < 2 ^ 1024 - 2 ^ 970) by (vm_compute; reflexivity).
    remember (2 ^ 1024 - 2 ^ 970) as T. clear HeqT. nia. }
  apply Z.leb_gt in En.
  destruct (2 ^ 2098 <=? _) eqn:Eov; [discriminate|]. apply Z.leb_gt in Eov.
  destruct (Z_lt_le_dec (n * 1) ((2 ^ 1024 - 2 ^ 970) * Zpos d)) as [Hlt|Hge];
    [lia|exfalso].
  assert (HN : 0 <= n * 2 ^ 1074).
  { assert (0 < 2 ^ 1074) by (apply Z.pow_pos_nonneg; lia). nia. }
  assert (H : (2 ^ 1024 - 2 ^ 970) * 2 ^ 1074 * Zpos d <= n * 2 ^ 1074).
  { assert (0 < 2 ^ 1074) by (apply Z.pow_pos_nonneg; lia).
    remember (2 ^ 1024 - 2 ^ 970) as T. remember (2 ^ 1074) as P.
    clear HeqT HeqP Eov Hr HN. nia. }
  pose proof (@overflow_reached (n * 2 ^ 1074) (Zpos d) ltac:(lia) H) as Hov.
  cbv zeta in Hov. lia.
Qed.

End FloatFacts.

(** ** C8: the capital *)

Module CapitalFacts.
Import Re ReSem ReFacts ReInv GroupFacts Borme.

(** Replacing one character by a string works character by character. *)
Lemma replace_char : forall c new s,
  Py.replace [c] new s = flat_map (Py.subst_char c new) s.
Proof.
  intros c new s. unfold Py.replace. induction s as [|x s IH]; [reflexivity|].
  cbn [Py.replace_aux Py.startswith flat_map length Nat.sub].
  replace (Py.startswith s []) with true by (destruct s; reflexivity).
  rewrite andb_true_r. unfold Py.subst_char at 1. destruct (N.eqb c x).
  - now rewrite IH.
  - cbn [app]. now rewrite IH.
Qed.

Lemma flat_map_id : forall (f : char -> pystr) (s : pystr),
  Forall (fun x => f x = [x]) s -> flat_map f s = s.
Proof.
  intros f s H. induction H as [|x s Hx _ IH]; [reflexivity|].
  cbn [flat_map]. now rewrite Hx, IH.
Qed.

Lemma digit_not_sep : forall x, digit x = true -> x <> chr "." /\ x <> chr ",".
Proof.
  intros x H. split; intros ->; vm_compute in H; discriminate.
Qed.

Lemma digit_not_space : forall x, digit x = true -> space x = false.
Proof.
  intros x H. unfold digit, Unicode.isdecimal, Unicode.digit_value in H.
  destruct (find _ Unicode.nd_zeros) as [z|] eqn:E; [|discriminate].
  apply find_some in E. destruct E as [Hin Hr].
  unfold space, Unicode.isspace, Unicode.in_range in *.
  apply andb_true_iff in Hr. destruct Hr as [H1 H2].
  apply N.leb_le in H1. apply N.leb_le in H2.
  cbv [Unicode.nd_zeros In] in Hin.
  repeat (destruct Hin as [<-|Hin];
          [repeat (apply orb_false_iff; split);
           try apply andb_false_iff;
           try (apply N.eqb_neq; lia);
           try (left; apply N.leb_gt; lia);
           try (right; apply N.leb_gt; lia)|]).
  contradiction.
Qed.


Lemma split_no_sep : forall sep s,
  Forall (fun x => x <> sep) s -> Py.split sep s = [s].
Proof.
  intros sep s H. induction H as [|x s Hx _ IH]; [reflexivity|].
  cbn [Py.split]. apply N.eqb_neq in Hx. rewrite Hx, IH. reflexivity.
Qed.

Lemma split_app_sep : forall sep s rest,
  Forall (fun x => x <> sep) s ->
  Py.split sep (s ++ sep :: rest) = s :: Py.split sep rest.
Proof.
  intros sep s rest H. induction H as [|x s Hx _ IH].
  - cbn [app Py.split]. now rewrite N.eqb_refl.
  - cbn [app Py.split]. apply N.eqb_neq in Hx. rewrite Hx, IH. reflexivity.
Qed.

Lemma digits_value_fold : forall s acc,
  Forall (fun x => digit x = true) s ->
  Py.digits_value acc s
  = Some (fold_left (fun acc c =>
                       (10 * acc + match Unicode.digit_value c with
                                   | Some d => d
                                   | None => 0
                                   end)%N) s acc).
Proof.
  induction s as [|x s IH]; intros acc H; [reflexivity|].
  inversion H as [|? ? Hx Hs]; subst.
  cbn [Py.digits_value fold_left].
  unfold digit, Unicode.isdecimal in Hx.
  destruct (Unicode.digit_value x) as [d|]; [|discriminate].
  now apply IH.
Qed.

Lemma digits_value_N : forall s,
  Forall (fun x => digit x = true) s -> Py.digits_value 0 s = Some (digits_N s).
Proof. intros s H. now apply digits_value_fold. Qed.

Lemma subst_char_digit : forall c new x,
  c = chr "." \/ c = chr "," -> digit x = true -> Py.subst_char c new x = [x].
Proof.
  intros c new x Hc Hx. unfold Py.subst_char.
  apply digit_not_sep in Hx. destruct Hx as [H1 H2].
  destruct (N.eqb c x) eqn:E; [|reflexivity]. apply N.eqb_eq in E.
  destruct Hc; congruence.
Qed.

Lemma subst_digits : forall c new (s : pystr),
  c = chr "." \/ c = chr "," -> Forall (fun x => digit x = true) s ->
  flat_map (Py.subst_char c new) s = s.
Proof.
  intros c new s Hc H. apply flat_map_id.
  eapply Forall_impl; [|exact H]. cbn beta. intros x Hx. now apply subst_char_digit.
Qed.

Lemma digits_no_sep : forall c (s : pystr),
  c = chr "." \/ c = chr "," -> Forall (fun x => digit x = true) s ->
  Forall (fun x => x <> c) s.
Proof.
  intros c s Hc H. eapply Forall_impl; [|exact H]. cbn beta. intros x Hx.
  apply digit_not_sep in Hx. destruct Hx. destruct Hc; congruence.
Qed.

(** The groups of a printed amount, joined by periods, lose the periods. *)
Lemma drop_periods_groups : forall groups,
  Forall (fun g => g <> [] /\ Forall (fun x => digit x = true) g) groups ->
  flat_map (Py.subst_char (chr ".") []) (Py.join (py ".") groups) = concat groups.
Proof.
  intros groups H. induction H as [|g gs [_ Hg] Hgs IH]; [reflexivity|].
  pose proof (@subst_digits (chr ".") [] g (or_introl eq_refl) Hg) as Hgid.
  destruct gs as [|g' gs].
  - change (Py.join (py ".") [g]) with g. cbn [concat]. rewrite app_nil_r. exact Hgid.
  - change (Py.join (py ".") (g :: g' :: gs))
      with (g ++ py "." ++ Py.join (py ".") (g' :: gs)).
    rewrite !flat_map_app. cbn [concat]. f_equal; [exact Hgid|].
    etransitivity; [|exact IH]. reflexivity.
Qed.

Lemma concat_digits : forall groups,
  Forall (fun g => g <> [] /\ Forall (fun x => digit x = true) g) groups ->
  Forall (fun x => digit x = true) (concat groups).
Proof.
  intros groups H. induction H as [|g gs [_ Hg] _ IH]; [constructor|].
  cbn [concat]. apply Forall_app. auto.
Qed.

Lemma concat_nonempty : forall groups,
  groups <> [] ->
  Forall (fun g => g <> [] /\ Forall (fun x => digit x = true) g) groups ->
  concat groups <> [].
Proof.
  intros [|g gs] Hn H; [contradiction|]. inversion H as [|? ? [Hg _] _]; subst.
  cbn [concat]. destruct g; [contradiction|discriminate].
Qed.

(** A printed amount, once the periods are dropped and the comma is turned
    into a period, is a literal that denotes the number of the amount. *)
Lemma decimal_printed : forall amount groups frac,
  printed_amount amount groups frac ->
  Py.decimal_value (Py.replace (py ",") (py ".") (Py.replace (py ".") [] amount))
  = Some (printed_value groups frac).
Proof.
  intros amount groups frac (-> & Hne & Hg & Hf).
  change (Py.replace (py ",")) with (Py.replace [chr ","]).
  change (Py.replace (py ".") []) with (Py.replace [chr "."] []).
  rewrite !replace_char.
  pose proof (concat_digits Hg) as Hcd.
  pose proof (concat_nonempty Hne Hg) as Hcn.
  rewrite flat_map_app, (drop_periods_groups Hg).
  destruct frac as [f|].
  - destruct Hf as [Hfn Hfd].
    change (py "," ++ f) with (chr "," :: f). cbn [flat_map].
    change (Py.subst_char (chr ".") [] (chr ",")) with [chr ","].
    rewrite (@subst_digits (chr ".") [] f (or_introl eq_refl) Hfd).
    rewrite flat_map_app. cbn [flat_map app].
    change (Py.subst_char (chr ",") (py ".") (chr ",")) with [chr "."].
    rewrite (@subst_digits (chr ",") (py ".") _ (or_intror eq_refl) Hcd).
    rewrite (@subst_digits (chr ",") (py ".") _ (or_intror eq_refl) Hfd).
    unfold Py.decimal_value. cbn [app]. change 46%N with (chr ".").
    rewrite (split_app_sep _ (@digits_no_sep (chr ".") _ (or_introl eq_refl) Hcd)).
    rewrite (split_no_sep (@digits_no_sep (chr ".") _ (or_introl eq_refl) Hfd)).
    rewrite (digits_value_N Hcd), (digits_value_N Hfd).
    unfold printed_value.
    destruct (concat groups); [contradiction|]. destruct f; [contradiction|].
    reflexivity.
  - cbn [flat_map]. rewrite !app_nil_r.
    rewrite (@subst_digits (chr ",") (py ".") _ (or_intror eq_refl) Hcd).
    unfold Py.decimal_value. change 46%N with (chr ".").
    rewrite (split_no_sep (@digits_no_sep (chr ".") _ (or_introl eq_refl) Hcd)).
    unfold Py.int. rewrite (digits_value_N Hcd). unfold printed_value.
    destruct (concat groups); [contradiction|]. reflexivity.
Qed.

(** [float] of that literal is the binary64 number nearest to the number
    of the amount. *)
Lemma float_printed : forall amount groups frac,
  printed_amount amount groups frac ->
  Py.float (Py.replace (py ",") (py ".") (Py.replace (py ".") [] amount))
  = Some (Py.binary64 (printed_value groups frac)).
Proof.
  intros amount groups frac H. unfold Py.float.
  now rewrite (decimal_printed H).
Qed.

(** *** Where the pattern matches and what it captures *)

Lemma span_unique : forall (P : char -> bool) (l1 r1 l2 r2 : pystr),
  l1 ++ r1 = l2 ++ r2 ->
  Forall (fun x => P x = true) l1 -> Forall (fun x => P x = true) l2 ->
  stops P r1 -> stops P r2 -> l1 = l2 /\ r1 = r2.
Proof.
  intros P l1. induction l1 as [|x l1 IH]; intros r1 l2 r2 H H1 H2 S1 S2.
  - destruct l2 as [|y l2]; [auto|]. simpl in H. subst r1.
    inversion H2; subst. simpl in S1. congruence.
  - destruct l2 as [|y l2].
    + simpl in H. subst r2. inversion H1; subst. simpl in S2. congruence.
    + simpl in H. inversion H; subst. inversion H1; subst. inversion H2; subst.
      destruct (IH r1 l2 r2) as [-> ->]; auto.
Qed.

Lemma amount_char_cases : forall x,
  amount_char x = true -> digit x = true \/ x = chr "." \/ x = chr ",".
Proof.
  intros x H. unfold amount_char, either in H. apply orb_true_iff in H.
  destruct H as [H|H]; [now left|right].
  unfold one_of, Py.cmem in H. change (py ".,") with [chr "."; chr ","] in H.
  cbn [existsb] in H. rewrite orb_false_r in H. apply orb_true_iff in H.
  destruct H as [H|H]; apply N.eqb_eq in H; auto.
Qed.

Lemma amount_char_not_space : forall x, amount_char x = true -> space x = false.
Proof.
  intros x H. apply amount_char_cases in H.
  destruct H as [H|[->| ->]]; [now apply digit_not_space|reflexivity|reflexivity].
Qed.

Lemma space_not_amount_char : forall x, space x = true -> amount_char x = false.
Proof.
  intros x H. destruct (amount_char x) eqn:E; [|reflexivity].
  apply amount_char_not_space in E. congruence.
Qed.

Lemma printed_amount_chars : forall amount groups frac,
  printed_amount amount groups frac ->
  amount <> [] /\ Forall (fun x => amount_char x = true) amount.
Proof.
  intros amount groups frac (-> & Hne & Hg & Hf).
  assert (Hd : forall s : pystr, Forall (fun x => digit x = true) s ->
                                 Forall (fun x => amount_char x = true) s).
  { intros s H. eapply Forall_impl; [|exact H]. cbn beta. intros x Hx.
    unfold amount_char, either. now rewrite Hx. }
  assert (Hj : Forall (fun x => amount_char x = true) (Py.join (py ".") groups)
               /\ Py.join (py ".") groups <> []).
  { clear Hf. induction Hg as [|g gs [Hgn Hgd] Hgs IH]; [contradiction|].
    destruct gs as [|g' gs].
    - change (Py.join (py ".") [g]) with g. auto.
    - change (Py.join (py ".") (g :: g' :: gs))
        with (g ++ chr "." :: Py.join (py ".") (g' :: gs)).
      split.
      + apply Forall_app. split; [auto|]. constructor; [reflexivity|].
        apply IH. discriminate.
      + destruct g; [contradiction|discriminate]. }
  destruct Hj as [Hj1 Hj2]. split.
  - destruct (Py.join (py ".") groups); [contradiction|discriminate].
  - apply Forall_app. split; [exact Hj1|].
    destruct frac as [f|]; [|constructor].
    destruct Hf as [_ Hf]. change (py "," ++ f) with (chr "," :: f).
    constructor; [reflexivity|auto].
Qed.

(** The pattern at a position where a label, an amount and the currency
    stand: it matches, and every match captures the amount. *)
Lemma capital_matches_here : forall b sep sp1 amount sp2 post,
  sep = chr "." \/ sep = chr ":" ->
  Forall (fun x => space x = true) sp1 -> Forall (fun x => space x = true) sp2 ->
  amount <> [] -> Forall (fun x => amount_char x = true) amount ->
  exists s', Matches CAPITAL_RE
               (St b (py "Capital" ++ [sep] ++ sp1 ++ amount ++ sp2 ++ py "Euros" ++ post) [])
               s'.
Proof.
  intros b sep sp1 amount sp2 post Hsep H1 H2 Hne Ha.
  eexists. unfold CAPITAL_RE.
  apply M_seq_cons. eexists. split.
  { apply M_lit. eexists. split; reflexivity. }
  apply M_seq_cons. eexists. split.
  { apply M_chr. exists sep. eexists. split; [reflexivity|]. split; [|reflexivity].
    destruct Hsep as [->| ->]; reflexivity. }
  apply M_seq_cons. eexists. split.
  { unfold ws, star. apply M_rep_chr. exists sp1. eexists.
    split; [reflexivity|]. split; [reflexivity|]. split; [exact H1|].
    split; [lia|exact I]. }
  apply M_seq_cons. eexists. split.
  { apply M_group. eexists. split; [|reflexivity].
    unfold plus. apply M_rep_chr. exists amount. eexists.
    split; [reflexivity|]. split; [reflexivity|]. split; [exact Ha|].
    split; [destruct amount; [contradiction|simpl; lia]|exact I]. }
  norm. apply M_seq_cons. eexists. split.
  { unfold ws, star. apply M_rep_chr. exists sp2. eexists.
    split; [reflexivity|]. split; [reflexivity|]. split; [exact H2|].
    split; [lia|exact I]. }
  apply M_seq_one. apply M_lit. eexists. split; reflexivity.
Qed.

Lemma capital_match_inv : forall b a s',
  Matches CAPITAL_RE (St b a []) s' ->
  exists sep w1 g w2 rest,
    a = py "Capital" ++ [sep] ++ w1 ++ g ++ w2 ++ py "Euros" ++ rest
    /\ (sep = chr "." \/ sep = chr ":")
    /\ Forall (fun x => space x = true) w1
    /\ g <> [] /\ Forall (fun x => amount_char x = true) g
    /\ Forall (fun x => space x = true) w2
    /\ cap s' = [(1, (length b + 8 + length w1, length b + 8 + length w1 + length g))].
Proof.
  intros b a s' HM. unfold CAPITAL_RE in HM.
  peel HM s1. inv_lit H.
  peel HM s2. inv_chr H sep Hsep.
  peel HM s3. unfold ws, star in H. inv_rep H w1 Hw1 Hlo1 Hhi1.
  peel HM s4. inv_group H. unfold plus in H. inv_rep H g Hg Hlog Hhig.
  peel HM s5. unfold ws, star in H. inv_rep H w2 Hw2 Hlo2 Hhi2.
  apply M_seq_one in HM. inv_lit HM.
  exists sep, w1, g, w2, a. split; [reflexivity|]. split.
  { unfold one_of, Py.cmem in Hsep. change (py ".:") with [chr "."; chr ":"] in Hsep.
    cbn [existsb] in Hsep. rewrite orb_false_r in Hsep. apply orb_true_iff in Hsep.
    destruct Hsep as [Hsep|Hsep]; apply N.eqb_eq in Hsep; auto. }
  split; [exact Hw1|].
  split; [destruct g; [simpl in Hlog; lia|discriminate]|].
  split; [exact Hg|]. split; [exact Hw2|].
  repeat (rewrite ?length_app, ?length_rev; cbn [length]).
  change (length (py "Capital")) with 7. do 2 f_equal. f_equal; lia.
Qed.

(** A match is a labelled amount. *)
Lemma capital_match_labelled : forall b a s',
  Matches CAPITAL_RE (St b a []) s' -> exists g, labelled_amount a g.
Proof.
  intros b a s' HM.
  destruct (capital_match_inv HM) as (sep & w1 & g & w2 & rest & Ha & Hsep & Hw1
                                      & Hgn & Hg & Hw2 & _).
  exists g, sep, w1, w2, rest. tauto.
Qed.

Lemma capital_search : forall pre sep sp1 amount sp2 post,
  (forall pre' a' amount',
      pre' ++ a' = pre ++ py "Capital" ++ [sep] ++ sp1 ++ amount ++ sp2
                       ++ py "Euros" ++ post ->
      length pre' < length pre -> ~ labelled_amount a' amount') ->
  sep = chr "." \/ sep = chr ":" ->
  Forall (fun x => space x = true) sp1 -> Forall (fun x => space x = true) sp2 ->
  amount <> [] -> Forall (fun x => amount_char x = true) amount ->
  exists m,
    search CAPITAL_RE
      (pre ++ py "Capital" ++ [sep] ++ sp1 ++ amount ++ sp2 ++ py "Euros" ++ post)
    = Some m
    /\ group (pre ++ py "Capital" ++ [sep] ++ sp1 ++ amount ++ sp2 ++ py "Euros" ++ post)
             m 1 = Some amount.
Proof.
  intros pre sep sp1 amount sp2 post Hno Hsep Hsp1 Hsp2 Hne Ha.
  set (rest := py "Capital" ++ [sep] ++ sp1 ++ amount ++ sp2 ++ py "Euros" ++ post) in *.
  assert (Hhere : forall b, exists s', Matches CAPITAL_RE (St b rest []) s').
  { intros b. now apply capital_matches_here. }
  unfold search. destruct (search_from CAPITAL_RE [] (pre ++ rest)) as [m|] eqn:E.
  - exists m. split; [reflexivity|].
    apply search_from_Some in E.
    destruct E as (pre' & post' & Hbody & Hm & Hearlier).
    pose proof Hm as Hm'. apply match_here_Some in Hm'.
    destruct Hm' as (s' & HM & ->).
    pose proof (capital_match_inv HM) as (sep' & w1 & g & w2 & rest' & Hpost & Hsep'
                                          & Hw1 & Hgn & Hg & Hw2 & Hcap).
    assert (Hsame : pre' = pre /\ post' = rest).
    { pose proof Hbody as Hbody'.
      apply app_eq_app in Hbody. destruct Hbody as (u & [[Hp Hr]|[Hp Hr]]).
      - (* the match starts inside [pre], or at the label when [u] is empty *)
        destruct u as [|c u].
        + rewrite app_nil_r in Hp. cbn [app] in Hr. auto.
        + exfalso. apply (Hno pre' post' g).
          * symmetry. exact Hbody'.
          * rewrite Hp, length_app. cbn [length]. lia.
          * exists sep', w1, w2, rest'. tauto.
      - (* the match starts after the label began: an earlier match exists *)
        destruct u as [|c u].
        + rewrite app_nil_r in Hp. cbn [app] in Hr. auto.
        + exfalso. destruct (Hhere (rev pre ++ [])) as (s0 & Hs0).
          eapply match_here_None; [|exact Hs0].
          rewrite Hr. apply (Hearlier pre (c :: u)); [exact Hp|discriminate]. }
    destruct Hsame as [-> Hr]. rewrite Hr in Hpost. clear Hr.
    unfold rest in Hpost. apply app_inv_head in Hpost.
    cbn [app] in Hpost. inversion Hpost as [[Hs Hrest]]. subst sep'.
    destruct (@span_unique space sp1 _ w1 _ Hrest Hsp1 Hw1) as [<- Hrest'].
    { destruct amount as [|x amount]; [contradiction|]. cbn [app stops].
      inversion Ha; subst. now apply amount_char_not_space. }
    { destruct g as [|x g]; [contradiction|]. cbn [app stops].
      inversion Hg; subst. now apply amount_char_not_space. }
    destruct (@span_unique amount_char amount _ g _ Hrest' Ha Hg) as [<- _].
    { destruct sp2 as [|x sp2]; [reflexivity|]. cbn [app stops].
      inversion Hsp2; subst. now apply space_not_amount_char. }
    { destruct w2 as [|x w2]; [reflexivity|]. cbn [app stops].
      inversion Hw2; subst. now apply space_not_amount_char. }
    unfold group. cbn [m_caps]. rewrite Hcap. cbn [lookup Nat.eqb].
    f_equal.
    apply slice_mid with (pre := pre ++ py "Capital" ++ [sep] ++ sp1)
                         (post := sp2 ++ py "Euros" ++ post).
    + unfold rest. repeat (rewrite <- app_assoc; cbn [app]). reflexivity.
    + repeat (rewrite ?length_app, ?length_rev; cbn [length]).
      change (length (py "Capital")) with 7. lia.
    + repeat (rewrite ?length_app, ?length_rev; cbn [length]).
      change (length (py "Capital")) with 7. lia.
  - exfalso. destruct (Hhere (rev pre ++ [])) as (s0 & Hs0).
    eapply match_here_None; [|exact Hs0].
    now apply (@search_from_None _ _ _ E pre rest).
Qed.

(** The search finds the first labelled amount and captures its amount. *)
Lemma first_amount_found : forall body i amount,
  first_labelled_amount body i amount ->
  exists m, search CAPITAL_RE body = Some m /\ group body m 1 = Some amount.
Proof.
  intros body i amount (Hi & (sep & sp1 & sp2 & post & Ha & Hsep & H1 & H2 & Hne & Hc)
                        & Hfirst).
  assert (Hb : body = Py.upto i body ++ Py.from i body).
  { unfold Py.upto, Py.from. symmetry. apply firstn_skipn. }
  assert (Hl : length (Py.upto i body) = i).
  { unfold Py.upto. rewrite length_firstn. lia. }
  rewrite Ha in Hb. rewrite Hb.
  apply capital_search; try assumption.
  intros pre' a' amount' He Hlt. rewrite <- Hb in He. rewrite Hl in Hlt.
  assert (Ha' : a' = Py.from (length pre') body).
  { rewrite <- He. unfold Py.from. now rewrite skipn_app, skipn_all, Nat.sub_diag. }
  rewrite Ha'. now apply Hfirst.
Qed.

(** Without any labelled amount the search finds nothing. *)
Lemma no_amount_no_match : forall body,
  (forall i amount, ~ labelled_amount (Py.from i body) amount) ->
  search CAPITAL_RE body = None.
Proof.
  intros body Hno. unfold search.
  destruct (search_from CAPITAL_RE [] body) as [m|] eqn:E; [|reflexivity].
  exfalso. apply search_from_Some in E.
  destruct E as (pre' & post' & Hbody & Hm & _).
  apply match_here_Some in Hm. destruct Hm as (s' & HM & _).
  destruct (capital_match_labelled HM) as (g & Hg).
  apply (Hno (length pre') g).
  rewrite Hbody. unfold Py.from. now rewrite skipn_app, skipn_all, Nat.sub_diag.
Qed.

(** The number of a printed amount is not negative. *)
Lemma printed_value_nonneg : forall groups frac, (0 <= printed_value groups frac)%Q.
Proof.
  intros groups [f|]; unfold printed_value.
  - rewrite Qred_correct. unfold Qle. cbn [Qnum Qden]. lia.
  - unfold Qle. cbn [Qnum Qden inject_Z]. lia.
Qed.

End CapitalFacts.

(** C8, as amended.  The capital comes from the first labelled amount of
    the body: the label, a period or a colon, optional spaces, a run of
    digits, periods and commas, optional spaces and "Euros".  The field is
    what [float] makes of that run once its periods are dropped and its comma
    is turned into a period.  For a run in the printed convention (groups of
    digits separated by periods, optionally a comma and the decimals), with
    [v] the decimal number that the run denotes, the field is set: to a
    binary64 number to which no binary64 number is nearer to [v] than it is,
    which is [v] itself when [v] is a binary64 number, and then [v] is less
    than [2^1024 - 2^970]; or to infinity, and then [v] is [2^1024 - 2^970]
    or more.  A run that [float] rejects leaves
    the capital unset, and so does a body without labelled amount: the
    function has no way to raise. *)
Theorem capital_in_printed_convention :
  (forall (body : pystr) (i : nat) (amount : pystr),
      Borme.first_labelled_amount body i amount ->
      Borme.entry_capital body
      = Py.float (Py.replace (py ",") (py ".") (Py.replace (py ".") [] amount))
      /\ (forall groups frac,
             Borme.printed_amount amount groups frac ->
             let v := Borme.printed_value groups frac in
             Borme.entry_capital body = Some (Py.binary64 v)
             /\ exists f,
                 Borme.entry_capital body = Some f
                 /\ match f with
                    | Py.Finite r =>
                      Py.is_binary64 r
                      /\ (forall r', Py.is_binary64 r' ->
                                     (Qabs (r - v) <= Qabs (r' - v))%Q)
                      /\ (Py.is_binary64 v -> (r == v)%Q)
                      /\ (v < inject_Z (2 ^ 1024 - 2 ^ 970))%Q
                    | Py.Infinity => (inject_Z (2 ^ 1024 - 2 ^ 970) <= v)%Q
                    end)
      /\ (Py.decimal_value (Py.replace (py ",") (py ".") (Py.replace (py ".") [] amount))
          = None -> Borme.entry_capital body = None))
  /\ (forall body : pystr,
         (forall i amount, ~ Borme.labelled_amount (Py.from i body) amount) ->
         Borme.entry_capital body = None).
Proof.
  split.
  - intros body i amount Hf.
    destruct (CapitalFacts.first_amount_found Hf) as (m & Hs & Hg).
    assert (He : Borme.entry_capital body
                 = Py.float (Py.replace (py ",") (py ".") (Py.replace (py ".") [] amount))).
    { unfold Borme.entry_capital. now rewrite Hs, Hg. }
    split; [exact He|]. split.
    + intros groups frac Hp v.
      assert (Hc : Borme.entry_capital body = Some (Py.binary64 v)).
      { rewrite He. now apply CapitalFacts.float_printed. }
      split; [exact Hc|]. exists (Py.binary64 v). split; [exact Hc|].
      pose proof (CapitalFacts.printed_value_nonneg groups frac) as Hv. fold v in Hv.
      pose proof (FloatFacts.binary64_nearest Hv) as Hn.
      destruct (Py.binary64 v) as [r|] eqn:Eb; [|exact Hn].
      destruct Hn as [Hr Hnear]. split; [exact Hr|]. split; [exact Hnear|].
      split; [|apply (FloatFacts.binary64_finite Hv Eb)].
      intros Hbv. apply (FloatFacts.binary64_exact Hv Hbv Eb).
    + intros Hd. rewrite He. unfold Py.float. now rewrite Hd.
  - intros body Hno. unfold Borme.entry_capital.
    now rewrite (CapitalFacts.no_amount_no_match _ Hno).
Qed.

Lemma capital_in_printed_convention_witness :
  Borme.entry_capital (py ". Constitución. Capital: 3.012,50 Euros. Datos registrales.")
  = Some (Py.Finite (6025 # 2)%Q).
Proof.
  assert (Hp : Borme.printed_amount (py "3.012,50") [py "3"; py "012"] (Some (py "50"))).
  { split; [reflexivity|]. split; [discriminate|]. split.
    - repeat constructor; discriminate.
    - split; [discriminate|]. repeat constructor. }
  assert (Hf : Borme.first_labelled_amount
                 (py ". Constitución. Capital: 3.012,50 Euros. Datos registrales.")
                 16 (py "3.012,50")).
  { split; [vm_compute; clear; lia|]. split.
    - exists (chr ":"), (py " "), (py " "), (py ". Datos registrales.").
      split; [vm_compute; reflexivity|]. split; [now right|].
      split; [repeat constructor|]. split; [repeat constructor|].
      split; [discriminate|repeat constructor].
    - intros j amount' Hj (sep & sp1 & sp2 & post & Ha & _).
      do 16 (destruct j as [|j]; [vm_compute in Ha; discriminate Ha|]).
      clear -Hj. lia. }
  replace (Py.Finite (6025 # 2)%Q)
    with (Py.binary64 (Borme.printed_value [py "3"; py "012"] (Some (py "50"))))
    by (vm_compute; reflexivity).
  exact (proj1 (proj1 (proj2 (proj1 capital_in_printed_convention _ _ _ Hf)) _ _ Hp)).
Defined.

(** A capture that [float] rejects leaves the capital unset. *)
Lemma capital_conversion_failure_example :
  Borme.entry_capital (py ". Capital: 1,000,50 Euros.") = None.
Proof. vm_compute. reflexivity. Qed.

(** The claim as it was stated fails: the capital printed as 3.005,06 is
    stored as a binary64 number that is not 3005.06; an amount of four
    hundred digits is stored as infinity; and a well-formed amount that comes
    after a labelled run that is not a number is not read at all. *)
Lemma capital_is_not_the_decimal_number :
  Borme.printed_amount (py "3.005,06") [py "3"; py "005"] (Some (py "06"))
  /\ Borme.printed_value [py "3"; py "005"] (Some (py "06")) = (150253 # 50)%Q
  /\ Borme.entry_capital (py ". Capital: 3.005,06 Euros.")
     = Some (Py.Finite (6608196824329093 # 2199023255552)%Q)
  /\ ~ (6608196824329093 # 2199023255552 == 150253 # 50)%Q
  /\ Borme.entry_capital (py "Capital: " ++ repeat (chr "9") 400 ++ py " Euros.")
     = Some Py.Infinity
  /\ Borme.entry_capital (py ". Capital: 1,2,3 Euros. Capital: 3.000 Euros.") = None.
Proof.
  split.
  { split; [reflexivity|]. split; [discriminate|]. split.
    - repeat constructor; discriminate.
    - split; [discriminate|]. repeat constructor. }
  split; [vm_compute; reflexivity|].
  split; [vm_compute; reflexivity|].
  split; [intros H; vm_compute in H; discriminate H|].
  split; vm_compute; reflexivity.
Qed.

(** ** Officers: the action type and the rows of a match *)

Import Re ReSem ReFacts Borme.

Module StripFacts.

Lemma lstrip_head : forall s,
  Py.lstrip s = [] \/
  exists c t, Py.lstrip s = c :: t /\ Unicode.isspace c = false.
Proof.
  induction s as [|c t IH]; [now left|]. cbn [Py.lstrip].
  destruct (Unicode.isspace c) eqn:E; [exact IH|]. right. eauto.
Qed.

Lemma lstrip_fixed : forall c t,
  Unicode.isspace c = false -> Py.lstrip (c :: t) = c :: t.
Proof. intros c t H. cbn [Py.lstrip]. now rewrite H. Qed.

Lemma lstrip_idem : forall s, Py.lstrip (Py.lstrip s) = Py.lstrip s.
Proof.
  intros s. destruct (lstrip_head s) as [->|(c & t & -> & H)]; [reflexivity|].
  now apply lstrip_fixed.
Qed.

Lemma lstrip_app : forall l c r,
  Unicode.isspace c = false -> Py.lstrip (l ++ c :: r) = Py.lstrip l ++ c :: r.
Proof.
  induction l as [|x l IH]; intros c r H.
  - now apply lstrip_fixed.
  - cbn [app Py.lstrip]. destruct (Unicode.isspace x); [now apply IH|reflexivity].
Qed.

Lemma rstrip_cons : forall c t,
  Unicode.isspace c = false -> Py.rstrip (c :: t) = c :: Py.rstrip t.
Proof.
  intros c t H. unfold Py.rstrip. cbn [rev].
  rewrite (@lstrip_app _ _ _ H), rev_app_distr. reflexivity.
Qed.

Lemma rstrip_idem : forall s, Py.rstrip (Py.rstrip s) = Py.rstrip s.
Proof.
  intros s. unfold Py.rstrip. now rewrite rev_involutive, lstrip_idem.
Qed.

Lemma lstrip_strip : forall s, Py.lstrip (Py.strip s) = Py.strip s.
Proof.
  intros s. unfold Py.strip.
  destruct (lstrip_head s) as [->|(c & t & -> & H)]; [reflexivity|].
  rewrite (@rstrip_cons _ _ H). now apply lstrip_fixed.
Qed.

Lemma strip_idem : forall s, Py.strip (Py.strip s) = Py.strip s.
Proof.
  intros s. unfold Py.strip at 1. rewrite lstrip_strip.
  unfold Py.strip. apply rstrip_idem.
Qed.

End StripFacts.

Module CargoFacts.











Lemma cmem_In : forall c cs, Py.cmem c cs = true <-> In c cs.
Proof.
  intros c cs. unfold Py.cmem. rewrite existsb_exists. split.
  - intros (x & Hx & E). apply N.eqb_eq in E. now subst.
  - intros H. exists c. split; [exact H|apply N.eqb_refl].
Qed.


Lemma section_prefix_Some : forall c secs r,
  section_prefix c secs = Some r ->
  exists prefix tipo,
    In (prefix, tipo) secs /\ Py.startswith c (prefix ++ py ".") = true /\
    r = (Py.strip (Py.lstrip_chars (py ". ")
                     (Py.strip (Py.from (length prefix) c))), tipo).
Proof.
  intros c. induction secs as [|[prefix tipo] secs IH]; intros r H; [discriminate|].
  cbn [section_prefix] in H.
  destruct (Py.startswith c (prefix ++ py ". ") || Py.startswith c (prefix ++ py "."))
    eqn:E.
  - injection H as <-. exists prefix, tipo. split; [now left|]. split; [|reflexivity].
    apply orb_prop in E. destruct E as [E|E]; [|exact E].
    apply StrFacts.startswith_iff in E. destruct E as (rest & ->).
    apply StrFacts.startswith_iff. exists (32%N :: rest).
    change (py ". ") with (py "." ++ [32%N]). now rewrite <- !app_assoc.
  - destruct (IH r H) as (p & t & Hin & R). exists p, t. split; [now right|exact R].
Qed.





End CargoFacts.

(** ** The matches of [finditer] and [search], completely *)

Module FinditerFacts.
Import Re ReSem ReFacts ReInv.

Lemma app_split_le : forall (A : Type) (l1 l2 l3 l4 : list A),
  l1 ++ l2 = l3 ++ l4 -> length l3 <= length l1 ->
  exists p, l1 = l3 ++ p /\ l4 = p ++ l2.
Proof.
  intros A l1 l2 l3 l4 H Hl. apply app_eq_app in H.
  destruct H as (l & [[H1 H2]|[H1 H2]]).
  - exists l. auto.
  - assert (l = []).
    { apply (f_equal (@length _)) in H1. rewrite length_app in H1.
      destruct l; [reflexivity|cbn [length] in H1; lia]. }
    subst l. rewrite app_nil_r in H1. cbn [app] in H2. subst.
    exists []. now rewrite app_nil_r.
Qed.

(** A match of the text [rev b ++ a] at or after the position between
    [b] and [a], as a match from a position of the engine. *)
Lemma matches_at_split : forall r b a i j c,
  matches_at r (rev b ++ a) i j c -> length b <= i ->
  exists pre post s',
    a = pre ++ post /\ i = length b + length pre /\
    Matches r (St (rev pre ++ b) post []) s' /\ pos_of s' = j /\ cap s' = c.
Proof.
  intros r b a i j c (b0 & a0 & b' & a' & Ht & Hi & Hj & HM) Hle.
  symmetry in Ht. apply app_split_le in Ht; [|rewrite !length_rev; lia].
  destruct Ht as (p & H1 & H2).
  assert (Hb0 : b0 = rev p ++ b).
  { apply (f_equal (@rev _)) in H1. rewrite rev_involutive in H1.
    rewrite H1, rev_app_distr, rev_involutive. reflexivity. }
  exists p, a0, (St b' a' c). subst b0. split; [exact H2|].
  rewrite length_app, length_rev in Hi. split; [lia|]. split; [exact HM|].
  split; [exact Hj|reflexivity].
Qed.

Lemma matches_at_intro : forall r b a s',
  Matches r (St b a []) s' ->
  matches_at r (rev b ++ a) (length b) (pos_of s') (cap s').
Proof.
  intros r b a [b' a' c'] HM. exists b, a, b', a'. repeat split. exact HM.
Qed.

Lemma search_from_complete : forall r b a i j c,
  matches_at r (rev b ++ a) i j c -> length b <= i ->
  exists m, search_from r b a = Some m /\ m_start m <= i.
Proof.
  intros r b a i j c HM Hle.
  destruct (@matches_at_split _ _ _ _ _ _ HM Hle) as (pre & post & s' & -> & -> & HS & _).
  destruct (search_from r b (pre ++ post)) as [m|] eqn:E.
  - exists m. split; [reflexivity|].
    apply search_from_Some in E.
    destruct E as (pre' & post' & Ha & Hm & Hleft).
    apply match_here_matches_at in Hm. destruct Hm as (_ & Hs & _).
    rewrite length_app, length_rev in Hs. rewrite Hs.
    destruct (Nat.le_gt_cases (length pre') (length pre)) as [|Hgt]; [lia|exfalso].
    symmetry in Ha. apply app_split_le in Ha; [|lia].
    destruct Ha as (p2 & -> & ->).
    assert (Hp2 : p2 <> []).
    { intros ->. rewrite app_nil_r in Hgt. lia. }
    specialize (Hleft pre p2 eq_refl Hp2).
    apply (@match_here_None _ _ _ Hleft _ HS).
  - exfalso. pose proof (@search_from_None _ _ _ E pre post eq_refl) as Hn.
    apply (@match_here_None _ _ _ Hn _ HS).
Qed.

(** [re.search]: the match found starts at the least offset at which
    the pattern matches; nothing is found only when nothing matches. *)
Lemma search_least : forall r s m,
  search r s = Some m ->
  matches_at r s (m_start m) (m_end m) (m_caps m) /\
  forall i j c, matches_at r s i j c -> m_start m <= i.
Proof.
  intros r s m H. split.
  - unfold search in H. apply search_from_Some in H.
    destruct H as (pre & post & -> & H & _).
    apply match_here_matches_at in H. destruct H as (H & _).
    rewrite app_nil_r, rev_involutive in H. exact H.
  - intros i j c HM.
    destruct (@search_from_complete r [] s i j c HM (Nat.le_0_l _)) as (m' & E & Hle).
    unfold search in H. rewrite H in E. injection E as <-. exact Hle.
Qed.

Lemma search_nothing : forall r s,
  search r s = None -> forall i j c, ~ matches_at r s i j c.
Proof.
  intros r s H i j c HM.
  destruct (@search_from_complete r [] s i j c HM (Nat.le_0_l _)) as (m' & E & _).
  unfold search in H. rewrite H in E. discriminate.
Qed.

(** [re.finditer] misses no match, when the matches that start earlier are
    not empty and end before it. *)
Lemma finditer_from_complete : forall r budget b a i j c,
  length a < budget ->
  matches_at r (rev b ++ a) i j c -> length b <= i ->
  (forall i' j' c', matches_at r (rev b ++ a) i' j' c' -> i' < i ->
                    i' < j' /\ j' <= i) ->
  exists m, In m (finditer_from budget r b a) /\ m_start m = i.
Proof.
  intros r. induction budget as [|budget IH]; intros b a i j c Hb HM Hle Hno;
    [lia|].
  cbn [finditer_from].
  destruct (@search_from_complete r b a i j c HM Hle) as (m & E & Hmi).
  rewrite E.
  pose proof E as E'. apply search_from_Some in E'.
  destruct E' as (pre & post & Ha & Hm & _).
  apply match_here_matches_at in Hm. destruct Hm as (Hat & Hs & Hbound).
  rewrite length_app, length_rev in Hs, Hbound.
  assert (Htext : rev (rev pre ++ b) ++ post = rev b ++ a).
  { rewrite Ha, rev_app_distr, rev_involutive, <- app_assoc. reflexivity. }
  rewrite Htext in Hat.
  rewrite advance_spec.
  destruct (Nat.eq_dec (m_start m) i) as [Heq|Hne].
  - exists m. split; [now left|exact Heq].
  - assert (Hlt : m_start m < i) by lia.
    destruct (Hno _ _ _ Hat Hlt) as [Hne' Hend].
    destruct (@matches_at_split _ _ _ _ _ _ HM Hle) as (pi & qi & _ & Hai & Hi & _).
    assert (Hia : i <= length b + length a).
    { rewrite Hai, length_app. lia. }
    set (step := Nat.max (m_end m) (S (m_start m)) - length b).
    assert (Hstep : step = m_end m - length b) by (unfold step; lia).
    replace (length a <? step) with false by (symmetry; apply Nat.ltb_ge; lia).
    assert (Htext2 : rev (rev (firstn step a) ++ b) ++ skipn step a = rev b ++ a).
    { rewrite rev_app_distr, rev_involutive, <- app_assoc.
      now rewrite firstn_skipn. }
    destruct (IH (rev (firstn step a) ++ b) (skipn step a) i j c) as (m' & Hin & Hm').
    + rewrite length_skipn. lia.
    + rewrite Htext2. exact HM.
    + rewrite length_app, length_rev, length_firstn. lia.
    + rewrite Htext2. exact Hno.
    + exists m'. split; [right; exact Hin|exact Hm'].
Qed.

Lemma finditer_complete : forall r s i j c,
  matches_at r s i j c ->
  (forall i' j' c', matches_at r s i' j' c' -> i' < i -> i' < j' /\ j' <= i) ->
  exists m, In m (finditer r s) /\ m_start m = i.
Proof.
  intros r s i j c HM Hno. unfold finditer.
  apply (@finditer_from_complete r (S (length s)) [] s i j c);
    [lia|exact HM|cbn [length]; lia|exact Hno].
Qed.

(** The matches of [finditer] come by increasing offsets. *)
Lemma chain_In : forall ms from upto m,
  chain from ms upto -> In m ms -> from <= m_start m /\ m_end m <= upto.
Proof.
  induction ms as [|x ms IH]; intros from upto m H Hin; [destruct Hin|].
  cbn [chain] in H. destruct H as (H1 & H2 & H3).
  destruct Hin as [<-|Hin].
  - split; [exact H1|]. apply chain_bound in H3. exact H3.
  - destruct (IH _ _ _ H3 Hin). lia.
Qed.

Lemma finditer_chain : forall r s, chain 0 (finditer r s) (length s).
Proof.
  intros r s. unfold finditer.
  destruct (finditer_from_spec r (S (length s)) [] s) as [_ H]. exact H.
Qed.

End FinditerFacts.

(** ** The boundary between the name and the body *)

Module BoundaryFacts.
Import Re ReSem ReFacts ReInv FinditerFacts Borme.

Lemma upper_es_not_space : forall x, upper_es x = true -> space x = false.
Proof.
  intros x H. unfold upper_es, either, range, one_of in H.
  apply orb_prop in H. destruct H as [H|H].
  - unfold Unicode.in_range in H. apply andb_prop in H. destruct H as [H1 H2].
    change (chr "A") with 65%N in H1. change (chr "Z") with 90%N in H2.
    apply N.leb_le in H1. apply N.leb_le in H2.
    unfold space, Unicode.isspace, Unicode.in_range.
    repeat (apply orb_false_iff; split);
      try apply andb_false_iff;
      try (apply N.eqb_neq; lia);
      try (left; apply N.leb_gt; lia);
      try (right; apply N.leb_gt; lia).
  - apply CargoFacts.cmem_In in H.
    replace (py "ÁÉÍÓÚÑ") with [193; 201; 205; 211; 218; 209]%N in H
      by (vm_compute; reflexivity).
    cbn [In] in H.
    repeat (destruct H as [<-|H]; [reflexivity|]). contradiction.
Qed.

Lemma period_not_space : space (chr ".") = false.
Proof. reflexivity. Qed.

(** The matches of the pattern are the candidates. *)
Lemma candidate_of_match : forall block i j c,
  matches_at _BODY_START_RE block i j c -> candidate block i j /\ c = [].
Proof.
  intros block i j c (b & a & b' & a' & -> & <- & <- & HM).
  unfold _BODY_START_RE in HM.
  peel HM s1. destruct H as [Hb ->]. cbn [bef rev app behind_ok] in Hb.
  destruct b as [|d b0]; [discriminate|].
  apply andb_prop in Hb. destruct Hb as [Hd _]. apply N.eqb_eq in Hd. subst d.
  peel HM s2. unfold plus in H. inv_rep H gap HF Hlo Hhi.
  apply M_seq_one in HM. cbn [Matches] in HM.
  destruct HM as [(s3 & s4 & Hx & Hr) E]. injection E as -> -> ->.
  inv_chr Hx x Hux. inv_rep Hr low HFl Hlol Hhil.
  destruct low as [|y1 [|y2 low]]; cbn [length] in Hlol; try lia.
  inversion HFl as [|? ? Hy1 HFl']; subst. inversion HFl' as [|? ? Hy2 _]; subst.
  split; [|reflexivity].
  match goal with
  | |- candidate (_ ++ _ ++ _ :: _ ++ ?t) _ _ =>
    exists (rev b0), gap, x, y1, y2, (low ++ t)
  end.
  split. { cbn [rev]. rewrite <- !app_assoc. reflexivity. }
  split. { intros ->. cbn [length] in Hlo. lia. }
  split; [exact HF|]. split; [exact Hux|]. split; [exact Hy1|]. split; [exact Hy2|].
  rewrite length_app, !length_rev. cbn [length]. lia.
Qed.

Lemma match_of_candidate : forall block i j,
  candidate block i j -> matches_at _BODY_START_RE block i j [].
Proof.
  intros block i j
         (before & gap & x & y1 & y2 & after & -> & Hne & HF & Hx & Hy1 & Hy2 & -> & ->).
  exists (chr "." :: rev before), (gap ++ x :: y1 :: y2 :: after),
         (rev gap ++ chr "." :: rev before), (x :: y1 :: y2 :: after).
  split. { cbn [rev]. rewrite rev_involutive, <- app_assoc. reflexivity. }
  split. { cbn [length]. rewrite length_rev. lia. }
  split. { rewrite length_app, length_rev. cbn [length]. rewrite length_rev. lia. }
  unfold _BODY_START_RE. apply M_seq_cons.
  exists (St (chr "." :: rev before) (gap ++ x :: y1 :: y2 :: after) []).
  split. { split; reflexivity. }
  apply M_seq_cons.
  exists (St (rev gap ++ chr "." :: rev before) (x :: y1 :: y2 :: after) []).
  split.
  { unfold plus. apply M_rep_chr. exists gap, (x :: y1 :: y2 :: after).
    repeat split; auto. destruct gap; [congruence|cbn [length]; lia]. }
  apply M_seq_one. split; [|reflexivity].
  exists (St (rev [y1; y2] ++ x :: rev gap ++ chr "." :: rev before) after []).
  apply M_seq.
  exists (St (x :: rev gap ++ chr "." :: rev before) (y1 :: y2 :: after) []).
  split.
  - apply M_chr. exists x, (y1 :: y2 :: after). auto.
  - apply M_rep_chr. exists [y1; y2], after. repeat split; auto.
Qed.

(** A candidate ends where its white space ends. *)
Lemma candidate_end : forall block i j j',
  candidate block i j -> candidate block i j' -> j = j'.
Proof.
  intros block i j j'
    (b1 & g1 & x1 & y1 & z1 & a1 & E1 & _ & HF1 & Hx1 & _ & _ & Hi1 & ->)
    (b2 & g2 & x2 & y2 & z2 & a2 & E2 & _ & HF2 & Hx2 & _ & _ & Hi2 & ->).
  rewrite E1 in E2. apply app_split_le in E2; [|lia].
  destruct E2 as (p & Hb & E2).
  assert (p = []).
  { apply (f_equal (@length _)) in Hb. rewrite length_app in Hb.
    destruct p; [reflexivity|cbn [length] in Hb; lia]. }
  subst p. cbn [app] in E2. injection E2 as E2.
  apply upper_es_not_space in Hx1, Hx2.
  apply app_eq_app in E2. destruct E2 as (l & [[H1 H2]|[H1 H2]]).
  - destruct l as [|w l].
    + rewrite app_nil_r in H1. now subst.
    + injection H2 as <- _. rewrite H1 in HF2. apply Forall_app in HF2.
      destruct HF2 as [_ HF2]. inversion HF2; subst. congruence.
  - destruct l as [|w l].
    + rewrite app_nil_r in H1. now subst.
    + injection H2 as <- _. rewrite H1 in HF1. apply Forall_app in HF1.
      destruct HF1 as [_ HF1]. inversion HF1; subst. congruence.
Qed.

(** Candidates do not overlap. *)
Lemma candidate_apart : forall block i j i' j',
  candidate block i j -> candidate block i' j' -> i' < i -> i' < j' /\ j' <= i.
Proof.
  intros block i j i' j'
    (b1 & g1 & x1 & y1 & z1 & a1 & E1 & _ & _ & _ & _ & _ & -> & _)
    (b2 & g2 & x2 & y2 & z2 & a2 & E2 & Hne & HF2 & _ & _ & _ & -> & ->) Hlt.
  split. { destruct g2; [congruence|cbn [length]; lia]. }
  rewrite E1 in E2. apply app_split_le in E2; [|lia].
  destruct E2 as (p & Hb & E2). subst b1. rewrite length_app in *.
  destruct p as [|d p]; [cbn [length] in Hlt; lia|].
  cbn [app length] in *. injection E2 as _ E2.
  destruct (Nat.le_gt_cases (length g2) (length p)) as [|Hgt]; [lia|exfalso].
  apply app_split_le in E2; [|lia].
  destruct E2 as (q & Hg & E2).
  destruct q as [|w q].
  { rewrite app_nil_r in Hg. subst. lia. }
  injection E2 as <- _. rewrite Hg in HF2. apply Forall_app in HF2.
  destruct HF2 as [_ HF2]. inversion HF2; subst.
  rewrite period_not_space in *. discriminate.
Qed.

Lemma erratum_of_match : forall block p j c,
  matches_at _FE_ERRATAS_RE block p j c -> erratum_at block p.
Proof.
  intros block p j c (b & a & b' & a' & -> & <- & _ & HM).
  unfold _FE_ERRATAS_RE in HM.
  peel HM s1. inv_chr H d Hd. apply N.eqb_eq in Hd. subst d.
  peel HM s2. unfold plus in H. inv_rep H gap HF Hlo Hhi.
  apply M_seq_one in HM. inv_lit HM.
  match goal with
  | |- erratum_at (_ ++ _ :: _ ++ _ ++ ?t) _ => exists (rev b), gap, t
  end.
  split; [reflexivity|]. split. { intros ->. cbn [length] in Hlo. lia. }
  split; [exact HF|]. now rewrite length_rev.
Qed.

Lemma match_of_erratum : forall block p,
  erratum_at block p -> exists j c, matches_at _FE_ERRATAS_RE block p j c.
Proof.
  intros block p (before & gap & after & -> & Hne & HF & ->).
  exists (length (rev (py "Fe de erratas") ++ rev gap ++ chr "." :: rev before)), [].
  exists (rev before), (chr "." :: gap ++ py "Fe de erratas" ++ after),
         (rev (py "Fe de erratas") ++ rev gap ++ chr "." :: rev before), after.
  split. { now rewrite rev_involutive. }
  split. { now rewrite length_rev. }
  split; [reflexivity|].
  unfold _FE_ERRATAS_RE. apply M_seq_cons.
  exists (St (chr "." :: rev before) (gap ++ py "Fe de erratas" ++ after) []).
  split. { apply M_chr. eexists _, _. split; [reflexivity|].
           split; [apply N.eqb_refl|reflexivity]. }
  apply M_seq_cons.
  exists (St (rev gap ++ chr "." :: rev before) (py "Fe de erratas" ++ after) []).
  split.
  { unfold plus. apply M_rep_chr. exists gap, (py "Fe de erratas" ++ after).
    repeat split; auto. destruct gap; [congruence|cbn [length]; lia]. }
  apply M_seq_one. apply M_lit. exists after. split; reflexivity.
Qed.

(** The limit that the notice of errata sets to the scan. *)
Lemma erratum_limit_search : forall block,
  erratum_limit block
    match search _FE_ERRATAS_RE block with
    | Some fe => m_start fe + 1
    | None => length block
    end.
Proof.
  intros block. destruct (search _FE_ERRATAS_RE block) as [fe|] eqn:E.
  - left. apply search_least in E. destruct E as [HM Hleast].
    exists (m_start fe). split; [exact (erratum_of_match HM)|]. split; [|reflexivity].
    intros p' Hp'. destruct (match_of_erratum Hp') as (j & c & HM').
    apply (Hleast _ _ _ HM').
  - right. split; [|reflexivity]. intros p Hp.
    destruct (match_of_erratum Hp) as (j & c & HM).
    apply (search_nothing E HM).
Qed.

(** Every candidate is among the matches that the loop scans. *)
Lemma candidate_in_finditer : forall block i j,
  candidate block i j ->
  exists m, In m (finditer _BODY_START_RE block) /\ m_start m = i /\ m_end m = j.
Proof.
  intros block i j Hc.
  destruct (@finditer_complete _BODY_START_RE block i j [] (match_of_candidate Hc))
    as (m & Hin & Hs).
  - intros i' j' c' HM Hlt. apply candidate_of_match in HM. destruct HM as [HM _].
    apply (candidate_apart Hc HM Hlt).
  - exists m. split; [exact Hin|]. split; [exact Hs|].
    apply GroupFacts.finditer_matches_at in Hin. apply candidate_of_match in Hin.
    destruct Hin as [Hin _]. rewrite Hs in Hin. apply (candidate_end Hin Hc).
Qed.

Lemma chain_before : forall ms1 m ms2 from upto x,
  chain from (ms1 ++ m :: ms2) upto -> In x ms1 -> m_end x <= m_start m.
Proof.
  induction ms1 as [|y ms1 IH]; intros m ms2 from upto x H Hin; [destruct Hin|].
  cbn [app chain] in H. destruct H as (_ & _ & H).
  destruct Hin as [<-|Hin].
  - apply (@chain_In _ _ _ m H). apply in_or_app. right. now left.
  - apply (IH _ _ _ _ _ H Hin).
Qed.

(** The loop stops at the first match that is not followed by a
    legal-form token. *)
Lemma body_start_loop_first : forall block limit ms1 m ms2,
  (forall x, In x ms1 ->
             m_start x + 1 < limit /\
             Py.mem (first_word block (m_end x)) _LEGAL_FORMS = true) ->
  m_start m + 1 < limit ->
  Py.mem (first_word block (m_end m)) _LEGAL_FORMS = false ->
  body_start_loop block limit (ms1 ++ m :: ms2) = m_start m + 1.
Proof.
  intros block limit. induction ms1 as [|y ms1 IH]; intros m ms2 Hpre Hlt Hacc.
  - cbn [app body_start_loop].
    replace (limit <=? m_start m + 1) with false by (symmetry; apply Nat.leb_gt; lia).
    now rewrite Hacc.
  - cbn [app body_start_loop].
    destruct (Hpre y (or_introl eq_refl)) as [Hy1 Hy2].
    replace (limit <=? m_start y + 1) with false by (symmetry; apply Nat.leb_gt; lia).
    rewrite Hy2. apply IH; auto. intros x Hx. apply Hpre. now right.
Qed.

(** The loop leaves the limit in place when every match below it is
    followed by a legal-form token. *)
Lemma body_start_loop_limit : forall block limit ms,
  (forall x, In x ms -> m_start x + 1 < limit ->
             Py.mem (first_word block (m_end x)) _LEGAL_FORMS = true) ->
  body_start_loop block limit ms = limit.
Proof.
  intros block limit. induction ms as [|y ms IH]; intros H; [reflexivity|].
  cbn [body_start_loop].
  destruct (Nat.leb_spec limit (m_start y + 1)) as [|Hlt]; [reflexivity|].
  rewrite (H y (or_introl eq_refl) Hlt). apply IH.
  intros x Hx. apply H. now right.
Qed.

Lemma erratum_limit_unique : forall block l1 l2,
  erratum_limit block l1 -> erratum_limit block l2 -> l1 = l2.
Proof.
  intros block l1 l2 [(p1 & H1 & M1 & ->)|[N1 ->]] [(p2 & H2 & M2 & ->)|[N2 ->]].
  - pose proof (M1 _ H2). pose proof (M2 _ H1). lia.
  - destruct (N2 _ H1).
  - destruct (N1 _ H2).
  - reflexivity.
Qed.

Lemma erratum_limit_le : forall block limit,
  erratum_limit block limit -> limit <= length block.
Proof.
  intros block limit [(p & (before & gap & after & -> & _ & _ & ->) & _ & ->)|[_ ->]];
    [|lia].
  rewrite length_app. cbn [length]. lia.
Qed.

Lemma body_pos_limit : forall block limit,
  erratum_limit block limit ->
  body_pos block = body_start_loop block limit (finditer _BODY_START_RE block).
Proof.
  intros block limit H. unfold body_pos.
  now rewrite (erratum_limit_unique (erratum_limit_search block) H).
Qed.

Lemma accepted_in_finditer : forall block i j,
  accepted block i j ->
  exists m, In m (finditer _BODY_START_RE block) /\ m_start m = i /\
            Py.mem (first_word block (m_end m)) _LEGAL_FORMS = false.
Proof.
  intros block i j [Hc Hacc].
  destruct (candidate_in_finditer Hc) as (m & Hin & Hs & He).
  exists m. rewrite He. auto.
Qed.

(** The boundary at the first accepted candidate below the limit. *)
Lemma first_accepted_boundary : forall block limit i j,
  erratum_limit block limit ->
  accepted block i j ->
  i + 1 < limit ->
  (forall i' j', accepted block i' j' -> i <= i') ->
  body_pos block = i + 1 /\
  entry_empresa block =
    Py.rstrip_chars (py ".") (Py.strip (Py.upto (i + 1) block)) /\
  entry_body block = py ". " ++ Py.strip (Py.from (i + 1) block).
Proof.
  intros block limit i j HL [Hc Hacc] Hlt Hmin.
  assert (Hpos : body_pos block = i + 1).
  { rewrite (body_pos_limit HL).
    destruct (candidate_in_finditer Hc) as (m & Hin & Hs & He).
    destruct (in_split _ _ Hin) as (ms1 & ms2 & Hms). rewrite Hms, <- Hs.
    apply body_start_loop_first.
    - intros x Hx.
      assert (Hxin : In x (Re.finditer _BODY_START_RE block)).
      { rewrite Hms. apply in_or_app. now left. }
      apply GroupFacts.finditer_matches_at in Hxin.
      apply candidate_of_match in Hxin. destruct Hxin as [Hxc _].
      pose proof (FinditerFacts.finditer_chain _BODY_START_RE block) as Hch.
      rewrite Hms in Hch.
      pose proof (@chain_before _ _ _ _ _ _ Hch Hx) as Hbefore.
      assert (Hxlt : Re.m_start x < Re.m_end x).
      { destruct Hxc as (b & g & ? & ? & ? & ? & _ & Hne & _ & _ & _ & _ & -> & ->).
        destruct g; [congruence|cbn [length]; lia]. }
      split; [lia|].
      destruct (Py.mem (first_word block (Re.m_end x)) _LEGAL_FORMS)
        eqn:E; [reflexivity|].
      specialize (Hmin _ _ (conj Hxc E)). lia.
    - lia.
    - rewrite He. exact Hacc. }
  split; [exact Hpos|]. split.
  - unfold entry_empresa. now rewrite Hpos.
  - unfold entry_body. rewrite Hpos.
    pose proof (erratum_limit_le HL).
    replace (i + 1 <? length block) with true by (symmetry; apply Nat.ltb_lt; lia).
    reflexivity.
Qed.

(** The boundary at the limit. *)
Lemma limit_boundary : forall block limit,
  erratum_limit block limit ->
  (forall i j, accepted block i j -> limit <= i + 1) ->
  body_pos block = limit /\
  (limit = length block -> entry_body block = []).
Proof.
  intros block limit HL Hnone.
  assert (Hpos : body_pos block = limit).
  { rewrite (body_pos_limit HL).
    apply body_start_loop_limit. intros x Hx Hlt.
    apply GroupFacts.finditer_matches_at in Hx.
    apply candidate_of_match in Hx. destruct Hx as [Hxc _].
    destruct (Py.mem (first_word block (Re.m_end x)) _LEGAL_FORMS)
      eqn:E; [reflexivity|].
    specialize (Hnone _ _ (conj Hxc E)). lia. }
  split; [exact Hpos|]. intros ->. unfold entry_body. rewrite Hpos.
  now rewrite Nat.ltb_irrefl.
Qed.

End BoundaryFacts.

(** The boundary between the name and the body is one character after the
    start of the white space of the first candidate (a period, white space,
    a capital letter and two lower-case letters) whose following word is no
    legal-form token, when that lies below the limit set by the notice of
    errata; the name is the text before it, trimmed and without its final
    periods, and the body is the rest, trimmed, after a period and a
    space. *)
Theorem boundary_at_first_accepted_candidate : forall block limit i j,
  Borme.erratum_limit block limit ->
  Borme.accepted block i j ->
  i + 1 < limit ->
  (forall i' j', Borme.accepted block i' j' -> i <= i') ->
  Borme.body_pos block = i + 1 /\
  Borme.entry_empresa block =
    Py.rstrip_chars (py ".") (Py.strip (Py.upto (i + 1) block)) /\
  Borme.entry_body block = py ". " ++ Py.strip (Py.from (i + 1) block).
Proof.
  intros block limit i j HL Hacc Hlt Hmin.
  exact (BoundaryFacts.first_accepted_boundary HL Hacc Hlt Hmin).
Qed.

(** When no candidate followed by a word outside the legal-form tokens lies
    below the limit, the boundary is the limit: the offset after the period
    of the notice of errata, or the end of the block, in which case the body
    is empty. *)
Theorem boundary_at_limit : forall block limit,
  Borme.erratum_limit block limit ->
  (forall i j, Borme.accepted block i j -> limit <= i + 1) ->
  Borme.body_pos block = limit /\
  (limit = length block -> Borme.entry_body block = []).
Proof.
  intros block limit HL Hnone.
  exact (BoundaryFacts.limit_boundary HL Hnone).
Qed.


Lemma boundary_at_first_accepted_candidate_witness :
  Borme.body_pos Borme.legal_form_block = 40 + 1 /\
  Borme.entry_empresa Borme.legal_form_block =
    Py.rstrip_chars (py ".") (Py.strip (Py.upto (40 + 1) Borme.legal_form_block)) /\
  Borme.entry_body Borme.legal_form_block =
    py ". " ++ Py.strip (Py.from (40 + 1) Borme.legal_form_block).
Proof.
  apply (@boundary_at_first_accepted_candidate Borme.legal_form_block 86 40 41).
  - pose proof (BoundaryFacts.erratum_limit_search Borme.legal_form_block) as HL.
    replace (match Re.search Borme._FE_ERRATAS_RE Borme.legal_form_block with
             | Some fe => Re.m_start fe + 1
             | None => length Borme.legal_form_block
             end) with 86 in HL by (vm_compute; reflexivity).
    exact HL.
  - split; [|vm_compute; reflexivity].
    exists (py "INVERSIONES LIMITADA SOCIEDAD. Limitada"), (py " "),
           (chr "N"), (chr "o"), (chr "m"),
           (py "bramientos. Adm. Unico: JUAN GARCIA LOPEZ.").
    split; [vm_compute; reflexivity|].
    split; [vm_compute; discriminate|].
    split; [vm_compute; repeat constructor|].
    repeat split; vm_compute; reflexivity.
  - clear; lia.
  - intros i' j' H.
    destruct (BoundaryFacts.accepted_in_finditer H) as (m & Hin & <- & Hacc).
    replace (Re.finditer Borme._BODY_START_RE Borme.legal_form_block)
      with [ {| Re.m_start := 30; Re.m_end := 31; Re.m_caps := [] |};
             {| Re.m_start := 40; Re.m_end := 41; Re.m_caps := [] |};
             {| Re.m_start := 55; Re.m_end := 56; Re.m_caps := [] |};
             {| Re.m_start := 60; Re.m_end := 61; Re.m_caps := [] |} ] in Hin
      by (vm_compute; reflexivity).
    destruct Hin as [<-|[<-|[<-|[<-|[]]]]]; cbn [Re.m_start];
      [vm_compute in Hacc; discriminate|clear; lia..].
Defined.


Lemma boundary_at_limit_witness :
  Borme.body_pos Borme.erratum_block = 8 /\
  (8 = length Borme.erratum_block -> Borme.entry_body Borme.erratum_block = []).
Proof.
  apply (@boundary_at_limit Borme.erratum_block 8).
  - pose proof (BoundaryFacts.erratum_limit_search Borme.erratum_block) as HL.
    replace (match Re.search Borme._FE_ERRATAS_RE Borme.erratum_block with
             | Some fe => Re.m_start fe + 1
             | None => length Borme.erratum_block
             end) with 8 in HL by (vm_compute; reflexivity).
    exact HL.
  - intros i j H.
    destruct (BoundaryFacts.accepted_in_finditer H) as (m & Hin & <- & Hacc).
    replace (Re.finditer Borme._BODY_START_RE Borme.erratum_block)
      with [ {| Re.m_start := 23; Re.m_end := 24; Re.m_caps := [] |};
             {| Re.m_start := 38; Re.m_end := 39; Re.m_caps := [] |};
             {| Re.m_start := 43; Re.m_end := 44; Re.m_caps := [] |} ] in Hin
      by (vm_compute; reflexivity).
    destruct Hin as [<-|[<-|[<-|[]]]]; cbn [Re.m_start]; clear; lia.
Defined.
(** ** C4: the boundary between the name and the body *)

(** C4, as amended.  Every block has a limit: the offset after the period
    of its first notice of errata, or its length when it has none.  The
    candidates are the places where a period, white space, a capital letter
    and two lower-case letters follow one another; a candidate is accepted
    when the word after its white space is no legal-form token, and the
    others are skipped.  When the first accepted candidate starts its white
    space at the offset [i] and [i + 1] lies below the limit, the boundary
    is [i + 1]; when no accepted candidate lies below the limit, the
    boundary is the limit.  The name is the text before the boundary,
    trimmed and without its final periods; the body is what follows the
    boundary, trimmed, after a period and a space, and is empty when the
    boundary is the end of the block. *)
Theorem name_body_boundary :
  (forall block : pystr, exists limit, Borme.erratum_limit block limit)
  /\ (forall (block : pystr) (limit : nat),
         Borme.erratum_limit block limit ->
         limit <= length block
         /\ (forall i j,
                Borme.accepted block i j ->
                (forall i' j', Borme.accepted block i' j' -> i <= i') ->
                i + 1 < limit ->
                Borme.body_pos block = i + 1)
         /\ ((forall i j, Borme.accepted block i j -> limit <= i + 1) ->
             Borme.body_pos block = limit))
  /\ (forall block : pystr,
         Borme.entry_empresa block
         = Py.rstrip_chars (py ".")
             (Py.strip (Py.upto (Borme.body_pos block) block))
         /\ (Borme.body_pos block < length block ->
             Borme.entry_body block
             = py ". " ++ Py.strip (Py.from (Borme.body_pos block) block))
         /\ (length block <= Borme.body_pos block -> Borme.entry_body block = [])).
Proof.
  split; [|split].
  - intros block. eexists. apply BoundaryFacts.erratum_limit_search.
  - intros block limit HL. split; [apply (BoundaryFacts.erratum_limit_le HL)|]. split.
    + intros i j Hacc Hmin Hlt.
      apply (BoundaryFacts.first_accepted_boundary HL Hacc Hlt Hmin).
    + intros Hnone. apply (BoundaryFacts.limit_boundary HL Hnone).
  - intros block. split; [reflexivity|]. unfold Borme.entry_body. split.
    + intros H. apply Nat.ltb_lt in H. now rewrite H.
    + intros H. apply Nat.ltb_ge in H. now rewrite H.
Qed.

Lemma name_body_boundary_witness :
  Borme.body_pos Borme.legal_form_block = 40 + 1.
Proof.
  assert (HL : Borme.erratum_limit Borme.legal_form_block 86).
  { pose proof (BoundaryFacts.erratum_limit_search Borme.legal_form_block) as HL.
    replace (match Re.search Borme._FE_ERRATAS_RE Borme.legal_form_block with
             | Some fe => Re.m_start fe + 1
             | None => length Borme.legal_form_block
             end) with 86 in HL by (vm_compute; reflexivity).
    exact HL. }
  apply (proj1 (proj2 (proj1 (proj2 name_body_boundary) Borme.legal_form_block 86 HL))
           40 41).
  - split; [|vm_compute; reflexivity].
    exists (py "INVERSIONES LIMITADA SOCIEDAD. Limitada"), (py " "),
           (chr "N"), (chr "o"), (chr "m"),
           (py "bramientos. Adm. Unico: JUAN GARCIA LOPEZ.").
    split; [vm_compute; reflexivity|].
    split; [vm_compute; discriminate|].
    split; [vm_compute; repeat constructor|].
    repeat split; vm_compute; reflexivity.
  - intros i' j' H.
    destruct (BoundaryFacts.accepted_in_finditer H) as (m & Hin & <- & Hacc).
    replace (Re.finditer Borme._BODY_START_RE Borme.legal_form_block)
      with [ {| Re.m_start := 30; Re.m_end := 31; Re.m_caps := [] |};
             {| Re.m_start := 40; Re.m_end := 41; Re.m_caps := [] |};
             {| Re.m_start := 55; Re.m_end := 56; Re.m_caps := [] |};
             {| Re.m_start := 60; Re.m_end := 61; Re.m_caps := [] |} ] in Hin
      by (vm_compute; reflexivity).
    destruct Hin as [<-|[<-|[<-|[<-|[]]]]]; cbn [Re.m_start];
      [vm_compute in Hacc; discriminate|clear; lia..].
  - clear; lia.
Defined.

(** The claim as it was stated fails: in a block with a notice of errata
    the first accepted candidate is the period before the first section, at
    the offset 23, but the boundary is the period before the notice, which
    is no candidate (its word has one lower-case letter); the name is cut
    there. *)
Lemma boundary_before_first_candidate :
  Borme.erratum_block
  = py "ACME SL. Fe de erratas. Nombramientos. Adm. Unico: JUAN GARCIA LOPEZ."
  /\ Borme.accepted Borme.erratum_block 23 24
  /\ (forall i j, Borme.accepted Borme.erratum_block i j -> 23 <= i)
  /\ Borme.body_pos Borme.erratum_block = 8
  /\ Borme.entry_empresa Borme.erratum_block = py "ACME SL"
  /\ Py.rstrip_chars (py ".") (Py.strip (Py.upto (23 + 1) Borme.erratum_block))
     = py "ACME SL. Fe de erratas".
Proof.
  split; [reflexivity|]. split.
  { split; [|vm_compute; reflexivity].
    exists (py "ACME SL. Fe de erratas"), (py " "), (chr "N"), (chr "o"), (chr "m"),
           (py "bramientos. Adm. Unico: JUAN GARCIA LOPEZ.").
    split; [vm_compute; reflexivity|].
    split; [vm_compute; discriminate|].
    split; [vm_compute; repeat constructor|].
    repeat split; vm_compute; reflexivity. }
  split.
  { intros i j H.
    destruct (BoundaryFacts.accepted_in_finditer H) as (m & Hin & <- & Hacc).
    replace (Re.finditer Borme._BODY_START_RE Borme.erratum_block)
      with [ {| Re.m_start := 23; Re.m_end := 24; Re.m_caps := [] |};
             {| Re.m_start := 38; Re.m_end := 39; Re.m_caps := [] |};
             {| Re.m_start := 43; Re.m_end := 44; Re.m_caps := [] |} ] in Hin
      by (vm_compute; reflexivity).
    destruct Hin as [<-|[<-|[<-|[]]]]; cbn [Re.m_start]; clear; lia. }
  repeat split; vm_compute; reflexivity.
Qed.

(** ** The rows of a document *)

Module RowFacts.
Import Re ReSem ReFacts Borme.

Lemma track_provincia_cases : forall gap prov,
  In (track_provincia gap prov) PROVINCIAS \/ track_provincia gap prov = prov.
Proof.
  intros gap prov. unfold track_provincia.
  generalize (Py.split 10%N gap). intros lines. revert prov.
  induction lines as [|line lines IH]; intros prov; [now right|].
  cbn [fold_left].
  destruct (Py.mem (Py.strip line) PROVINCIAS) eqn:E.
  - destruct (IH (Py.strip line)) as [H|H]; [now left|].
    left. rewrite H. now apply PyFacts.mem_In.
  - apply IH.
Qed.

(** What one match of the officer pattern contributes. *)
Lemma cargo_rows_inv : forall row body cm rows,
  cargo_rows row body cm = Ok rows ->
  rows = [] \/
  exists label names cargo tipo,
    group body cm 1 = Some label /\ group body cm 2 = Some names /\
    _extract_cargo_and_tipo (Py.strip label) body (m_start cm) = (cargo, tipo) /\
    candidate_rejected (Py.strip label) (Py.strip names) cargo = false /\
    rows = map (officer_row row cargo tipo) (persons (Py.strip names)).
Proof.
  intros row body cm rows H. unfold cargo_rows, group_str in H.
  destruct (group body cm 1) as [label|] eqn:E1; cbn [bind] in H; [|discriminate].
  destruct (group body cm 2) as [names|] eqn:E2; cbn [bind] in H; [|discriminate].
  destruct (excluded (Py.strip label)) eqn:Ex; [injection H as <-; now left|].
  destruct (length _ <? 2) eqn:Ew; [injection H as <-; now left|].
  destruct (_extract_cargo_and_tipo (Py.strip label) body (m_start cm))
    as [cargo tipo] eqn:Hex.
  destruct (Py.eqb cargo [] || excluded cargo) eqn:Ec; [injection H as <-; now left|].
  injection H as <-. right. exists label, names, cargo, tipo.
  split; [reflexivity|]. split; [reflexivity|]. split; [exact Hex|].
  split; [|reflexivity].
  unfold candidate_rejected. rewrite Ex, Ew, Ec. reflexivity.
Qed.

Lemma cargos_loop_inv : forall row body cms rows,
  cargos_loop row body cms = Ok rows ->
  exists rss, Forall2 (fun cm rs => cargo_rows row body cm = Ok rs) cms rss
              /\ rows = concat rss.
Proof.
  intros row body. induction cms as [|cm cms IH]; intros rows H.
  - injection H as <-. exists []. split; [constructor|reflexivity].
  - cbn [cargos_loop] in H.
    destruct (cargo_rows row body cm) as [rs|] eqn:E; cbn [bind] in H; [|discriminate].
    destruct (cargos_loop row body cms) as [more|] eqn:E'; cbn [bind] in H;
      [|discriminate].
    injection H as <-. destruct (IH more eq_refl) as (rss & HF & ->).
    exists (rs :: rss). split; [now constructor|reflexivity].
Qed.

(** The rows of an entry: the company row and, for each match of the
    officer pattern, the officer rows of its persons. *)
Lemma parse_body_inv : forall hdr entry_num empresa body prov r cs,
  parse_body hdr entry_num empresa body prov = Ok (r, cs) ->
  exists objeto domicilio reg,
    r = entry_row hdr entry_num empresa body prov objeto domicilio reg
    /\ objeto = match (if has_label body (py "Constitución")
                       then field_upto OBJETO_RE 500 body else Ok None) with
                | Ok v => v | Raise _ => None end
    /\ entry_domicilio body = Ok domicilio
    /\ entry_registro body = Ok reg
    /\ cargos_loop r body (finditer CARGO_RE body) = Ok cs.
Proof.
  intros hdr entry_num empresa body prov r cs H. unfold parse_body in H.
  destruct (if has_label body (py "Constitución")
            then field_upto OBJETO_RE 500 body else Ok None) as [objeto|] eqn:Eo;
    cbn [bind] in H; [|discriminate].
  destruct (entry_domicilio body) as [domicilio|] eqn:Ed; cbn [bind] in H;
    [|discriminate].
  destruct (entry_registro body) as [reg|] eqn:Er; cbn [bind] in H; [|discriminate].
  destruct (cargos_loop _ body (finditer CARGO_RE body)) as [cargos|] eqn:Ec;
    cbn [bind] in H; [|discriminate].
  injection H as <- <-. exists objeto, domicilio, reg. auto.
Qed.

Lemma entries_loop_entries : forall hdr text prov0 splits gap prov rows cargos,
  entries_loop hdr text gap splits prov = Ok (rows, cargos) ->
  In prov PROVINCIAS \/ prov = prov0 ->
  exists css, Forall2 (entry_of hdr prov0) rows css /\ cargos = concat css.
Proof.
  intros hdr text prov0. induction splits as [|m splits IH];
    intros gap prov rows cargos H Hp.
  - injection H as <- <-. exists []. split; [constructor|reflexivity].
  - cbn [entries_loop] in H.
    set (end_ := match splits with m' :: _ => m_start m' | [] => length text end) in H.
    unfold parse_entry in H.
    destruct (group_str text m 1) as [n|] eqn:E1; cbn [bind] in H; [|discriminate].
    set (prov' := track_provincia (Py.slice gap (m_start m) text) prov) in H.
    destruct (parse_body hdr n (entry_empresa (entry_block text (m_end m) end_))
                         (entry_body (entry_block text (m_end m) end_)) prov')
      as [[r cs]|] eqn:E2; cbn [bind fst snd] in H; [|discriminate].
    destruct (entries_loop hdr text (m_start m) splits prov') as [[rs cs']|] eqn:E3;
      cbn [bind fst snd] in H; [|discriminate].
    injection H as <- <-.
    assert (Hp' : In prov' PROVINCIAS \/ prov' = prov0).
    { destruct (track_provincia_cases (Py.slice gap (m_start m) text) prov) as [Ht|Ht];
        [now left|]. fold prov' in Ht. rewrite Ht. exact Hp. }
    destruct (IH _ _ _ _ E3 Hp') as (css & HF & ->).
    exists (cs :: css). split; [|reflexivity]. constructor; [|exact HF].
    eexists _, _, _, _. split; [exact E2|exact Hp'].
Qed.

(** Every document text is parsed: its rows are the rows of its entries. *)
Lemma parse_text_entries : forall hdr raw,
  exists rows css,
    parse_text hdr raw = Ok (rows, concat css)
    /\ Forall2 (entry_of hdr (h_provincia_filename hdr)) rows css.
Proof.
  intros hdr raw. unfold parse_text.
  pose proof (TotalFacts.finditer_Forall ENTRY_START_RE (_clean raw)) as HF.
  destruct (finditer ENTRY_START_RE (_clean raw)) as [|m ms] eqn:E.
  - exists [], []. split; [reflexivity|constructor].
  - destruct (@TotalFacts.entries_loop_Ok hdr (_clean raw) (m :: ms) 0
                (h_provincia_filename hdr) HF) as (rows & cargos & H & _).
    destruct (@entries_loop_entries hdr (_clean raw) (h_provincia_filename hdr)
                _ _ _ _ _ H (or_intror eq_refl)) as (css & HF2 & ->).
    exists rows, css. split; [exact H|exact HF2].
Qed.

(** What [parse_single_pdf] returns comes from the text of the pages, read
    under the header of the file name, or is empty. *)
Lemma parse_single_pdf_inv : forall open_pdf pdf_path rows cargos,
  snd (parse_single_pdf open_pdf pdf_path) = Ok (rows, cargos) ->
  (rows = [] /\ cargos = []) \/
  exists bm hdr pages,
    rmatch_ FILENAME_RE (PosixPath.name pdf_path) = Some bm
    /\ read_header pdf_path (PosixPath.name pdf_path) bm = Ok hdr
    /\ open_pdf pdf_path = Some pages
    /\ parse_text hdr (Py.join [10%N] (map page_text pages)) = Ok (rows, cargos).
Proof.
  intros open_pdf pdf_path rows cargos H. unfold parse_single_pdf in H.
  destruct (rmatch_ FILENAME_RE (PosixPath.name pdf_path)) as [bm|] eqn:E1.
  - destruct (read_header pdf_path (PosixPath.name pdf_path) bm) as [hdr|] eqn:E2;
      cbn [snd] in H; [|discriminate].
    destruct (open_pdf pdf_path) as [pages|] eqn:E3.
    + right. exists bm, hdr, pages. auto.
    + injection H as <- <-. now left.
  - cbn [snd] in H. injection H as <- <-. now left.
Qed.

Lemma read_header_fields : forall pdf_path fname bm hdr,
  read_header pdf_path fname bm = Ok hdr ->
  h_fname hdr = fname
  /\ h_provincia_filename hdr = dict_get COD_PROVINCIA (h_cod_prov hdr) []
  /\ group fname bm 1 = Some (h_tipo hdr)
  /\ group fname bm 4 = Some (h_cod_prov hdr)
  /\ (exists g3, group fname bm 3 = Some g3 /\ Py.int g3 = Some (h_numero hdr))
  /\ (exists g2 year, group fname bm 2 = Some g2 /\ Py.int g2 = Some year /\
        h_fecha_borme hdr =
        fecha_from_parts (str_of_N year ++ py "-01-01") (PosixPath.parts pdf_path)).
Proof.
  intros pdf_path fname bm hdr H. unfold read_header, group_str, int_exc in H.
  destruct (group fname bm 1) as [g1|]; cbn [bind] in H; [|discriminate].
  destruct (group fname bm 2) as [g2|]; cbn [bind] in H; [|discriminate].
  destruct (Py.int g2) as [year|] eqn:Ey; cbn [bind] in H; [|discriminate].
  destruct (group fname bm 3) as [g3|]; cbn [bind] in H; [|discriminate].
  destruct (Py.int g3) as [numero|] eqn:En; cbn [bind] in H; [|discriminate].
  destruct (group fname bm 4) as [g4|]; cbn [bind] in H; [|discriminate].
  injection H as <-. cbn [h_fname h_provincia_filename h_cod_prov h_tipo h_numero
                          h_fecha_borme].
  repeat split; eauto.
Qed.

(** The rows of a document that was read, entry by entry. *)
Lemma document_entries : forall open_pdf pdf_path rows cargos,
  snd (parse_single_pdf open_pdf pdf_path) = Ok (rows, cargos) ->
  exists hdr css,
    Forall2 (entry_of hdr (h_provincia_filename hdr)) rows css
    /\ cargos = concat css
    /\ (rows <> [] ->
        exists bm, rmatch_ FILENAME_RE (PosixPath.name pdf_path) = Some bm
                   /\ read_header pdf_path (PosixPath.name pdf_path) bm = Ok hdr).
Proof.
  intros open_pdf pdf_path rows cargos H.
  apply parse_single_pdf_inv in H.
  destruct H as [[-> ->]|(bm & hdr & pages & E1 & E2 & _ & H)].
  - exists {| h_tipo := []; h_numero := 0%N; h_cod_prov := [];
              h_provincia_filename := []; h_fecha_borme := []; h_fname := [] |}, [].
    split; [constructor|]. split; [reflexivity|]. congruence.
  - destruct (parse_text_entries hdr (Py.join [10%N] (map page_text pages)))
      as (rows' & css & H' & HF).
    rewrite H in H'. injection H' as <- ->.
    exists hdr, css. split; [exact HF|]. split; [reflexivity|].
    intros _. exists bm. auto.
Qed.

Lemma entry_of_row : forall hdr prov0 r cs,
  entry_of hdr prov0 r cs ->
  exists entry_num empresa body prov objeto domicilio reg,
    r = entry_row hdr entry_num empresa body prov objeto domicilio reg
    /\ (In prov PROVINCIAS \/ prov = prov0)
    /\ objeto = match (if has_label body (py "Constitución")
                       then field_upto OBJETO_RE 500 body else Ok None) with
                | Ok v => v | Raise _ => None end
    /\ entry_domicilio body = Ok domicilio
    /\ entry_registro body = Ok reg
    /\ cargos_loop r body (finditer CARGO_RE body) = Ok cs.
Proof.
  intros hdr prov0 r cs (n & e & body & prov & H & Hp).
  apply parse_body_inv in H. destruct H as (o & d & reg & H).
  exists n, e, body, prov, o, d, reg. tauto.
Qed.

Lemma Forall2_left : forall (A B : Type) (R : A -> B -> Prop) (P : A -> Prop) l l',
  Forall2 R l l' -> (forall a b, R a b -> P a) -> Forall P l.
Proof.
  intros A B R P l l' H HP. induction H; constructor; eauto.
Qed.

Lemma Forall2_concat : forall (A B : Type) (R : A -> list B -> Prop) (P : B -> Prop)
                              l ll,
  Forall2 R l ll -> (forall a bs, In a l -> R a bs -> Forall P bs) ->
  Forall P (concat ll).
Proof.
  intros A B R P l ll H. induction H as [|a bs l ll Hab H IH]; intros HP.
  - constructor.
  - cbn [concat]. apply Forall_app. split.
    + apply (HP a bs); [now left|exact Hab].
    + apply IH. intros a' bs' Hin. apply HP. now right.
Qed.

(** The action type is always one of the five of the section map. *)
Lemma max_key_In : forall items best,
  In (max_key best items) (map fst (best :: items)).
Proof.
  induction items as [|kv items IH]; intros best; [now left|].
  cbn [max_key]. destruct (snd best <? snd kv)%Z.
  - right. apply (IH kv).
  - destruct (IH best) as [H|H]; [now left|]. right. now right.
Qed.

Lemma section_positions_keys : forall pre secs kv,
  In kv (section_positions pre secs) -> In (fst kv) (map snd secs).
Proof.
  intros pre. induction secs as [|[kw tipo] secs IH]; intros kv H; [destruct H|].
  cbn [section_positions] in H. cbn [map snd].
  destruct (Py.rfind pre kw =? -1)%Z.
  - right. now apply IH.
  - destruct H as [<-|H]; [now left|]. right. now apply IH.
Qed.

Lemma extract_tipo_range : forall raw_cargo body start,
  In (snd (_extract_cargo_and_tipo raw_cargo body start)) (map snd SECTION_MAP).
Proof.
  intros raw_cargo body start. unfold _extract_cargo_and_tipo.
  destruct (section_prefix (Py.strip raw_cargo) SECTION_MAP) as [r|] eqn:Hp.
  - apply CargoFacts.section_prefix_Some in Hp.
    destruct Hp as (prefix & tipo & Hin & _ & ->). cbn [snd].
    apply (in_map snd) in Hin. exact Hin.
  - destruct (section_positions (Py.upto start body) SECTION_MAP) as [|kv rest] eqn:E.
    + cbn [snd]. left. reflexivity.
    + cbn [snd]. pose proof (max_key_In rest kv) as H.
      apply in_map_iff in H. destruct H as (kv' & <- & H').
      apply (@section_positions_keys (Py.upto start body)). rewrite E. exact H'.
Qed.

(** Characters survive trimming only if they were there. *)
Lemma lstrip_incl : forall s x, In x (Py.lstrip s) -> In x s.
Proof.
  induction s as [|c s IH]; intros x H; [exact H|]. cbn [Py.lstrip] in H.
  destruct (Unicode.isspace c); [right; now apply IH|exact H].
Qed.

Lemma strip_incl : forall s x, In x (Py.strip s) -> In x s.
Proof.
  intros s x H. unfold Py.strip, Py.rstrip in H.
  apply in_rev in H. apply lstrip_incl in H. apply in_rev in H.
  now apply lstrip_incl.
Qed.

Lemma split_pieces : forall sep s,
  Forall (fun w => Forall (fun x => x <> sep) w) (Py.split sep s).
Proof.
  intros sep. induction s as [|c s IH]; [repeat constructor|].
  cbn [Py.split]. destruct (N.eqb c sep) eqn:E.
  - constructor; [constructor|exact IH].
  - apply N.eqb_neq in E. destruct (Py.split sep s) as [|w ws].
    + repeat constructor. exact E.
    + inversion IH; subst. constructor; [constructor; assumption|assumption].
Qed.

Lemma persons_spec : forall names p,
  In p (persons names) ->
  p <> [] /\ Py.strip p = p /\ ~ In (chr ";") p /\
  exists piece, In piece (Py.split (chr ";") names) /\ p = Py.strip piece.
Proof.
  intros names p H. unfold persons in H. apply filter_In in H.
  destruct H as [H Hne]. apply in_map_iff in H. destruct H as (piece & <- & Hin).
  split. { intros E. rewrite E in Hne. discriminate. }
  split; [apply StripFacts.strip_idem|]. split; [|eauto].
  intros Hs. apply strip_incl in Hs.
  pose proof (split_pieces (chr ";") names) as HF.
  rewrite Forall_forall in HF. specialize (HF _ Hin).
  rewrite Forall_forall in HF. apply (HF _ Hs). reflexivity.
Qed.

Lemma upto_length : forall n s, length (Py.upto n s) <= n.
Proof. intros n s. unfold Py.upto. apply firstn_le_length. Qed.

Lemma field_upto_bound : forall r n body v,
  field_upto r n body = Ok (Some v) -> length v <= n.
Proof.
  intros r n body v H. unfold field_upto in H.
  destruct (search r body) as [m|]; [|discriminate].
  destruct (group_str body m 1) as [g|]; cbn [bind] in H; [|discriminate].
  injection H as <-. apply upto_length.
Qed.

Lemma bind_Ok : forall (A B : Type) (e : exc A) (k : A -> exc B) v,
  bind e k = Ok v -> exists x, e = Ok x /\ k x = Ok v.
Proof.
  intros A B e k v H. destruct e as [x|]; [|discriminate]. exists x. auto.
Qed.

Lemma entry_domicilio_bound : forall body v,
  entry_domicilio body = Ok (Some v) -> length v <= 300.
Proof.
  intros body v H. unfold entry_domicilio in H.
  destruct (search DOMICILIO_RE body) as [m|].
  - apply bind_Ok in H. destruct H as (g & _ & H).
    assert (E : v = Py.upto 300 (Py.strip g)) by congruence.
    rewrite E. apply upto_length.
  - destruct (Py.contains body (py "Cambio de domicilio social.")); [|discriminate].
    apply (@field_upto_bound _ _ _ _ H).
Qed.

Lemma startswith_app : forall p rest, Py.startswith (p ++ rest) p = true.
Proof. intros p rest. apply StrFacts.startswith_iff. now exists rest. Qed.

Lemma join_head : forall sep p ps,
  exists rest, Py.join sep (p :: ps) = p ++ rest.
Proof.
  intros sep p [|q ps]; cbn [Py.join].
  - exists []. now rewrite app_nil_r.
  - eauto.
Qed.

Lemma Forall2_right_In : forall (A B : Type) (R : A -> B -> Prop) l l' b,
  Forall2 R l l' -> In b l' -> exists a, In a l /\ R a b.
Proof.
  intros A B R l l' b H. induction H as [|a b' l l' Hab H IH]; intros Hin;
    [destruct Hin|].
  destruct Hin as [->|Hin].
  - exists a. split; [now left|exact Hab].
  - destruct (IH Hin) as (a' & Ha & HR). exists a'. split; [now right|exact HR].
Qed.

(** The officer rows of an entry, one by one. *)
Lemma entry_officers : forall hdr prov0 r cs c,
  entry_of hdr prov0 r cs -> In c cs ->
  exists body cm label names cargo tipo p,
    In cm (finditer CARGO_RE body)
    /\ group body cm 1 = Some label /\ group body cm 2 = Some names
    /\ _extract_cargo_and_tipo (Py.strip label) body (m_start cm) = (cargo, tipo)
    /\ candidate_rejected (Py.strip label) (Py.strip names) cargo = false
    /\ In p (persons (Py.strip names))
    /\ c = officer_row r cargo tipo p.
Proof.
  intros hdr prov0 r cs c H Hc. apply entry_of_row in H.
  destruct H as (n & e & body & prov & o & d & reg & _ & _ & _ & _ & _ & H).
  apply cargos_loop_inv in H. destruct H as (rss & HF & ->).
  apply in_concat in Hc. destruct Hc as (rs & Hrs & Hc).
  destruct (@Forall2_right_In _ _ _ _ _ _ HF Hrs) as (cm & Hcm & Hrows).
  apply cargo_rows_inv in Hrows.
  destruct Hrows as [->|(label & names & cargo & tipo & G1 & G2 & Hex & Hrej & ->)];
    [destruct Hc|].
  apply in_map_iff in Hc. destruct Hc as (p & <- & Hp).
  exists body, cm, label, names, cargo, tipo, p. repeat split; auto.
Qed.

End RowFacts.

(** Every company row of a document has for province a name of the list of
    provinces, read from a line of the text, or else the name that the
    table of codes gives for the province code of the file name (the empty
    string for a code that the table lacks). *)
Theorem company_rows_province :
  forall (open_pdf : Borme.pdf_reader) (pdf_path : pystr) rows cargos,
    snd (Borme.parse_single_pdf open_pdf pdf_path) = Ok (rows, cargos) ->
    Forall (fun r =>
              In (Borme.provincia r) Borme.PROVINCIAS \/
              Borme.provincia r =
              Borme.dict_get Borme.COD_PROVINCIA (Borme.cod_provincia r) []) rows.
Proof.
  intros open_pdf pdf_path rows cargos H.
  destruct (@RowFacts.document_entries _ _ _ _ H) as (hdr & css & HF & _ & Hhdr).
  destruct rows as [|r0 rows]; [constructor|].
  destruct Hhdr as (bm & _ & Hh); [discriminate|].
  apply RowFacts.read_header_fields in Hh. destruct Hh as (_ & Hprov & _).
  eapply RowFacts.Forall2_left; [exact HF|]. intros r cs Hr.
  apply RowFacts.entry_of_row in Hr.
  destruct Hr as (n & e & body & prov & o & d & reg & -> & Hp & _).
  change (In prov Borme.PROVINCIAS \/
          prov = Borme.dict_get Borme.COD_PROVINCIA (Borme.h_cod_prov hdr) []).
  rewrite <- Hprov. exact Hp.
Qed.

Lemma company_rows_province_witness :
    Forall (fun r =>
              In (Borme.provincia r) Borme.PROVINCIAS \/
              Borme.provincia r =
              Borme.dict_get Borme.COD_PROVINCIA (Borme.cod_provincia r) []) (fst Borme.example_rows).
Proof.
  apply (@company_rows_province Borme.example_reader Borme.example_path
           (fst Borme.example_rows) (snd Borme.example_rows)).
  vm_compute. reflexivity.
Defined.

(** The company rows of a document all carry the date, the issue number,
    the province code and the section letter of the document and the last
    component of its path as file name; each carries the normalisation of
    its own name.  The officer rows carry the same date and file name. *)
Theorem rows_share_the_header :
  forall (open_pdf : Borme.pdf_reader) (pdf_path : pystr) rows cargos,
    snd (Borme.parse_single_pdf open_pdf pdf_path) = Ok (rows, cargos) ->
    exists fecha numero cod tipo,
      Forall (fun r =>
                Borme.fecha_borme r = fecha /\ Borme.num_borme r = numero
                /\ Borme.cod_provincia r = cod /\ Borme.tipo_borme r = tipo
                /\ Borme.pdf_filename r = PosixPath.name pdf_path
                /\ Borme.empresa_norm r = Borme._normalize_empresa (Borme.empresa r))
             rows
      /\ Forall (fun c =>
                   Borme.c_fecha_borme c = fecha
                   /\ Borme.c_pdf_filename c = PosixPath.name pdf_path) cargos.
Proof.
  intros open_pdf pdf_path rows cargos H.
  destruct (@RowFacts.document_entries _ _ _ _ H) as (hdr & css & HF & -> & Hhdr).
  exists (Borme.h_fecha_borme hdr), (Borme.h_numero hdr), (Borme.h_cod_prov hdr),
         (Borme.h_tipo hdr).
  destruct rows as [|r0 rows].
  { inversion HF; subst. split; constructor. }
  destruct Hhdr as (bm & _ & Hh); [discriminate|].
  apply RowFacts.read_header_fields in Hh. destruct Hh as (Hname & _).
  split.
  - eapply RowFacts.Forall2_left; [exact HF|]. intros r cs Hr.
    apply RowFacts.entry_of_row in Hr.
    destruct Hr as (n & e & body & prov & o & d & reg & -> & _).
    rewrite <- Hname. repeat split.
  - eapply RowFacts.Forall2_concat; [exact HF|]. intros r cs _ Hr.
    apply Forall_forall. intros c Hc.
    destruct (@RowFacts.entry_officers _ _ _ _ _ Hr Hc)
      as (body & cm & label & names & cargo & tipo & p & _ & _ & _ & _ & _ & _ & ->).
    apply RowFacts.entry_of_row in Hr.
    destruct Hr as (n & e & body' & prov & o & d & reg & -> & _).
    rewrite <- Hname. split; reflexivity.
Qed.

Lemma rows_share_the_header_witness :
    exists fecha numero cod tipo,
      Forall (fun r =>
                Borme.fecha_borme r = fecha /\ Borme.num_borme r = numero
                /\ Borme.cod_provincia r = cod /\ Borme.tipo_borme r = tipo
                /\ Borme.pdf_filename r = PosixPath.name Borme.example_path
                /\ Borme.empresa_norm r = Borme._normalize_empresa (Borme.empresa r))
             (fst Borme.example_rows)
      /\ Forall (fun c =>
                   Borme.c_fecha_borme c = fecha
                   /\ Borme.c_pdf_filename c = PosixPath.name Borme.example_path) (snd Borme.example_rows).
Proof.
  apply (@rows_share_the_header Borme.example_reader Borme.example_path
           (fst Borme.example_rows) (snd Borme.example_rows)).
  vm_compute. reflexivity.
Defined.

(** Every officer row of a document belongs to a company row of the same
    document: it repeats its date, entry number, name, normalised name,
    province and file name, and its registry sheet, or the empty string
    when the company row has none. *)
Theorem officer_rows_belong_to_company_rows :
  forall (open_pdf : Borme.pdf_reader) (pdf_path : pystr) rows cargos,
    snd (Borme.parse_single_pdf open_pdf pdf_path) = Ok (rows, cargos) ->
    Forall (fun c =>
              exists r, In r rows
                /\ Borme.c_fecha_borme c = Borme.fecha_borme r
                /\ Borme.c_num_entrada c = Borme.num_entrada r
                /\ Borme.c_empresa c = Borme.empresa r
                /\ Borme.c_empresa_norm c = Borme.empresa_norm r
                /\ Borme.c_provincia c = Borme.provincia r
                /\ Borme.c_pdf_filename c = Borme.pdf_filename r
                /\ Borme.c_hoja_registral c =
                   match Borme.hoja_registral r with Some h => h | None => [] end)
           cargos.
Proof.
  intros open_pdf pdf_path rows cargos H.
  destruct (@RowFacts.document_entries _ _ _ _ H) as (hdr & css & HF & -> & _).
  eapply RowFacts.Forall2_concat; [exact HF|]. intros r cs Hin Hr.
  apply Forall_forall. intros c Hc.
  destruct (@RowFacts.entry_officers _ _ _ _ _ Hr Hc)
    as (body & cm & label & names & cargo & tipo & p & _ & _ & _ & _ & _ & _ & ->).
  exists r. split; [exact Hin|]. repeat split.
Qed.

Lemma officer_rows_belong_to_company_rows_witness :
    Forall (fun c =>
              exists r, In r (fst Borme.example_rows)
                /\ Borme.c_fecha_borme c = Borme.fecha_borme r
                /\ Borme.c_num_entrada c = Borme.num_entrada r
                /\ Borme.c_empresa c = Borme.empresa r
                /\ Borme.c_empresa_norm c = Borme.empresa_norm r
                /\ Borme.c_provincia c = Borme.provincia r
                /\ Borme.c_pdf_filename c = Borme.pdf_filename r
                /\ Borme.c_hoja_registral c =
                   match Borme.hoja_registral r with Some h => h | None => [] end)
           (snd Borme.example_rows).
Proof.
  apply (@officer_rows_belong_to_company_rows Borme.example_reader Borme.example_path
           (fst Borme.example_rows) (snd Borme.example_rows)).
  vm_compute. reflexivity.
Defined.

(** No officer row has an empty role or an empty person.  The person is
    trimmed and holds no semicolon, the role is not an excluded label, and
    the action type is one of the five of the section map. *)
Theorem officer_rows_are_well_formed :
  forall (open_pdf : Borme.pdf_reader) (pdf_path : pystr) rows cargos,
    snd (Borme.parse_single_pdf open_pdf pdf_path) = Ok (rows, cargos) ->
    Forall (fun c =>
              Borme.cargo c <> [] /\ Borme.excluded (Borme.cargo c) = false
              /\ Borme.persona c <> [] /\ Py.strip (Borme.persona c) = Borme.persona c
              /\ ~ In (chr ";") (Borme.persona c)
              /\ In (Borme.tipo_acto c) (map snd Borme.SECTION_MAP))
           cargos.
Proof.
  intros open_pdf pdf_path rows cargos H.
  destruct (@RowFacts.document_entries _ _ _ _ H) as (hdr & css & HF & -> & _).
  eapply RowFacts.Forall2_concat; [exact HF|]. intros r cs Hin Hr.
  apply Forall_forall. intros c Hc.
  destruct (@RowFacts.entry_officers _ _ _ _ _ Hr Hc)
    as (body & cm & label & names & cargo & tipo & p & _ & _ & _ & Hex & Hrej & Hp & ->).
  change ((cargo <> [] /\ Borme.excluded cargo = false /\ p <> []
           /\ Py.strip p = p /\ ~ In (chr ";") p
           /\ In tipo (map snd Borme.SECTION_MAP))).
  unfold Borme.candidate_rejected in Hrej.
  apply orb_false_elim in Hrej. destruct Hrej as [_ Hrej].
  apply orb_false_elim in Hrej. destruct Hrej as [Hne Hexc].
  apply PyFacts.eqb_neq in Hne.
  destruct (@RowFacts.persons_spec _ _ Hp) as (P1 & P2 & P3 & _).
  pose proof (RowFacts.extract_tipo_range (Py.strip label) body (Re.m_start cm)) as Ht.
  rewrite Hex in Ht. repeat split; auto.
Qed.

Lemma officer_rows_are_well_formed_witness :
    Forall (fun c =>
              Borme.cargo c <> [] /\ Borme.excluded (Borme.cargo c) = false
              /\ Borme.persona c <> [] /\ Py.strip (Borme.persona c) = Borme.persona c
              /\ ~ In (chr ";") (Borme.persona c)
              /\ In (Borme.tipo_acto c) (map snd Borme.SECTION_MAP))
           (snd Borme.example_rows).
Proof.
  apply (@officer_rows_are_well_formed Borme.example_reader Borme.example_path
           (fst Borme.example_rows) (snd Borme.example_rows)).
  vm_compute. reflexivity.
Defined.

(** The address of a company row has at most 300 characters and its
    corporate purpose at most 500. *)
Theorem company_row_fields_are_bounded :
  forall (open_pdf : Borme.pdf_reader) (pdf_path : pystr) rows cargos,
    snd (Borme.parse_single_pdf open_pdf pdf_path) = Ok (rows, cargos) ->
    Forall (fun r =>
              (forall d, Borme.domicilio r = Some d -> length d <= 300)
              /\ (forall o, Borme.objeto_social r = Some o -> length o <= 500))
           rows.
Proof.
  intros open_pdf pdf_path rows cargos H.
  destruct (@RowFacts.document_entries _ _ _ _ H) as (hdr & css & HF & _ & _).
  eapply RowFacts.Forall2_left; [exact HF|]. intros r cs Hr.
  apply RowFacts.entry_of_row in Hr.
  destruct Hr as (n & e & body & prov & o & d & reg & -> & _ & Ho & Hd & _).
  split.
  - intros d' E. change (d = Some d') in E. subst d.
    apply (@RowFacts.entry_domicilio_bound _ _ Hd).
  - intros o' E. change (o = Some o') in E. rewrite E in Ho.
    destruct (Borme.has_label body (py "Constitución")); [|discriminate].
    destruct (Borme.field_upto Borme.OBJETO_RE 500 body) as [v|] eqn:Ef;
      [|discriminate].
    subst v. apply (@RowFacts.field_upto_bound _ _ _ _ Ef).
Qed.

Lemma company_row_fields_are_bounded_witness :
    Forall (fun r =>
              (forall d, Borme.domicilio r = Some d -> length d <= 300)
              /\ (forall o, Borme.objeto_social r = Some o -> length o <= 500))
           (fst Borme.example_rows).
Proof.
  apply (@company_row_fields_are_bounded Borme.example_reader Borme.example_path
           (fst Borme.example_rows) (snd Borme.example_rows)).
  vm_compute. reflexivity.
Defined.

(** A company row has a date of constitution or a corporate purpose only
    when its entry is a constitution: its list of acts then begins with
    that act. *)
Theorem constitution_fields_imply_the_act :
  forall (open_pdf : Borme.pdf_reader) (pdf_path : pystr) rows cargos,
    snd (Borme.parse_single_pdf open_pdf pdf_path) = Ok (rows, cargos) ->
    Forall (fun r =>
              Borme.fecha_constitucion r <> None \/ Borme.objeto_social r <> None ->
              Py.startswith (Borme.actos r) (py "Constitución") = true)
           rows.
Proof.
  intros open_pdf pdf_path rows cargos H.
  destruct (@RowFacts.document_entries _ _ _ _ H) as (hdr & css & HF & _ & _).
  eapply RowFacts.Forall2_left; [exact HF|]. intros r cs Hr.
  apply RowFacts.entry_of_row in Hr.
  destruct Hr as (n & e & body & prov & o & d & reg & -> & _ & Ho & _).
  intros Hset.
  assert (Hl : Borme.has_label body (py "Constitución") = true).
  { destruct Hset as [Hset|Hset].
    - change ((if Borme.has_label body (py "Constitución")
               then match Re.search Borme.COMIENZO_RE body with
                    | Some m => Re.group body m 1
                    | None => None
                    end
               else None) <> None) in Hset.
      destruct (Borme.has_label body (py "Constitución")); [reflexivity|congruence].
    - change (o <> None) in Hset. rewrite Ho in Hset.
      destruct (Borme.has_label body (py "Constitución")); [reflexivity|congruence]. }
  change (Py.startswith (Py.join (py "|") (Borme.entry_actos body))
                        (py "Constitución") = true).
  rewrite ActosFacts.entry_actos_eq. unfold Borme.actos_constitucion. rewrite Hl.
  cbn [app].
  destruct (RowFacts.join_head (py "|") (py "Constitución")
              (Borme.actos_domicilio body
                 ++ filter (Borme.has_label body) (tl Borme.ACTOS))) as (rest & ->).
  apply RowFacts.startswith_app.
Qed.

Lemma constitution_fields_imply_the_act_witness :
    Forall (fun r =>
              Borme.fecha_constitucion r <> None \/ Borme.objeto_social r <> None ->
              Py.startswith (Borme.actos r) (py "Constitución") = true)
           (fst Borme.example_rows).
Proof.
  apply (@constitution_fields_imply_the_act Borme.example_reader Borme.example_path
           (fst Borme.example_rows) (snd Borme.example_rows)).
  vm_compute. reflexivity.
Defined.
(** ** C3: every marker is found, every entry is the text of its span *)

Module MarkerFacts.
Import Re ReSem ReFacts ReInv GroupFacts Borme.

(** A marker is a match of the marker pattern. *)
Lemma match_of_marker : forall text i j number,
  is_marker text i j number ->
  matches_at ENTRY_START_RE text i j [(1, (i, i + length number))].
Proof.
  intros text i j number
         (before & w1 & w2 & after & -> & <- & <- & Hbol & Hlen & Hnum & Hw1 & Hw2).
  exists (rev before), (number ++ w1 ++ py "-" ++ w2 ++ after),
         (rev w2 ++ chr "-" :: rev w1 ++ rev number ++ rev before), after.
  split; [now rewrite rev_involutive|]. split; [apply length_rev|]. split.
  { repeat (rewrite ?length_app, ?length_rev; cbn [length]).
    change (length (py "-")) with 1. lia. }
  unfold ENTRY_START_RE. apply M_seq_cons.
  exists (St (rev before) (number ++ w1 ++ py "-" ++ w2 ++ after) []). split.
  { split; [|reflexivity]. cbn [bef]. destruct Hbol as [->|(before' & ->)]; [reflexivity|].
    rewrite rev_app_distr. reflexivity. }
  apply M_seq_cons.
  exists (St (rev number ++ rev before) (w1 ++ py "-" ++ w2 ++ after)
             [(1, (length before, length before + length number))]). split.
  { apply M_group. exists (St (rev number ++ rev before) (w1 ++ py "-" ++ w2 ++ after) []).
    split.
    - apply M_rep_chr. exists number, (w1 ++ py "-" ++ w2 ++ after).
      split; [reflexivity|]. split; [reflexivity|]. split; [exact Hnum|].
      split; [apply Hlen|]. cbn [within]. apply Hlen.
    - unfold pos_of. cbn [bef aft cap]. rewrite length_app, !length_rev.
      now rewrite (Nat.add_comm (length number)). }
  apply M_seq_cons.
  exists (St (rev w1 ++ rev number ++ rev before) (py "-" ++ w2 ++ after)
             [(1, (length before, length before + length number))]). split.
  { unfold ws, star. apply M_rep_chr. exists w1, (py "-" ++ w2 ++ after).
    split; [reflexivity|]. split; [reflexivity|]. split; [exact Hw1|].
    split; [lia|exact I]. }
  apply M_seq_cons.
  exists (St (chr "-" :: rev w1 ++ rev number ++ rev before) (w2 ++ after)
             [(1, (length before, length before + length number))]). split.
  { apply M_chr. exists (chr "-"), (w2 ++ after). split; [reflexivity|].
    split; reflexivity. }
  apply M_seq_one. unfold ws, star. apply M_rep_chr. exists w2, after.
  split; [reflexivity|]. split; [reflexivity|]. split; [exact Hw2|].
  split; [lia|exact I].
Qed.

Lemma nth_error_mid : forall (pre mid post : pystr) k x,
  nth_error (pre ++ mid ++ post) k = Some x ->
  length pre <= k < length pre + length mid -> In x mid.
Proof.
  intros pre mid post k x H Hk.
  rewrite nth_error_app2 in H by lia. rewrite nth_error_app1 in H by lia.
  now apply nth_error_In in H.
Qed.

(** The characters of a marker: digits first, then spaces and the dash. *)
Lemma marker_chars : forall text i j number k x,
  is_marker text i j number -> i <= k < j -> nth_error text k = Some x ->
  (k < i + length number /\ digit x = true)
  \/ (i + length number <= k /\ (space x = true \/ x = chr "-")).
Proof.
  intros text i j number k x
         (before & w1 & w2 & after & -> & <- & <- & _ & _ & Hnum & Hw1 & Hw2) Hk H.
  repeat (rewrite ?length_app in Hk; cbn [length] in Hk).
  change (length (py "-")) with 1 in Hk.
  rewrite Forall_forall in Hnum, Hw1, Hw2.
  destruct (Nat.lt_ge_cases k (length before + length number)) as [H1|H1].
  { left. split; [exact H1|]. apply Hnum.
    apply (@nth_error_mid before number _ k x H). lia. }
  right. split; [exact H1|].
  rewrite app_assoc in H.
  destruct (Nat.lt_ge_cases k (length before + length number + length w1)) as [H2|H2].
  { left. apply Hw1.
    apply (@nth_error_mid (before ++ number) w1 _ k x H). rewrite length_app. lia. }
  rewrite (app_assoc (before ++ number)) in H.
  destruct (Nat.eq_dec k (length before + length number + length w1)) as [H3|H3].
  { right. apply (@nth_error_mid ((before ++ number) ++ w1) (py "-") _ k x) in H.
    - destruct H as [<-|[]]. reflexivity.
    - rewrite !length_app. change (length (py "-")) with 1. lia. }
  left. apply Hw2. rewrite (app_assoc ((before ++ number) ++ w1)) in H.
  apply (@nth_error_mid (((before ++ number) ++ w1) ++ py "-") w2 _ k x H).
  rewrite !length_app. change (length (py "-")) with 1. lia.
Qed.

(** A marker begins with a digit; past the start of the text, a newline
    stands before it. *)
Lemma marker_head : forall text i j number,
  is_marker text i j number ->
  (exists d, nth_error text i = Some d /\ digit d = true)
  /\ (0 < i -> nth_error text (i - 1) = Some 10%N).
Proof.
  intros text i j number
         (before & w1 & w2 & after & -> & <- & _ & Hbol & Hlen & Hnum & _).
  split.
  - destruct number as [|d number]; [cbn [length] in Hlen; lia|].
    exists d. split.
    + rewrite nth_error_app2 by lia. now rewrite Nat.sub_diag.
    + now inversion Hnum.
  - intros Hpos. destruct Hbol as [->|(before' & ->)]; [cbn [length] in Hpos; lia|].
    rewrite length_app. cbn [length]. rewrite <- app_assoc.
    rewrite nth_error_app2 by lia.
    replace (length before' + 1 - 1 - length before') with 0 by lia. reflexivity.
Qed.

Lemma digit_is_not_mark : forall d,
  digit d = true -> space d = false /\ d <> chr "-" /\ d <> 10%N.
Proof.
  intros d H. split; [now apply CapitalFacts.digit_not_space|].
  split; intros ->; vm_compute in H; discriminate.
Qed.

(** An earlier match of the marker pattern ends before a marker begins. *)
Lemma marker_apart : forall text i j number i' j' number',
  is_marker text i j number -> is_marker text i' j' number' -> i' < i ->
  i' < j' /\ j' <= i.
Proof.
  intros text i j number i' j' number' H H' Hlt.
  pose proof (SegmentFacts.marker_nonempty H') as Hne. split; [lia|].
  destruct (Nat.le_gt_cases j' i) as [|Hgt]; [assumption|exfalso].
  destruct (marker_head H) as ((d & Hd & Hdig) & Hnl).
  specialize (Hnl ltac:(lia)).
  destruct (@digit_is_not_mark d Hdig) as (Hs & Hdash & _).
  destruct (@marker_chars text i' j' number' i d H' ltac:(lia) Hd) as [[Hi _]|[_ [Hc|Hc]]];
    [|congruence|contradiction].
  destruct (@marker_chars text i' j' number' (i - 1) 10%N H' ltac:(lia) Hnl)
    as [[_ Hc]|[Hc _]]; [vm_compute in Hc; discriminate|lia].
Qed.

(** The number of a marker is decided by its offset. *)
Lemma marker_number : forall text i j number j' number',
  is_marker text i j number -> is_marker text i j' number' -> number = number'.
Proof.
  intros text i j number j' number'
    (b1 & w1 & v1 & a1 & E1 & L1 & _ & _ & _ & N1 & W1 & _)
    (b2 & w2 & v2 & a2 & E2 & L2 & _ & _ & _ & N2 & W2 & _).
  rewrite E1 in E2. apply FinditerFacts.app_split_le in E2; [|lia].
  destruct E2 as (p & Hb & E2).
  assert (p = []).
  { apply (f_equal (@length _)) in Hb. rewrite length_app in Hb.
    destruct p; [reflexivity|cbn [length] in Hb; lia]. }
  subst p. cbn [app] in E2. symmetry in E2.
  assert (Hstop : forall (w rest : pystr),
             Forall (fun x => space x = true) w -> stops digit (w ++ py "-" ++ rest)).
  { intros [|x w] rest Hw; [reflexivity|]. cbn [app stops]. inversion Hw; subst.
    destruct (digit x) eqn:E; [|reflexivity].
    apply CapitalFacts.digit_not_space in E. congruence. }
  destruct (@CapitalFacts.span_unique digit number _ number' _ E2 N1 N2) as [Hn _];
    [now apply Hstop|now apply Hstop|exact Hn].
Qed.

(** Every marker of the text is one of the matches that the loop scans. *)
Lemma marker_in_finditer : forall text i j number,
  is_marker text i j number ->
  exists m, In m (finditer ENTRY_START_RE text)
            /\ m_start m = i /\ group text m 1 = Some number.
Proof.
  intros text i j number H.
  destruct (@FinditerFacts.finditer_complete ENTRY_START_RE text i j _ (match_of_marker H))
    as (m & Hin & Hs).
  - intros i' j' c' HM Hlt. apply SegmentFacts.marker_inv in HM.
    destruct HM as (number' & HM & _). apply (marker_apart H HM Hlt).
  - exists m. split; [exact Hin|]. split; [exact Hs|].
    apply finditer_matches_at in Hin. apply SegmentFacts.marker_inv in Hin.
    destruct Hin as (number' & Hmk & k & Hl & Hsl). rewrite Hs in Hmk.
    rewrite (marker_number H Hmk). unfold group. rewrite Hl. now rewrite Hsl.
Qed.

(** The loop over the markers parses, for each marker, the block of its
    span under the number of the marker. *)
Lemma entries_loop_blocks : forall hdr text splits gap prov rows cargos,
  entries_loop hdr text gap splits prov = Ok (rows, cargos) ->
  exists css,
    cargos = concat css /\ length rows = length splits /\ length css = length splits
    /\ Forall2 (fun (e : rmatch * (nat * nat)) (rc : empresa_row * list cargo_row) =>
                  exists number prov',
                    group text (fst e) 1 = Some number
                    /\ parse_body hdr number
                         (entry_empresa (entry_block text (fst (snd e)) (snd (snd e))))
                         (entry_body (entry_block text (fst (snd e)) (snd (snd e))))
                         prov' = Ok rc)
               (combine splits (entry_spans text splits)) (combine rows css).
Proof.
  intros hdr text. induction splits as [|m splits IH]; intros gap prov rows cargos H.
  - injection H as <- <-. exists []. repeat split. constructor.
  - cbn [entries_loop] in H.
    set (end_ := match splits with m' :: _ => m_start m' | [] => length text end) in H.
    unfold parse_entry in H. unfold group_str in H.
    destruct (group text m 1) as [n|] eqn:E1; cbn [bind] in H; [|discriminate].
    set (prov' := track_provincia (Py.slice gap (m_start m) text) prov) in H.
    destruct (parse_body hdr n (entry_empresa (entry_block text (m_end m) end_))
                         (entry_body (entry_block text (m_end m) end_)) prov')
      as [[r cs]|] eqn:E2; cbn [bind fst snd] in H; [|discriminate].
    destruct (entries_loop hdr text (m_start m) splits prov') as [[rs cs']|] eqn:E3;
      cbn [bind fst snd] in H; [|discriminate].
    injection H as <- <-.
    destruct (IH _ _ _ _ E3) as (css & -> & Hl1 & Hl2 & HF).
    exists (cs :: css). split; [reflexivity|]. cbn [length]. split; [now rewrite Hl1|].
    split; [now rewrite Hl2|]. cbn [entry_spans combine]. constructor; [|exact HF].
    exists n, prov'. cbn [fst snd]. split; [exact E1|exact E2].
Qed.

End MarkerFacts.

(** C3. For every cleaned text, with [ms] the matches of the entry-marker
    pattern in order: each match is a marker in the words of the
    specification (at a line start, four to seven digits, optional spaces, a
    dash, optional spaces) and is not empty, and every marker of the text is
    found, with its number; the markers come in order within the text and do
    not overlap; there is one entry span per marker, from the end of the
    marker to the start of the next one or to the end of the text; markers
    and entries tile the text from the first marker on, without gap or
    overlap.  Parsing the text never raises: it returns one company row per
    marker; the rows of an entry are parsed, under the number of its marker,
    from the text of its span with the newlines turned into spaces, the runs
    of white space collapsed and the ends trimmed; for a text without marker
    there is no row at all. *)
Theorem segmentation_covers_text :
  (forall text : pystr,
      let ms := Re.finditer Borme.ENTRY_START_RE text in
      let spans := Borme.entry_spans text ms in
      Forall (fun m => exists number,
                  Borme.is_marker text (Re.m_start m) (Re.m_end m) number
                  /\ Re.group text m 1 = Some number
                  /\ Re.m_start m < Re.m_end m) ms
      /\ (forall i j number,
             Borme.is_marker text i j number ->
             exists m, In m ms /\ Re.m_start m = i /\ Re.group text m 1 = Some number)
      /\ ReSem.chain 0 ms (length text)
      /\ length spans = length ms
      /\ spans = combine (map Re.m_end ms) (tl (map Re.m_start ms) ++ [length text])
      /\ Forall (fun sp => fst sp <= snd sp /\ snd sp <= length text) spans
      /\ Py.from (match ms with m :: _ => Re.m_start m | [] => length text end) text
         = Borme.markers_and_entries text ms)
  /\ (forall (hdr : Borme.header) (raw : pystr),
         let text := Borme._clean raw in
         let ms := Re.finditer Borme.ENTRY_START_RE text in
         let flat := fun sp : nat * nat =>
                       Py.strip (Re.sub Borme.SPACES_RE (py " ")
                                   (Py.replace [10%N] (py " ")
                                      (Py.slice (fst sp) (snd sp) text))) in
         exists rows css,
           Borme.parse_text hdr raw = Ok (rows, concat css)
           /\ length rows = length ms
           /\ length css = length ms
           /\ Forall2 (fun (e : Re.rmatch * (nat * nat))
                           (rc : Borme.empresa_row * list Borme.cargo_row) =>
                         exists number prov,
                           Re.group text (fst e) 1 = Some number
                           /\ Borme.parse_body hdr number
                                (Borme.entry_empresa (flat (snd e)))
                                (Borme.entry_body (flat (snd e))) prov = Ok rc)
                      (combine ms (Borme.entry_spans text ms)) (combine rows css)
           /\ map Borme.empresa rows
              = map (fun sp => Borme.entry_empresa (flat sp)) (Borme.entry_spans text ms)
           /\ map (fun r => Some (Borme.num_entrada r)) rows
              = map (fun m => Re.group text m 1) ms
           /\ match ms with [] => rows = [] /\ css = [] | _ :: _ => True end).
Proof.
  split.
  - intros text ms spans.
    destruct (ReFacts.finditer_from_spec Borme.ENTRY_START_RE (S (length text)) [] text)
      as [HF Hch].
    cbn [length rev app] in HF, Hch. rewrite Nat.add_0_l in Hch.
    fold (Re.finditer Borme.ENTRY_START_RE text) in HF, Hch. fold ms in HF, Hch.
    split.
    { eapply Forall_impl; [|exact HF]. cbn beta. intros m Hm.
      apply SegmentFacts.marker_inv in Hm.
      destruct Hm as (number & Hmk & k & Hl & Hsl).
      exists number. split; [exact Hmk|]. split.
      - unfold Re.group. rewrite Hl. now rewrite Hsl.
      - apply SegmentFacts.marker_nonempty in Hmk. lia. }
    split; [intros i j number Hmk; apply (MarkerFacts.marker_in_finditer Hmk)|].
    split; [exact Hch|].
    split; [apply SegmentFacts.entry_spans_length|].
    split; [apply SegmentFacts.entry_spans_combine|].
    split.
    { eapply Forall_impl; [|exact (SegmentFacts.entry_spans_bounds _ _ _ Hch)].
      cbn beta. intros sp Hsp. lia. }
    exact (SegmentFacts.markers_and_entries_cover _ _ _ Hch).
  - intros hdr raw text ms flat. unfold Borme.parse_text. fold text. fold ms.
    destruct ms as [|m rest] eqn:E.
    + exists [], []. repeat split. constructor.
    + destruct (@TotalFacts.entries_loop_Ok hdr text (m :: rest) 0
                  (Borme.h_provincia_filename hdr)) as (rows & cargos & H1 & H2 & H3 & H4).
      { rewrite <- E. apply TotalFacts.finditer_Forall. }
      destruct (MarkerFacts.entries_loop_blocks _ _ _ _ _ H1) as (css & -> & _ & Hl & HF).
      exists rows, css. split; [exact H1|]. split; [exact H2|]. split; [exact Hl|].
      split; [exact HF|]. split; [exact H3|]. split; [exact H4|exact I].
Qed.

Lemma segmentation_covers_text_witness :
  exists m,
    In m (Re.finditer Borme.ENTRY_START_RE
            (py "BARCELONA" ++ 10%N :: py "12345 - ACME SL. Constitución."))
    /\ Re.m_start m = 10
    /\ Re.group (py "BARCELONA" ++ 10%N :: py "12345 - ACME SL. Constitución.") m 1
       = Some (py "12345").
Proof.
  apply (proj1 (proj2 (proj1 segmentation_covers_text _)) 10 18 (py "12345")).
  exists (py "BARCELONA" ++ [10%N]), (py " "), (py " "), (py "ACME SL. Constitución.").
  split; [vm_compute; reflexivity|]. split; [reflexivity|]. split; [reflexivity|].
  split; [right; exists (py "BARCELONA"); reflexivity|].
  split; [cbn; clear; lia|].
  split; [repeat constructor|]. split; repeat constructor.
Defined.
(** ** C5: the officer rows of an entry and of a document *)

Import Re ReSem ReFacts Borme.

Module OfficerFacts.
Import Re ReSem ReFacts Borme.



End OfficerFacts.



(** The two officers of a cessation section: the rows of the match. *)
Lemma officer_rows_example :
  cargo_rows example_row example_body
             {| m_start := 66; m_end := 111;
                m_caps := [(2, (79, 109)); (1, (66, 77))] |}
  = Ok [officer_row example_row (py "Adm. Solid.") (py "cese") (py "PEDRO PEREZ RUIZ");
        officer_row example_row (py "Adm. Solid.") (py "cese") (py "ANA RUIZ DIAZ")].
Proof. vm_compute. reflexivity. Qed.

(** ** The batch runner *)

Module RunFacts.
Import Borme.

Lemma process_one_path : forall open_pdf p,
  _process_one open_pdf p
  = (process_empresas open_pdf p, process_cargos open_pdf p, p, process_ok open_pdf p).
Proof.
  intros open_pdf p. unfold process_empresas, process_cargos, process_ok, _process_one.
  destruct (snd (parse_single_pdf open_pdf p)) as [[e c]|]; reflexivity.
Qed.

Lemma process_failed_rows : forall open_pdf p,
  process_ok open_pdf p = false ->
  process_empresas open_pdf p = [] /\ process_cargos open_pdf p = [].
Proof.
  intros open_pdf p. unfold process_empresas, process_cargos, process_ok, _process_one.
  destruct (snd (parse_single_pdf open_pdf p)) as [[e c]|]; cbn [fst snd];
    [discriminate|auto].
Qed.

Lemma set_add_iff : forall p q s, In q (set_add p s) <-> q = p \/ In q s.
Proof.
  intros p q s. unfold set_add. destruct (Py.mem p s) eqn:E.
  - apply PyFacts.mem_In in E. split; [auto|]. intros [->|H]; assumption.
  - rewrite in_app_iff. cbn [In]. split.
    + intros [H|[<-|[]]]; auto.
    + intros [->|H]; auto.
Qed.

Lemma set_add_NoDup : forall p s, NoDup s -> NoDup (set_add p s).
Proof.
  intros p s H. unfold set_add. destruct (Py.mem p s) eqn:E; [exact H|].
  assert (Hn : ~ In p s).
  { intros Hin. apply PyFacts.mem_In in Hin. congruence. }
  apply NoDup_app; [exact H|repeat constructor; intros []|].
  intros x Hx [<-|[]]. contradiction.
Qed.

(** The state after the documents of [completed], field by field. *)
Lemma run_pending_state : forall open_pdf completed st,
  let st' := run_pending open_pdf completed st in
  processed st' = processed st + length completed
  /\ errors st' = errors st ++ filter (fun p => negb (process_ok open_pdf p)) completed
  /\ all_empresas st' = all_empresas st ++ flat_map (process_empresas open_pdf) completed
  /\ all_cargos st' = all_cargos st ++ flat_map (process_cargos open_pdf) completed
  /\ (forall q, In q (done_set st') <->
                In q (done_set st) \/ (In q completed /\ process_ok open_pdf q = true))
  /\ (NoDup (done_set st) -> NoDup (done_set st')).
Proof.
  intros open_pdf. induction completed as [|p completed IH]; intros st.
  - cbn [run_pending fold_left length filter flat_map In].
    rewrite Nat.add_0_r, !app_nil_r. repeat split; auto; tauto.
  - unfold run_pending in *. cbn [fold_left].
    specialize (IH (collect st (_process_one open_pdf p))).
    cbv zeta in IH. destruct IH as (H1 & H2 & H3 & H4 & H5 & H6).
    rewrite H1, H2, H3, H4. clear H1 H2 H3 H4.
    rewrite process_one_path in *. unfold collect in *.
    cbn [length filter flat_map].
    destruct (process_ok open_pdf p) eqn:Eok;
      cbn [processed errors all_empresas all_cargos done_set negb] in *.
    + repeat split; try (rewrite <- ?app_assoc; reflexivity); try lia.
      * intros Hq. apply H5 in Hq. rewrite set_add_iff in Hq. cbn [In].
        destruct Hq as [[->|Hq]|[Hq Hok]]; auto.
      * intros Hq. apply H5. rewrite set_add_iff. cbn [In] in Hq.
        destruct Hq as [Hq|[[<-|Hq] Hok]]; auto.
      * intros Hnd. apply H6. now apply set_add_NoDup.
    + destruct (process_failed_rows _ _ Eok) as [-> ->]. cbn [app].
      repeat split; try (rewrite <- ?app_assoc; reflexivity); try lia.
      * intros Hq. apply H5 in Hq. cbn [In]. destruct Hq as [Hq|[Hq Hok]]; auto.
      * intros Hq. apply H5. cbn [In] in Hq.
        destruct Hq as [Hq|[[<-|Hq] Hok]]; auto. congruence.
      * exact H6.
Qed.

End RunFacts.

(** Whatever the order in which the documents complete, each one is counted
    once and recorded once: among the done when its processing succeeded,
    among the errors otherwise.  The rows of the documents that succeeded
    are appended in the order of completion, the documents already done
    stay done, and the set of the done gets no duplicate. *)
Theorem batch_records_every_document_once :
  forall (open_pdf : Borme.pdf_reader) (completed : list pystr)
         (st : Borme.batch_state),
    let st' := Borme.run_pending open_pdf completed st in
    Borme.processed st' = Borme.processed st + length completed
    /\ Borme.errors st'
       = Borme.errors st
           ++ filter (fun p => negb (Borme.process_ok open_pdf p)) completed
    /\ Borme.all_empresas st'
       = Borme.all_empresas st ++ flat_map (Borme.process_empresas open_pdf) completed
    /\ Borme.all_cargos st'
       = Borme.all_cargos st ++ flat_map (Borme.process_cargos open_pdf) completed
    /\ (forall q, In q (Borme.done_set st') <->
                  In q (Borme.done_set st)
                  \/ (In q completed /\ Borme.process_ok open_pdf q = true))
    /\ (NoDup (Borme.done_set st) -> NoDup (Borme.done_set st')).
Proof.
  intros open_pdf completed st. apply RunFacts.run_pending_state.
Qed.

(** A resumed run processes the documents that the progress file does not
    list, and only those: whatever the order of completion, afterwards
    every document found is among the done or among the errors and none is
    in both, the documents listed are still done, and the counter has
    advanced by the number of pending documents. *)
Theorem resumed_run_covers_every_document :
  forall (open_pdf : Borme.pdf_reader) (all_pdfs done completed : list pystr),
    Permutation completed (Borme.pending all_pdfs done) ->
    let st' := Borme.run_pending open_pdf completed (Borme.start_state done) in
    (forall p, In p all_pdfs ->
               In p (Borme.done_set st') \/ In p (Borme.errors st'))
    /\ (forall p, In p (Borme.errors st') -> ~ In p (Borme.done_set st'))
    /\ (forall p, In p done -> In p (Borme.done_set st') /\ ~ In p completed)
    /\ Borme.processed st' = length done + length (Borme.pending all_pdfs done).
Proof.
  intros open_pdf all_pdfs done completed HP st'.
  destruct (RunFacts.run_pending_state open_pdf completed (Borme.start_state done))
    as (H1 & H2 & _ & _ & H5 & _).
  fold st' in H1, H2, H5.
  cbn [Borme.start_state Borme.processed Borme.errors Borme.done_set app] in H1, H2, H5.
  assert (Hpend : forall p, In p completed <-> In p all_pdfs /\ ~ In p done).
  { intros p. split.
    - intros Hp. apply (Permutation_in _ HP) in Hp.
      unfold Borme.pending in Hp. apply filter_In in Hp. destruct Hp as [Hp Hm].
      split; [exact Hp|]. intros Hd. apply PyFacts.mem_In in Hd.
      rewrite Hd in Hm. discriminate.
    - intros [Hp Hd]. apply (Permutation_in _ (Permutation_sym HP)).
      unfold Borme.pending. apply filter_In. split; [exact Hp|].
      destruct (Py.mem p done) eqn:E; [|reflexivity].
      apply PyFacts.mem_In in E. contradiction. }
  split; [|split; [|split]].
  - intros p Hp. destruct (in_dec Py.eq_dec p done) as [Hd|Hd].
    + left. apply H5. now left.
    + assert (Hc : In p completed) by (apply Hpend; auto).
      destruct (Borme.process_ok open_pdf p) eqn:Eok.
      * left. apply H5. right. auto.
      * right. rewrite H2. apply filter_In. split; [exact Hc|]. now rewrite Eok.
  - intros p He Hd. rewrite H2 in He. apply filter_In in He.
    destruct He as [Hc Hok]. apply H5 in Hd. destruct Hd as [Hd|[_ Hd]].
    + apply Hpend in Hc. tauto.
    + rewrite Hd in Hok. discriminate.
  - intros p Hd. split; [apply H5; now left|].
    intros Hc. apply Hpend in Hc. tauto.
  - rewrite H1. now rewrite (Permutation_length HP).
Qed.

Lemma resumed_run_covers_every_document_witness :
  let st' := Borme.run_pending Borme.example_reader
               [py "/data/2020/01/21/BORME-A-2020-13-28.pdf"; Borme.example_path]
               (Borme.start_state [py "/data/2020/01/17/BORME-A-2020-11-28.pdf"]) in
  (forall p, In p [py "/data/2020/01/17/BORME-A-2020-11-28.pdf"; Borme.example_path;
                   py "/data/2020/01/21/BORME-A-2020-13-28.pdf"] ->
             In p (Borme.done_set st') \/ In p (Borme.errors st'))
  /\ (forall p, In p (Borme.errors st') -> ~ In p (Borme.done_set st'))
  /\ (forall p, In p [py "/data/2020/01/17/BORME-A-2020-11-28.pdf"] ->
                In p (Borme.done_set st')
                /\ ~ In p [py "/data/2020/01/21/BORME-A-2020-13-28.pdf";
                           Borme.example_path])
  /\ Borme.processed st'
     = length [py "/data/2020/01/17/BORME-A-2020-11-28.pdf"]
       + length (Borme.pending
                   [py "/data/2020/01/17/BORME-A-2020-11-28.pdf"; Borme.example_path;
                    py "/data/2020/01/21/BORME-A-2020-13-28.pdf"]
                   [py "/data/2020/01/17/BORME-A-2020-11-28.pdf"]).
Proof.
  apply (@resumed_run_covers_every_document Borme.example_reader
           [py "/data/2020/01/17/BORME-A-2020-11-28.pdf"; Borme.example_path;
            py "/data/2020/01/21/BORME-A-2020-13-28.pdf"]
           [py "/data/2020/01/17/BORME-A-2020-11-28.pdf"]
           [py "/data/2020/01/21/BORME-A-2020-13-28.pdf"; Borme.example_path]).
  replace (Borme.pending
             [py "/data/2020/01/17/BORME-A-2020-11-28.pdf"; Borme.example_path;
              py "/data/2020/01/21/BORME-A-2020-13-28.pdf"]
             [py "/data/2020/01/17/BORME-A-2020-11-28.pdf"])
    with [Borme.example_path; py "/data/2020/01/21/BORME-A-2020-13-28.pdf"]
    by (vm_compute; reflexivity).
  apply perm_swap.
Defined.

(** ** Lines: splitting, joining and cleaning *)

Module LineFacts.
Import Borme.

(** Splitting undoes joining, for pieces without the separator. *)
Lemma split_join : forall sep ls,
  ls <> [] -> Forall (fun w => Forall (fun x => x <> sep) w) ls ->
  Py.split sep (Py.join [sep] ls) = ls.
Proof.
  intros sep. induction ls as [|p ls IH]; intros Hne HF; [congruence|].
  inversion HF as [|? ? Hp HF']; subst.
  destruct ls as [|q ls].
  - cbn [Py.join]. now apply CapitalFacts.split_no_sep.
  - change (Py.join [sep] (p :: q :: ls)) with (p ++ [sep] ++ Py.join [sep] (q :: ls)).
    cbn [app]. rewrite (CapitalFacts.split_app_sep _ Hp).
    rewrite IH; [reflexivity|discriminate|exact HF'].
Qed.

Lemma filter_filter : forall (A : Type) (f : A -> bool) l,
  filter f (filter f l) = filter f l.
Proof.
  intros A f. induction l as [|x l IH]; [reflexivity|].
  cbn [filter]. destruct (f x) eqn:E; [|exact IH].
  cbn [filter]. now rewrite E, IH.
Qed.

Lemma empty_line_kept : noise_line [] = false.
Proof. vm_compute. reflexivity. Qed.

Lemma clean_lines : forall raw,
  filter (fun line => negb (noise_line line)) (Py.split 10%N raw) <> [] ->
  Py.split 10%N (_clean raw)
  = filter (fun line => negb (noise_line line)) (Py.split 10%N raw).
Proof.
  intros raw Hne. unfold _clean. apply split_join; [exact Hne|].
  apply Forall_forall. intros l Hl. apply filter_In in Hl. destruct Hl as [Hl _].
  pose proof (RowFacts.split_pieces 10%N raw) as HF.
  rewrite Forall_forall in HF. apply (HF _ Hl).
Qed.

Lemma labels_without_bar : forall a,
  In a ACTOS \/ a = py "Cambio de domicilio" ->
  Forall (fun x => x <> chr "|") a.
Proof.
  assert (H : forallb (fun a => negb (Py.cmem (chr "|") a))
                      (py "Cambio de domicilio" :: ACTOS) = true)
    by (vm_compute; reflexivity).
  rewrite forallb_forall in H. intros a Ha.
  assert (Hin : In a (py "Cambio de domicilio" :: ACTOS)).
  { destruct Ha as [Ha| ->]; [now right|now left]. }
  specialize (H _ Hin). apply negb_true_iff in H.
  apply Forall_forall. intros x Hx ->.
  apply CargoFacts.cmem_In in Hx. congruence.
Qed.

Lemma entry_actos_labels : forall body a,
  In a (entry_actos body) -> In a ACTOS \/ a = py "Cambio de domicilio".
Proof.
  intros body a H. rewrite ActosFacts.entry_actos_eq in H.
  apply in_app_or in H. destruct H as [H|H].
  - apply ActosFacts.actos_constitucion_In in H. left. rewrite H.
    rewrite ActosFacts.ACTOS_head. now left.
  - apply in_app_or in H. destruct H as [H|H].
    + right. now apply ActosFacts.actos_domicilio_In in H.
    + apply filter_In in H. destruct H as [H _]. left.
      rewrite ActosFacts.ACTOS_head. now right.
Qed.

End LineFacts.

(** Cleaning a text twice is cleaning it once.  The lines of a cleaned text
    are the lines of the text that are not noise, in their order, and none
    of them is noise. *)
Theorem clean_is_idempotent : forall raw : pystr,
  Borme._clean (Borme._clean raw) = Borme._clean raw
  /\ Forall (fun line => Borme.noise_line line = false)
            (Py.split 10%N (Borme._clean raw))
  /\ (filter (fun line => negb (Borme.noise_line line)) (Py.split 10%N raw) <> [] ->
      Py.split 10%N (Borme._clean raw)
      = filter (fun line => negb (Borme.noise_line line)) (Py.split 10%N raw)).
Proof.
  intros raw.
  destruct (filter (fun line => negb (Borme.noise_line line)) (Py.split 10%N raw))
    as [|l ls] eqn:E.
  - assert (Hc : Borme._clean raw = []).
    { unfold Borme._clean. rewrite E. reflexivity. }
    rewrite Hc. split; [|split].
    + unfold Borme._clean. cbn [Py.split filter].
      rewrite LineFacts.empty_line_kept. reflexivity.
    + cbn [Py.split]. constructor; [exact LineFacts.empty_line_kept|constructor].
    + congruence.
  - assert (Hl : Py.split 10%N (Borme._clean raw) = l :: ls).
    { rewrite <- E. apply LineFacts.clean_lines. rewrite E. discriminate. }
    split; [|split].
    + unfold Borme._clean at 1. rewrite Hl, <- E, LineFacts.filter_filter.
      reflexivity.
    + rewrite Hl, <- E. apply Forall_forall. intros x Hx.
      apply filter_In in Hx. destruct Hx as [_ Hx].
      now apply negb_true_iff in Hx.
    + intros _. exact Hl.
Qed.

(** The column of the acts decodes: it is the labels of the acts joined by
    bars, and splitting it at the bars gives the labels back, for no label
    holds a bar.  The labels are distinct, and each is an act of the
    vocabulary or the label of the change of address. *)
Theorem acts_column_round_trip :
  forall (open_pdf : Borme.pdf_reader) (pdf_path : pystr) rows cargos,
    snd (Borme.parse_single_pdf open_pdf pdf_path) = Ok (rows, cargos) ->
    Forall (fun r =>
              exists acts,
                Borme.actos r = Py.join (py "|") acts
                /\ (acts <> [] -> Py.split (chr "|") (Borme.actos r) = acts)
                /\ (acts = [] -> Borme.actos r = [])
                /\ NoDup acts
                /\ Forall (fun a => In a Borme.ACTOS \/ a = py "Cambio de domicilio")
                          acts)
           rows.
Proof.
  intros open_pdf pdf_path rows cargos H.
  destruct (@RowFacts.document_entries _ _ _ _ H) as (hdr & css & HF & _ & _).
  eapply RowFacts.Forall2_left; [exact HF|]. intros r cs Hr.
  apply RowFacts.entry_of_row in Hr.
  destruct Hr as (n & e & body & prov & o & d & reg & -> & _).
  exists (Borme.entry_actos body).
  change (Borme.actos (Borme.entry_row hdr n e body prov o d reg))
    with (Py.join (py "|") (Borme.entry_actos body)).
  split; [reflexivity|]. split; [|split; [|split]].
  - intros Hne. change (py "|") with [chr "|"]. apply LineFacts.split_join; [exact Hne|].
    apply Forall_forall. intros a Ha.
    apply LineFacts.labels_without_bar. apply (LineFacts.entry_actos_labels _ _ Ha).
  - intros ->. reflexivity.
  - apply ActosFacts.entry_actos_NoDup.
  - apply Forall_forall. intros a Ha. apply (LineFacts.entry_actos_labels _ _ Ha).
Qed.

Lemma acts_column_round_trip_witness :
  Forall (fun r =>
            exists acts,
              Borme.actos r = Py.join (py "|") acts
              /\ (acts <> [] -> Py.split (chr "|") (Borme.actos r) = acts)
              /\ (acts = [] -> Borme.actos r = [])
              /\ NoDup acts
              /\ Forall (fun a => In a Borme.ACTOS \/ a = py "Cambio de domicilio")
                        acts)
         (fst Borme.example_rows).
Proof.
  apply (@acts_column_round_trip Borme.example_reader Borme.example_path
           (fst Borme.example_rows) (snd Borme.example_rows)).
  vm_compute. reflexivity.
Defined.

(** ** The two normalisers of company names *)

Unset Implicit Arguments.

Module NormFacts.
Import Re ReSem ReFacts ReInv FinditerFacts Borme.

Lemma lstrip_length : forall s, length (Py.lstrip s) <= length s.
Proof.
  induction s as [|c s IH]; [reflexivity|]. cbn [Py.lstrip].
  destruct (Unicode.isspace c); cbn [length]; lia.
Qed.

Lemma strip_length : forall s, length (Py.strip s) <= length s.
Proof.
  intros s. unfold Py.strip, Py.rstrip. rewrite length_rev.
  pose proof (lstrip_length (rev (Py.lstrip s))) as H1.
  rewrite length_rev in H1. pose proof (lstrip_length s). lia.
Qed.

Lemma drop_last_length : forall n s, length (Py.drop_last n s) = length s - n.
Proof.
  intros n s. unfold Py.drop_last. rewrite length_firstn. lia.
Qed.

Lemma drop_last_incl : forall n s x, In x (Py.drop_last n s) -> In x s.
Proof.
  intros n s x H. unfold Py.drop_last in H.
  rewrite <- (firstn_skipn (length s - n) s). apply in_or_app. now left.
Qed.

Lemma endswith_iff : forall s p,
  Py.endswith s p = true <-> exists pre, s = pre ++ p.
Proof.
  intros s p. unfold Py.endswith. rewrite StrFacts.startswith_iff. split.
  - intros (rest & H). exists (rev rest).
    apply (f_equal (@rev _)) in H. rewrite rev_involutive, rev_app_distr in H.
    now rewrite rev_involutive in H.
  - intros (pre & ->). exists (rev pre). now rewrite rev_app_distr.
Qed.

Lemma endswith_length : forall s p,
  Py.endswith s p = true -> length p <= length s.
Proof.
  intros s p H. apply endswith_iff in H. destruct H as (pre & ->).
  rewrite length_app. lia.
Qed.

(** *** The loop of [normalize_empresa] *)

Lemma matching_suffix_Some : forall suffixes n x,
  Placsp.matching_suffix suffixes n = Some x ->
  In x suffixes /\ Py.endswith n x = true.
Proof. intros suffixes n x H. unfold Placsp.matching_suffix in H. now apply find_some in H. Qed.

Lemma matching_suffix_None : forall suffixes n,
  Placsp.matching_suffix suffixes n = None <->
  forall x, In x suffixes -> Py.endswith n x = false.
Proof.
  intros suffixes n. unfold Placsp.matching_suffix. split.
  - intros H x Hx. apply (find_none _ _ H _ Hx).
  - intros H. destruct (find (Py.endswith n) suffixes) as [x|] eqn:E; [|reflexivity].
    apply find_some in E. destruct E as [Hx E]. rewrite (H _ Hx) in E. discriminate.
Qed.

(** With as many turns as the name has characters the loop reaches a name
    that no suffix ends. *)
Lemma suffix_loop_fixed : forall suffixes,
  Forall (fun x => x <> []) suffixes ->
  forall turns n, length n <= turns ->
  Placsp.matching_suffix suffixes (Placsp.suffix_loop turns suffixes n) = None.
Proof.
  intros suffixes Hne. induction turns as [|turns IH]; intros n Hlen.
  - cbn [Placsp.suffix_loop]. destruct n; [|cbn [length] in Hlen; lia].
    apply matching_suffix_None. intros x Hx.
    rewrite Forall_forall in Hne. specialize (Hne _ Hx).
    destruct (Py.endswith [] x) eqn:E; [|reflexivity].
    apply endswith_length in E. destruct x; [congruence|cbn [length] in E; lia].
  - cbn [Placsp.suffix_loop].
    destruct (Placsp.matching_suffix suffixes n) as [x|] eqn:E; [|exact E].
    apply IH. apply matching_suffix_Some in E. destruct E as [Hx E].
    rewrite Forall_forall in Hne. specialize (Hne _ Hx).
    pose proof (strip_length (Py.drop_last (length x) n)) as H1.
    rewrite drop_last_length in H1. apply endswith_length in E.
    destruct x; [congruence|cbn [length] in *; lia].
Qed.

(** More turns than needed change nothing. *)
Lemma suffix_loop_more : forall suffixes turns n,
  Placsp.matching_suffix suffixes (Placsp.suffix_loop turns suffixes n) = None ->
  forall extra,
    Placsp.suffix_loop (turns + extra) suffixes n = Placsp.suffix_loop turns suffixes n.
Proof.
  intros suffixes. induction turns as [|turns IH]; intros n H extra.
  - cbn [Placsp.suffix_loop Nat.add] in *. destruct extra; [reflexivity|].
    cbn [Placsp.suffix_loop]. now rewrite H.
  - cbn [Placsp.suffix_loop Nat.add] in *.
    destruct (Placsp.matching_suffix suffixes n) as [x|] eqn:E; [|reflexivity].
    now apply IH.
Qed.

Lemma suffix_loop_length : forall suffixes turns n,
  length (Placsp.suffix_loop turns suffixes n) <= length n.
Proof.
  intros suffixes. induction turns as [|turns IH]; intros n; [reflexivity|].
  cbn [Placsp.suffix_loop].
  destruct (Placsp.matching_suffix suffixes n) as [x|]; [|reflexivity].
  pose proof (IH (Py.strip (Py.drop_last (length x) n))) as H1.
  pose proof (strip_length (Py.drop_last (length x) n)) as H2.
  rewrite drop_last_length in H2. lia.
Qed.

Lemma SUFFIXES_nonempty : Forall (fun x => x <> []) Placsp.SUFFIXES.
Proof.
  assert (H : forallb (fun x => negb (Py.eqb x [])) Placsp.SUFFIXES = true)
    by (vm_compute; reflexivity).
  rewrite forallb_forall in H. apply Forall_forall. intros x Hx ->.
  specialize (H _ Hx). discriminate.
Qed.

(** *** Upper case *)

Lemma range_offsets_In : forall lo hi step c : N,
  (step <> 0 -> lo <= c -> c <= hi -> (c - lo) mod step = 0 ->
   In (c - lo) (Unicode.range_offsets lo hi step))%N.
Proof.
  intros lo hi step c Hs H1 H2 Hm. unfold Unicode.range_offsets. apply in_map_iff.
  exists (N.to_nat ((c - lo) / step)). split.
  - rewrite N2Nat.id. pose proof (N.div_mod (c - lo) step Hs) as H.
    rewrite Hm, N.add_0_r in H. now symmetry.
  - apply in_seq.
    assert (H : ((c - lo) / step <= (hi - lo) / step)%N).
    { apply N.Div0.div_le_mono. lia. }
    revert H. generalize ((c - lo) / step)%N ((hi - lo) / step)%N. intros a b H. lia.
Qed.

Lemma is_upper_true : forall d, Py.is_upper d = true -> Unicode.upper_char d = [d].
Proof. intros d H. now apply PyFacts.eqb_eq. Qed.

Lemma upper_special_fixed :
  forallb (fun e => forallb Py.is_upper (snd e)) Unicode.upper_special = true.
Proof. vm_compute. reflexivity. Qed.

Lemma upper_ranges_fixed :
  forallb (fun e => let '(lo, hi, step, up) := e in
                    negb (step =? 0)%N
                    && forallb (fun k => Py.is_upper (up + k)%N)
                               (Unicode.range_offsets lo hi step))
          Unicode.upper_ranges = true.
Proof. vm_compute. reflexivity. Qed.

(** The upper case of a character is made of characters that are their own
    upper case. *)
Lemma upper_char_idem : forall c d,
  In d (Unicode.upper_char c) -> Unicode.upper_char d = [d].
Proof.
  intros c d. unfold Unicode.upper_char at 1.
  destruct (find _ Unicode.upper_special) as [e|] eqn:E1.
  - apply find_some in E1. destruct E1 as [Hin _]. intros Hd.
    pose proof upper_special_fixed as H. rewrite forallb_forall in H.
    specialize (H _ Hin). cbv beta in H. rewrite forallb_forall in H.
    apply is_upper_true. now apply H.
  - destruct (find _ Unicode.upper_ranges) as [[[[lo hi] step] up]|] eqn:E2.
    + apply find_some in E2. destruct E2 as [Hin Hc]. cbv beta iota in Hc.
      unfold Unicode.in_range in Hc.
      apply andb_prop in Hc. destruct Hc as [Hc Hm]. apply andb_prop in Hc.
      destruct Hc as [H1 H2]. apply N.leb_le in H1. apply N.leb_le in H2.
      apply N.eqb_eq in Hm.
      pose proof upper_ranges_fixed as H. rewrite forallb_forall in H.
      specialize (H _ Hin). cbv beta iota in H. apply andb_prop in H.
      destruct H as [Hs H]. apply negb_true_iff in Hs. apply N.eqb_neq in Hs.
      rewrite forallb_forall in H.
      intros [<-|[]]. apply is_upper_true. apply H. now apply range_offsets_In.
    + intros [<-|[]]. unfold Unicode.upper_char. now rewrite E1, E2.
Qed.

Lemma upper_fixed : forall t,
  (forall x, In x t -> Unicode.upper_char x = [x]) -> Py.upper t = t.
Proof.
  induction t as [|x t IH]; intros H; [reflexivity|].
  unfold Py.upper in *. cbn [flat_map]. rewrite (H x (or_introl eq_refl)).
  cbn [app]. f_equal. apply IH. intros y Hy. apply H. now right.
Qed.

Lemma upper_chars : forall s x, In x (Py.upper s) -> Unicode.upper_char x = [x].
Proof.
  intros s x H. unfold Py.upper in H. apply in_flat_map in H.
  destruct H as (c & _ & H). apply (upper_char_idem _ _ H).
Qed.

(** *** Substitution by the empty string *)

Lemma slice_incl : forall a b s x, In x (Py.slice a b s) -> In x s.
Proof.
  intros a b s x H. unfold Py.slice in H.
  rewrite <- (firstn_skipn a s). apply in_or_app. right.
  rewrite <- (firstn_skipn (b - a) (skipn a s)). apply in_or_app. now left.
Qed.

Lemma sub_matches_incl : forall s ms from x,
  In x (sub_matches [] s from ms) -> In x s.
Proof.
  intros s. induction ms as [|m ms IH]; intros from x H.
  - cbn [sub_matches] in H. unfold Py.from in H.
    rewrite <- (firstn_skipn from s). apply in_or_app. now right.
  - cbn [sub_matches app] in H. apply in_app_or in H. destruct H as [H|H].
    + apply (slice_incl _ _ _ _ H).
    + apply (IH _ _ H).
Qed.

Lemma slice_length : forall a b s, length (Py.slice a b s) <= b - a.
Proof. intros a b s. unfold Py.slice. apply firstn_le_length. Qed.

Lemma sub_matches_length : forall s ms from,
  chain from ms (length s) ->
  length (sub_matches [] s from ms) <= length s - from.
Proof.
  intros s. induction ms as [|m ms IH]; intros from H.
  - cbn [sub_matches]. unfold Py.from. rewrite length_skipn. lia.
  - cbn [chain] in H. destruct H as (H1 & H2 & H3).
    cbn [sub_matches app]. rewrite length_app.
    pose proof (slice_length from (m_start m) s).
    pose proof (IH _ H3). pose proof (chain_bound _ _ _ H3). lia.
Qed.

Lemma sub_length : forall r s, length (sub r [] s) <= length s.
Proof.
  intros r s. unfold sub.
  pose proof (sub_matches_length s (finditer r s) 0 (finditer_chain r s)). lia.
Qed.

Lemma sub_incl : forall r s x, In x (sub r [] s) -> In x s.
Proof. intros r s x H. apply (sub_matches_incl _ _ _ _ H). Qed.

(** A text in which the pattern matches nowhere is left as it is. *)
Lemma sub_nothing : forall r repl s, search r s = None -> sub r repl s = s.
Proof.
  intros r repl s H. unfold sub, finditer. cbn [finditer_from].
  unfold search in H. rewrite H. reflexivity.
Qed.

(** A text in which the pattern has a match that is not empty gets
    shorter. *)
Lemma sub_shorter : forall r s m,
  search r s = Some m -> m_start m < m_end m -> length (sub r [] s) < length s.
Proof.
  intros r s m H Hlt. unfold sub.
  pose proof (finditer_chain r s) as Hch.
  unfold finditer in *. cbn [finditer_from] in *. unfold search in H.
  rewrite H in *. rewrite advance_spec in *.
  set (rest := if length s <? Nat.max (m_end m) (S (m_start m)) - length (@nil char)
               then []
               else finditer_from (length s) r _ _) in *.
  cbn [chain] in Hch. destruct Hch as (H1 & H2 & H3).
  cbn [sub_matches app]. rewrite length_app.
  pose proof (slice_length 0 (m_start m) s).
  pose proof (sub_matches_length s rest (m_end m) H3).
  pose proof (chain_bound _ _ _ H3). lia.
Qed.

(** *** The trailing punctuation *)

Lemma rstrip_strip : forall s, Py.rstrip (Py.strip s) = Py.strip s.
Proof. intros s. unfold Py.strip. apply StripFacts.rstrip_idem. Qed.

Lemma stripped_last : forall t pre c,
  Py.strip t = t -> t = pre ++ [c] -> Unicode.isspace c = false.
Proof.
  intros t pre c Hs Ht.
  assert (Hr : Py.rstrip t = t) by (rewrite <- Hs; apply rstrip_strip).
  unfold Py.rstrip in Hr. apply (f_equal (@rev _)) in Hr.
  rewrite rev_involutive in Hr. rewrite Ht, rev_app_distr in Hr.
  cbn [rev app Py.lstrip] in Hr.
  destruct (Unicode.isspace c); [|reflexivity].
  pose proof (lstrip_length (rev pre)) as Hl. rewrite Hr in Hl.
  cbn [length] in Hl. lia.
Qed.

Lemma punct_match_inv : forall t i j c,
  matches_at TRAILING_PUNCT_RE t i j c ->
  exists pre mid post,
    t = pre ++ mid ++ post /\ mid <> []
    /\ Forall (fun x => one_of ".,;" x = true) mid
    /\ at_eol false post = true /\ i = length pre /\ j = length pre + length mid.
Proof.
  intros t i j c (b & a & b' & a' & -> & <- & <- & HM).
  unfold TRAILING_PUNCT_RE in HM. apply M_seq in HM. destruct HM as (s1 & H1 & H2).
  unfold plus in H1. inv_rep H1 mid HF Hlo Hhi.
  cbn [Matches bef aft] in H2. destruct H2 as [He E]. injection E as -> -> ->.
  match type of He with at_eol false ?p = true => exists (rev b), mid, p end.
  split; [reflexivity|].
  split. { intros ->. cbn [length] in Hlo. lia. }
  split; [exact HF|]. split; [exact He|].
  rewrite length_app, !length_rev. lia.
Qed.

Lemma punct_match_last : forall pre x,
  one_of ".,;" x = true ->
  matches_at TRAILING_PUNCT_RE (pre ++ [x]) (length pre) (S (length pre)) [].
Proof.
  intros pre x Hx. exists (rev pre), [x], (x :: rev pre), [].
  split. { now rewrite rev_involutive. }
  split. { now rewrite length_rev. }
  split. { cbn [length]. now rewrite length_rev. }
  unfold TRAILING_PUNCT_RE. apply M_seq.
  exists (St (x :: rev pre) [] []). split.
  - unfold plus. apply M_rep_chr. exists [x], []. repeat split; auto.
  - split; reflexivity.
Qed.

Lemma one_of_In : forall str x, one_of str x = true <-> In x (py str).
Proof. intros str x. unfold one_of. apply CargoFacts.cmem_In. Qed.

(** A trimmed name that ends with no punctuation mark is left as it is. *)
Lemma punct_nothing : forall t,
  Py.strip t = t ->
  (forall c, In c (py ".,;") -> Py.endswith t [c] = false) ->
  sub TRAILING_PUNCT_RE [] t = t.
Proof.
  intros t Hs Hp. apply sub_nothing.
  destruct (search TRAILING_PUNCT_RE t) as [m|] eqn:E; [exfalso|reflexivity].
  apply search_least in E. destruct E as [HM _].
  apply punct_match_inv in HM.
  destruct HM as (pre & mid & post & Ht & Hne & HF & He & _).
  destruct (exists_last Hne) as (mid' & x & ->).
  apply Forall_app in HF. destruct HF as [_ HF]. inversion HF as [|? ? Hx _]; subst.
  destruct post as [|y post]; cbn [at_eol] in He.
  - rewrite app_nil_r in Hp. apply one_of_In in Hx.
    specialize (Hp x Hx). 
    assert (Hend : Py.endswith (pre ++ mid' ++ [x]) [x] = true).
    { apply endswith_iff. exists (pre ++ mid'). now rewrite <- app_assoc. }
    congruence.
  - apply andb_prop in He. destruct He as [Hy He]. apply N.eqb_eq in Hy. subst y.
    destruct post; [|discriminate].
    assert (Hsp : Unicode.isspace 10%N = false).
    { apply (@stripped_last _ (pre ++ mid' ++ [x]) 10%N Hs).
      now rewrite <- !app_assoc. }
    discriminate.
Qed.

(** A name that ends with a punctuation mark gets shorter. *)
Lemma punct_shorter : forall t c,
  In c (py ".,;") -> Py.endswith t [c] = true ->
  length (sub TRAILING_PUNCT_RE [] t) < length t.
Proof.
  intros t c Hc He. apply endswith_iff in He. destruct He as (pre & ->).
  apply one_of_In in Hc. pose proof (@punct_match_last pre c Hc) as HM.
  destruct (search TRAILING_PUNCT_RE (pre ++ [c])) as [m|] eqn:E.
  - apply (@sub_shorter _ _ _ E). apply search_least in E. destruct E as [HM' _].
    apply punct_match_inv in HM'.
    destruct HM' as (p & mid & q & _ & Hne & _ & _ & -> & ->).
    destruct mid; [congruence|cbn [length]; lia].
  - exfalso. apply (@search_nothing _ _ E _ _ _ HM).
Qed.

(** *** The loop of [_normalize_empresa], which runs once *)

Lemma strip_first_suffix_none : forall suffixes n,
  (forall x, In x suffixes -> Py.endswith n x = false) ->
  strip_first_suffix suffixes n = n.
Proof.
  induction suffixes as [|x suffixes IH]; intros n H; [reflexivity|].
  cbn [strip_first_suffix]. rewrite (H x (or_introl eq_refl)).
  apply IH. intros y Hy. apply H. now right.
Qed.

Lemma strip_first_suffix_some : forall suffixes n x,
  In x suffixes -> Py.endswith n x = true ->
  exists y, In y suffixes /\ Py.endswith n y = true
            /\ strip_first_suffix suffixes n = Py.strip (Py.drop_last (length y) n).
Proof.
  induction suffixes as [|z suffixes IH]; intros n x Hx He; [destruct Hx|].
  cbn [strip_first_suffix]. destruct (Py.endswith n z) eqn:Ez.
  - exists z. split; [now left|]. auto.
  - destruct Hx as [->|Hx]; [congruence|].
    destruct (IH n x Hx He) as (y & Hy & Hey & E).
    exists y. split; [now right|]. auto.
Qed.

Lemma strip_first_suffix_incl : forall suffixes n x,
  In x (strip_first_suffix suffixes n) -> In x n.
Proof.
  induction suffixes as [|z suffixes IH]; intros n x H; [exact H|].
  cbn [strip_first_suffix] in H. destruct (Py.endswith n z).
  - apply RowFacts.strip_incl in H. apply (drop_last_incl _ _ _ H).
  - apply (IH _ _ H).
Qed.

Lemma strip_first_suffix_length : forall suffixes n,
  length (strip_first_suffix suffixes n) <= length n.
Proof.
  induction suffixes as [|z suffixes IH]; intros n; [reflexivity|].
  cbn [strip_first_suffix]. destruct (Py.endswith n z); [|apply IH].
  pose proof (strip_length (Py.drop_last (length z) n)).
  rewrite drop_last_length in *. lia.
Qed.

Lemma SUFFIXES_LIGHT_nonempty : Forall (fun x => x <> []) SUFFIXES_LIGHT.
Proof.
  assert (H : forallb (fun x => negb (Py.eqb x [])) SUFFIXES_LIGHT = true)
    by (vm_compute; reflexivity).
  rewrite forallb_forall in H. apply Forall_forall. intros x Hx ->.
  specialize (H _ Hx). discriminate.
Qed.

(** The result of the normaliser is trimmed and in upper case. *)
Lemma normalize_light_stripped : forall s,
  Py.strip (_normalize_empresa s) = _normalize_empresa s.
Proof. intros s. unfold _normalize_empresa. apply StripFacts.strip_idem. Qed.

Lemma normalize_light_upper : forall s,
  Py.upper (_normalize_empresa s) = _normalize_empresa s.
Proof.
  intros s. apply upper_fixed. intros x Hx. unfold _normalize_empresa in Hx.
  apply RowFacts.strip_incl in Hx. apply sub_incl in Hx.
  apply strip_first_suffix_incl in Hx. apply RowFacts.strip_incl in Hx.
  apply (upper_chars _ _ Hx).
Qed.

(** *** What a substitution leaves of the text *)

(** A character of the result of a substitution comes from the replacement
    or stands in the text at an offset where the pattern does not match,
    for a pattern that matches no empty string. *)
Lemma sub_gaps : forall r repl,
  (forall b a m, match_here r b a = Some m -> m_start m < m_end m) ->
  forall budget b a x,
  length a < budget ->
  In x (sub_matches repl (rev b ++ a) (length b) (finditer_from budget r b a)) ->
  In x repl \/
  exists pre post, a = pre ++ x :: post
                   /\ match_here r (rev pre ++ b) (x :: post) = None.
Proof.
  intros r repl Hne. induction budget as [|budget IH]; intros b a x Hb Hin; [lia|].
  cbn [finditer_from] in Hin.
  destruct (search_from r b a) as [m|] eqn:E.
  - pose proof E as E'. apply search_from_Some in E'.
    destruct E' as (p & q & Ha & Hm & Hleft).
    pose proof (Hne _ _ _ Hm) as Hlt.
    apply match_here_matches_at in Hm. destruct Hm as (_ & Hs & Hbound).
    rewrite length_app, length_rev in Hs, Hbound.
    rewrite advance_spec in Hin.
    set (step := Nat.max (m_end m) (S (m_start m)) - length b) in *.
    assert (Hstep : step = m_end m - length b) by (unfold step; lia).
    assert (Hal : length a = length p + length q) by (rewrite Ha; apply length_app).
    replace (length a <? step) with false in Hin by (symmetry; apply Nat.ltb_ge; lia).
    cbn [sub_matches] in Hin. apply in_app_or in Hin. destruct Hin as [Hin|Hin].
    + assert (Hp : Py.slice (length b) (m_start m) (rev b ++ a) = p).
      { rewrite Ha. apply ReInv.slice_app; [now rewrite length_rev|].
        rewrite length_rev. lia. }
      rewrite Hp in Hin. apply in_split in Hin. destruct Hin as (p1 & p2 & ->).
      right. exists p1, (p2 ++ q). split.
      * rewrite Ha, <- app_assoc. reflexivity.
      * apply (Hleft p1 (x :: p2) eq_refl). discriminate.
    + apply in_app_or in Hin. destruct Hin as [Hin|Hin]; [now left|].
      assert (Htext : rev (rev (firstn step a) ++ b) ++ skipn step a = rev b ++ a).
      { rewrite rev_app_distr, rev_involutive, <- app_assoc.
        now rewrite firstn_skipn. }
      assert (Hlen : length (rev (firstn step a) ++ b) = m_end m).
      { rewrite length_app, length_rev, length_firstn. lia. }
      rewrite <- Htext, <- Hlen in Hin.
      apply IH in Hin; [|rewrite length_skipn; lia].
      destruct Hin as [Hin|(pre & post & Hsk & Hnone)]; [now left|].
      right. exists (firstn step a ++ pre), post. split.
      * rewrite <- app_assoc, <- Hsk. now rewrite firstn_skipn.
      * rewrite rev_app_distr, <- app_assoc. exact Hnone.
  - cbn [sub_matches] in Hin. unfold Py.from in Hin.
    rewrite skipn_app, skipn_all2 in Hin by (rewrite length_rev; lia).
    rewrite length_rev, Nat.sub_diag in Hin. cbn [skipn app] in Hin.
    apply in_split in Hin. destruct Hin as (pre & post & ->).
    right. exists pre, post. split; [reflexivity|].
    apply (@search_from_None _ _ _ E pre (x :: post) eq_refl).
Qed.

Lemma sub_chars : forall r repl s x,
  (forall b a m, match_here r b a = Some m -> m_start m < m_end m) ->
  In x (sub r repl s) ->
  In x repl \/
  exists pre post, s = pre ++ x :: post
                   /\ match_here r (rev pre) (x :: post) = None.
Proof.
  intros r repl s x Hne H. unfold sub, finditer in H.
  apply (@sub_gaps r repl Hne (S (length s)) [] s x) in H; [|lia].
  destruct H as [H|(pre & post & H1 & H2)]; [now left|].
  right. exists pre, post. now rewrite app_nil_r in H2.
Qed.

Lemma chr_nonempty : forall p b a m,
  match_here (Chr p) b a = Some m -> m_start m < m_end m.
Proof.
  intros p b a m H. apply match_here_Some in H. destruct H as (s' & HM & ->).
  apply M_chr in HM. destruct HM as (x & a' & _ & _ & ->).
  unfold pos_of. cbn [m_start m_end bef length]. lia.
Qed.

Lemma plus_chr_nonempty : forall p b a m,
  match_here (plus (Chr p)) b a = Some m -> m_start m < m_end m.
Proof.
  intros p b a m H. apply match_here_Some in H. destruct H as (s' & HM & ->).
  unfold plus in HM. apply M_rep_chr in HM.
  destruct HM as (mid & a' & _ & -> & _ & Hlo & _).
  unfold pos_of. cbn [m_start m_end bef]. rewrite length_app, length_rev. lia.
Qed.

Lemma chr_no_match : forall p b x post,
  match_here (Chr p) b (x :: post) = None -> p x = false.
Proof.
  intros p b x post H. destruct (p x) eqn:E; [exfalso|reflexivity].
  apply (@match_here_None _ _ _ H (St (x :: b) post [])).
  apply M_chr. exists x, post. auto.
Qed.

Lemma plus_chr_no_match : forall p b x post,
  match_here (plus (Chr p)) b (x :: post) = None -> p x = false.
Proof.
  intros p b x post H. destruct (p x) eqn:E; [exfalso|reflexivity].
  apply (@match_here_None _ _ _ H (St (rev [x] ++ b) post [])).
  unfold plus. apply M_rep_chr. exists [x], post.
  repeat split; auto.
Qed.

(** *** The alphabet of the matching key *)

Lemma in_space : forall x, In x (py " ") -> x = 32%N.
Proof. intros x H. vm_compute in H. destruct H as [H|[]]. now symmetry. Qed.

Lemma separators_chars : forall n x,
  In x (Py.strip (sub (plus (Chr space)) (py " ")
                    (sub (Chr (one_of ",.-")) (py " ") n))) ->
  x = 32%N \/ (one_of ",.-" x = false /\ space x = false).
Proof.
  intros n x H. apply RowFacts.strip_incl in H.
  apply sub_chars in H; [|apply plus_chr_nonempty].
  destruct H as [H|(pre & post & Hs & Hnone)]; [left; now apply in_space|].
  apply plus_chr_no_match in Hnone.
  assert (Hin : In x (sub (Chr (one_of ",.-")) (py " ") n)).
  { rewrite Hs. apply in_or_app. right. now left. }
  apply sub_chars in Hin; [|apply chr_nonempty].
  destruct Hin as [Hin|(pre' & post' & _ & Hnone')]; [left; now apply in_space|].
  apply chr_no_match in Hnone'. right. auto.
Qed.

Lemma prepare_shape : forall name, exists n,
  Placsp.prepare name
  = Py.strip (sub (plus (Chr space)) (py " ") (sub (Chr (one_of ",.-")) (py " ") n)).
Proof. intros name. eexists. unfold Placsp.prepare. reflexivity. Qed.

Lemma prepare_chars : forall name x,
  In x (Placsp.prepare name) ->
  x = 32%N \/ (one_of ",.-" x = false /\ space x = false).
Proof.
  intros name x H. destruct (prepare_shape name) as (n & E).
  rewrite E in H. exact (separators_chars _ _ H).
Qed.

Lemma suffix_loop_incl : forall suffixes turns n x,
  In x (Placsp.suffix_loop turns suffixes n) -> In x n.
Proof.
  intros suffixes. induction turns as [|turns IH]; intros n x H; [exact H|].
  cbn [Placsp.suffix_loop] in H.
  destruct (Placsp.matching_suffix suffixes n) as [y|]; [|exact H].
  apply IH in H. apply RowFacts.strip_incl in H. apply (drop_last_incl _ _ _ H).
Qed.

(** Where the extraction-time normaliser leaves a trimmed upper-case name
    as it is. *)
Lemma light_fixed_iff : forall t,
  Py.strip t = t -> Py.upper t = t ->
  (_normalize_empresa t = t <->
   (forall x, In x SUFFIXES_LIGHT -> Py.endswith t x = false)
   /\ (forall c, In c (py ".,;") -> Py.endswith t [c] = false)).
Proof.
  intros t Hs Hu.
  assert (Hn : _normalize_empresa t
               = Py.strip (sub TRAILING_PUNCT_RE [] (strip_first_suffix SUFFIXES_LIGHT t))).
  { unfold _normalize_empresa. now rewrite Hu, Hs. }
  rewrite Hn. clear Hn.
  pose proof (strip_length
                (sub TRAILING_PUNCT_RE [] (strip_first_suffix SUFFIXES_LIGHT t))) as L1.
  pose proof (sub_length TRAILING_PUNCT_RE (strip_first_suffix SUFFIXES_LIGHT t)) as L2.
  split.
  - intros H.
    assert (Hsuf : forall x, In x SUFFIXES_LIGHT -> Py.endswith t x = false).
    { intros x Hx. destruct (Py.endswith t x) eqn:E; [exfalso|reflexivity].
      destruct (strip_first_suffix_some _ _ _ Hx E) as (y & Hy & Ey & Hy').
      rewrite Hy' in *.
      pose proof (strip_length (Py.drop_last (length y) t)) as L3.
      rewrite drop_last_length in L3.
      apply endswith_length in Ey.
      pose proof SUFFIXES_LIGHT_nonempty as Hne.
      rewrite Forall_forall in Hne. specialize (Hne _ Hy).
      apply (f_equal (@length _)) in H.
      destruct y; [congruence|cbn [length] in *; lia]. }
    split; [exact Hsuf|].
    intros c Hc. destruct (Py.endswith t [c]) eqn:E; [exfalso|reflexivity].
    rewrite (strip_first_suffix_none _ _ Hsuf) in *.
    pose proof (punct_shorter _ _ Hc E) as L3.
    apply (f_equal (@length _)) in H. lia.
  - intros [Hsuf Hp].
    rewrite (strip_first_suffix_none _ _ Hsuf).
    rewrite (punct_nothing _ Hs Hp). exact Hs.
Qed.

(** A name that the steps before the suffix loop leave as it is, and that
    ends with no suffix and no punctuation, is its own key. *)
Lemma full_fixed : forall t,
  Placsp.prepare t = t ->
  (forall x, In x Placsp.SUFFIXES -> Py.endswith t x = false) ->
  (forall c, In c (py ".,;") -> Py.endswith t [c] = false) ->
  Placsp.normalize_empresa t = t.
Proof.
  intros t Hp Hsuf Hpunct.
  assert (Hs : Py.strip t = t).
  { destruct (prepare_shape t) as (n & E). rewrite Hp in E.
    rewrite E at 1. rewrite StripFacts.strip_idem. now symmetry. }
  unfold Placsp.normalize_empresa. destruct t as [|c t]; [reflexivity|].
  rewrite Hp.
  assert (Hl : Placsp.suffix_loop (length (c :: t)) Placsp.SUFFIXES (c :: t) = c :: t).
  { cbn [length Placsp.suffix_loop].
    now rewrite (proj2 (matching_suffix_None Placsp.SUFFIXES (c :: t)) Hsuf). }
  rewrite Hl, (punct_nothing _ Hs Hpunct). exact Hs.
Qed.

End NormFacts.

(** The result of the extraction-time normaliser is trimmed and in upper
    case.  Normalising it again leaves it as it is exactly when no suffix
    of the list ends it and it ends with no period, comma or semicolon:
    the normaliser cuts one suffix and then the punctuation, once. *)
Theorem light_normalizer_fixed_points : forall s : pystr,
  let t := Borme._normalize_empresa s in
  Py.strip t = t /\ Py.upper t = t
  /\ (Borme._normalize_empresa t = t <->
      (forall x, In x Borme.SUFFIXES_LIGHT -> Py.endswith t x = false)
      /\ (forall c, In c (py ".,;") -> Py.endswith t [c] = false)).
Proof.
  intros s t.
  assert (Hs : Py.strip t = t) by apply NormFacts.normalize_light_stripped.
  assert (Hu : Py.upper t = t) by apply NormFacts.normalize_light_upper.
  split; [exact Hs|]. split; [exact Hu|].
  apply (NormFacts.light_fixed_iff t Hs Hu).
Qed.

(** The loop that cuts the legal-form suffixes in the normaliser of the
    matching ends, within as many turns as the name has characters, at a
    name that no suffix of the list ends; further turns change nothing, and
    the name has not grown. *)
Theorem suffix_loop_reaches_a_fixed_point : forall n : pystr,
  let r := Placsp.suffix_loop (length n) Placsp.SUFFIXES n in
  (forall x, In x Placsp.SUFFIXES -> Py.endswith r x = false)
  /\ (forall extra,
         Placsp.suffix_loop (length n + extra) Placsp.SUFFIXES n = r)
  /\ length r <= length n.
Proof.
  intros n r.
  pose proof (NormFacts.suffix_loop_fixed _ NormFacts.SUFFIXES_nonempty
                (length n) n (le_n _)) as H.
  fold r in H. split; [|split].
  - now apply NormFacts.matching_suffix_None.
  - intros extra. apply (NormFacts.suffix_loop_more _ _ _ H).
  - apply NormFacts.suffix_loop_length.
Qed.

(** The key that the normaliser of the matching makes of a name is trimmed
    and holds no comma, period or hyphen, and no white space but the
    space. *)
Theorem matching_key_alphabet : forall name : pystr,
  Py.strip (Placsp.normalize_empresa name) = Placsp.normalize_empresa name
  /\ Forall (fun x => ~ In x (py ",.-") /\ (Unicode.isspace x = true -> x = 32%N))
            (Placsp.normalize_empresa name).
Proof.
  intros name. unfold Placsp.normalize_empresa. destruct name as [|c name].
  - split; [reflexivity|constructor].
  - split; [apply StripFacts.strip_idem|].
    apply Forall_forall. intros x Hx.
    apply RowFacts.strip_incl in Hx. apply NormFacts.sub_incl in Hx.
    apply NormFacts.suffix_loop_incl in Hx. apply NormFacts.prepare_chars in Hx.
    destruct Hx as [->|[H1 H2]].
    + split; [|reflexivity]. intros H. apply CargoFacts.cmem_In in H.
      vm_compute in H. discriminate.
    + split.
      * intros H. apply NormFacts.one_of_In in H. congruence.
      * intros H. unfold Re.space in H2. congruence.
Qed.

(** C1, as amended.  Neither normaliser is idempotent.  The
    extraction-time normaliser cuts one suffix and then the trailing
    punctuation, once: normalising its result again leaves it as it is
    exactly when no suffix of the list ends the result and it ends with no
    period, comma or semicolon.  The normaliser of the matching cuts the
    suffixes to a fixed point, so that no suffix of the list ends the name
    when the loop ends, and only then the trailing punctuation, once; a name
    that the steps before the loop leave as they find it, and that ends with
    no suffix of the list and no period, comma or semicolon, is its own
    key. *)
Theorem normalization_fixed_points :
  (forall s : pystr,
      let t := Borme._normalize_empresa s in
      Borme._normalize_empresa t = t <->
      (forall x, In x Borme.SUFFIXES_LIGHT -> Py.endswith t x = false)
      /\ (forall c, In c (py ".,;") -> Py.endswith t [c] = false))
  /\ (forall s : pystr,
         s <> [] ->
         let r := Placsp.suffix_loop (length (Placsp.prepare s)) Placsp.SUFFIXES
                    (Placsp.prepare s) in
         (forall x, In x Placsp.SUFFIXES -> Py.endswith r x = false)
         /\ Placsp.normalize_empresa s = Py.strip (Re.sub Borme.TRAILING_PUNCT_RE [] r))
  /\ (forall t : pystr,
         Placsp.prepare t = t ->
         (forall x, In x Placsp.SUFFIXES -> Py.endswith t x = false) ->
         (forall c, In c (py ".,;") -> Py.endswith t [c] = false) ->
         Placsp.normalize_empresa t = t).
Proof.
  split; [|split].
  - intros s t. apply NormFacts.light_fixed_iff.
    + apply NormFacts.normalize_light_stripped.
    + apply NormFacts.normalize_light_upper.
  - intros s Hs r. split.
    + apply NormFacts.matching_suffix_None.
      apply (NormFacts.suffix_loop_fixed _ NormFacts.SUFFIXES_nonempty _ _ (le_n _)).
    + unfold Placsp.normalize_empresa. destruct s; [contradiction|reflexivity].
  - exact NormFacts.full_fixed.
Qed.

Lemma normalization_fixed_points_witness :
  Placsp.normalize_empresa (py "ACME INVERSIONES") = py "ACME INVERSIONES".
Proof.
  apply (proj2 (proj2 normalization_fixed_points)).
  - vm_compute. reflexivity.
  - apply NormFacts.matching_suffix_None. vm_compute. reflexivity.
  - intros c Hc. vm_compute in Hc.
    destruct Hc as [<-|[<-|[<-|[]]]]; vm_compute; reflexivity.
Defined.

(** The claim as it was stated fails: a suffix that punctuation follows
    survives the first pass and is cut by the second, and the
    extraction-time normaliser cuts one suffix of two. *)
Lemma normalization_is_not_idempotent :
  Borme._normalize_empresa (py "ACME SL.") = py "ACME SL"
  /\ Borme._normalize_empresa (py "ACME SL") = py "ACME"
  /\ Borme._normalize_empresa (py "ACME SA SL") = py "ACME SA"
  /\ Borme._normalize_empresa (py "ACME SA") = py "ACME"
  /\ Placsp.normalize_empresa (py "ACME SL;") = py "ACME SL"
  /\ Placsp.normalize_empresa (py "ACME SL") = py "ACME"
  /\ Borme._normalize_empresa (Borme._normalize_empresa (py "ACME SL."))
     <> Borme._normalize_empresa (py "ACME SL.")
  /\ Placsp.normalize_empresa (Placsp.normalize_empresa (py "ACME SL;"))
     <> Placsp.normalize_empresa (py "ACME SL;").
Proof.
  repeat split; try (vm_compute; reflexivity);
    intros H; vm_compute in H; discriminate H.
Qed.

Set Implicit Arguments.

(** ** The date of the path, the jurisdiction and the capital *)

Module PathFacts.
Import Borme.

Lemma fecha_skip : forall default p rest,
  year_component p = false -> unreadable_component p = false ->
  fecha_from_parts default (p :: rest) = fecha_from_parts default rest.
Proof.
  intros default p rest Hy Hu. cbn [fecha_from_parts].
  unfold year_component, unreadable_component in *.
  destruct (Py.isdigit p && Nat.eqb (length p) 4); [|reflexivity].
  cbn [andb] in Hy, Hu.
  destruct (Py.int p) as [v|]; [|discriminate]. now rewrite Hy.
Qed.

Lemma fecha_year : forall default y rest,
  year_component y = true ->
  fecha_from_parts default (y :: rest)
  = match rest with
    | p1 :: p2 :: _ => y ++ py "-" ++ Py.zfill 2 p1 ++ py "-" ++ Py.zfill 2 p2
    | _ => default
    end.
Proof.
  intros default y rest Hy. cbn [fecha_from_parts].
  unfold year_component in Hy.
  destruct (Py.isdigit y && Nat.eqb (length y) 4); [|discriminate].
  cbn [andb] in Hy. destruct (Py.int y) as [v|]; [|discriminate].
  now rewrite Hy.
Qed.

Lemma track_provincia_snoc : forall lines line prov,
  fold_left (fun prov line =>
               if Py.mem (Py.strip line) PROVINCIAS then Py.strip line else prov)
            (lines ++ [line]) prov
  = if Py.mem (Py.strip line) PROVINCIAS then Py.strip line
    else fold_left (fun prov line =>
                      if Py.mem (Py.strip line) PROVINCIAS then Py.strip line else prov)
                   lines prov.
Proof. intros lines line prov. now rewrite fold_left_app. Qed.

End PathFacts.

(** The date of a document is read from the first component of its path
    that is a year from 2000 to 2030 written with four digits: it is that
    year and the two components after it, zero-filled to two characters,
    joined by dashes.  When fewer than two components follow, the date
    stays the default.  The components before are neither such a year nor
    four digits that cannot be read as a number. *)
Theorem date_from_first_year_component :
  forall (default : pystr) (before : list pystr) (y : pystr) (rest : list pystr),
    Forall (fun p => Borme.year_component p = false
                     /\ Borme.unreadable_component p = false) before ->
    Borme.year_component y = true ->
    Borme.fecha_from_parts default (before ++ y :: rest)
    = match rest with
      | p1 :: p2 :: _ => y ++ py "-" ++ Py.zfill 2 p1 ++ py "-" ++ Py.zfill 2 p2
      | _ => default
      end.
Proof.
  intros default before y rest HF Hy.
  induction HF as [|p before [Hp1 Hp2] _ IH].
  - now apply PathFacts.fecha_year.
  - cbn [app]. now rewrite PathFacts.fecha_skip.
Qed.

Lemma date_from_first_year_component_witness :
  Borme.fecha_from_parts (py "2020-01-01")
    ([py "/"; py "data"] ++ py "2020" :: [py "1"; py "20"; py "BORME-A-2020-12-28.pdf"])
  = py "2020" ++ py "-" ++ Py.zfill 2 (py "1") ++ py "-" ++ Py.zfill 2 (py "20").
Proof.
  apply (@date_from_first_year_component (py "2020-01-01") [py "/"; py "data"]
           (py "2020") [py "1"; py "20"; py "BORME-A-2020-12-28.pdf"]).
  - repeat constructor.
  - vm_compute. reflexivity.
Defined.

(** A path without a year component keeps the default date, and so does a
    path in which four digits that cannot be read as a number come first. *)
Theorem date_defaults_without_year_component :
  forall (default : pystr) (before : list pystr) (rest : list pystr),
    Forall (fun p => Borme.year_component p = false
                     /\ Borme.unreadable_component p = false) before ->
    (rest = [] \/ exists p rest', rest = p :: rest'
                                  /\ Borme.unreadable_component p = true) ->
    Borme.fecha_from_parts default (before ++ rest) = default.
Proof.
  intros default before rest HF Hrest.
  induction HF as [|p before [Hp1 Hp2] _ IH].
  - destruct Hrest as [->|(p & rest' & -> & Hp)]; [reflexivity|].
    cbn [app Borme.fecha_from_parts]. unfold Borme.unreadable_component in Hp.
    destruct (Py.isdigit p && Nat.eqb (length p) 4); [|discriminate].
    cbn [andb] in Hp. destruct (Py.int p); [discriminate|reflexivity].
  - cbn [app]. now rewrite PathFacts.fecha_skip.
Qed.

Lemma date_defaults_without_year_component_witness :
  Borme.fecha_from_parts (py "2020-01-01")
    ([py "pdfs"; py "1999"; py "BORME-A-2020-12-28.pdf"] ++ [])
  = py "2020-01-01".
Proof.
  apply (@date_defaults_without_year_component (py "2020-01-01")
           [py "pdfs"; py "1999"; py "BORME-A-2020-12-28.pdf"] []).
  - repeat constructor.
  - now left.
Defined.

(** The jurisdiction in force after a gap is the last line of the gap that
    is, once trimmed, a province of the list; without such a line it is the
    jurisdiction in force before. *)
Theorem jurisdiction_last_heading_wins : forall gap prov : pystr,
  Borme.track_provincia gap prov
  = match find (fun line => Py.mem (Py.strip line) Borme.PROVINCIAS)
               (rev (Py.split 10%N gap)) with
    | Some line => Py.strip line
    | None => prov
    end.
Proof.
  intros gap prov. unfold Borme.track_provincia.
  generalize (Py.split 10%N gap). intros lines.
  induction lines as [|line lines IH] using rev_ind; [reflexivity|].
  rewrite PathFacts.track_provincia_snoc, rev_app_distr. cbn [rev app find].
  destruct (Py.mem (Py.strip line) Borme.PROVINCIAS); [reflexivity|exact IH].
Qed.


(** ** The links of an index page and the error log of the scraper *)

Module LinkFacts.
Import Re ReSem ReFacts ReInv Scraper.

Lemma M_lit_i : forall str b a c v,
  Matches (lit_i str) (St b a c) v <->
  exists mid a', a = mid ++ a' /\ v = St (rev mid ++ b) a' c
                 /\ Forall2 (fun p x => Unicode.ignorecase_eq p x = true) (py str) mid.
Proof. intros. unfold lit_i. apply M_chars. Qed.

(** A character that no letter of the pattern matches is not in the text
    matched. *)
Lemma ci_avoids : forall (q : char) pats mid,
  Forall2 (fun p x => Unicode.ignorecase_eq p x = true) pats mid ->
  forallb (fun p => negb (Unicode.ignorecase_eq p q)) pats = true ->
  ~ In q mid.
Proof.
  intros q pats mid HF. induction HF as [|p x pats mid Hp _ IH]; intros Hq Hin.
  - contradiction.
  - cbn [forallb] in Hq. apply andb_true_iff in Hq. destruct Hq as [Hq1 Hq2].
    destruct Hin as [->|Hin]; [|now apply IH].
    rewrite Hp in Hq1. discriminate.
Qed.

Lemma ci_cases : forall pat c,
  Unicode.ignorecase_eq pat c = true ->
  let lo := (if Unicode.in_range 0x41 0x5A pat then pat + 0x20 else pat)%N in
  c = pat \/ c = lo \/ (Unicode.in_range 0x61 0x7A lo = true /\ c = (lo - 0x20)%N)
  \/ (lo = 0x69%N /\ (c = 0x130%N \/ c = 0x131%N))
  \/ (lo = 0x73%N /\ c = 0x17F%N) \/ (lo = 0x6B%N /\ c = 0x212A%N).
Proof.
  intros pat c H. unfold Unicode.ignorecase_eq in H. cbv zeta in *.
  repeat (apply orb_true_iff in H; destruct H as [H|H]);
    repeat match goal with
           | H : (_ && _)%bool = true |- _ => apply andb_true_iff in H; destruct H
           | H : (_ || _)%bool = true |- _ => apply orb_true_iff in H; destruct H
           | H : (_ =? _)%N = true |- _ => apply N.eqb_eq in H
           end; tauto.
Qed.

Lemma ext_upper : forall ext,
  Forall2 (fun p x => Unicode.ignorecase_eq p x = true) (py ".pdf") ext ->
  Py.upper ext = py ".PDF".
Proof.
  intros ext H.
  change (py ".pdf") with [46%N; 112%N; 100%N; 102%N] in H.
  inversion H as [|? a ? ? Ha H1]; subst. inversion H1 as [|? b ? ? Hb H2]; subst.
  inversion H2 as [|? c ? ? Hc H3]; subst. inversion H3 as [|? d ? ? Hd H4]; subst.
  inversion H4; subst.
  apply ci_cases in Ha, Hb, Hc, Hd. cbv zeta in *.
  vm_compute in Ha, Hb, Hc, Hd.
  repeat match goal with
         | H : _ \/ _ |- _ => destruct H
         | H : _ /\ _ |- _ => destruct H
         end; try discriminate; subst; reflexivity.
Qed.

Lemma digit_not : forall (q : char) mid,
  Forall (fun x => digit x = true) mid -> digit q = false -> ~ In q mid.
Proof.
  intros q mid HF Hq Hin. rewrite Forall_forall in HF. apply HF in Hin. congruence.
Qed.

(** What a match of the pattern looks like: the path stands between two
    double quotes, starts with a slash, holds no double quote and ends with
    the extension in either case. *)
Lemma href_inv : forall html m,
  matches_at PDF_HREF_RE html (m_start m) (m_end m) (m_caps m) ->
  exists pre post u,
    html = pre ++ quote :: u ++ quote :: post
    /\ group html m 1 = Some u
    /\ ~ In quote u
    /\ (exists rest, u = chr "/" :: rest)
    /\ (exists x ext, u = x ++ ext /\ Py.upper ext = py ".PDF" /\ ~ In (chr "/") ext).
Proof.
  intros html [i j c] (b & a & b' & a' & Ht & Hi & Hj & HM). cbn [m_start m_end m_caps] in *.
  unfold PDF_HREF_RE in HM.
  peel HM s1. apply M_lit_i in H. destruct H as (h & a1 & -> & -> & Hh).
  peel HM s2. inv_chr H q Hq. apply N.eqb_eq in Hq. subst q.
  peel HM s3. inv_group H.
  peel H s4. apply M_lit_i in H0. destruct H0 as (head & a2 & Ea & -> & Hhead).
  peel H s5. inv_rep H0 y Hy Hylo Hyhi.
  peel H s6. apply M_lit_i in H0. destruct H0 as (sl1 & a3 & Ea3 & -> & Hsl1).
  peel H s7. inv_rep H0 mo Hmo Hmolo Hmohi.
  peel H s8. apply M_lit_i in H0. destruct H0 as (sl2 & a4 & Ea4 & -> & Hsl2).
  peel H s9. inv_rep H0 dd Hdd Hddlo Hddhi.
  peel H s10. apply M_lit_i in H0. destruct H0 as (pd & a5 & Ea5 & -> & Hpd).
  peel H s11. unfold plus in H0. inv_rep H0 mid Hmid Hmidlo Hmidhi.
  apply M_seq_one in H. apply M_lit_i in H. destruct H as (ext & a6 & Ea6 & -> & Hext).
  norm. subst. norm.
  apply M_seq_one in HM. inv_chr HM q Hq. apply N.eqb_eq in Hq. subst q.
  injection Hs as -> -> ->.
  set (u := head ++ y ++ sl1 ++ mo ++ sl2 ++ dd ++ pd ++ mid ++ ext).
  exists (rev b ++ h), a, u.
  assert (Hhtml : rev b ++ h ++ quote :: (head ++ y ++ sl1 ++ mo ++ sl2 ++ dd ++ pd ++ mid ++ ext ++ quote :: a)
                  = (rev b ++ h) ++ quote :: u ++ quote :: a).
  { unfold u. repeat (rewrite <- app_assoc; cbn [app]). reflexivity. }
  split; [exact Hhtml|]. split.
  { unfold group. cbn [m_caps lookup Nat.eqb]. f_equal. rewrite Hhtml.
    apply slice_mid with (pre := (rev b ++ h) ++ [quote]) (post := quote :: a).
    - repeat (rewrite <- app_assoc; cbn [app]). reflexivity.
    - repeat (rewrite ?length_app, ?length_rev; cbn [length]). lia.
    - unfold u. repeat (rewrite ?length_app, ?length_rev; cbn [length]). lia. }
  assert (Hdq : digit quote = false) by reflexivity.
  split.
  { unfold u. intros Hin. repeat (apply in_app_or in Hin; destruct Hin as [Hin|Hin]).
    - revert Hin. eapply ci_avoids; [exact Hhead|reflexivity].
    - revert Hin. now apply digit_not.
    - revert Hin. eapply ci_avoids; [exact Hsl1|reflexivity].
    - revert Hin. now apply digit_not.
    - revert Hin. eapply ci_avoids; [exact Hsl2|reflexivity].
    - revert Hin. now apply digit_not.
    - revert Hin. eapply ci_avoids; [exact Hpd|reflexivity].
    - rewrite Forall_forall in Hmid. apply Hmid in Hin.
      unfold quote in Hin. rewrite N.eqb_refl in Hin. discriminate.
    - revert Hin. eapply ci_avoids; [exact Hext|reflexivity]. }
  split.
  { change (py "/borme/dias/") with (chr "/" :: py "borme/dias/") in Hhead.
    inversion Hhead as [|? x ? head' Hx Hhead']; subst.
    apply ci_cases in Hx. cbv zeta in Hx. vm_compute in Hx.
    assert (x = chr "/").
    { repeat match goal with
             | H : _ \/ _ |- _ => destruct H
             | H : _ /\ _ |- _ => destruct H
             end; try discriminate; subst; reflexivity. }
    subst x. unfold u. cbn [app]. eauto. }
  exists (head ++ y ++ sl1 ++ mo ++ sl2 ++ dd ++ pd ++ mid), ext.
  split; [unfold u; repeat rewrite <- app_assoc; reflexivity|].
  split; [now apply ext_upper|].
  eapply ci_avoids; [exact Hext|reflexivity].
Qed.

Lemma last_cons_nonempty : forall (A : Type) (x d : A) l,
  l <> [] -> last (x :: l) d = last l d.
Proof. intros A x d [|y l] H; [congruence|reflexivity]. Qed.

(** The last piece of a split: what follows the last separator. *)
Lemma split_last : forall sep s,
  exists stem,
    s = stem ++ last (Py.split sep s) []
    /\ ~ In sep (last (Py.split sep s) [])
    /\ ((stem = [] /\ Py.split sep s = [last (Py.split sep s) []])
        \/ ((exists stem', stem = stem' ++ [sep]) /\ 2 <= length (Py.split sep s))).
Proof.
  intros sep. induction s as [|x t IH].
  - exists []. cbn. split; [reflexivity|]. split; [tauto|]. left. auto.
  - destruct IH as (stem & Hs & Hno & Hcase). cbn [Py.split].
    destruct (N.eqb x sep) eqn:E.
    + apply N.eqb_eq in E. subst x. cbv iota.
      assert (Hne : Py.split sep t <> []).
      { intros Es. rewrite Es in Hcase.
        destruct Hcase as [[_ Hc]|[_ Hc]]; [discriminate|cbn in Hc; lia]. }
      rewrite !(last_cons_nonempty _ _ Hne). exists (sep :: stem). split; [cbn [app]; now f_equal|].
      split; [exact Hno|]. right. split.
      * destruct Hcase as [[-> _]|[(stem' & ->) _]].
        -- now exists [].
        -- now exists (sep :: stem').
      * cbn [length]. destruct (Py.split sep t); [|cbn [length]; lia].
        destruct Hcase as [[_ Hc]|[_ Hc]]; [discriminate|cbn in Hc; lia].
    + apply N.eqb_neq in E. cbv iota.
      destruct Hcase as [[-> Hc]|[(stem' & ->) Hc]].
      * rewrite Hc. cbn [last]. exists []. cbn [app] in *.
        split; [now f_equal|]. split; [|left; auto].
        intros [H|H]; [congruence|now apply Hno].
      * destruct (Py.split sep t) as [|w [|w' ws]] eqn:Es;
          [cbn in Hc; lia|cbn in Hc; lia|].
        exists (x :: stem' ++ [sep]). split; [cbn [app]; now f_equal|].
        split; [exact Hno|]. right. split; [now exists (x :: stem')|cbn [length]; lia].
Qed.

Lemma sets_href : sets 1 PDF_HREF_RE = true.
Proof. reflexivity. Qed.

Lemma links_loop_spec : forall html ms seen,
  Forall (fun m => matches_at PDF_HREF_RE html (m_start m) (m_end m) (m_caps m)) ms ->
  exists links,
    links_loop html seen ms = Ok links
    /\ NoDup (map url links)
    /\ (forall l, In l links ->
          ~ In (url l) seen
          /\ (exists m, In m ms /\ group html m 1 = Some (url l))
          /\ pdf_filename l = last (Py.split (chr "/") (url l)) []
          /\ tipo l = link_tipo (pdf_filename l))
    /\ (forall m u, In m ms -> group html m 1 = Some u ->
                    In u seen \/ In u (map url links)).
Proof.
  intros html ms. induction ms as [|m rest IH]; intros seen HF.
  - exists []. cbn. split; [reflexivity|]. split; [constructor|]. split; intros; contradiction.
  - inversion HF as [|? ? Hm HF']; subst.
    destruct (@GroupFacts.group_str_Ok _ _ _ 1 Hm sets_href) as (g & Hg & Hg').
    cbn [links_loop]. rewrite Hg. cbn [bind].
    destruct (Py.mem g seen) eqn:Emem.
    + apply PyFacts.mem_In in Emem.
      destruct (IH seen HF') as (links & Hl & Hnd & Hin & Hall).
      exists links. split; [exact Hl|]. split; [exact Hnd|]. split.
      * intros l Hl'. destruct (Hin l Hl') as (H1 & (m' & Hm' & H2) & H3 & H4).
        repeat split; auto. exists m'. split; [now right|exact H2].
      * intros m' u [<-|Hm'] Hu.
        -- left. congruence.
        -- now apply (Hall m').
    + assert (Hnot : ~ In g seen).
      { intros H. apply PyFacts.mem_In in H. congruence. }
      destruct (IH (g :: seen) HF') as (links & Hl & Hnd & Hin & Hall).
      rewrite Hl. cbn [bind]. eexists. split; [reflexivity|].
      split.
      { cbn [map url]. constructor; [|exact Hnd].
        intros H. apply in_map_iff in H. destruct H as (l & El & Hl').
        destruct (Hin l Hl') as (H1 & _). apply H1. left. now symmetry. }
      split.
      * intros l [<-|Hl'].
        -- cbn [url pdf_filename tipo]. repeat split; auto.
           exists m. split; [now left|exact Hg'].
        -- destruct (Hin l Hl') as (H1 & (m' & Hm' & H2) & H3 & H4).
           repeat split; auto.
           ++ intros H. apply H1. now right.
           ++ exists m'. split; [now right|exact H2].
      * intros m' u [<-|Hm'] Hu.
        -- right. left. cbn [url]. congruence.
        -- destruct (Hall m' u Hm' Hu) as [[<-|H]|H].
           ++ right. now left.
           ++ now left.
           ++ right. now right.
Qed.

Lemma extract_spec : forall html,
  exists links,
    extract_pdf_links html = Ok links
    /\ NoDup (map url links)
    /\ (forall l, In l links ->
          (exists m, In m (finditer PDF_HREF_RE html) /\ group html m 1 = Some (url l))
          /\ pdf_filename l = last (Py.split (chr "/") (url l)) []
          /\ tipo l = link_tipo (pdf_filename l))
    /\ (forall m u, In m (finditer PDF_HREF_RE html) -> group html m 1 = Some u ->
                    In u (map url links)).
Proof.
  intros html. unfold extract_pdf_links.
  destruct (@links_loop_spec html (finditer PDF_HREF_RE html) [])
    as (links & Hl & Hnd & Hin & Hall); [apply TotalFacts.finditer_Forall|].
  exists links. split; [exact Hl|]. split; [exact Hnd|]. split.
  - intros l Hl'. destruct (Hin l Hl') as (_ & H). exact H.
  - intros m u Hm Hu. destruct (Hall m u Hm Hu) as [[]|H]. exact H.
Qed.

Lemma link_tipo_values : forall fn,
  In (link_tipo fn) [py "A"; py "B"; py "C"; py "S"; py "otro"].
Proof.
  intros fn. unfold link_tipo. cbv zeta.
  repeat match goal with
         | |- context [if ?b then _ else _] => destruct b
         end; cbn [In]; tauto.
Qed.

End LinkFacts.

(** The links returned for an index page have pairwise different paths,
    and a path is returned exactly when the pattern finds it in the page:
    every document linked from the page is listed once, however often the
    page links it. *)
Theorem index_links_are_distinct_and_complete : forall html : pystr,
  exists links,
    Scraper.extract_pdf_links html = Ok links
    /\ NoDup (map Scraper.url links)
    /\ forall u, In u (map Scraper.url links)
                 <-> exists m, In m (Re.finditer Scraper.PDF_HREF_RE html)
                               /\ Re.group html m 1 = Some u.
Proof.
  intros html. destruct (LinkFacts.extract_spec html) as (links & Hl & Hnd & Hin & Hall).
  exists links. split; [exact Hl|]. split; [exact Hnd|].
  intros u. split.
  - intros H. apply in_map_iff in H. destruct H as (l & <- & Hl').
    destruct (Hin l Hl') as (H & _). exact H.
  - intros (m & Hm & Hu). now apply (Hall m).
Qed.

(** Every link returned for a page is the whole value of an attribute of
    the page: its path stands between two double quotes, holds none and
    starts with a slash.  The file name is what follows the last slash of
    the path; it holds no slash and ends with [.pdf] in some letter case.
    The section is one of the five values. *)
Theorem index_link_shape :
  forall (html : pystr) (links : list Scraper.pdf_link) (l : Scraper.pdf_link),
    Scraper.extract_pdf_links html = Ok links ->
    In l links ->
    (exists pre post,
        html = pre ++ Scraper.quote :: Scraper.url l ++ Scraper.quote :: post)
    /\ ~ In Scraper.quote (Scraper.url l)
    /\ (exists stem, Scraper.url l = stem ++ chr "/" :: Scraper.pdf_filename l)
    /\ ~ In (chr "/") (Scraper.pdf_filename l)
    /\ Py.endswith (Py.upper (Scraper.pdf_filename l)) (py ".PDF") = true
    /\ Scraper.tipo l = Scraper.link_tipo (Scraper.pdf_filename l)
    /\ In (Scraper.tipo l) [py "A"; py "B"; py "C"; py "S"; py "otro"].
Proof.
  intros html links l Hl Hin.
  destruct (LinkFacts.extract_spec html) as (links' & Hl' & _ & Hspec & _).
  assert (links' = links) by congruence. subst links'.
  destruct (Hspec l Hin) as ((m & Hm & Hg) & Hfn & Htipo).
  apply GroupFacts.finditer_matches_at in Hm.
  destruct (@LinkFacts.href_inv _ _ Hm) as (pre & post & u & Hhtml & Hg' & Hq & (rest & Hrest)
                                         & (x & ext & Hx & Hext & Hsl)).
  assert (Hu : u = Scraper.url l) by congruence. rewrite Hu in *. clear Hu u.
  destruct (LinkFacts.split_last (chr "/") (Scraper.url l))
    as (stem & Hs & Hno & Hcase).
  rewrite <- Hfn in Hs, Hno.
  split; [exists pre, post; exact Hhtml|]. split; [exact Hq|].
  assert (Hstem : exists stem', stem = stem' ++ [chr "/"]).
  { destruct Hcase as [[-> _]|[H _]]; [|exact H]. exfalso.
    cbn [app] in Hs. apply Hno. rewrite <- Hs, Hrest. now left. }
  destruct Hstem as (stem' & ->).
  split; [exists stem'; rewrite Hs at 1; now rewrite <- app_assoc|].
  split; [exact Hno|].
  split; [|split; [exact Htipo|rewrite Htipo; apply LinkFacts.link_tipo_values]].
  assert (Hk : exists k, Scraper.pdf_filename l = k ++ ext).
  { rewrite Hx in Hs.
    destruct (Nat.le_gt_cases (length (stem' ++ [chr "/"])) (length x)) as [Hle|Hgt].
    - destruct (FinditerFacts.app_split_le _ _ _ _ Hs Hle) as (p & _ & Hp). eauto.
    - symmetry in Hs.
      destruct (FinditerFacts.app_split_le _ _ _ _ Hs (Nat.lt_le_incl _ _ Hgt))
        as (p & Hp1 & Hp2).
      exfalso. apply Hsl. rewrite Hp2. apply in_or_app. left.
      destruct (exists_last (l := p)) as (p' & z & ->).
      { intros ->. rewrite app_nil_r in Hp1. rewrite Hp1 in Hgt. lia. }
      rewrite app_assoc in Hp1. apply app_inj_tail in Hp1. destruct Hp1 as [_ <-].
      apply in_or_app. right. now left. }
  destruct Hk as (k & Hk). rewrite Hk. apply NormFacts.endswith_iff.
  exists (Py.upper k). unfold Py.upper. rewrite flat_map_app. f_equal. exact Hext.
Qed.

Lemma index_link_shape_witness :
  let l := {| Scraper.url := py "/borme/dias/2020/01/20/pdfs/BORME-S-2020-12.pdf";
              Scraper.pdf_filename := py "BORME-S-2020-12.pdf";
              Scraper.tipo := py "S" |} in
  (exists pre post,
      Scraper.example_html = pre ++ Scraper.quote :: Scraper.url l ++ Scraper.quote :: post)
  /\ ~ In Scraper.quote (Scraper.url l)
  /\ (exists stem, Scraper.url l = stem ++ chr "/" :: Scraper.pdf_filename l)
  /\ ~ In (chr "/") (Scraper.pdf_filename l)
  /\ Py.endswith (Py.upper (Scraper.pdf_filename l)) (py ".PDF") = true
  /\ Scraper.tipo l = Scraper.link_tipo (Scraper.pdf_filename l)
  /\ In (Scraper.tipo l) [py "A"; py "B"; py "C"; py "S"; py "otro"].
Proof.
  intros l.
  apply (@index_link_shape Scraper.example_html
           (match Scraper.extract_pdf_links Scraper.example_html with
            | Ok links => links
            | Raise _ => []
            end) l).
  - vm_compute. reflexivity.
  - vm_compute. right. left. reflexivity.
Defined.

Module LogFacts.
Import Scraper.

Lemma last_n_suffix : forall (A : Type) n (l : list A),
  exists dropped, l = dropped ++ last_n n l.
Proof.
  intros A n l. exists (firstn (length l - n) l). unfold last_n.
  symmetry. apply firstn_skipn.
Qed.

Lemma last_n_length : forall (A : Type) n (l : list A),
  length (last_n n l) = Nat.min n (length l).
Proof. intros A n l. unfold last_n. rewrite length_skipn. lia. Qed.

Lemma add_error_step : forall errors d e,
  (exists dropped,
      errors ++ [{| e_date := d; e_error := e |}] = dropped ++ add_error errors d e)
  /\ length (add_error errors d e) <= 1000
  /\ Nat.min 500 (length errors + 1) <= length (add_error errors d e).
Proof.
  intros errors d e. unfold add_error.
  set (entry := {| e_date := d; e_error := e |}).
  assert (Hlen : length (errors ++ [entry]) = length errors + 1)
    by (rewrite length_app; reflexivity).
  destruct (Nat.ltb_spec 1000 (length (errors ++ [entry]))) as [Hgt|Hle].
  - split; [apply last_n_suffix|]. rewrite last_n_length. lia.
  - split; [now exists []|]. lia.
Qed.

Lemma add_errors_spec : forall calls errors,
  let log := fold_left (fun es c => add_error es (fst c) (snd c)) calls errors in
  (exists dropped,
      errors ++ map (fun c => {| e_date := fst c; e_error := snd c |}) calls
      = dropped ++ log)
  /\ Nat.min 500 (length errors + length calls) <= length log
  /\ (calls <> [] -> length log <= 1000).
Proof.
  induction calls as [|c rest IH]; intros errors; cbn [fold_left map length].
  - split; [exists []; now rewrite app_nil_r|]. split; [lia|congruence].
  - destruct (add_error_step errors (fst c) (snd c)) as ((d0 & Hd0) & Hcap & Hmin).
    specialize (IH (add_error errors (fst c) (snd c))). cbv zeta in IH.
    destruct IH as ((d1 & Hd1) & Hmin' & Hcap').
    split; [|split].
    + exists (d0 ++ d1). rewrite <- app_assoc, <- Hd1, app_assoc, <- Hd0.
      rewrite <- app_assoc. reflexivity.
    + lia.
    + intros _. destruct rest as [|c' rest]; [exact Hcap|].
      apply Hcap'. discriminate.
Qed.

End LogFacts.

(** After any sequence of calls of [add_error], one at least, the error
    log holds at most 1000 entries.  It is the end of the history (the
    entries it had, then those added, in order): entries are only dropped
    from the old end, and the 500 newest of the history, or all of it when
    it is shorter, are always there. *)
Theorem error_log_is_capped :
  forall (errors : list Scraper.error_entry) (calls : list (pystr * pystr)),
    calls <> [] ->
    let log := fold_left (fun es c => Scraper.add_error es (fst c) (snd c)) calls errors in
    length log <= 1000
    /\ Nat.min 500 (length errors + length calls) <= length log
    /\ exists dropped,
         errors ++ map (fun c => {| Scraper.e_date := fst c; Scraper.e_error := snd c |}) calls
         = dropped ++ log.
Proof.
  intros errors calls Hne.
  destruct (LogFacts.add_errors_spec calls errors) as (Hsuf & Hmin & Hcap).
  cbv zeta. split; [now apply Hcap|]. split; [exact Hmin|exact Hsuf].
Qed.

Lemma error_log_is_capped_witness :
  let calls := [(py "2020-01-20", py "timeout"); (py "2020-01-21", py "HTTP 500")] in
  let log := fold_left (fun es c => Scraper.add_error es (fst c) (snd c)) calls [] in
  length log <= 1000
  /\ Nat.min 500 (length (@nil Scraper.error_entry) + length calls) <= length log
  /\ exists dropped,
       [] ++ map (fun c => {| Scraper.e_date := fst c; Scraper.e_error := snd c |}) calls
       = dropped ++ log.
Proof.
  intros calls.
  apply (@error_log_is_capped [] calls). discriminate.
Defined.

(** ** The validation script against the batch parser *)

Module ValidateFacts.
Import Re ReSem ReFacts Borme Validate.

Lemma counter_get_add : forall c k n k',
  counter_get (counter_add k n c) k'
  = counter_get c k' + (if Py.eqb k k' then n else 0).
Proof.
  induction c as [|[k0 v] c IH]; intros k n k'.
  - cbn [counter_add counter_get]. reflexivity.
  - cbn [counter_add]. destruct (Py.eqb k0 k) eqn:E.
    + apply PyFacts.eqb_eq in E. subst k0. cbn [counter_get].
      destruct (Py.eqb k k'); lia.
    + cbn [counter_get]. destruct (Py.eqb k0 k') eqn:E'.
      * apply PyFacts.eqb_eq in E'. subst k'.
        destruct (Py.eqb k k0) eqn:E2; [|lia].
        apply PyFacts.eqb_eq in E2. subst k0. rewrite PyFacts.eqb_refl in E. discriminate.
      * apply IH.
Qed.

Lemma filter_same : forall (A : Type) (f : A -> bool) (b : bool) l,
  (forall x, In x l -> f x = b) ->
  length (filter f l) = if b then length l else 0.
Proof.
  intros A f b l H. induction l as [|x l IH]; [now destruct b|].
  cbn [filter]. rewrite (H x (or_introl eq_refl)).
  assert (IH' : length (filter f l) = if b then length l else 0)
    by (apply IH; intros y Hy; apply H; now right).
  destruct b; cbn [length]; [now rewrite IH'|exact IH'].
Qed.

Lemma tallies_refl : forall st, tallies st st [].
Proof. intros st. unfold tallies. cbn [filter length]. repeat split; intros; lia. Qed.

Lemma tallies_trans : forall st st' st'' rows more,
  tallies st st' rows -> tallies st' st'' more -> tallies st st'' (rows ++ more).
Proof.
  intros st st' st'' rows more (P1 & E1 & F1 & T1 & C1) (P2 & E2 & F2 & T2 & C2).
  unfold tallies. rewrite length_app.
  split; [congruence|]. split; [congruence|]. split; [lia|].
  split; intros k; rewrite filter_app, length_app.
  - rewrite T2, T1. lia.
  - rewrite C2, C1. lia.
Qed.

Lemma find_empresa_parser : forall block,
  find_empresa block = (entry_empresa block, entry_body block).
Proof. reflexivity. Qed.

Lemma count_cargo_sim : forall row body cm,
  matches_at CARGO_RE body (m_start cm) (m_end cm) (m_caps cm) ->
  exists rows,
    cargo_rows row body cm = Ok rows
    /\ forall st, exists st', count_cargo body st cm = Ok st' /\ tallies st st' rows.
Proof.
  intros row body cm H. unfold cargo_rows, count_cargo.
  destruct (@GroupFacts.group_str_Ok _ _ _ 1 H eq_refl) as (g1 & -> & _).
  destruct (@GroupFacts.group_str_Ok _ _ _ 2 H eq_refl) as (g2 & -> & _).
  cbn [bind]. cbv zeta.
  destruct (excluded (Py.strip g1)).
  { exists []. split; [reflexivity|]. intros st. exists st. split; [reflexivity|apply tallies_refl]. }
  match goal with |- context [if ?c then Ok [] else _] => destruct c end.
  { exists []. split; [reflexivity|]. intros st. exists st. split; [reflexivity|apply tallies_refl]. }
  unfold extract_cargo_and_tipo.
  destruct (_extract_cargo_and_tipo (Py.strip g1) body (m_start cm)) as [cargo tipo].
  match goal with |- context [if ?c then Ok [] else _] => destruct c end.
  { exists []. split; [reflexivity|]. intros st. exists st. split; [reflexivity|apply tallies_refl]. }
  eexists. split; [reflexivity|]. intros st. eexists. split; [reflexivity|].
  unfold tallies. cbn [path entries cargos_found tipo_actos cargo_types].
  rewrite length_map. split; [reflexivity|]. split; [reflexivity|]. split; [reflexivity|].
  split; intros k; rewrite counter_get_add; f_equal; symmetry.
  - rewrite (@filter_same _ _ (Py.eqb tipo k)).
    + rewrite length_map. reflexivity.
    + intros r Hr. apply in_map_iff in Hr. destruct Hr as (p & <- & _). reflexivity.
  - rewrite (@filter_same _ _ (Py.eqb cargo k)).
    + rewrite length_map. reflexivity.
    + intros r Hr. apply in_map_iff in Hr. destruct Hr as (p & <- & _). reflexivity.
Qed.

Lemma count_loop_sim : forall row body cms,
  Forall (fun cm => matches_at CARGO_RE body (m_start cm) (m_end cm) (m_caps cm)) cms ->
  exists rows,
    cargos_loop row body cms = Ok rows
    /\ forall st, exists st',
         for_each (count_cargo body) st cms = Ok st' /\ tallies st st' rows.
Proof.
  intros row body cms H. induction H as [|cm cms Hcm _ IH].
  - exists []. split; [reflexivity|]. intros st. exists st.
    split; [reflexivity|apply tallies_refl].
  - destruct (@count_cargo_sim row body cm Hcm) as (rows & Hr & Hst).
    destruct IH as (more & Hm & Hst').
    exists (rows ++ more). cbn [cargos_loop]. rewrite Hr, Hm. cbn [bind].
    split; [reflexivity|]. intros st.
    destruct (Hst st) as (st1 & H1 & T1). destruct (Hst' st1) as (st2 & H2 & T2).
    exists st2. cbn [for_each]. rewrite H1. cbn [bind].
    split; [exact H2|]. eapply tallies_trans; eassumption.
Qed.

Lemma note_unknown_sim : forall body pms st,
  Forall (fun pm => matches_at POSSIBLE_CARGO body (m_start pm) (m_end pm) (m_caps pm)) pms ->
  exists st', for_each (note_unknown body) st pms = Ok st' /\ tallies st st' [].
Proof.
  intros body pms st H. revert st. induction H as [|pm pms Hpm _ IH]; intros st.
  - exists st. split; [reflexivity|apply tallies_refl].
  - cbn [for_each]. unfold note_unknown at 1.
    destruct (@GroupFacts.group_str_Ok _ _ _ 1 Hpm eq_refl) as (g1 & -> & _).
    cbn [bind]. cbv zeta.
    destruct (Py.mem (Py.strip g1) CARGO_EXCLUDE); cbn [bind]; [apply IH|].
    match goal with |- context [match ?o with Some _ => _ | None => _ end] => destruct o end;
      cbn [bind]; [apply IH|].
    match goal with |- context [for_each _ ?s pms] => destruct (IH s) as (st' & Hs & T) end.
    exists st'. split; [exact Hs|].
    change (@nil cargo_row) with (@nil cargo_row ++ []).
    eapply tallies_trans; [|exact T].
    unfold tallies. cbn. repeat split; intros; lia.
Qed.

Lemma notes_tally : forall empresa body st,
  tallies st (note_long_name empresa (note_body_word body st)) [].
Proof.
  intros empresa body st. unfold note_long_name, note_body_word.
  destruct (negb (Py.eqb body []) && (2 <? length body));
    destruct (150 <? length empresa);
    unfold tallies; cbn [path entries cargos_found tipo_actos cargo_types filter length];
    repeat split; intros; lia.
Qed.

Lemma validate_entry_sim : forall hdr text gap m end_ prov,
  matches_at ENTRY_START_RE text (m_start m) (m_end m) (m_caps m) ->
  exists row cargos prov',
    parse_entry hdr text gap m end_ prov = Ok (row, cargos, prov')
    /\ forall st, exists st',
         validate_entry text st m end_ = Ok st' /\ tallies st st' cargos.
Proof.
  intros hdr text gap m end_ prov H.
  destruct (@TotalFacts.parse_entry_Ok hdr text gap m end_ prov H)
    as (entry_num & row & cargos & Hg & Hp & _).
  exists row, cargos. eexists. split; [exact Hp|].
  unfold parse_entry in Hp. unfold group_str in Hp. rewrite Hg in Hp. cbn [bind] in Hp.
  destruct (parse_body _ _ _ _ _) as [[row0 cargos0]|] eqn:Hb; [|discriminate].
  cbn [bind fst snd] in Hp. injection Hp as -> ->.
  apply RowFacts.parse_body_inv in Hb.
  destruct Hb as (objeto & domicilio & reg & _ & _ & _ & _ & Hloop).
  destruct (@count_loop_sim row _ _
              (TotalFacts.finditer_Forall CARGO_RE
                 (entry_body (entry_block text (m_end m) end_))))
    as (rows & Hrows & Hst).
  assert (rows = cargos) by congruence. subst rows.
  intros st. unfold validate_entry. cbv zeta.
  change (Py.strip (sub SPACES_RE (py " ")
            (Py.replace [10%N] (py " ") (Py.slice (m_end m) end_ text))))
    with (entry_block text (m_end m) end_).
  rewrite find_empresa_parser.
  destruct (Hst (note_long_name (entry_empresa (entry_block text (m_end m) end_))
                   (note_body_word (entry_body (entry_block text (m_end m) end_)) st)))
    as (st1 & H1 & T1).
  rewrite H1. cbn [bind].
  destruct (@note_unknown_sim (entry_body (entry_block text (m_end m) end_)) _ st1
              (TotalFacts.finditer_Forall POSSIBLE_CARGO _)) as (st2 & H2 & T2).
  exists st2. split; [exact H2|].
  change cargos with ([] ++ cargos). eapply tallies_trans; [apply notes_tally|].
  rewrite <- (app_nil_r cargos). eapply tallies_trans; eassumption.
Qed.

Lemma validate_loop_sim : forall hdr text splits gap prov,
  Forall (fun m => matches_at ENTRY_START_RE text (m_start m) (m_end m) (m_caps m)) splits ->
  exists rows cargos,
    entries_loop hdr text gap splits prov = Ok (rows, cargos)
    /\ length rows = length splits
    /\ forall st, exists st',
         validate_loop text st splits = Ok st' /\ tallies st st' cargos.
Proof.
  intros hdr text splits. induction splits as [|m rest IH]; intros gap prov H.
  - exists [], []. split; [reflexivity|]. split; [reflexivity|].
    intros st. exists st. split; [reflexivity|apply tallies_refl].
  - inversion H as [|? ? Hm Hrest]; subst. cbn [entries_loop validate_loop].
    destruct (@validate_entry_sim hdr text gap m
                (match rest with m' :: _ => m_start m' | [] => length text end) prov Hm)
      as (row & cargos & prov' & Hp & Hst).
    rewrite Hp. cbn [bind].
    destruct (IH (m_start m) prov' Hrest) as (rows & crs & Hl & Hlen & Hst').
    rewrite Hl. cbn [bind fst snd].
    exists (row :: rows), (cargos ++ crs). split; [reflexivity|].
    split; [cbn [length]; now rewrite Hlen|].
    intros st. destruct (Hst st) as (st1 & H1 & T1). rewrite H1. cbn [bind].
    destruct (Hst' st1) as (st2 & H2 & T2). exists st2. split; [exact H2|].
    eapply tallies_trans; eassumption.
Qed.

Lemma validate_text_sim : forall hdr pdf_path raw,
  exists rows cargos st,
    parse_text hdr raw = Ok (rows, cargos)
    /\ validate_text pdf_path raw = Ok st
    /\ path st = pdf_path
    /\ entries st = length rows
    /\ cargos_found st = length cargos
    /\ (forall t, counter_get (tipo_actos st) t
                  = length (filter (fun r => Py.eqb (tipo_acto r) t) cargos))
    /\ (forall c, counter_get (cargo_types st) c
                  = length (filter (fun r => Py.eqb (cargo r) c) cargos)).
Proof.
  intros hdr pdf_path raw. unfold parse_text, validate_text, clean. cbv zeta.
  destruct (@validate_loop_sim hdr (_clean raw) (finditer ENTRY_START_RE (_clean raw)) 0
              (h_provincia_filename hdr) (TotalFacts.finditer_Forall _ _))
    as (rows & cargos & Hl & Hlen & Hst).
  match goal with |- context [validate_loop _ ?s _] => destruct (Hst s) as (st' & Hv & T) end.
  exists rows, cargos, st'.
  split.
  { destruct (finditer ENTRY_START_RE (_clean raw)) eqn:E; [|exact Hl].
    cbn [entries_loop] in Hl. exact Hl. }
  split; [exact Hv|].
  destruct T as (P & E & F & Ht & Hc). cbn [path entries cargos_found tipo_actos cargo_types counter_get] in *.
  split; [exact P|]. split; [lia|]. split; [lia|].
  split; intros k; [rewrite Ht|rewrite Hc]; reflexivity.
Qed.

End ValidateFacts.

(** For a document whose file name the parser accepts, the validation
    script measures what the parser emits.  Either the document cannot be
    read, the script reports it as such and the parser returns no rows; or
    the script's [entries] is the number of company rows of the parser, its
    [cargos_found] the number of officer rows, and its two counters give,
    for every kind of act and for every role, the number of officer rows
    that have it. *)
Theorem validation_counts_the_parsed_rows :
  forall (open_pdf : Borme.pdf_reader) (pdf_path : pystr) (bm : Re.rmatch)
         (hdr : Borme.header),
    Re.rmatch_ Borme.FILENAME_RE (PosixPath.name pdf_path) = Some bm ->
    Borme.read_header pdf_path (PosixPath.name pdf_path) bm = Ok hdr ->
    (open_pdf pdf_path = None
     /\ Validate.validate_pdf open_pdf pdf_path = Ok (Validate.Unreadable pdf_path)
     /\ snd (Borme.parse_single_pdf open_pdf pdf_path) = Ok ([], []))
    \/ exists rows cargos st,
         snd (Borme.parse_single_pdf open_pdf pdf_path) = Ok (rows, cargos)
         /\ Validate.validate_pdf open_pdf pdf_path = Ok (Validate.Stats st)
         /\ Validate.path st = pdf_path
         /\ Validate.entries st = length rows
         /\ Validate.cargos_found st = length cargos
         /\ (forall t, Validate.counter_get (Validate.tipo_actos st) t
                       = length (filter (fun r => Py.eqb (Borme.tipo_acto r) t) cargos))
         /\ (forall c, Validate.counter_get (Validate.cargo_types st) c
                       = length (filter (fun r => Py.eqb (Borme.cargo r) c) cargos)).
Proof.
  intros open_pdf pdf_path bm hdr Hbm Hhdr.
  unfold Borme.parse_single_pdf, Validate.validate_pdf. rewrite Hbm, Hhdr. cbn [snd].
  destruct (open_pdf pdf_path) as [pages|]; [right|left; auto].
  destruct (ValidateFacts.validate_text_sim hdr pdf_path
              (Py.join [10%N] (map Borme.page_text pages)))
    as (rows & cargos & st & Hp & Hv & H).
  exists rows, cargos, st. rewrite Hp, Hv. cbn [bind]. auto.
Qed.

Lemma validation_counts_the_parsed_rows_witness :
  (Borme.example_reader Borme.example_path = None
   /\ Validate.validate_pdf Borme.example_reader Borme.example_path
      = Ok (Validate.Unreadable Borme.example_path)
   /\ snd (Borme.parse_single_pdf Borme.example_reader Borme.example_path) = Ok ([], []))
  \/ exists rows cargos st,
       snd (Borme.parse_single_pdf Borme.example_reader Borme.example_path) = Ok (rows, cargos)
       /\ Validate.validate_pdf Borme.example_reader Borme.example_path = Ok (Validate.Stats st)
       /\ Validate.path st = Borme.example_path
       /\ Validate.entries st = length rows
       /\ Validate.cargos_found st = length cargos
       /\ (forall t, Validate.counter_get (Validate.tipo_actos st) t
                     = length (filter (fun r => Py.eqb (Borme.tipo_acto r) t) cargos))
       /\ (forall c, Validate.counter_get (Validate.cargo_types st) c
                     = length (filter (fun r => Py.eqb (Borme.cargo r) c) cargos)).
Proof.
  eapply validation_counts_the_parsed_rows.
  - vm_compute. reflexivity.
  - vm_compute. reflexivity.
Defined.

(** ** Greedy runs and the substitutions that collapse them *)

Module SubFacts.
Import Re ReSem ReFacts ReInv.

(** A text is a run of the class followed by a rest that does not start
    with a character of the class. *)
Lemma max_run : forall (p : char -> bool) (a : pystr),
  exists run rest,
    a = run ++ rest /\ Forall (fun x => p x = true) run
    /\ (rest = [] \/ exists c t, rest = c :: t /\ p c = false).
Proof.
  intros p. induction a as [|x a IH].
  - exists [], []. split; [reflexivity|]. split; [constructor|now left].
  - destruct (p x) eqn:E.
    + destruct IH as (run & rest & -> & HF & Hr).
      exists (x :: run), rest. split; [reflexivity|]. split; [now constructor|exact Hr].
    + exists [], (x :: a). split; [reflexivity|]. split; [constructor|].
      right. eauto.
Qed.

Lemma rep_loop_greedy : forall (R : Type) (p : char -> bool) (lo : nat) (k : cont R),
  (forall b a c, k b a c <> None) ->
  forall budget n b a c run rest,
    length a <= budget ->
    a = run ++ rest -> Forall (fun x => p x = true) run ->
    (rest = [] \/ exists x t, rest = x :: t /\ p x = false) ->
    rep_loop (fun b' a' c' k' => go (Chr p) b' a' c' k') true lo None k budget n b a c
    = if lo <=? n + length run then k (rev run ++ b) rest c else None.
Proof.
  intros R p lo k Hk.
  set (body := fun b' a' c' (k' : cont R) => go (Chr p) b' a' c' k').
  assert (Hcons : forall K b x a' c,
             body b (x :: a') c K = if p x then K (x :: b) a' c else None) by reflexivity.
  assert (Hnil : forall K b c, body b [] c K = None) by reflexivity.
  clearbody body.
  induction budget as [|budget IH]; intros n b a c run rest Hlen Ha HF Hr.
  - destruct a; [|cbn in Hlen; lia].
    destruct run; [|discriminate]. cbn [app] in Ha. subst rest.
    cbn [rep_loop length rev app]. now rewrite Nat.add_0_r.
  - cbn [rep_loop below].
    destruct run as [|x run].
    + cbn [app] in Ha. subst rest. cbn [length rev app]. rewrite Nat.add_0_r.
      destruct Hr as [->|(y & t & -> & Hy)].
      * rewrite Hnil. reflexivity.
      * rewrite Hcons, Hy. reflexivity.
    + inversion HF as [|? ? Hx HF']; subst. cbn [app]. rewrite Hcons, Hx.
      assert (Hl : (length (run ++ rest) <? length (x :: run ++ rest)) = true)
        by (apply Nat.ltb_lt; cbn [length]; lia).
      rewrite Hl.
      rewrite (IH (S n) (x :: b) (run ++ rest) c run rest); auto;
        [|cbn [length app] in Hlen; lia].
      cbn [length rev]. rewrite <- app_assoc. cbn [app].
      replace (S n + length run) with (n + S (length run)) by lia.
      destruct (lo <=? n + S (length run)) eqn:E.
      * destruct (k (rev run ++ x :: b) rest c) eqn:Ek; [reflexivity|].
        exfalso. apply (Hk _ _ _ Ek).
      * apply Nat.leb_gt in E.
        assert (E' : (lo <=? n) = false) by (apply Nat.leb_gt; lia).
        now rewrite E'.
Qed.

(** A greedy repetition of a class takes the whole run. *)
Lemma match_here_run : forall (p : char -> bool) lo b run rest,
  Forall (fun x => p x = true) run ->
  (rest = [] \/ exists x t, rest = x :: t /\ p x = false) ->
  match_here (Rep true lo None (Chr p)) b (run ++ rest)
  = if lo <=? length run
    then Some {| m_start := length b; m_end := length b + length run; m_caps := [] |}
    else None.
Proof.
  intros p lo b run rest HF Hr. unfold match_here.
  match goal with
  | |- go _ _ _ _ ?k = _ =>
    assert (Hk : forall b0 a0 c0, k b0 a0 c0 <> None) by (intros; discriminate);
    pose proof (@rep_loop_greedy _ p lo k Hk (length (run ++ rest)) 0 b (run ++ rest) []
                  run rest (le_n _) eq_refl HF Hr) as H;
    transitivity (if lo <=? 0 + length run then k (rev run ++ b) rest [] else None);
      [exact H|]
  end.
  cbn [Nat.add]. destruct (lo <=? length run); [|reflexivity].
  rewrite length_app, length_rev. do 2 f_equal. lia.
Qed.


(** *** One turn of a substitution *)

Lemma sub_done : forall r repl budget b a,
  search_from r b a = None ->
  sub_matches repl (rev b ++ a) (length b) (finditer_from (S budget) r b a) = a.
Proof.
  intros r repl budget b a Hs. cbn [finditer_from]. rewrite Hs. cbn [sub_matches].
  unfold Py.from. rewrite <- (length_rev b), skipn_app, Nat.sub_diag, skipn_all.
  reflexivity.
Qed.

Lemma sub_step : forall r repl budget b pre mid rest m,
  search_from r b (pre ++ mid ++ rest) = Some m ->
  m_start m = length b + length pre ->
  m_end m = length b + length pre + length mid ->
  mid <> [] ->
  sub_matches repl (rev b ++ pre ++ mid ++ rest) (length b)
    (finditer_from (S budget) r b (pre ++ mid ++ rest))
  = pre ++ repl
    ++ sub_matches repl (rev (rev (pre ++ mid) ++ b) ++ rest)
         (length (rev (pre ++ mid) ++ b))
         (finditer_from budget r (rev (pre ++ mid) ++ b) rest).
Proof.
  intros r repl budget b pre mid rest m Hs Hstart Hend Hmid.
  assert (Hlen : 1 <= length mid) by (destruct mid; [congruence|cbn [length]; lia]).
  cbn [finditer_from]. rewrite Hs.
  assert (Hstep : Nat.max (m_end m) (S (m_start m)) - length b
                  = length pre + length mid) by lia.
  rewrite Hstep, advance_spec.
  assert (Hf : firstn (length pre + length mid) (pre ++ mid ++ rest) = pre ++ mid).
  { rewrite app_assoc, <- length_app. rewrite firstn_app, Nat.sub_diag. cbn [firstn].
    now rewrite firstn_all, app_nil_r. }
  assert (Hk : skipn (length pre + length mid) (pre ++ mid ++ rest) = rest).
  { rewrite app_assoc, <- length_app. rewrite skipn_app, Nat.sub_diag. cbn [skipn].
    now rewrite skipn_all. }
  rewrite Hf, Hk.
  assert (Hltb : (length (pre ++ mid ++ rest) <? length pre + length mid) = false)
    by (apply Nat.ltb_ge; rewrite !length_app; lia).
  rewrite Hltb. cbn [sub_matches].
  assert (Hslice : Py.slice (length b) (m_start m) (rev b ++ pre ++ mid ++ rest) = pre).
  { apply slice_app; [now rewrite length_rev|rewrite length_rev; lia]. }
  rewrite Hslice.
  assert (Htext : rev b ++ pre ++ mid ++ rest = rev (rev (pre ++ mid) ++ b) ++ rest).
  { rewrite rev_app_distr, rev_involutive. now rewrite <- !app_assoc. }
  assert (Hpos : m_end m = length (rev (pre ++ mid) ++ b)).
  { rewrite length_app, length_rev, length_app. lia. }
  rewrite Htext, Hpos. reflexivity.
Qed.

(** *** The characters that stand side by side *)

Lemma no_adjacent_tail : forall p x l, no_adjacent p (x :: l) -> no_adjacent p l.
Proof. intros p x [|y l] H; [exact I|]. exact (proj2 H). Qed.

Lemma no_adjacent_spec : forall p l,
  no_adjacent p l <->
  forall u x y v, l = u ++ x :: y :: v -> ~ (p x = true /\ p y = true).
Proof.
  intros p. induction l as [|a l IH].
  - split; [|intros; exact I]. intros _ u x y v H. destruct u; discriminate.
  - split.
    + intros H u x y v E. destruct u as [|a' u].
      * cbn [app] in E. injection E as -> ->. exact (proj1 H).
      * cbn [app] in E. injection E as -> E.
        apply no_adjacent_tail in H. apply (proj1 IH H u x y v E).
    + intros H. destruct l as [|b l]; [exact I|]. split.
      * apply (H [] a b l eq_refl).
      * apply IH. intros u x y v E. apply (H (a :: u) x y v). cbn [app]. now f_equal.
Qed.

Lemma no_adjacent_rev : forall p l, no_adjacent p l -> no_adjacent p (rev l).
Proof.
  intros p l H. apply no_adjacent_spec. intros u x y v E [Hx Hy].
  apply (f_equal (@rev _)) in E. rewrite rev_involutive, rev_app_distr in E.
  cbn [rev] in E. repeat rewrite <- app_assoc in E. cbn [app] in E.
  apply (proj1 (no_adjacent_spec p l) H _ _ _ _ E). tauto.
Qed.

Lemma no_adjacent_lstrip : forall p l, no_adjacent p l -> no_adjacent p (Py.lstrip l).
Proof.
  intros p. induction l as [|x l IH]; intros H; [exact I|].
  cbn [Py.lstrip]. destruct (Unicode.isspace x); [|exact H].
  apply IH. now apply no_adjacent_tail in H.
Qed.

Lemma no_adjacent_strip : forall p l, no_adjacent p l -> no_adjacent p (Py.strip l).
Proof.
  intros p l H. unfold Py.strip, Py.rstrip.
  apply no_adjacent_rev, no_adjacent_lstrip, no_adjacent_rev, no_adjacent_lstrip, H.
Qed.

(** A piece, a separator and a text that does not start in the class. *)
Lemma no_adjacent_join : forall p pre sp out,
  no_adjacent p pre ->
  (forall u x, pre = u ++ [x] -> p x = false) ->
  (out = [] \/ exists c t, out = c :: t /\ p c = false) ->
  no_adjacent p out ->
  no_adjacent p (pre ++ sp :: out).
Proof.
  intros p pre sp out Hpre Hlast Hout Hno.
  induction pre as [|x pre IH].
  - cbn [app]. destruct Hout as [->|(c & t & -> & Hc)]; [exact I|].
    split; [|exact Hno]. intros [_ H]. congruence.
  - assert (IH' : no_adjacent p (pre ++ sp :: out)).
    { apply IH; [now apply no_adjacent_tail in Hpre|].
      intros u y E. apply (Hlast (x :: u) y). cbn [app]. now f_equal. }
    destruct pre as [|y pre].
    + cbn [app]. split; [|exact IH'].
      intros [H _]. rewrite (Hlast [] x eq_refl) in H. discriminate.
    + cbn [app]. split; [exact (proj1 Hpre)|exact IH'].
Qed.

Lemma no_match_short : forall (p : char -> bool) (lo : nat) b a,
  match_here (Rep true lo None (Chr p)) b a = None ->
  forall run rest, a = run ++ rest -> Forall (fun x => p x = true) run -> length run < lo.
Proof.
  intros p lo b a H run rest Ha HF.
  destruct (Nat.lt_ge_cases (length run) lo) as [Hlt|Hge]; [exact Hlt|]. exfalso.
  eapply match_here_None; [exact H|].
  apply M_rep_chr. exists run, rest. split; [exact Ha|]. split; [reflexivity|].
  split; [exact HF|]. split; [exact Hge|exact I].
Qed.

Lemma search_run : forall (p : char -> bool) (lo : nat) b a m,
  search_from (Rep true lo None (Chr p)) b a = Some m ->
  exists pre run rest,
    a = pre ++ run ++ rest
    /\ Forall (fun x => p x = true) run /\ lo <= length run
    /\ (rest = [] \/ exists x t, rest = x :: t /\ p x = false)
    /\ m_start m = length b + length pre
    /\ m_end m = length b + length pre + length run
    /\ (forall p1 p2, pre = p1 ++ p2 -> p2 <> [] ->
          forall run' rest', p2 ++ run ++ rest = run' ++ rest' ->
                             Forall (fun x => p x = true) run' -> length run' < lo).
Proof.
  intros p lo b a m H. apply search_from_Some in H.
  destruct H as (pre & post & -> & Hm & Hmin).
  destruct (max_run p post) as (run & rest & -> & HF & Hr).
  rewrite (@match_here_run p lo (rev pre ++ b) run rest HF Hr) in Hm.
  destruct (lo <=? length run) eqn:E; [|discriminate].
  apply Nat.leb_le in E. injection Hm as <-.
  exists pre, run, rest. cbn [m_start m_end]. rewrite length_app, length_rev.
  split; [reflexivity|]. split; [exact HF|]. split; [exact E|]. split; [exact Hr|].
  split; [lia|]. split; [lia|].
  intros p1 p2 E1 Hp2 run' rest' E2 HF'.
  apply (@no_match_short p lo _ _ (Hmin p1 p2 E1 Hp2) _ _ E2 HF').
Qed.

Section Collapse.
Variable p : char -> bool.
Variable lo : nat.
Variable sp : char.
Hypothesis lo_pos : 1 <= lo.
Hypothesis lo_two : lo <= 2.

(** The text before a match, cut anywhere, starts no run that is long
    enough: it has no two characters of the class side by side and does
    not end in the class when a character of the class follows. *)
Lemma before_match : forall pre tail,
  (forall p1 p2, pre = p1 ++ p2 -> p2 <> [] ->
     forall run rest, p2 ++ tail = run ++ rest ->
                      Forall (fun x => p x = true) run -> length run < lo) ->
  no_adjacent p pre
  /\ ((exists c t, tail = c :: t /\ p c = true) ->
      forall u x, pre = u ++ [x] -> p x = false).
Proof.
  intros pre tail H. split.
  - apply no_adjacent_spec. intros u x y v E [Hx Hy].
    assert (Hl : length [x; y] < lo).
    { apply (H u (x :: y :: v ++ []) ) with (rest := v ++ tail).
      - now rewrite app_nil_r.
      - discriminate.
      - rewrite app_nil_r. reflexivity.
      - repeat constructor; assumption. }
    cbn [length] in Hl. lia.
  - intros (c & t & -> & Hc) u x E.
    destruct (p x) eqn:Hx; [|reflexivity]. exfalso.
    assert (Hl : length [x; c] < lo).
    { apply (H u [x]) with (rest := t); [exact E|discriminate|reflexivity|].
      repeat constructor; assumption. }
    cbn [length] in Hl. lia.
Qed.

Lemma collapse_from : forall budget b a,
  length a < budget ->
  let out := sub_matches [sp] (rev b ++ a) (length b)
               (finditer_from budget (Rep true lo None (Chr p)) b a) in
  no_adjacent p out
  /\ (forall c t, a = c :: t -> p c = false -> exists t', out = c :: t')
  /\ (a = [] -> out = []).
Proof.
  induction budget as [|budget IH]; intros b a Hlen; [lia|]. cbv zeta.
  destruct (search_from (Rep true lo None (Chr p)) b a) as [m|] eqn:Hs.
  - destruct (@search_run p lo _ _ _ Hs)
      as (pre & run & rest & -> & HF & Hlo & Hr & Hstart & Hend & Hmin).
    assert (Hne : run <> []) by (destruct run; [cbn in Hlo; lia|discriminate]).
    rewrite (@sub_step _ [sp] budget _ _ _ _ _ Hs Hstart Hend Hne).
    destruct (IH (rev (pre ++ run) ++ b) rest) as (Hno & Hhead & Hnil).
    { rewrite !length_app in Hlen. lia. }
    set (out' := sub_matches [sp] (rev (rev (pre ++ run) ++ b) ++ rest)
                   (length (rev (pre ++ run) ++ b))
                   (finditer_from budget (Rep true lo None (Chr p))
                      (rev (pre ++ run) ++ b) rest)) in *.
    destruct (@before_match pre (run ++ rest) Hmin) as (Hpre & Hlast).
    assert (Hrun : exists c t, run ++ rest = c :: t /\ p c = true).
    { destruct run as [|c run]; [congruence|].
      inversion HF; subst. exists c, (run ++ rest). auto. }
    split; [|split].
    + cbn [app]. apply no_adjacent_join; [exact Hpre|apply Hlast; exact Hrun| |exact Hno].
      destruct Hr as [->|(c & t & -> & Hc)].
      * left. now apply Hnil.
      * right. destruct (Hhead c t eq_refl Hc) as (t' & Ht'). eauto.
    + intros c t E Hc. destruct pre as [|c' pre].
      * exfalso. destruct Hrun as (c' & t' & E' & Hc'). cbn [app] in E.
        rewrite E' in E. injection E as -> _. congruence.
      * cbn [app] in E. injection E as -> _. cbn [app]. eauto.
    + intros E. destruct pre; [|discriminate]. destruct run; [congruence|discriminate].
  - rewrite (@sub_done _ [sp] budget _ _ Hs).
    split; [|split].
    + apply (@before_match a []). intros p1 p2 E1 Hp2 run rest E2 HF.
      rewrite app_nil_r in E2.
      apply (@no_match_short p lo _ _ (@search_from_None _ _ _ Hs p1 p2 E1) _ _ E2 HF).
    + intros c t -> _. eauto.
    + auto.
Qed.

(** A substitution that puts one character in the place of every run of
    a class leaves no two characters of the class side by side. *)
Lemma collapse : forall s,
  no_adjacent p (sub (Rep true lo None (Chr p)) [sp] s).
Proof.
  intros s. unfold sub, finditer.
  apply (@collapse_from (S (length s)) [] s (Nat.lt_succ_diag_r _)).
Qed.

End Collapse.

End SubFacts.

(** *** Tags *)

Module TagFacts.
Import Re ReSem ReFacts ReInv Galicia SubFacts.

Lemma not_of_In : forall mid,
  Forall (fun x => not_of ">" x = true) mid -> ~ In (chr ">") mid.
Proof.
  intros mid HF Hin. rewrite Forall_forall in HF. apply HF in Hin.
  vm_compute in Hin. discriminate.
Qed.

Lemma In_not_of : forall mid,
  ~ In (chr ">") mid -> Forall (fun x => not_of ">" x = true) mid.
Proof.
  intros mid H. apply Forall_forall. intros x Hx. unfold not_of.
  change (py ">") with [chr ">"]. cbn [Py.cmem existsb]. rewrite orb_false_r.
  apply negb_true_iff, N.eqb_neq. intros ->. contradiction.
Qed.

Lemma brackets_differ : chr "<" <> chr ">".
Proof. vm_compute. discriminate. Qed.

Lemma tag_match : forall b a s',
  Matches TAG_RE (St b a []) s' ->
  exists mid rest,
    a = (chr "<" :: mid ++ [chr ">"]) ++ rest
    /\ mid <> [] /\ ~ In (chr ">") mid
    /\ pos_of s' = length b + length (chr "<" :: mid ++ [chr ">"]).
Proof.
  intros b a s' HM. unfold TAG_RE in HM.
  peel HM s1. inv_chr H x Hx. apply N.eqb_eq in Hx. subst x.
  peel HM s2. unfold plus in H. inv_rep H mid Hmid Hlo Hhi.
  apply M_seq_one in HM. inv_chr HM y Hy. apply N.eqb_eq in Hy. subst y.
  exists mid. eexists. split.
  { cbn [app]. rewrite <- app_assoc. cbn [app]. reflexivity. }
  split; [destruct mid; [cbn in Hlo; lia|discriminate]|].
  split; [now apply not_of_In|].
  cbn [length]. rewrite !length_app, length_rev. cbn [length]. lia.
Qed.

Lemma tag_match_intro : forall b mid rest,
  mid <> [] -> ~ In (chr ">") mid ->
  exists s', Matches TAG_RE (St b ((chr "<" :: mid ++ [chr ">"]) ++ rest) []) s'.
Proof.
  intros b mid rest Hne Hno.
  replace ((chr "<" :: mid ++ [chr ">"]) ++ rest) with (chr "<" :: mid ++ chr ">" :: rest)
    by (cbn [app]; now rewrite <- app_assoc).
  unfold TAG_RE. eexists.
  apply M_seq_cons. eexists. split.
  { apply M_chr. eexists. eexists. split; [reflexivity|]. split; reflexivity. }
  apply M_seq_cons. eexists. split.
  { unfold plus. apply M_rep_chr. exists mid. eexists. split; [reflexivity|].
    split; [reflexivity|]. split; [now apply In_not_of|].
    split; [destruct mid; [congruence|cbn [length]; lia]|exact I]. }
  apply M_seq_one. apply M_chr. eexists. eexists.
  split; [reflexivity|]. split; reflexivity.
Qed.

Lemma first_occurrence : forall (x : char) l,
  In x l -> exists l1 l2, l = l1 ++ x :: l2 /\ ~ In x l1.
Proof.
  intros x. induction l as [|y l IH]; intros H; [contradiction|].
  destruct (N.eq_dec y x) as [->|Hne].
  - exists [], l. split; [reflexivity|tauto].
  - destruct H as [H|H]; [congruence|].
    destruct (IH H) as (l1 & l2 & -> & Hno).
    exists (y :: l1), l2. split; [reflexivity|].
    intros [E|E]; [congruence|contradiction].
Qed.

Lemma no_tag_here : forall b v,
  match_here TAG_RE b (chr "<" :: v) = None ->
  (exists v', v = chr ">" :: v') \/ ~ In (chr ">") v.
Proof.
  intros b v H.
  destruct (in_dec N.eq_dec (chr ">") v) as [Hin|Hno]; [|now right].
  destruct (first_occurrence _ _ Hin) as (l1 & l2 & -> & Hno).
  destruct l1 as [|c l1]; [left; now exists l2|]. exfalso.
  destruct (@tag_match_intro b (c :: l1) l2 ltac:(discriminate) Hno) as (s' & HM).
  eapply match_here_None; [exact H|].
  cbn [app] in *. rewrite <- app_assoc in HM. exact HM.
Qed.

Lemma search_tag : forall b a m,
  search_from TAG_RE b a = Some m ->
  exists pre mid rest,
    a = pre ++ (chr "<" :: mid ++ [chr ">"]) ++ rest
    /\ mid <> [] /\ ~ In (chr ">") mid
    /\ m_start m = length b + length pre
    /\ m_end m = length b + length pre + length (chr "<" :: mid ++ [chr ">"])
    /\ (forall p1 p2, pre = p1 ++ p2 -> p2 <> [] ->
          match_here TAG_RE (rev p1 ++ b)
            (p2 ++ (chr "<" :: mid ++ [chr ">"]) ++ rest) = None).
Proof.
  intros b a m H. apply search_from_Some in H.
  destruct H as (pre & post & -> & Hm & Hmin).
  apply match_here_Some in Hm. destruct Hm as (s' & HM & ->).
  apply tag_match in HM. destruct HM as (mid & rest & -> & Hne & Hno & Hpos).
  exists pre, mid, rest. cbn [m_start m_end].
  rewrite Hpos, length_app, length_rev.
  repeat split; auto; lia.
Qed.

Lemma tagless_suffix : forall x y, tagless (x ++ y) -> tagless y.
Proof.
  intros x y H u v E. apply (H (x ++ u) v). rewrite E, app_assoc. reflexivity.
Qed.

Lemma tagless_prefix : forall x y, tagless (x ++ y) -> tagless x.
Proof.
  intros x y H u v E.
  destruct (H u (v ++ y)) as [(v' & Hv)|Hno].
  { rewrite E, <- app_assoc. reflexivity. }
  - destruct v as [|c v]; [right; tauto|].
    cbn [app] in Hv. injection Hv as -> _. left. eexists. reflexivity.
  - right. intros Hin. apply Hno. apply in_or_app. now left.
Qed.

Lemma untag_from : forall budget b a,
  length a < budget ->
  tagless (sub_matches [] (rev b ++ a) (length b) (finditer_from budget TAG_RE b a)).
Proof.
  induction budget as [|budget IH]; intros b a Hlen; [lia|].
  destruct (search_from TAG_RE b a) as [m|] eqn:Hs.
  - destruct (@search_tag _ _ _ Hs)
      as (pre & mid & rest & -> & Hne & Hno & Hstart & Hend & Hmin).
    rewrite (@sub_step _ [] budget _ _ _ _ _ Hs Hstart Hend ltac:(discriminate)).
    cbn [app].
    assert (Hlen' : length rest < budget).
    { rewrite !length_app in Hlen. cbn [length] in Hlen.
      rewrite ?length_app in Hlen. lia. }
    assert (IH' := IH (rev (pre ++ chr "<" :: mid ++ [chr ">"]) ++ b) rest Hlen').
    set (out' := sub_matches [] _ _ _) in *.
    intros u v E. apply app_eq_app in E.
    destruct E as (l & [[E1 E2]|[E1 E2]]).
    + destruct l as [|c l].
      * cbn [app] in E2. apply (IH' [] v). now symmetry.
      * cbn [app] in E2. injection E2 as <- ->.
        assert (Hn := Hmin u (chr "<" :: l) E1 ltac:(discriminate)).
        cbn [app] in Hn. apply no_tag_here in Hn.
        destruct Hn as [(v' & Hv)|Hn].
        -- destruct l as [|c l]; [cbn [app] in Hv; discriminate|].
           cbn [app] in Hv. injection Hv as -> _. left. eexists. reflexivity.
        -- exfalso. apply Hn. apply in_or_app. right. right.
           apply in_or_app. left. apply in_or_app. right. now left.
    + apply (IH' l v). exact E2.
  - rewrite (@sub_done _ [] budget _ _ Hs).
    intros u v ->. apply (@no_tag_here (rev u ++ b)).
    apply (@search_from_None _ _ _ Hs u (chr "<" :: v) eq_refl).
Qed.

Lemma untag : forall s, tagless (sub TAG_RE [] s).
Proof.
  intros s. unfold sub, finditer.
  apply (@untag_from (S (length s)) [] s (Nat.lt_succ_diag_r _)).
Qed.

Lemma tagless_search : forall l, tagless l -> search TAG_RE l = None.
Proof.
  intros l H. destruct (search TAG_RE l) as [m|] eqn:Hs; [|reflexivity]. exfalso.
  unfold search in Hs. destruct (@search_tag _ _ _ Hs)
    as (pre & mid & rest & -> & Hne & Hno & _).
  destruct (H pre ((mid ++ [chr ">"]) ++ rest) eq_refl) as [(v' & Hv)|Hn].
  - destruct mid as [|c mid]; [congruence|].
    cbn [app] in Hv. injection Hv as -> _. apply Hno. now left.
  - apply Hn. apply in_or_app. left. apply in_or_app. right. now left.
Qed.

Lemma space_not_bracket : forall x,
  space x = true -> x <> chr "<" /\ x <> chr ">".
Proof. intros x H. split; intros ->; vm_compute in H; discriminate. Qed.

Lemma tagless_spaces_from : forall budget b a,
  length a < budget -> tagless a ->
  let out := sub_matches (py " ") (rev b ++ a) (length b)
               (finditer_from budget (plus (Chr space)) b a) in
  tagless out /\ (forall x, In x out -> x = 32%N \/ In x a).
Proof.
  induction budget as [|budget IH]; intros b a Hlen Ha; [lia|]. cbv zeta.
  destruct (search_from (plus (Chr space)) b a) as [m|] eqn:Hs.
  - unfold plus in Hs. destruct (@search_run _ _ _ _ _ Hs)
      as (pre & run & rest & -> & HF & Hlo & Hr & Hstart & Hend & _).
    assert (Hne : run <> []) by (destruct run; [cbn in Hlo; lia|discriminate]).
    unfold plus.
    rewrite (@sub_step _ (py " ") budget _ _ _ _ _ Hs Hstart Hend Hne).
    destruct (IH (rev (pre ++ run) ++ b) rest) as (Hout & Hchars).
    { rewrite !length_app in Hlen. lia. }
    { apply (tagless_suffix run), (tagless_suffix pre). exact Ha. }
    unfold plus in Hout, Hchars.
    set (out' := sub_matches (py " ") _ _ _) in *.
    change (py " ") with [32%N]. cbn [app].
    split.
    + intros u v E. apply app_eq_app in E.
      destruct E as (l & [[E1 E2]|[E1 E2]]).
      * destruct l as [|c l]; [cbn [app] in E2; discriminate|].
        cbn [app] in E2. injection E2 as <- ->.
        destruct (Ha u (l ++ run ++ rest)) as [(v' & Hv)|Hn].
        { rewrite E1, <- app_assoc. reflexivity. }
        -- destruct l as [|c l].
           ++ exfalso. destruct run as [|c run]; [congruence|].
              cbn [app] in Hv. injection Hv as -> _. inversion HF; subst.
              match goal with H : space (chr ">") = true |- _ =>
                vm_compute in H; discriminate end.
           ++ cbn [app] in Hv. injection Hv as -> _. left. eexists. reflexivity.
        -- right. intros Hin. apply in_app_or in Hin. destruct Hin as [Hin|[Hin|Hin]].
           ++ apply Hn. apply in_or_app. now left.
           ++ discriminate.
           ++ destruct (Hchars _ Hin) as [Hx|Hx]; [discriminate|].
              apply Hn. apply in_or_app. right. apply in_or_app. now right.
      * destruct l as [|c l]; [cbn [app] in E2; discriminate|].
        cbn [app] in E2. injection E2 as _ E2. apply (Hout l v E2).
    + intros x Hin. apply in_app_or in Hin. destruct Hin as [Hin|[Hin|Hin]].
      * right. apply in_or_app. now left.
      * now left.
      * destruct (Hchars _ Hin) as [Hx|Hx]; [now left|].
        right. apply in_or_app. right. apply in_or_app. now right.
  - rewrite (@sub_done _ (py " ") budget _ _ Hs). split; [exact Ha|]. auto.
Qed.

Lemma tagless_spaces : forall s,
  tagless s -> tagless (sub (plus (Chr space)) (py " ") s).
Proof.
  intros s H. unfold sub, finditer.
  apply (@tagless_spaces_from (S (length s)) [] s (Nat.lt_succ_diag_r _) H).
Qed.

Lemma lstrip_suffix : forall s, exists pre, s = pre ++ Py.lstrip s.
Proof.
  induction s as [|c s (pre & IH)]; [now exists []|].
  cbn [Py.lstrip]. destruct (Unicode.isspace c); [|now exists []].
  exists (c :: pre). cbn [app]. now f_equal.
Qed.

Lemma rstrip_prefix : forall s, exists post, s = Py.rstrip s ++ post.
Proof.
  intros s. unfold Py.rstrip. destruct (lstrip_suffix (rev s)) as (pre & H).
  exists (rev pre). apply (f_equal (@rev _)) in H.
  rewrite rev_involutive, rev_app_distr in H. exact H.
Qed.

Lemma tagless_strip : forall s, tagless s -> tagless (Py.strip s).
Proof.
  intros s H. unfold Py.strip.
  destruct (lstrip_suffix s) as (pre & E). rewrite E in H. apply tagless_suffix in H.
  destruct (rstrip_prefix (Py.lstrip s)) as (post & E'). rewrite E' in H.
  now apply tagless_prefix in H.
Qed.

End TagFacts.

Module BlockFacts.

Lemma spaces_nonempty : forall b a m,
  Re.match_here Borme.SPACES_RE b a = Some m -> Re.m_start m < Re.m_end m.
Proof.
  intros b a m Hm. apply ReFacts.match_here_Some in Hm.
  destruct Hm as (s' & HM & ->). unfold Borme.SPACES_RE in HM.
  apply ReInv.M_rep_chr in HM. destruct HM as (mid & a' & _ & -> & _ & Hlo & _).
  unfold ReSem.pos_of. cbn [Re.m_start Re.m_end ReSem.bef].
  rewrite length_app, length_rev. lia.
Qed.

Lemma block_one_line : forall text start end_,
  ~ In 10%N (Borme.entry_block text start end_).
Proof.
  intros text start end_ H. unfold Borme.entry_block in H.
  apply RowFacts.strip_incl in H.
  apply NormFacts.sub_chars in H; [|exact spaces_nonempty].
  destruct H as [H|(pre & post & E & _)].
  - vm_compute in H. destruct H as [H|[]]. discriminate.
  - assert (Hin : In 10%N (Py.replace [10%N] (py " ") (Py.slice start end_ text)))
      by (rewrite E; apply in_or_app; right; now left).
    rewrite CapitalFacts.replace_char in Hin. apply in_flat_map in Hin.
    destruct Hin as (c & _ & Hc). unfold Py.subst_char in Hc.
    destruct (N.eqb 10 c) eqn:Ec.
    + vm_compute in Hc. destruct Hc as [Hc|[]]. discriminate.
    + destruct Hc as [Hc|[]]. subst c. rewrite N.eqb_refl in Ec. discriminate.
Qed.

Lemma block_single_spaced : forall text start end_,
  ReSem.no_adjacent Unicode.isspace (Borme.entry_block text start end_).
Proof.
  intros text start end_. unfold Borme.entry_block.
  apply SubFacts.no_adjacent_strip. unfold Borme.SPACES_RE.
  change (py " ") with [32%N].
  apply (@SubFacts.collapse Re.space 2 32%N); lia.
Qed.

End BlockFacts.

(** The block of an entry is flat: it holds no line break, no two
    white-space characters side by side, and no white space at either
    end. *)
Theorem entry_block_is_flat : forall (text : pystr) (start end_ : nat),
  let block := Borme.entry_block text start end_ in
  ~ In 10%N block
  /\ ReSem.no_adjacent Unicode.isspace block
  /\ Py.strip block = block.
Proof.
  intros text start end_. cbv zeta. split; [|split].
  - apply BlockFacts.block_one_line.
  - apply BlockFacts.block_single_spaced.
  - unfold Borme.entry_block. apply StripFacts.strip_idem.
Qed.

(** A cell cleaned by [clean_html] holds no tag: the pattern of the tags
    finds nothing in it.  Its only white-space characters are single
    spaces between other characters, none at either end, and its other
    characters come from the cell. *)
Theorem cleaned_cell_has_no_tag :
  forall (A : Type) (s t : pystr),
    Galicia.clean_html (inl s : pystr + A) = inl t ->
    Re.search Galicia.TAG_RE t = None
    /\ (forall x, In x t -> Unicode.isspace x = true -> x = 32%N)
    /\ ReSem.no_adjacent Unicode.isspace t
    /\ Py.strip t = t
    /\ (forall x, In x t -> x = 32%N \/ In x s).
Proof.
  intros A s t H. cbn [Galicia.clean_html] in H. injection H as <-.
  assert (Hchars : forall x,
             In x (Py.strip (Re.sub (Re.plus (Re.Chr Re.space)) (py " ")
                               (Re.sub Galicia.TAG_RE [] s))) ->
             x = 32%N \/ (Unicode.isspace x = false /\ In x s)).
  { intros x Hx. apply RowFacts.strip_incl in Hx.
    apply NormFacts.sub_chars in Hx; [|apply NormFacts.plus_chr_nonempty].
    destruct Hx as [Hx|(pre & post & E & Hn)].
    - left. now apply NormFacts.in_space.
    - right. split; [exact (NormFacts.plus_chr_no_match _ _ _ _ Hn)|].
      apply (NormFacts.sub_incl Galicia.TAG_RE s). rewrite E.
      apply in_or_app. right. now left. }
  split; [|split; [|split; [|split]]].
  - apply TagFacts.tagless_search, TagFacts.tagless_strip, TagFacts.tagless_spaces,
      TagFacts.untag.
  - intros x Hx Hs. destruct (Hchars x Hx) as [E|[E _]]; [exact E|congruence].
  - apply SubFacts.no_adjacent_strip. unfold Re.plus. change (py " ") with [32%N].
    apply (@SubFacts.collapse Re.space 1 32%N); lia.
  - apply StripFacts.strip_idem.
  - intros x Hx. destruct (Hchars x Hx) as [E|[_ E]]; auto.
Qed.

Lemma cleaned_cell_has_no_tag_witness :
  let t := py "Obra nueva 2020 <>" in
  Re.search Galicia.TAG_RE t = None
  /\ (forall x, In x t -> Unicode.isspace x = true -> x = 32%N)
  /\ ReSem.no_adjacent Unicode.isspace t
  /\ Py.strip t = t
  /\ (forall x, In x t -> x = 32%N \/ In x Galicia.example_cell).
Proof.
  intros t. apply (@cleaned_cell_has_no_tag unit Galicia.example_cell t).
  vm_compute. reflexivity.
Defined.

(** ** The graph of shared administrators *)

Module GraphFacts.
Import Anonymize.

(** *** The order on strings *)

Lemma ltb_irrefl : forall s, str_ltb s s = false.
Proof.
  induction s as [|x s IH]; [reflexivity|].
  cbn [str_ltb]. rewrite N.ltb_irrefl, N.eqb_refl, IH. reflexivity.
Qed.

Lemma ltb_cons : forall x s y t,
  str_ltb (x :: s) (y :: t) = true <-> (x < y)%N \/ (x = y /\ str_ltb s t = true).
Proof.
  intros x s y t. cbn [str_ltb].
  rewrite orb_true_iff, andb_true_iff, N.ltb_lt, N.eqb_eq. reflexivity.
Qed.

Lemma ltb_trans : forall s t u,
  str_ltb s t = true -> str_ltb t u = true -> str_ltb s u = true.
Proof.
  induction s as [|x s IH]; intros t u H1 H2.
  - destruct t as [|y t]; [discriminate|]. destruct u as [|z u]; [discriminate|reflexivity].
  - destruct t as [|y t]; [discriminate|]. destruct u as [|z u]; [discriminate|].
    apply ltb_cons in H1, H2. apply ltb_cons.
    destruct H1 as [H1|[-> H1]], H2 as [H2|[-> H2]].
    + left. lia.
    + now left.
    + now left.
    + right. split; [reflexivity|]. now apply (IH t u).
Qed.

Lemma ltb_total : forall s t,
  str_ltb s t = false -> str_ltb t s = false -> s = t.
Proof.
  induction s as [|x s IH]; intros [|y t] H1 H2; try reflexivity; try discriminate.
  cbn [str_ltb] in H1, H2.
  apply orb_false_iff in H1, H2. destruct H1 as [H1 H1'], H2 as [H2 H2'].
  apply N.ltb_ge in H1, H2. assert (x = y) by lia. subst y.
  rewrite N.eqb_refl in H1', H2'. cbn [andb] in H1', H2'.
  f_equal. now apply IH.
Qed.

(** *** Sorting *)

Lemma insert_In : forall x l y, In y (insert_sorted x l) <-> y = x \/ In y l.
Proof.
  intros x. induction l as [|z l IH]; intros y; cbn [insert_sorted].
  - cbn [In]. intuition.
  - destruct (str_ltb z x); cbn [In]; [rewrite IH|]; intuition.
Qed.

Lemma sorted_In : forall l y, In y (sorted l) <-> In y l.
Proof.
  induction l as [|x l IH]; intros y; [reflexivity|].
  cbn [sorted fold_right]. fold (sorted l). rewrite insert_In, IH. cbn [In]. intuition.
Qed.

Lemma insert_length : forall x l, length (insert_sorted x l) = S (length l).
Proof.
  intros x. induction l as [|z l IH]; [reflexivity|].
  cbn [insert_sorted]. destruct (str_ltb z x); cbn [length]; [now rewrite IH|reflexivity].
Qed.

Lemma sorted_length : forall l, length (sorted l) = length l.
Proof.
  induction l as [|x l IH]; [reflexivity|].
  cbn [sorted fold_right]. fold (sorted l). rewrite insert_length. cbn [length]. now rewrite IH.
Qed.

Lemma insert_strict : forall x l,
  StronglySorted (fun s t => str_ltb s t = true) l -> ~ In x l ->
  StronglySorted (fun s t => str_ltb s t = true) (insert_sorted x l).
Proof.
  intros x l H Hx. induction H as [|z l Hl IH Hz]; cbn [insert_sorted].
  - repeat constructor.
  - destruct (str_ltb z x) eqn:E.
    + constructor.
      * apply IH. intros Hin. apply Hx. now right.
      * apply Forall_forall. intros y Hy. apply insert_In in Hy.
        destruct Hy as [->|Hy]; [exact E|].
        rewrite Forall_forall in Hz. now apply Hz.
    + assert (Hxz : str_ltb x z = true).
      { destruct (str_ltb x z) eqn:E'; [reflexivity|]. exfalso.
        apply Hx. left. now apply ltb_total. }
      constructor; [now constructor|].
      constructor; [exact Hxz|].
      apply Forall_forall. intros y Hy. rewrite Forall_forall in Hz.
      apply (ltb_trans _ _ _ Hxz (Hz y Hy)).
Qed.

Lemma sorted_strict : forall l,
  NoDup l -> StronglySorted (fun s t => str_ltb s t = true) (sorted l).
Proof.
  intros l H. induction H as [|x l Hx _ IH]; [constructor|].
  cbn [sorted fold_right]. fold (sorted l). apply insert_strict; [exact IH|].
  intros Hin. apply Hx. apply (proj1 (sorted_In l x)). exact Hin.
Qed.

Lemma sorted_set_strict : forall x,
  StronglySorted (fun s t => str_ltb s t = true) (sorted_set x).
Proof. intros x. apply sorted_strict, NoDup_nodup. Qed.

Lemma sorted_set_In : forall x y, In y (sorted_set x) <-> In y x.
Proof. intros x y. unfold sorted_set. rewrite sorted_In. apply nodup_In. Qed.

Lemma strict_NoDup : forall l,
  StronglySorted (fun s t => str_ltb s t = true) l -> NoDup l.
Proof.
  intros l H. induction H as [|x l _ IH Hx]; constructor; [|exact IH].
  intros Hin. rewrite Forall_forall in Hx. apply Hx in Hin.
  rewrite ltb_irrefl in Hin. discriminate.
Qed.

(** *** Pairs *)

Lemma comb_In : forall l a b,
  In (a, b) (combinations2 l) -> In a l /\ In b l.
Proof.
  induction l as [|x l IH]; intros a b H; [contradiction|].
  cbn [combinations2] in H. apply in_app_or in H. destruct H as [H|H].
  - apply in_map_iff in H. destruct H as (y & E & Hy). injection E as <- <-.
    split; [now left|now right].
  - destruct (IH a b H). split; now right.
Qed.

Lemma comb_ordered : forall l a b,
  StronglySorted (fun s t => str_ltb s t = true) l ->
  In (a, b) (combinations2 l) -> str_ltb a b = true.
Proof.
  intros l a b H. induction H as [|x l _ IH Hx]; intros Hin; [contradiction|].
  cbn [combinations2] in Hin. apply in_app_or in Hin. destruct Hin as [Hin|Hin].
  - apply in_map_iff in Hin. destruct Hin as (y & E & Hy). injection E as <- <-.
    rewrite Forall_forall in Hx. now apply Hx.
  - now apply IH.
Qed.

Lemma comb_complete : forall l a b,
  StronglySorted (fun s t => str_ltb s t = true) l ->
  In a l -> In b l -> str_ltb a b = true -> In (a, b) (combinations2 l).
Proof.
  intros l a b H. induction H as [|x l Hl IH Hx]; intros Ha Hb Hab; [contradiction|].
  cbn [combinations2]. apply in_or_app. rewrite Forall_forall in Hx.
  destruct Ha as [->|Ha].
  - destruct Hb as [->|Hb]; [rewrite ltb_irrefl in Hab; discriminate|].
    left. now apply in_map.
  - destruct Hb as [->|Hb].
    + exfalso. assert (H := ltb_trans _ _ _ Hab (Hx a Ha)).
      rewrite ltb_irrefl in H. discriminate.
    + right. now apply IH.
Qed.

Lemma comb_NoDup : forall l, NoDup l -> NoDup (combinations2 l).
Proof.
  intros l H. induction H as [|x l Hx Hl IH]; [constructor|].
  cbn [combinations2]. apply NoDup_app.
  - clear -Hl. induction Hl as [|y l Hy _ IH]; [constructor|].
    cbn [map]. constructor; [|exact IH].
    intros H. apply in_map_iff in H. destruct H as (z & E & Hz).
    injection E as ->. contradiction.
  - exact IH.
  - intros [a b] H1 H2. apply in_map_iff in H1. destruct H1 as (y & E & _).
    injection E as <- <-. apply comb_In in H2. tauto.
Qed.


(** *** Dictionaries *)

Lemma key_eqb_eq : forall k k', key_eqb k k' = true <-> k = k'.
Proof.
  intros [a b] [a' b']. unfold key_eqb. cbn [fst snd].
  rewrite andb_true_iff, !PyFacts.eqb_eq. split.
  - intros [-> ->]. reflexivity.
  - intros E. injection E as -> ->. auto.
Qed.

Lemma key_eqb_refl : forall k, key_eqb k k = true.
Proof. intros k. now apply key_eqb_eq. Qed.

Lemma key_eqb_neq : forall k k', key_eqb k k' = false <-> k <> k'.
Proof.
  intros k k'. split.
  - intros H E. apply key_eqb_eq in E. congruence.
  - intros H. destruct (key_eqb k k') eqn:E; [|reflexivity].
    apply key_eqb_eq in E. contradiction.
Qed.

Lemma upsert_keys : forall (V : Type) k (init : V) f d k',
  In k' (map fst (dict_upsert k init f d)) <-> k' = k \/ In k' (map fst d).
Proof.
  intros V k init f. induction d as [|[k0 v] d IH]; intros k'.
  - cbn. intuition.
  - cbn [dict_upsert]. destruct (key_eqb k0 k) eqn:E.
    + apply key_eqb_eq in E. subst k0. cbn [map fst In]. intuition.
    + cbn [map fst In]. rewrite IH. intuition.
Qed.

Lemma upsert_NoDup : forall (V : Type) k (init : V) f d,
  NoDup (map fst d) -> NoDup (map fst (dict_upsert k init f d)).
Proof.
  intros V k init f. induction d as [|[k0 v] d IH]; intros H.
  - cbn. constructor; [tauto|constructor].
  - cbn [map fst] in H. inversion H as [|? ? Hk0 Hd]; subst.
    cbn [dict_upsert]. destruct (key_eqb k0 k) eqn:E.
    + cbn [map fst]. now constructor.
    + cbn [map fst]. constructor; [|now apply IH].
      intros Hin. apply upsert_keys in Hin. destruct Hin as [->|Hin]; [|contradiction].
      rewrite key_eqb_refl in E. discriminate.
Qed.

Lemma upsert_other : forall (V : Type) k (init : V) f d k' v,
  k' <> k -> In (k', v) (dict_upsert k init f d) <-> In (k', v) d.
Proof.
  intros V k init f d k' v Hne. induction d as [|[k0 v0] d IH].
  - cbn. split; [intros [E|[]]; congruence|tauto].
  - cbn [dict_upsert]. destruct (key_eqb k0 k) eqn:E.
    + apply key_eqb_eq in E. subst k0. cbn [In].
      split; (intros [H|H]; [congruence|now right]).
    + cbn [In]. rewrite IH. reflexivity.
Qed.

Lemma upsert_new : forall (V : Type) k (init : V) f d v,
  ~ In k (map fst d) -> In (k, v) (dict_upsert k init f d) <-> v = init.
Proof.
  intros V k init f d v. induction d as [|[k0 v0] d IH]; intros Hk.
  - cbn. split; [intros [E|[]]; congruence|intros ->; now left].
  - cbn [map fst In] in Hk. cbn [dict_upsert]. destruct (key_eqb k0 k) eqn:E.
    + apply key_eqb_eq in E. tauto.
    + apply key_eqb_neq in E. cbn [In]. rewrite IH by tauto.
      split; [intros [H|H]; [congruence|exact H]|now right].
Qed.

Lemma upsert_old : forall (V : Type) k (init : V) f d v0 v,
  NoDup (map fst d) -> In (k, v0) d ->
  In (k, v) (dict_upsert k init f d) <-> v = f v0.
Proof.
  intros V k init f d v0 v. induction d as [|[k0 v1] d IH]; intros Hnd Hin; [contradiction|].
  cbn [map fst] in Hnd. inversion Hnd as [|? ? Hk0 Hd]; subst.
  cbn [dict_upsert]. destruct (key_eqb k0 k) eqn:E.
  - apply key_eqb_eq in E. subst k0.
    assert (v1 = v0).
    { destruct Hin as [H|H]; [congruence|]. exfalso. apply Hk0.
      apply in_map_iff. now exists (k, v0). }
    subst v1. cbn [In]. split.
    + intros [H|H]; [congruence|]. exfalso. apply Hk0.
      apply in_map_iff. now exists (k, v).
    + intros ->. now left.
  - apply key_eqb_neq in E. destruct Hin as [H|H]; [congruence|].
    cbn [In]. rewrite (IH Hd H). split; [intros [H'|H']; [congruence|exact H']|now right].
Qed.

Lemma filter_snoc : forall (A : Type) (p : A -> bool) l x,
  filter p (l ++ [x]) = filter p l ++ (if p x then [x] else []).
Proof. intros A p l x. rewrite filter_app. reflexivity. Qed.

(** What a dictionary holds after a sequence of updates: for each key met,
    the updates of the turns with that key, applied in order to the value
    that the first of them set. *)
Lemma fold_upsert : forall (V : Type) (init : pystr * (pystr * pystr) -> V)
                           (f : pystr * (pystr * pystr) -> V -> V) evs,
  let d := fold_left (fun d e => dict_upsert (snd e) (init e) (f e) d) evs [] in
  NoDup (map fst d)
  /\ (forall k, In k (map fst d) <-> exists e, In e evs /\ snd e = k)
  /\ (forall k v, In (k, v) d <->
                  exists e es, filter (fun e => key_eqb (snd e) k) evs = e :: es
                               /\ v = fold_left (fun v e' => f e' v) es (init e)).
Proof.
  intros V init f evs. cbv zeta. induction evs as [|e evs IH] using rev_ind.
  - cbn. split; [constructor|]. split.
    + intros k. split; [tauto|intros (e & [] & _)].
    + intros k v. split; [tauto|intros (e & es & E & _); discriminate].
  - rewrite fold_left_app. cbn [fold_left].
    set (d := fold_left (fun d e => dict_upsert (snd e) (init e) (f e) d) evs []) in *.
    destruct IH as (Hnd & Hkeys & Hvals).
    split; [now apply upsert_NoDup|]. split.
    + intros k. rewrite upsert_keys, Hkeys. split.
      * intros [->|(e' & He' & E)].
        -- exists e. split; [apply in_or_app; right; now left|reflexivity].
        -- exists e'. split; [apply in_or_app; now left|exact E].
      * intros (e' & He' & E). apply in_app_or in He'. destruct He' as [He'|[->|[]]].
        -- right. eauto.
        -- now left.
    + intros k v. rewrite filter_snoc.
      destruct (key_eqb (snd e) k) eqn:E.
      * apply key_eqb_eq in E. subst k.
        destruct (filter (fun e0 => key_eqb (snd e0) (snd e)) evs) as [|e0 es0] eqn:Ef.
        -- assert (Hnew : ~ In (snd e) (map fst d)).
           { intros Hin. apply Hkeys in Hin. destruct Hin as (e' & He' & E').
             assert (Hf : In e' (filter (fun e0 => key_eqb (snd e0) (snd e)) evs)).
             { apply filter_In. split; [exact He'|]. now apply key_eqb_eq. }
             rewrite Ef in Hf. contradiction. }
           rewrite (@upsert_new V (snd e) (init e) (f e) d v Hnew). cbn [app]. split.
           ++ intros ->. exists e, []. auto.
           ++ intros (e1 & es1 & E1 & ->). injection E1 as <- <-. reflexivity.
        -- assert (Hold : In (snd e, fold_left (fun v e' => f e' v) es0 (init e0)) d).
           { apply Hvals. exists e0, es0. auto. }
           rewrite (@upsert_old V (snd e) (init e) (f e) d _ v Hnd Hold). cbn [app]. split.
           ++ intros ->. exists e0, (es0 ++ [e]). split; [reflexivity|].
              rewrite fold_left_app. reflexivity.
           ++ intros (e1 & es1 & E1 & ->). injection E1 as <- <-.
              rewrite fold_left_app. reflexivity.
      * apply key_eqb_neq in E. rewrite app_nil_r.
        rewrite upsert_other by congruence. apply Hvals.
Qed.

Lemma set_add_fold : forall es h0,
  let hs := fold_left (fun hs (e : pystr * (pystr * pystr)) => set_add (fst e) hs) es [h0] in
  NoDup hs /\ forall h, In h hs <-> h = h0 \/ In h (map fst es).
Proof.
  intros es h0. cbv zeta. induction es as [|e es IH] using rev_ind.
  - cbn. split; [constructor; [tauto|constructor]|]. intros h. intuition.
  - rewrite fold_left_app. cbn [fold_left].
    set (hs := fold_left _ es [h0]) in *. destruct IH as (Hnd & Hin).
    unfold set_add. destruct (Py.mem (fst e) hs) eqn:E.
    + apply PyFacts.mem_In in E. split; [exact Hnd|].
      intros h. rewrite map_app, in_app_iff, Hin. cbn [map In].
      split; [tauto|]. intros [H|[H|[H|[]]]]; [tauto|tauto|].
      subst h. now apply Hin.
    + assert (Hno : ~ In (fst e) hs).
      { intros H. apply PyFacts.mem_In in H. congruence. }
      split.
      * apply NoDup_app; [exact Hnd|constructor; [tauto|constructor]|].
        intros x Hx [<-|[]]. contradiction.
      * intros h. rewrite map_app, !in_app_iff, Hin. cbn [map In]. tauto.
Qed.

Lemma loop_events : forall m st,
  fold_left (fun st g => fold_left (pair_step (fst g)) (combinations2 (snd g)) st) m st
  = fold_left (fun st e => pair_step (fst e) st (snd e)) (pair_events m) st.
Proof.
  induction m as [|g m IH]; intros st; [reflexivity|].
  cbn [fold_left pair_events flat_map]. rewrite fold_left_app, IH. f_equal.
  generalize (combinations2 (snd g)). intros ks. revert st.
  induction ks as [|k ks IHk]; intros st; [reflexivity|].
  cbn [fold_left map]. apply IHk.
Qed.

Lemma loop_counts : forall evs st,
  pair_counts (fold_left (fun st e => pair_step (fst e) st (snd e)) evs st)
  = fold_left (fun d (e : pystr * (pystr * pystr)) =>
                 dict_upsert (snd e) 1 (fun n => n + 1) d) evs (pair_counts st).
Proof.
  induction evs as [|e evs IH]; intros st; [reflexivity|].
  cbn [fold_left]. rewrite IH. reflexivity.
Qed.

Lemma loop_hashes : forall evs st,
  pair_hashes (fold_left (fun st e => pair_step (fst e) st (snd e)) evs st)
  = fold_left (fun d (e : pystr * (pystr * pystr)) =>
                 dict_upsert (snd e) [fst e] (set_add (fst e)) d) evs (pair_hashes st).
Proof.
  induction evs as [|e evs IH]; intros st; [reflexivity|].
  cbn [fold_left]. rewrite IH. reflexivity.
Qed.

Lemma fold_succ : forall (A : Type) (es : list A) n,
  fold_left (fun v _ => v + 1) es n = n + length es.
Proof.
  intros A. induction es as [|e es IH]; intros n; cbn [fold_left length]; [lia|].
  rewrite IH. lia.
Qed.

Lemma hashes_get_In : forall d k hs,
  NoDup (map fst d) -> In (k, hs) d -> hashes_get k d = Ok hs.
Proof.
  induction d as [|[k0 v0] d IH]; intros k hs Hnd Hin; [contradiction|].
  cbn [map fst] in Hnd. inversion Hnd as [|? ? Hk0 Hd]; subst.
  cbn [hashes_get]. destruct (key_eqb k0 k) eqn:E.
  - apply key_eqb_eq in E. subst k0. destruct Hin as [H|H]; [congruence|].
    exfalso. apply Hk0. apply in_map_iff. now exists (k, hs).
  - apply key_eqb_neq in E. destruct Hin as [H|H]; [congruence|].
    now apply IH.
Qed.

Lemma graph_rows_spec : forall hashes counts,
  NoDup (map fst hashes) ->
  (forall k, In k (map fst counts) -> In k (map fst hashes)) ->
  exists rows,
    graph_rows counts hashes = Ok rows
    /\ map (fun r => (empresa_a r, empresa_b r)) rows = map fst counts
    /\ forall r, In r rows ->
          exists n hs,
            In ((empresa_a r, empresa_b r), n) counts
            /\ In ((empresa_a r, empresa_b r), hs) hashes
            /\ n_admins_compartidos r = n
            /\ admin_hashes r = Py.join (py "|") (sorted hs).
Proof.
  intros hashes counts Hnd. induction counts as [|[k n] counts IH]; intros Hk.
  - exists []. cbn. split; [reflexivity|]. split; [reflexivity|]. intros r [].
  - assert (Hkin : In k (map fst hashes)) by (apply Hk; now left).
    apply in_map_iff in Hkin. destruct Hkin as ([k' hs] & E & Hin). cbn [fst] in E. subst k'.
    destruct IH as (rows & Hr & Hkeys & Hrows).
    { intros k' Hk'. apply Hk. now right. }
    cbn [graph_rows]. rewrite (@hashes_get_In hashes k hs Hnd Hin), Hr. cbn [bind].
    eexists. split; [reflexivity|]. split.
    + cbn [map fst empresa_a empresa_b]. rewrite Hkeys. destruct k. reflexivity.
    + intros r [<-|Hin'].
      * cbn [empresa_a empresa_b n_admins_compartidos admin_hashes].
        exists n, hs. destruct k. cbn [fst snd]. split; [now left|]. auto.
      * destruct (Hrows r Hin') as (n' & hs' & H1 & H2 & H3 & H4).
        exists n', hs'. split; [now right|]. auto.
Qed.


(** *** The groups and the turns of the loop *)

Lemma persona_empresas_keys : forall df,
  map fst (persona_empresas df) = sorted_set (map a_persona_hash (admins df)).
Proof.
  intros df. unfold persona_empresas. rewrite map_map. cbn [fst]. apply map_id.
Qed.

Lemma NoDup_map_filter : forall (A B : Type) (g : A -> B) (p : A -> bool) l,
  NoDup (map g l) -> NoDup (map g (filter p l)).
Proof.
  intros A B g p. induction l as [|x l IH]; intros H; [constructor|].
  cbn [map] in H. inversion H as [|? ? Hx Hl]; subst. cbn [filter].
  destruct (p x); [|now apply IH]. cbn [map]. constructor; [|now apply IH].
  intros Hin. apply Hx. apply in_map_iff in Hin. destruct Hin as (y & E & Hy).
  apply filter_In in Hy. apply in_map_iff. exists y. tauto.
Qed.

Lemma multi_keys : forall max df, NoDup (map fst (multi max df)).
Proof.
  intros max df. unfold multi. apply NoDup_map_filter.
  rewrite persona_empresas_keys. apply strict_NoDup, sorted_set_strict.
Qed.

Lemma multi_In : forall max df h es,
  In (h, es) (multi max df) <->
  In h (map a_persona_hash (admins df))
  /\ es = sorted_set (map a_empresa_norm
                        (filter (fun r => Py.eqb (a_persona_hash r) h) (admins df)))
  /\ 2 <= length es <= max.
Proof.
  intros max df h es. unfold multi. rewrite filter_In. cbn [snd].
  rewrite andb_true_iff, !Nat.leb_le. unfold persona_empresas. rewrite in_map_iff.
  split.
  - intros ((h' & E & Hh') & Hlen). injection E as -> <-.
    apply (proj1 (sorted_set_In _ _)) in Hh'. split; [exact Hh'|]. split; [reflexivity|exact Hlen].
  - intros (Hh & -> & Hlen). split; [|exact Hlen].
    exists h. split; [reflexivity|]. now apply (proj2 (sorted_set_In _ _)).
Qed.

Lemma sorted_set_length : forall x, length (sorted_set x) = length (nodup Py.eq_dec x).
Proof. intros x. unfold sorted_set. apply sorted_length. Qed.

Lemma events_In : forall m h k,
  In (h, k) (pair_events m) <-> exists es, In (h, es) m /\ In k (combinations2 es).
Proof.
  intros m h k. unfold pair_events. rewrite in_flat_map. split.
  - intros ([h' es] & Hg & Hin). cbn [fst snd] in Hin.
    apply in_map_iff in Hin. destruct Hin as (k' & E & Hk'). injection E as -> ->.
    eauto.
  - intros (es & Hg & Hk). exists (h, es). split; [exact Hg|].
    cbn [fst snd]. now apply in_map.
Qed.

Lemma events_NoDup : forall m,
  NoDup (map fst m) -> (forall g, In g m -> NoDup (snd g)) -> NoDup (pair_events m).
Proof.
  induction m as [|g m IH]; intros Hk Hg; [constructor|].
  cbn [map] in Hk. inversion Hk as [|? ? Hg0 Hm]; subst.
  cbn [pair_events flat_map]. apply NoDup_app.
  - assert (Hc : NoDup (combinations2 (snd g))) by (apply comb_NoDup, Hg; now left).
    clear -Hc. induction Hc as [|k ks Hk _ IH']; [constructor|].
    cbn [map]. constructor; [|exact IH'].
    intros H. apply in_map_iff in H. destruct H as (k' & E & Hk').
    injection E as ->. contradiction.
  - apply IH; [exact Hm|]. intros g' Hg'. apply Hg. now right.
  - intros [h k] H1 H2. apply in_map_iff in H1. destruct H1 as (k' & E & _).
    injection E as <- <-.
    apply events_In in H2.
    destruct H2 as (es & Hes & _). apply Hg0. apply in_map_iff.
    exists (fst g, es). auto.
Qed.

Lemma companies_In : forall df h a,
  In a (companies_of df h) ->
  In h (map a_persona_hash (admins df)).
Proof.
  intros df h a H. unfold companies_of in H. apply nodup_In in H.
  apply in_map_iff in H. destruct H as (r & _ & Hr). apply filter_In in Hr.
  destruct Hr as [Hr E]. apply PyFacts.eqb_eq in E. subst h. now apply in_map.
Qed.

(** The turns of the loop are the administrators with their pairs of
    companies, the smaller name first. *)
Lemma events_shares : forall max df h a b,
  In (h, (a, b)) (pair_events (multi max df))
  <-> shares df max a b h /\ str_ltb a b = true.
Proof.
  intros max df h a b. rewrite events_In. unfold shares. split.
  - intros (es & Hes & Hk). apply multi_In in Hes. destruct Hes as (Hh & -> & Hlen).
    rewrite sorted_set_length in Hlen.
    assert (Hab := @comb_ordered _ _ _ (sorted_set_strict _) Hk).
    apply comb_In in Hk. destruct Hk as [Ha Hb].
    apply (proj1 (sorted_set_In _ _)) in Ha. apply (proj1 (sorted_set_In _ _)) in Hb.
    unfold companies_of. rewrite !nodup_In. tauto.
  - intros ((Ha & Hb & Hlen) & Hab).
    exists (sorted_set (map a_empresa_norm
                          (filter (fun r => Py.eqb (a_persona_hash r) h) (admins df)))).
    split.
    + apply multi_In. split; [now apply (@companies_In df h a)|]. split; [reflexivity|].
      rewrite sorted_set_length. exact Hlen.
    + unfold companies_of in Ha, Hb. rewrite nodup_In in Ha, Hb.
      apply comb_complete; [apply sorted_set_strict| | |exact Hab];
        now apply (proj2 (sorted_set_In _ _)).
Qed.

Lemma multi_events_NoDup : forall max df, NoDup (pair_events (multi max df)).
Proof.
  intros max df. apply events_NoDup; [apply multi_keys|].
  intros [h es] Hg. apply multi_In in Hg. destruct Hg as (_ & -> & _).
  apply strict_NoDup, sorted_set_strict.
Qed.

Lemma same_key_hashes : forall (l : list (pystr * (pystr * pystr))) k,
  NoDup l -> (forall e, In e l -> snd e = k) -> NoDup (map fst l).
Proof.
  intros l k H Hk. induction H as [|e l He _ IH]; [constructor|].
  cbn [map]. constructor.
  - intros Hin. apply in_map_iff in Hin. destruct Hin as (e' & E & He').
    apply He. replace e with e'; [exact He'|].
    destruct e as [h1 k1], e' as [h2 k2]. cbn [fst] in E. subst h2.
    assert (E1 := Hk (h1, k1) (or_introl eq_refl)).
    assert (E2 := Hk (h1, k2) (or_intror He')). cbn [snd] in E1, E2. congruence.
  - apply IH. intros e' He'. apply Hk. now right.
Qed.

(** The whole of [build_admin_graph], row by row. *)
Lemma graph_spec : forall df max,
  exists g,
    build_admin_graph df max = Ok g
    /\ NoDup (map (fun r => (empresa_a r, empresa_b r)) g)
    /\ (forall a b, In (a, b) (map (fun r => (empresa_a r, empresa_b r)) g)
                    <-> exists h, In (h, (a, b)) (pair_events (multi max df)))
    /\ (forall r, In r g ->
          exists hs,
            admin_hashes r = Py.join (py "|") (sorted hs)
            /\ NoDup hs
            /\ n_admins_compartidos r = length hs
            /\ forall h, In h hs
                         <-> In (h, (empresa_a r, empresa_b r))
                                (pair_events (multi max df))).
Proof.
  intros df max. unfold build_admin_graph, pair_loop. cbv zeta.
  rewrite loop_events, loop_counts, loop_hashes. cbn [pair_counts pair_hashes].
  set (evs := pair_events (multi max df)).
  pose proof (@fold_upsert nat (fun _ => 1) (fun _ n => n + 1) evs) as Hc.
  pose proof (@fold_upsert (list pystr) (fun e => [fst e]) (fun e => set_add (fst e)) evs)
    as Hh.
  cbv beta zeta in Hc, Hh.
  set (counts := fold_left _ evs []) in Hc |- *.
  set (hashes := fold_left _ evs []) in Hh |- *.
  destruct Hc as (Hcnd & Hckeys & Hcvals). destruct Hh as (Hhnd & Hhkeys & Hhvals).
  destruct (@graph_rows_spec hashes counts Hhnd) as (g & Hg & Hkeys & Hrows).
  { intros k Hk. apply Hhkeys. now apply Hckeys. }
  exists g. split; [exact Hg|]. split; [rewrite Hkeys; exact Hcnd|]. split.
  - intros a b. rewrite Hkeys, Hckeys. split.
    + intros ([h k] & He & E). cbn [snd] in E. subst k. eauto.
    + intros (h & He). exists (h, (a, b)). auto.
  - intros r Hr. destruct (Hrows r Hr) as (n & hs & Hn & Hhs & En & Eh).
    set (k := (empresa_a r, empresa_b r)) in *.
    apply Hcvals in Hn. destruct Hn as (e & es & Ef & ->).
    apply Hhvals in Hhs. destruct Hhs as (e' & es' & Ef' & ->).
    rewrite Ef in Ef'. injection Ef' as <- <-.
    destruct (set_add_fold es (fst e)) as (Hnd & Hin). cbv zeta in Hnd, Hin.
    set (hs := fold_left _ es [fst e]) in *.
    assert (Hmem : forall h, In h hs <-> In (h, k) evs).
    { intros h. rewrite Hin.
      split.
      - intros H.
        assert (H' : In h (map fst (e :: es))) by (cbn [map In]; destruct H; auto).
        rewrite <- Ef in H'. apply in_map_iff in H'. destruct H' as ([h' k'] & E & He').
        apply filter_In in He'. destruct He' as [He' Ek]. cbn [fst snd] in E, Ek.
        apply key_eqb_eq in Ek. subst. exact He'.
      - intros H.
        assert (H' : In h (map fst (e :: es))).
        { rewrite <- Ef. apply in_map_iff. exists (h, k). split; [reflexivity|].
          apply filter_In. split; [exact H|]. apply key_eqb_refl. }
        cbn [map In] in H'. destruct H'; auto. }
    exists hs. split; [exact Eh|]. split; [exact Hnd|]. split; [|exact Hmem].
    rewrite En, fold_succ.
    assert (Hnd' : NoDup (map fst (e :: es))).
    { rewrite <- Ef. apply same_key_hashes with (k := k).
      - apply NoDup_filter. apply multi_events_NoDup.
      - intros e0 He0. apply filter_In in He0. now apply key_eqb_eq. }
    assert (Hperm : Permutation hs (map fst (e :: es))).
    { apply NoDup_Permutation; [exact Hnd|exact Hnd'|].
      intros h. rewrite Hin. cbn [map In]. split; intros [H|H]; auto. }
    apply Permutation_length in Hperm. rewrite Hperm. cbn [map length].
    rewrite length_map. lia.
Qed.

End GraphFacts.

(** In the graph of shared administrators no company is paired with
    itself and no pair comes twice or in both orders: the name of
    [empresa_a] comes before that of [empresa_b] in the order of strings,
    and the pairs of the rows are all different.  The rows are always
    built. *)
Theorem graph_pairs_are_ordered_and_unique :
  forall (df_car_anon : list Anonymize.anon_row) (max_empresas_per_admin : nat),
  exists g,
    Anonymize.build_admin_graph df_car_anon max_empresas_per_admin = Ok g
    /\ Forall (fun r => Anonymize.str_ltb (Anonymize.empresa_a r) (Anonymize.empresa_b r)
                        = true) g
    /\ NoDup (map (fun r => (Anonymize.empresa_a r, Anonymize.empresa_b r)) g).
Proof.
  intros df max. destruct (GraphFacts.graph_spec df max) as (g & Hg & Hnd & Hkeys & _).
  exists g. split; [exact Hg|]. split; [|exact Hnd].
  apply Forall_forall. intros r Hr.
  assert (Hin : In (Anonymize.empresa_a r, Anonymize.empresa_b r)
                   (map (fun r => (Anonymize.empresa_a r, Anonymize.empresa_b r)) g)).
  { apply in_map_iff. now exists r. }
  apply Hkeys in Hin. destruct Hin as (h & Hh).
  apply GraphFacts.events_shares in Hh. tauto.
Qed.

(** A row of the graph counts the administrators that its two companies
    share.  Its [admin_hashes] is the list of their hashes in ascending
    order, without repetition, joined by bars; its [n_admins_compartidos]
    is their number, which is at least one.  An administrator is shared
    when the person is appointed or re-elected in both companies and in at
    least two and at most [max_empresas_per_admin] companies in all.
    Every pair of companies that share an administrator has its row. *)
Theorem graph_counts_shared_administrators :
  forall (df_car_anon : list Anonymize.anon_row) (max_empresas_per_admin : nat)
         (g : list Anonymize.graph_row),
    Anonymize.build_admin_graph df_car_anon max_empresas_per_admin = Ok g ->
    (forall r, In r g ->
       exists hs,
         Anonymize.admin_hashes r = Py.join (py "|") hs
         /\ StronglySorted (fun s t => Anonymize.str_ltb s t = true) hs
         /\ Anonymize.n_admins_compartidos r = length hs
         /\ 1 <= length hs
         /\ forall h, In h hs
                      <-> Anonymize.shares df_car_anon max_empresas_per_admin
                            (Anonymize.empresa_a r) (Anonymize.empresa_b r) h)
    /\ (forall a b h,
          Anonymize.shares df_car_anon max_empresas_per_admin a b h ->
          Anonymize.str_ltb a b = true ->
          exists r, In r g /\ Anonymize.empresa_a r = a /\ Anonymize.empresa_b r = b).
Proof.
  intros df max g Hg.
  destruct (GraphFacts.graph_spec df max) as (g' & Hg' & Hnd & Hkeys & Hrows).
  assert (g' = g) by congruence. subst g'. split.
  - intros r Hr. destruct (Hrows r Hr) as (hs & Eh & Hhs & En & Hmem).
    assert (Hkey : exists h, In (h, (Anonymize.empresa_a r, Anonymize.empresa_b r))
                               (Anonymize.pair_events (Anonymize.multi max df))).
    { apply Hkeys. apply in_map_iff. now exists r. }
    destruct Hkey as (h0 & Hh0).
    assert (Hab : Anonymize.str_ltb (Anonymize.empresa_a r) (Anonymize.empresa_b r) = true).
    { apply GraphFacts.events_shares in Hh0. tauto. }
    exists (Anonymize.sorted hs). split; [exact Eh|].
    split; [now apply GraphFacts.sorted_strict|].
    rewrite GraphFacts.sorted_length. split; [exact En|]. split.
    + apply Hmem in Hh0. destruct hs; [contradiction|cbn [length]; lia].
    + intros h. rewrite GraphFacts.sorted_In, Hmem, GraphFacts.events_shares. tauto.
  - intros a b h Hs Hab.
    assert (Hin : In (a, b) (map (fun r => (Anonymize.empresa_a r, Anonymize.empresa_b r)) g)).
    { apply Hkeys. exists h. apply GraphFacts.events_shares. auto. }
    apply in_map_iff in Hin. destruct Hin as (r & E & Hr). injection E as <- <-.
    exists r. auto.
Qed.

Lemma graph_counts_shared_administrators_witness :
  let g := [ {| Anonymize.empresa_a := py "ALFA"; Anonymize.empresa_b := py "BETA";
                Anonymize.n_admins_compartidos := 2;
                Anonymize.admin_hashes := py "aa11|bb22" |} ] in
  (forall r, In r g ->
     exists hs,
       Anonymize.admin_hashes r = Py.join (py "|") hs
       /\ StronglySorted (fun s t => Anonymize.str_ltb s t = true) hs
       /\ Anonymize.n_admins_compartidos r = length hs
       /\ 1 <= length hs
       /\ forall h, In h hs
                    <-> Anonymize.shares Anonymize.example_cargos 20
                          (Anonymize.empresa_a r) (Anonymize.empresa_b r) h)
  /\ (forall a b h,
        Anonymize.shares Anonymize.example_cargos 20 a b h ->
        Anonymize.str_ltb a b = true ->
        exists r, In r g /\ Anonymize.empresa_a r = a /\ Anonymize.empresa_b r = b).
Proof.
  intros g.
  apply (@graph_counts_shared_administrators Anonymize.example_cargos 20 g).
  vm_compute. reflexivity.
Defined.

(** ** The names of the company rows *)

Module NameFacts.
Import Re ReSem Borme.

Lemma no_adjacent_prefix : forall p x y, no_adjacent p (x ++ y) -> no_adjacent p x.
Proof.
  intros p x y H. apply SubFacts.no_adjacent_spec. intros u a b v E.
  apply (proj1 (SubFacts.no_adjacent_spec p (x ++ y)) H u a b (v ++ y)).
  rewrite E, <- app_assoc. reflexivity.
Qed.

Lemma no_adjacent_suffix : forall p x y, no_adjacent p (x ++ y) -> no_adjacent p y.
Proof.
  intros p x y H. induction x as [|a x IH]; [exact H|].
  apply IH. now apply SubFacts.no_adjacent_tail in H.
Qed.

Lemma lstrip_chars_suffix : forall cs s, exists pre, s = pre ++ Py.lstrip_chars cs s.
Proof.
  intros cs. induction s as [|c s (pre & IH)]; [now exists []|].
  cbn [Py.lstrip_chars]. destruct (Py.cmem c cs); [|now exists []].
  exists (c :: pre). cbn [app]. now f_equal.
Qed.

Lemma rstrip_chars_prefix : forall cs s, exists post, s = Py.rstrip_chars cs s ++ post.
Proof.
  intros cs s. unfold Py.rstrip_chars. destruct (lstrip_chars_suffix cs (rev s)) as (pre & H).
  exists (rev pre). apply (f_equal (@rev _)) in H.
  rewrite rev_involutive, rev_app_distr in H. exact H.
Qed.

Lemma lstrip_chars_head : forall cs s c t,
  Py.lstrip_chars cs s = c :: t -> Py.cmem c cs = false.
Proof.
  intros cs. induction s as [|x s IH]; intros c t H; [discriminate|].
  cbn [Py.lstrip_chars] in H. destruct (Py.cmem x cs) eqn:E; [now apply (IH c t)|].
  injection H as <- _. exact E.
Qed.

Lemma rstrip_chars_last : forall s pre,
  Py.rstrip_chars (py ".") s <> pre ++ [chr "."].
Proof.
  intros s pre H. unfold Py.rstrip_chars in H.
  apply (f_equal (@rev _)) in H. rewrite rev_involutive, rev_app_distr in H.
  cbn [rev app] in H. apply lstrip_chars_head in H. vm_compute in H. discriminate.
Qed.

(** The name cut from a flat block. *)
Lemma entry_empresa_flat : forall block,
  ~ In 10%N block -> no_adjacent Unicode.isspace block ->
  ~ In 10%N (entry_empresa block)
  /\ no_adjacent Unicode.isspace (entry_empresa block)
  /\ Py.lstrip (entry_empresa block) = entry_empresa block
  /\ Py.endswith (entry_empresa block) (py ".") = false.
Proof.
  intros block Hnl Hflat. unfold entry_empresa.
  set (t := Py.strip (Py.upto (body_pos block) block)).
  destruct (rstrip_chars_prefix (py ".") t) as (post & Ht).
  assert (Ht_in : forall x, In x t -> In x block).
  { intros x Hx. apply RowFacts.strip_incl in Hx. unfold Py.upto in Hx.
    rewrite <- (firstn_skipn (body_pos block) block). apply in_or_app. now left. }
  assert (Ht_flat : no_adjacent Unicode.isspace t).
  { apply SubFacts.no_adjacent_strip. unfold Py.upto.
    apply no_adjacent_prefix with (y := skipn (body_pos block) block).
    now rewrite firstn_skipn. }
  split; [|split; [|split]].
  - intros H. apply Hnl, Ht_in. rewrite Ht. apply in_or_app. now left.
  - rewrite Ht in Ht_flat. now apply no_adjacent_prefix in Ht_flat.
  - assert (Hl : Py.lstrip t = t) by apply StripFacts.lstrip_strip.
    destruct (Py.rstrip_chars (py ".") t) as [|c e] eqn:E; [reflexivity|].
    rewrite Ht in Hl. cbn [app Py.lstrip] in Hl.
    cbn [Py.lstrip]. destruct (Unicode.isspace c) eqn:Ec; [|reflexivity].
    exfalso.
    assert (Hlen : length (Py.lstrip (e ++ post)) <= length (e ++ post))
      by apply NormFacts.lstrip_length.
    rewrite Hl in Hlen. cbn [length] in Hlen. lia.
  - destruct (Py.endswith (Py.rstrip_chars (py ".") t) (py ".")) eqn:E; [|reflexivity].
    apply NormFacts.endswith_iff in E. destruct E as (pre & E).
    exfalso. apply (rstrip_chars_last t pre). exact E.
Qed.

Lemma parse_text_names : forall hdr raw rows cargos,
  parse_text hdr raw = Ok (rows, cargos) ->
  forall r, In r rows ->
    exists start end_, empresa r = entry_empresa (entry_block (_clean raw) start end_).
Proof.
  intros hdr raw rows cargos H r Hr. unfold parse_text in H. cbv zeta in H.
  destruct (finditer ENTRY_START_RE (_clean raw)) as [|m ms] eqn:E.
  - injection H as <- <-. contradiction.
  - destruct (@TotalFacts.entries_loop_Ok hdr (_clean raw) (m :: ms) 0
                (h_provincia_filename hdr)) as (rows' & cargos' & Hl & _ & Hemp & _).
    { rewrite <- E. apply TotalFacts.finditer_Forall. }
    assert (rows' = rows) by congruence. subst rows'.
    assert (Hin : In (empresa r) (map empresa rows)) by now apply in_map.
    rewrite Hemp in Hin. apply in_map_iff in Hin. destruct Hin as ([s e] & Hs & _).
    cbn [fst snd] in Hs. eauto.
Qed.

End NameFacts.

(** The name of every company row stands on one line and is single
    spaced: it holds no line break and no two white-space characters side
    by side.  It does not start with white space and does not end with a
    period. *)
Theorem company_names_are_single_line :
  forall (open_pdf : Borme.pdf_reader) (pdf_path : pystr) rows cargos,
    snd (Borme.parse_single_pdf open_pdf pdf_path) = Ok (rows, cargos) ->
    Forall (fun r =>
              ~ In 10%N (Borme.empresa r)
              /\ ReSem.no_adjacent Unicode.isspace (Borme.empresa r)
              /\ Py.lstrip (Borme.empresa r) = Borme.empresa r
              /\ Py.endswith (Borme.empresa r) (py ".") = false)
           rows.
Proof.
  intros open_pdf pdf_path rows cargos H. apply Forall_forall. intros r Hr.
  apply RowFacts.parse_single_pdf_inv in H.
  destruct H as [[-> _]|(bm & hdr & pages & _ & _ & _ & H)]; [contradiction|].
  destruct (@NameFacts.parse_text_names _ _ _ _ H r Hr) as (s & e & ->).
  apply NameFacts.entry_empresa_flat;
    [apply BlockFacts.block_one_line|apply BlockFacts.block_single_spaced].
Qed.

Lemma company_names_are_single_line_witness :
  Forall (fun r =>
            ~ In 10%N (Borme.empresa r)
            /\ ReSem.no_adjacent Unicode.isspace (Borme.empresa r)
            /\ Py.lstrip (Borme.empresa r) = Borme.empresa r
            /\ Py.endswith (Borme.empresa r) (py ".") = false)
         (fst Borme.example_rows).
Proof.
  apply (@company_names_are_single_line Borme.example_reader Borme.example_path
           (fst Borme.example_rows) (snd Borme.example_rows)).
  vm_compute. reflexivity.
Defined.
